(** * ARK-index: the index builder and its verifier, embedded in Rocq

    A shallow embedding of the TypeScript sources under [src/lib/index]:
    symbol identifiers and the baseline TypeScript extractor, the change
    analysis of the incremental indexer, configuration invalidation and the
    integrity verifier, the atomic writer, the builder's orchestration, test
    identifiers and tiers, and subdirectory selection.

    Conventions.
    - A JavaScript string is a [string]: a sequence of code units, here
      restricted to the Latin-1 range (one [ascii] per code unit).  Every string
      primitive below works code unit by code unit, as its JavaScript original.
    - Array indices and lengths are [nat]; numbers that the program receives
      from outside (line numbers of an adapter, byte sizes, scores) are [Z].
    - [undefined] and [null] are [None].
    - Effects are explicit: the file system is a record of oracles that the
      functions consult, writes are a trace of operations, exceptions are
      [None] results. *)

From Stdlib Require Import String Ascii List ZArith Lia Bool Arith.
From Stdlib Require Import DecimalString Permutation Sorted.
Import ListNotations.
Open Scope string_scope.
Open Scope nat_scope.

(* ------------------------------------------------------------------ *)
(** ** JavaScript string primitives *)

Module JS.

Definition code (c : ascii) : nat := nat_of_ascii c.

(** [s.startsWith(p)] *)
Fixpoint startsWith (s p : string) {struct p} : bool :=
  match p, s with
  | EmptyString, _ => true
  | String a p', String b s' => Ascii.eqb a b && startsWith s' p'
  | String _ _, EmptyString => false
  end.

(** [s.includes(t)] *)
Fixpoint includes (s t : string) : bool :=
  startsWith s t ||
  match s with
  | EmptyString => false
  | String _ s' => includes s' t
  end.

(** [s.indexOf(t)], with [-1] for "not found". *)
Fixpoint indexOf_from (i : nat) (s t : string) : Z :=
  if startsWith s t then Z.of_nat i
  else match s with
       | EmptyString => (-1)%Z
       | String _ s' => indexOf_from (S i) s' t
       end.

Definition indexOf (s t : string) : Z := indexOf_from 0 s t.

Fixpoint rev_onto (s acc : string) : string :=
  match s with
  | EmptyString => acc
  | String c s' => rev_onto s' (String c acc)
  end.

Definition rev (s : string) : string := rev_onto s EmptyString.

(** [s.endsWith(t)] *)
Definition endsWith (s t : string) : bool := startsWith (rev s) (rev t).

(** [s.slice(0, n)] and [s.slice(n)] for [0 <= n]. *)
Fixpoint take (n : nat) (s : string) : string :=
  match n, s with
  | S n', String c s' => String c (take n' s')
  | _, _ => EmptyString
  end.

Fixpoint drop (n : nat) (s : string) : string :=
  match n, s with
  | S n', String _ s' => drop n' s'
  | _, _ => s
  end.

(** [s.substring(a, b)] for [0 <= a] and [0 <= b]: the two bounds are
    swapped when [a > b]. *)
Definition substring (a b : nat) (s : string) : string :=
  take (Nat.max a b - Nat.min a b) (drop (Nat.min a b) s).

(** [s.split(sep)] for a one-unit separator: never the empty list. *)
Fixpoint split (sep : ascii) (s : string) : list string :=
  match s with
  | EmptyString => [EmptyString]
  | String c s' =>
      if Ascii.eqb c sep then EmptyString :: split sep s'
      else match split sep s' with
           | [] => [String c EmptyString]
           | h :: t => String c h :: t
           end
  end.

(** [parts.join(sep)] *)
Fixpoint join (sep : string) (parts : list string) : string :=
  match parts with
  | [] => EmptyString
  | [p] => p
  | p :: rest => p ++ sep ++ join sep rest
  end.

(** White space and line terminators of ECMAScript that lie in Latin-1:
    TAB, LF, VT, FF, CR, SP and NBSP. *)
Definition isWhiteSpace (c : ascii) : bool :=
  let n := code c in
  (n =? 9) || (n =? 10) || (n =? 11) || (n =? 12) || (n =? 13)
  || (n =? 32) || (n =? 160).

(** Line terminators in Latin-1: LF and CR. *)
Definition isLineTerminator (c : ascii) : bool :=
  let n := code c in (n =? 10) || (n =? 13).

(** [\w] *)
Definition isWordChar (c : ascii) : bool :=
  let n := code c in
  ((48 <=? n) && (n <=? 57)) || ((65 <=? n) && (n <=? 90))
  || ((97 <=? n) && (n <=? 122)) || (n =? 95).

Fixpoint trimStart (s : string) : string :=
  match s with
  | String c s' => if isWhiteSpace c then trimStart s' else s
  | EmptyString => EmptyString
  end.

Definition trimEnd (s : string) : string := rev (trimStart (rev s)).

Definition trim (s : string) : string := trimEnd (trimStart s).

(** [toLowerCase] on Latin-1: A-Z and the accented capitals U+00C0-U+00DE
    (the multiplication sign U+00D7 excepted) move up by 32. *)
Definition lowerChar (c : ascii) : ascii :=
  let n := code c in
  if ((65 <=? n) && (n <=? 90))
     || ((192 <=? n) && (n <=? 222) && negb (n =? 215))
  then ascii_of_nat (n + 32) else c.

Fixpoint toLowerCase (s : string) : string :=
  match s with
  | EmptyString => EmptyString
  | String c s' => String (lowerChar c) (toLowerCase s')
  end.

(** Number of occurrences of a code unit: [(s.match(/c/g) || []).length]. *)
Fixpoint countChar (c : ascii) (s : string) : nat :=
  match s with
  | EmptyString => 0
  | String d s' => (if Ascii.eqb c d then 1 else 0) + countChar c s'
  end.

(** A string is truthy when it is not empty. *)
Definition truthy (s : string) : bool :=
  match s with EmptyString => false | _ => true end.

(** An optional string ([string | null | undefined]) is truthy when it is
    present and not empty. *)
Definition truthyOpt (o : option string) : bool :=
  match o with Some s => truthy s | None => false end.

(** Decimal rendering of an integer, as a template literal prints it: all
    its digits, which is what JavaScript prints for an integer of absolute
    value below [10^21]. *)
Definition ofZ (z : Z) : string := NilEmpty.string_of_int (Z.to_int z).
Definition ofNat (n : nat) : string := ofZ (Z.of_nat n).

(** [xs.includes(x)] on an array of strings. *)
Definition arrayIncludes (xs : list string) (x : string) : bool :=
  existsb (String.eqb x) xs.

(** The property names every plain object inherits from
    [Object.prototype]: a lookup [obj[key]] on a plain object finds a
    (truthy) inherited value for them even when [obj] has no such key. *)
Definition objectPrototypeKeys : list string :=
  [ "constructor"; "__defineGetter__"; "__defineSetter__"; "hasOwnProperty";
    "__lookupGetter__"; "__lookupSetter__"; "isPrototypeOf";
    "propertyIsEnumerable"; "toString"; "valueOf"; "__proto__";
    "toLocaleString" ].

End JS.

(* ------------------------------------------------------------------ *)
(** ** Regular expressions

    A backtracking matcher for the fragment of ECMAScript regular
    expressions the sources use: character classes, sequence, alternation,
    greedy and lazy repetition, capturing groups, backreferences and the
    anchors, with the [m] flag as a parameter. *)

Module Regex.

Inductive re : Type :=
| Eps
| Chr (p : ascii -> bool)
| Bol
| Eol
| Seq (a b : re)
| Alt (a b : re)
| Star (greedy : bool) (a : re)
| Grp (n : nat) (a : re)
| Ref (n : nat).

(** A position in the subject: the code unit before it, what is left, and
    its index. *)
Record pos : Type := mkPos { prev : option ascii; rest : string; idx : nat }.

(** Captures, most recent first. *)
Definition caps : Type := list (nat * string).

Fixpoint capture (n : nat) (c : caps) : option string :=
  match c with
  | [] => None
  | (m, s) :: c' => if Nat.eqb n m then Some s else capture n c'
  end.

Fixpoint lastChar (d : option ascii) (s : string) : option ascii :=
  match s with
  | EmptyString => d
  | String c s' => lastChar (Some c) s'
  end.

(** Advance over a literal (used by backreferences). *)
Definition advance (p : pos) (s : string) : option pos :=
  if JS.startsWith (rest p) s
  then Some (mkPos (lastChar (prev p) s)
                   (JS.drop (String.length s) (rest p))
                   (idx p + String.length s))
  else None.

Section Matcher.
Variable multiline : bool.
Variable R : Type.

Definition atBol (p : pos) : bool :=
  match prev p with
  | None => true
  | Some c => multiline && JS.isLineTerminator c
  end.

Definition atEol (p : pos) : bool :=
  match rest p with
  | EmptyString => true
  | String c _ => multiline && JS.isLineTerminator c
  end.

(** [m r k p c]: match [r] at [p] with captures [c], then continue with
    [k]; alternatives are tried in the order of the specification. An
    iteration of a repetition that consumes nothing is rejected. (The
    captures of a group inside a repetition are not reset between
    iterations; no expression of the sources has such a group.) *)
Fixpoint m (r : re) (k : pos -> caps -> option R) (p : pos) (c : caps)
  {struct r} : option R :=
  match r with
  | Eps => k p c
  | Chr f =>
      match rest p with
      | String a s' =>
          if f a then k (mkPos (Some a) s' (S (idx p))) c else None
      | EmptyString => None
      end
  | Bol => if atBol p then k p c else None
  | Eol => if atEol p then k p c else None
  | Seq a b => m a (fun p' c' => m b k p' c') p c
  | Alt a b =>
      match m a k p c with
      | Some x => Some x
      | None => m b k p c
      end
  | Star greedy a =>
      (fix loop (fuel : nat) (p : pos) (c : caps) {struct fuel}
         : option R :=
         match fuel with
         | O => k p c
         | S fuel' =>
             let more (_ : unit) :=
               m a (fun p' c' =>
                      if String.length (rest p') <? String.length (rest p)
                      then loop fuel' p' c' else None) p c in
             if greedy
             then match more tt with Some x => Some x | None => k p c end
             else match k p c with Some x => Some x | None => more tt end
         end) (S (String.length (rest p))) p c
  | Grp n a =>
      m a (fun p' c' =>
             k p' ((n, JS.take (idx p' - idx p) (rest p)) :: c')) p c
  | Ref n =>
      match capture n c with
      | None => k p c
      | Some s =>
          match advance p s with
          | Some p' => k p' c
          | None => None
          end
      end
  end.
End Matcher.

(** The result of [s.match(re)] for a regular expression without the [g]
    flag: index, matched text and captures of the leftmost match. *)
Record result : Type :=
  mkResult { index : nat; matched : string; groups : caps }.

Definition group (n : nat) (r : result) : option string :=
  capture n (groups r).

Fixpoint execFrom (multiline : bool) (r : re) (pv : option ascii)
  (i : nat) (s : string) : option result :=
  match m multiline (pos * caps) r (fun p c => Some (p, c))
          (mkPos pv s i) [] with
  | Some (p', c) => Some (mkResult i (JS.take (idx p' - i) s) c)
  | None =>
      match s with
      | EmptyString => None
      | String a s' => execFrom multiline r (Some a) (S i) s'
      end
  end.

Definition exec (multiline : bool) (r : re) (s : string) : option result :=
  execFrom multiline r None 0 s.

(** [s.replace(re, '')] for a regular expression without the [g] flag. *)
Definition removeFirst (multiline : bool) (r : re) (s : string) : string :=
  match exec multiline r s with
  | None => s
  | Some x =>
      JS.take (index x) s
      ++ JS.drop (index x + String.length (matched x)) s
  end.

(** *** Building blocks *)

Definition chr (a : ascii) : re := Chr (Ascii.eqb a).

Fixpoint lit (s : string) : re :=
  match s with
  | EmptyString => Eps
  | String a EmptyString => chr a
  | String a s' => Seq (chr a) (lit s')
  end.

Fixpoint seq (rs : list re) : re :=
  match rs with
  | [] => Eps
  | [r] => r
  | r :: rs' => Seq r (seq rs')
  end.

Fixpoint alt (rs : list re) : re :=
  match rs with
  | [] => Chr (fun _ => false)
  | [r] => r
  | r :: rs' => Alt r (alt rs')
  end.

Definition star (r : re) : re := Star true r.
Definition plus (r : re) : re := Seq r (Star true r).
Definition plusLazy (r : re) : re := Seq r (Star false r).
Definition opt (r : re) : re := Alt r Eps.

(** [\s], [\w] and [.] *)
Definition space : re := Chr JS.isWhiteSpace.
Definition word : re := Chr JS.isWordChar.
Definition dot : re := Chr (fun c => negb (JS.isLineTerminator c)).

End Regex.

(* ------------------------------------------------------------------ *)
(** ** [node:path], POSIX flavour

    The functions of Node's [path.posix] that the sources call, written as
    functions on the list of code units instead of index loops. *)

Module Path.

Definition slash : ascii := "/"%char.

Definition isSlash (c : ascii) : bool := Ascii.eqb c slash.

Fixpoint dropSlashes (s : string) : string :=
  match s with
  | String c s' => if isSlash c then dropSlashes s' else s
  | EmptyString => EmptyString
  end.

Fixpoint takeSegment (s : string) : string :=
  match s with
  | String c s' => if isSlash c then EmptyString else String c (takeSegment s')
  | EmptyString => EmptyString
  end.

Fixpoint dropSegment (s : string) : string :=
  match s with
  | String c s' => if isSlash c then s else dropSegment s'
  | EmptyString => EmptyString
  end.

(** [path.basename(p)]: the last segment, trailing slashes ignored. *)
Definition basename (p : string) : string :=
  JS.rev (takeSegment (dropSlashes (JS.rev p))).

(** [path.dirname(p)]: everything before the slash that precedes the last
    segment; the scan never looks at the first code unit. *)
Definition dirname (p : string) : string :=
  match p with
  | EmptyString => "."
  | String c0 tail =>
      let hasRoot := isSlash c0 in
      let before := dropSegment (dropSlashes (JS.rev tail)) in
      match before with
      | EmptyString => if hasRoot then "/" else "."
      | String _ _ =>
          let e := String.length before in
          if hasRoot && (e =? 1) then "//" else JS.take e p
      end
  end.

Definition dotChar : ascii := "."%char.

Fixpoint hasDot (s : string) : bool :=
  match s with
  | String c s' => Ascii.eqb c dotChar || hasDot s'
  | EmptyString => false
  end.

Fixpoint untilDot (s : string) : string :=
  match s with
  | String c s' =>
      if Ascii.eqb c dotChar then EmptyString else String c (untilDot s')
  | EmptyString => EmptyString
  end.

(** [path.extname(p)]: from the last dot of the last segment to its end;
    empty when that segment has no dot, when its last dot is its first code
    unit, and when it is [".."]. *)
Definition extname (p : string) : string :=
  let part := basename p in
  if negb (hasDot part) then EmptyString
  else
    let after := JS.rev (untilDot (JS.rev part)) in
    let startDot := String.length part - String.length after - 1 in
    if (startDot =? 0) || String.eqb part ".." then EmptyString
    else String dotChar after.

(** [normalizeString]: the segments that survive, innermost first. *)
Definition normStep (allowAboveRoot : bool) (stack : list string)
  (seg : string) : list string :=
  if String.eqb seg "" || String.eqb seg "." then stack
  else if String.eqb seg ".." then
    match stack with
    | top :: below =>
        if String.eqb top ".."
        then (if allowAboveRoot then seg :: stack else stack)
        else below
    | [] => if allowAboveRoot then [seg] else []
    end
  else seg :: stack.

Definition normalizeString (p : string) (allowAboveRoot : bool) : string :=
  JS.join "/"
    (List.rev (fold_left (normStep allowAboveRoot) (JS.split slash p) [])).

(** [path.normalize(p)] *)
Definition normalize (p : string) : string :=
  match p with
  | EmptyString => "."
  | String c0 _ =>
      let isAbsolute := isSlash c0 in
      let trailingSeparator := JS.endsWith p "/" in
      let q := normalizeString p (negb isAbsolute) in
      match q with
      | EmptyString =>
          if isAbsolute then "/" else if trailingSeparator then "./" else "."
      | String _ _ =>
          let q' := if trailingSeparator then q ++ "/" else q in
          if isAbsolute then "/" ++ q' else q'
      end
  end.

(** [path.join(a, b)] *)
Definition join (a b : string) : string :=
  match a, b with
  | EmptyString, EmptyString => "."
  | EmptyString, _ => normalize b
  | _, EmptyString => normalize a
  | _, _ => normalize (a ++ "/" ++ b)
  end.

End Path.

(* ------------------------------------------------------------------ *)
(** ** Data model ([types.ts]) *)

Inductive SymbolKind : Type :=
| KFunction | KClass | KMethod | KInterface | KType | KEnum | KConstant
| KModule | KVariable.

Inductive SymbolVisibility : Type :=
| VExport | VPublic | VPrivate | VInternal.

Record Position : Type := mkPosition { line : Z; col : Z }.

Record Span : Type := mkSpan { start : Position; end_ : Position }.

(** [AdapterSymbol]: what an extractor (adapter or baseline) returns. *)
Record AdapterSymbol : Type := mkAdapterSymbol {
  a_name : string;
  a_kind : SymbolKind;
  a_span : Span;
  a_signature : option string;
  a_docstring : option string;
  a_visibility : option SymbolVisibility
}.

(** [Symbol]: one record of [symbols.jsonl]. *)
Record Symbol : Type := mkSymbol {
  symbol_id : string;
  name : string;
  kind : SymbolKind;
  file : string;
  span : option Span;
  signature : option string;
  docstring_summary : option string;
  visibility : SymbolVisibility;
  top_callers : list string;
  top_callees : list string;
  tags : list string
}.

(** [Set<string>]: the members in insertion order. *)
Definition StringSet : Type := list string.

Definition set_has (s : StringSet) (x : string) : bool :=
  existsb (String.eqb x) s.

Definition set_add (s : StringSet) (x : string) : StringSet :=
  if set_has s x then s else (s ++ [x])%list.

(* ------------------------------------------------------------------ *)
(** ** Symbol identifiers ([symbols.ts]) *)

(** [generateSymbolId]: returns the identifier and the updated set. *)
Definition generateSymbolId (filePath name : string) (line : Z)
  (existingIds : StringSet) (container : option string)
  : string * StringSet :=
  let baseId :=
    match container with
    | Some c =>
        if JS.truthy c then filePath ++ "::" ++ c ++ "." ++ name
        else if JS.includes name "." then filePath ++ "::" ++ name
        else filePath ++ "::" ++ name
    | None =>
        if JS.includes name "." then filePath ++ "::" ++ name
        else filePath ++ "::" ++ name
    end in
  if negb (set_has existingIds baseId)
  then (baseId, set_add existingIds baseId)
  else
    let fallbackId := baseId ++ ":L" ++ JS.ofZ line in
    (fallbackId, set_add existingIds fallbackId).

(** [x || null] on an optional string. *)
Definition orNull (o : option string) : option string :=
  if JS.truthyOpt o then o else None.

(** [adapterSymbolToSymbol] *)
Definition adapterSymbolToSymbol (adapterSymbol : AdapterSymbol)
  (filePath : string) (existingIds : StringSet) : Symbol * StringSet :=
  let (symbolId, ids) :=
    generateSymbolId filePath (a_name adapterSymbol)
      (line (start (a_span adapterSymbol))) existingIds None in
  (mkSymbol symbolId (a_name adapterSymbol) (a_kind adapterSymbol) filePath
     (Some (a_span adapterSymbol))
     (orNull (a_signature adapterSymbol))
     (orNull (a_docstring adapterSymbol))
     (match a_visibility adapterSymbol with Some v => v | None => VExport end)
     [] [] [],
   ids).

(** [adapterSymbols.map((s) => adapterSymbolToSymbol(s, filePath,
    existingIds))]: the set is threaded through the calls. *)
Fixpoint toSymbols (adapterSymbols : list AdapterSymbol) (filePath : string)
  (existingIds : StringSet) : list Symbol * StringSet :=
  match adapterSymbols with
  | [] => ([], existingIds)
  | a :: rest =>
      let (sym, ids) := adapterSymbolToSymbol a filePath existingIds in
      let (syms, ids') := toSymbols rest filePath ids in
      (sym :: syms, ids')
  end.

(* ------------------------------------------------------------------ *)
(** ** The baseline TypeScript/JavaScript extractor
       ([extractors/typescript.ts]) *)

Module Typescript.
Import Regex.

(** [export\s+], the head of every pattern. *)
Definition exportHead : list re := [Bol; lit "export"; plus space].

(** The pattern table, in the order of the source; every expression carries
    the [m] flag. *)
Definition patterns : list (re * SymbolKind * nat) :=
  [ (* /^export\s+(async\s+)?function\s+(\w+)/m *)
    (seq (exportHead ++ [opt (Grp 1 (seq [lit "async"; plus space]));
                         lit "function"; plus space; Grp 2 (plus word)])%list,
     KFunction, 2);
    (* /^export\s+function\s+(\w+)/m *)
    (seq (exportHead ++ [lit "function"; plus space; Grp 1 (plus word)])%list,
     KFunction, 1);
    (* /^export\s+default\s+(async\s+)?function\s+(\w+)/m *)
    (seq (exportHead ++ [lit "default"; plus space;
                         opt (Grp 1 (seq [lit "async"; plus space]));
                         lit "function"; plus space; Grp 2 (plus word)])%list,
     KFunction, 2);
    (* /^export\s+default\s+function\s+(\w+)/m *)
    (seq (exportHead ++ [lit "default"; plus space; lit "function";
                         plus space; Grp 1 (plus word)])%list,
     KFunction, 1);
    (* /^export\s+(default\s+)?class\s+(\w+)/m *)
    (seq (exportHead ++ [opt (Grp 1 (seq [lit "default"; plus space]));
                         lit "class"; plus space; Grp 2 (plus word)])%list,
     KClass, 2);
    (* /^export\s+(const|let|var)\s+(\w+)/m *)
    (seq (exportHead ++ [Grp 1 (alt [lit "const"; lit "let"; lit "var"]);
                         plus space; Grp 2 (plus word)])%list,
     KVariable, 2);
    (* /^export\s+(interface)\s+(\w+)/m *)
    (seq (exportHead ++ [Grp 1 (lit "interface"); plus space;
                         Grp 2 (plus word)])%list,
     KInterface, 2);
    (* /^export\s+(type)\s+(\w+)/m *)
    (seq (exportHead ++ [Grp 1 (lit "type"); plus space;
                         Grp 2 (plus word)])%list,
     KType, 2);
    (* /^export\s+(enum)\s+(\w+)/m *)
    (seq (exportHead ++ [Grp 1 (lit "enum"); plus space;
                         Grp 2 (plus word)])%list,
     KEnum, 2) ].

(** Net number of opening braces on a line. *)
Definition braceDelta (l : string) : Z :=
  (Z.of_nat (JS.countChar "{"%char l) - Z.of_nat (JS.countChar "}"%char l))%Z.

(** The first loop of [findSymbolEnd] (kinds [variable] and [type]): [ls]
    are the lines still to visit, [i] the index of the first of them. *)
Fixpoint endOfStatement (ls : list string) (i : nat) (braceCount : Z)
  (endLine : nat) : nat :=
  match ls with
  | [] => endLine
  | l :: ls' =>
      let bc := (braceCount + braceDelta l)%Z in
      if (bc =? 0)%Z && (JS.includes l ";" || JS.endsWith (JS.trim l) "}")
      then i
      else endOfStatement ls' (S i) bc i
  end.

(** The second loop of [findSymbolEnd] (blocks). *)
Fixpoint endOfBlock (ls : list string) (i : nat) (braceCount : Z)
  (foundOpening : bool) : option nat :=
  match ls with
  | [] => None
  | l :: ls' =>
      let bc := (braceCount + braceDelta l)%Z in
      let fo := foundOpening || (0 <? bc)%Z in
      if fo && (bc =? 0)%Z then Some i else endOfBlock ls' (S i) bc fo
  end.

Definition isStatementKind (k : SymbolKind) : bool :=
  match k with KVariable | KType => true | _ => false end.

(** [findSymbolEnd] *)
Definition findSymbolEnd (lines : list string) (startLine : nat)
  (kind : SymbolKind) : nat :=
  if isStatementKind kind
  then endOfStatement (firstn 50 (skipn startLine lines)) startLine 0%Z
         startLine
  else match endOfBlock (firstn 500 (skipn startLine lines)) startLine 0%Z
               false with
       | Some i => i
       | None => startLine
       end.

(** [s.length > 200 ? s.substring(0, 197) + '...' : s] *)
Definition truncate200 (s : string) : string :=
  if 200 <? String.length s then JS.substring 0 197 s ++ "..." else s.

(** [sig.substring(0, sig.indexOf('{')).trim()] when the index is positive. *)
Definition cutAtBrace (sig : string) : string :=
  let braceIndex := JS.indexOf sig "{" in
  if (0 <? braceIndex)%Z
  then JS.trim (JS.substring 0 (Z.to_nat braceIndex) sig)
  else sig.

(** [extractSignature] *)
Definition extractSignature (l : string) (kind : SymbolKind) : string :=
  let sig := JS.trim l in
  (* /^export\s+(default\s+)?/ *)
  let sig :=
    removeFirst false
      (seq [Bol; lit "export"; plus space;
            opt (Grp 1 (seq [lit "default"; plus space]))]) sig in
  let sig := match kind with KFunction => cutAtBrace sig | _ => sig end in
  let sig :=
    match kind with KClass | KInterface => cutAtBrace sig | _ => sig end in
  truncate200 sig.

(** The loop over the collected lines of a block comment, oldest first. *)
Fixpoint firstMeaningful (docLines : list string) : option string :=
  match docLines with
  | [] => None
  | docLine :: more =>
      (* docLine.replace(/^\*\s*/, '').trim() *)
      let cleaned :=
        JS.trim (removeFirst false (seq [Bol; chr "*"%char; star space])
                   docLine) in
      if JS.truthy cleaned && negb (JS.startsWith cleaned "@")
      then Some (truncate200 cleaned)
      else firstMeaningful more
  end.

(** The backwards loop of [extractDocstring]: [above] are the lines above
    the symbol, nearest first. *)
Fixpoint docstringScan (above : list string) (inBlock : bool)
  (docLines : list string) : option string :=
  match above with
  | [] => None
  | raw :: more =>
      let l := JS.trim raw in
      if JS.endsWith l "*/" then
        let contentStart := JS.indexOf l "/**" in
        let content :=
          JS.trim (JS.substring (Z.to_nat contentStart + 3)
                     (String.length l - 2) l) in
        if (0 <=? contentStart)%Z && JS.truthy content
        then Some (truncate200 content)
        else docstringScan more true docLines
      else if JS.startsWith l "/**" then
        if inBlock then firstMeaningful (List.rev docLines) else None
      else
        let docLines' := if inBlock then (docLines ++ [l])%list else docLines in
        if JS.startsWith l "//" then
          if negb inBlock && (List.length docLines' =? 0)
          then Some (truncate200 (JS.trim (JS.drop 2 l)))
          else None
        else if (0 <? String.length l) && negb inBlock then None
        else docstringScan more inBlock docLines'
  end.

(** [extractDocstring]: at most the thirty lines above the symbol. *)
Definition extractDocstring (lines : list string) (symbolLine : nat)
  : option string :=
  docstringScan (firstn 30 (List.rev (firstn symbolLine lines))) false [].

(** The inner loop over the patterns, with its [break] at the first
    pattern that matches with a non-empty name. *)
Fixpoint firstMatch (ps : list (re * SymbolKind * nat)) (l : string)
  : option (string * SymbolKind) :=
  match ps with
  | [] => None
  | (regex, kind, nameGroup) :: ps' =>
      match exec true regex l with
      | Some mt =>
          match group nameGroup mt with
          | Some nm => if JS.truthy nm then Some (nm, kind)
                       else firstMatch ps' l
          | None => firstMatch ps' l
          end
      | None => firstMatch ps' l
      end
  end.

(** The body of the outer loop for the line at [lineIndex]. *)
Definition symbolAt (lines : list string) (lineIndex : nat) (l : string)
  : option AdapterSymbol :=
  match firstMatch patterns l with
  | None => None
  | Some (nm, kind) =>
      let col := JS.indexOf l nm in
      let endLine := findSymbolEnd lines lineIndex kind in
      Some (mkAdapterSymbol nm kind
              (mkSpan (mkPosition (Z.of_nat lineIndex + 1) col)
                      (mkPosition (Z.of_nat endLine + 1) 0%Z))
              (Some (extractSignature l kind))
              (extractDocstring lines lineIndex)
              (Some VExport))
  end.

Fixpoint scanLines (lines : list string) (todo : list string)
  (lineIndex : nat) : list AdapterSymbol :=
  match todo with
  | [] => []
  | l :: todo' =>
      match symbolAt lines lineIndex l with
      | Some sym => sym :: scanLines lines todo' (S lineIndex)
      | None => scanLines lines todo' (S lineIndex)
      end
  end.

(** [extractTypescriptSymbols] *)
Definition extractTypescriptSymbols (content filePath : string)
  : list AdapterSymbol :=
  let lines := JS.split "010"%char content in
  scanLines lines lines 0.

End Typescript.

Definition LF : string := String "010"%char EmptyString.

Definition unlines (ls : list string) : string := JS.join LF ls.


(* ------------------------------------------------------------------ *)
(** ** Files, ledger and metadata ([types.ts]) *)

(** [DiscoveredFile]; the [Date] is kept as its [toISOString()]. *)
Record DiscoveredFile : Type := mkFile {
  path : string;
  absolutePath : string;
  size : Z;
  mtime : string
}.

Record DiscoveryResult : Type := mkDiscovery {
  files : list DiscoveredFile;
  skipped : list (string * string);     (* path, reason *)
  errors : list (string * string)       (* path, error *)
}.

Record FileHashEntry : Type := mkEntry {
  hash : string;
  e_mtime : string;
  e_size : Z
}.

(** A plain object used as a record keyed by strings: its own enumerable
    properties, in the order of [Object.keys]. *)
Definition Obj (A : Type) : Type := list (string * A).

Fixpoint obj_own {A : Type} (o : Obj A) (k : string) : option A :=
  match o with
  | [] => None
  | (k', v) :: o' => if String.eqb k k' then Some v else obj_own o' k
  end.

Definition obj_keys {A : Type} (o : Obj A) : list string := map fst o.

(** The outcome of reading [o[k]]: an own property, a member inherited
    from [Object.prototype], or [undefined]. *)
Inductive Lookup (A : Type) : Type :=
| Own (v : A)
| Inherited
| Absent.
Arguments Own {A} v.
Arguments Inherited {A}.
Arguments Absent {A}.

Definition obj_get {A : Type} (o : Obj A) (k : string) : Lookup A :=
  match obj_own o k with
  | Some v => Own v
  | None => if JS.arrayIncludes JS.objectPrototypeKeys k then Inherited
            else Absent
  end.

(* ------------------------------------------------------------------ *)
(** ** JSON values

    What [JSON.parse] returns, and what JavaScript does with a value that
    has not the shape of the TypeScript type it is cast to. *)

(** The values of [JSON.parse]; the numbers are those of the host. An
    object holds its own properties, each key once: of two members with
    the same key [JSON.parse] keeps the second. *)
#[warnings="-register-all"]
Inductive Json (number : Type) : Type :=
| JNull
| JBool (b : bool)
| JNumber (n : number)
| JString (s : string)
| JArray (xs : list (Json number))
| JObject (o : list (string * Json number)).
Arguments JNull {number}.
Arguments JBool {number} b.
Arguments JNumber {number} n.
Arguments JString {number} s.
Arguments JArray {number} xs.
Arguments JObject {number} o.

(** A number of a JSON text as JavaScript holds it: an integer of absolute
    value below [10^21], which prints with all its digits ([-0] is the
    integer [0]: it equals [0] and prints as [0]), or any other number,
    given by the text that JavaScript prints for it. *)
Inductive JsNumber : Type :=
| JsInt (z : Z)
| JsOther (text : string).

#[warnings="-notation-for-abbreviation"]
Notation JsonValue := (Json JsNumber).

(** A call either throws outside any handler or returns. *)
Inductive Outcome (A : Type) : Type :=
| Throws
| Returned (a : A).
Arguments Throws {A}.
Arguments Returned {A} a.

(** Sequencing of calls that may throw. *)
Definition andThen {A B : Type} (x : Outcome A) (f : A -> Outcome B)
  : Outcome B :=
  match x with
  | Throws => Throws
  | Returned a => f a
  end.

(** The value that [JSON.parse(text) as A] gives: a value of the type [A],
    or any other JSON value. *)
Inductive Loose (A : Type) : Type :=
| Typed (a : A)
| Untyped (v : JsonValue).
Arguments Typed {A} a.
Arguments Untyped {A} v.

(** [v[k]] for a value [v] other than [null] and a key [k] that no
    prototype defines: an own property of an object, [undefined] ([None])
    otherwise. *)
Definition jsonProperty (v : JsonValue) (k : string) : option JsonValue :=
  match v with
  | JObject o => obj_own o k
  | _ => None
  end.

(** [receiver[k]], which throws when the receiver is [undefined] or
    [null]. *)
Definition propertyOf (receiver : option JsonValue) (k : string)
  : Outcome (option JsonValue) :=
  match receiver with
  | None | Some JNull => Throws
  | Some v => Returned (jsonProperty v k)
  end.

(** [!!v] *)
Definition jsonTruthy (v : JsonValue) : bool :=
  match v with
  | JNull => false
  | JBool b => b
  | JNumber (JsInt z) => negb (z =? 0)%Z
  | JNumber (JsOther _) => true
  | JString s => JS.truthy s
  | JArray _ | JObject _ => true
  end.

(** [String(v)], as a template literal and the default order of [sort]
    convert a value. An array prints its elements separated by commas,
    [null] among them as the empty string. An object prints as
    [[object Object]] through the [toString] it inherits; an own property
    [toString] hides that method and is no function, [valueOf] does not
    yield a primitive value either, and the conversion throws a
    [TypeError]. *)
Fixpoint jsonToString (v : JsonValue) : Outcome string :=
  match v with
  | JNull => Returned "null"
  | JBool b => Returned (if b then "true" else "false")
  | JNumber (JsInt z) => Returned (JS.ofZ z)
  | JNumber (JsOther text) => Returned text
  | JString s => Returned s
  | JArray xs =>
      andThen
        ((fix elements (xs : list JsonValue) : Outcome (list string) :=
            match xs with
            | [] => Returned []
            | x :: xs' =>
                andThen (match x with
                         | JNull => Returned EmptyString
                         | _ => jsonToString x
                         end) (fun s =>
                andThen (elements xs') (fun ss => Returned (s :: ss)))
            end) xs)
        (fun ss => Returned (JS.join "," ss))
  | JObject o =>
      match obj_own o "toString" with
      | Some _ => Throws
      | None => Returned "[object Object]"
      end
  end.

(** The message of the [TypeError] of a conversion that fails, in the
    words of V8. *)
Definition cannotConvertMessage : string :=
  "Cannot convert object to primitive value".

(** [`${x}`] *)
Definition textOf (x : option JsonValue) : Outcome string :=
  match x with
  | None => Returned "undefined"
  | Some v => jsonToString v
  end.

(** [x === n] for an integer [n] *)
Definition isInteger (x : option JsonValue) (n : Z) : bool :=
  match x with
  | Some (JNumber (JsInt z)) => (z =? n)%Z
  | _ => false
  end.

(** [Object.keys(v).length] for a value other than [undefined] and
    [null]: the own properties of an object, the indices of an array or of
    a string. *)
Definition ownKeyCount (v : JsonValue) : nat :=
  match v with
  | JObject o => List.length o
  | JArray xs => List.length xs
  | JString s => String.length s
  | _ => 0
  end.

(** [FileHashes], the content of [file_hashes.json]. *)
Record FileHashes : Type := mkHashes {
  h_schema_version : string;
  h_git_commit : option string;
  h_files : Obj FileHashEntry
}.

Inductive FileChangeStatus : Type := New | Changed | Unchanged | Deleted.

Record FileChange : Type := mkChange {
  c_path : string;
  status : FileChangeStatus;
  c_hash : option string
}.

Record IndexWarning : Type := mkWarning {
  w_code : string;
  w_file : option string;
  w_message : string
}.

Record IndexStats : Type := mkStats {
  total_files : Z;
  indexed_files : Z;
  skipped_files : Z;
  total_symbols : Z;
  total_tests : Z;
  index_time_ms : Z
}.

Record MetaConfig : Type := mkMetaConfig {
  include_globs : list string;
  exclude_globs : list string;
  max_file_kb : Z;
  respect_gitignore : bool;
  adapters_used : list string
}.

Inductive MetaStatus : Type := Success | Partial | Failed.

(** [IndexMeta], the content of [meta.json]. *)
Record IndexMeta : Type := mkMeta {
  schema_version : string;
  ark_version : string;
  generated_at : string;
  repo_root : string;
  git_commit : option string;
  meta_status : MetaStatus;
  stats : IndexStats;
  config : MetaConfig;
  warnings : list IndexWarning
}.

(** [IndexAdapter]: [None] stands for a rejected promise. *)
Record IndexAdapter : Type := mkAdapter {
  adapter_name : string;
  isAvailable : option bool;
  extractSymbols : string -> string -> option (list AdapterSymbol)
}.

(* ------------------------------------------------------------------ *)
(** ** The file system as the builder sees it *)

Record Stats : Type := mkFsStats {
  st_mtime : string;      (* stats.mtime.toISOString() *)
  st_size : Z
}.

(** Oracles for the synchronous calls of [node:fs]; [None] stands for a
    thrown error. [digestSync p] is the hexadecimal SHA-256 digest of the
    bytes that [fs.readFileSync(p)] returns. *)
Record FileSystem : Type := mkFs {
  statSync : string -> option Stats;
  readFileSync : string -> option string;    (* with the 'utf-8' encoding *)
  digestSync : string -> option string;
  errorMessage : string -> string            (* [err.message] of a failed read *)
}.

(** The calls a function makes, in order. *)
Inductive FsCall : Type :=
| StatCall (p : string)
| HashCall (p : string).

(* ------------------------------------------------------------------ *)
(** ** File hashing ([hashing.ts]) *)

(** [computeFileHash] *)
Definition computeFileHash (fs : FileSystem) (filePath : string)
  : option string :=
  match digestSync fs filePath with
  | Some hex => Some ("sha256:" ++ hex)
  | None => None
  end.

Inductive QuickResult : Type := QUnchanged | QMaybeChanged | QError.

(** [quickChangeCheck]; the previous values are [None] when the caller
    passes [undefined]. *)
Definition quickChangeCheck (fs : FileSystem) (filePath : string)
  (previousMtime : option string) (previousSize : option Z) : QuickResult :=
  match statSync fs filePath with
  | None => QError
  | Some st =>
      match previousMtime, previousSize with
      | Some pm, Some ps =>
          if String.eqb (st_mtime st) pm && (st_size st =? ps)%Z
          then QUnchanged else QMaybeChanged
      | _, _ => QMaybeChanged
      end
  end.

(* ------------------------------------------------------------------ *)
(** ** Incremental indexing ([incremental.ts]) *)

Definition FILE_HASHES_SCHEMA_VERSION : string := "1.0.0".

(** [const [major] = v.split('.')] *)
Definition majorOf (v : string) : string :=
  match JS.split "."%char v with
  | major :: _ => major
  | [] => EmptyString
  end.

(** [loadFileHashes]: [stored] is the parsed content of
    [file_hashes.json], [None] when the file is missing or does not parse. *)
Definition loadFileHashes (stored : option FileHashes) : option FileHashes :=
  match stored with
  | None => None
  | Some hashes =>
      if negb (JS.truthy (h_schema_version hashes)) then None
      else if negb (String.eqb (majorOf (h_schema_version hashes))
                      (majorOf FILE_HASHES_SCHEMA_VERSION))
      then None
      else Some hashes
  end.

(** The body of the first loop of [analyzeChanges] for one file: the calls
    it makes and the verdict it pushes ([None] when [computeFileHash]
    throws). *)
Definition classify (fs : FileSystem) (previousHashes : option FileHashes)
  (f : DiscoveredFile) : list FsCall * option FileChange :=
  let abs := absolutePath f in
  let asNew :=
    ([HashCall abs],
     match computeFileHash fs abs with
     | Some h => Some (mkChange (path f) New (Some h))
     | None => None
     end) in
  let compare (previous : option FileHashEntry) :=
    match quickChangeCheck fs abs (option_map e_mtime previous)
            (option_map e_size previous) with
    | QUnchanged =>
        ([StatCall abs],
         Some (mkChange (path f) Unchanged (option_map hash previous)))
    | QError => ([StatCall abs], Some (mkChange (path f) Changed None))
    | QMaybeChanged =>
        ([StatCall abs; HashCall abs],
         match computeFileHash fs abs with
         | None => None
         | Some currentHash =>
             match previous with
             | Some e =>
                 if String.eqb currentHash (hash e)
                 then Some (mkChange (path f) Unchanged (Some currentHash))
                 else Some (mkChange (path f) Changed (Some currentHash))
             | None => Some (mkChange (path f) Changed (Some currentHash))
             end
         end)
    end in
  match previousHashes with
  | None => asNew
  | Some ph =>
      match obj_get (h_files ph) (path f) with
      | Absent => asNew
      | Own previous => compare (Some previous)
      | Inherited => compare None
      end
  end.

(** The first loop of [analyzeChanges]. *)
Fixpoint analyzeFiles (fs : FileSystem) (previousHashes : option FileHashes)
  (fls : list DiscoveredFile) : list FsCall * option (list FileChange) :=
  match fls with
  | [] => ([], Some [])
  | f :: rest =>
      match classify fs previousHashes f with
      | (calls, None) => (calls, None)
      | (calls, Some c) =>
          let (calls', r) := analyzeFiles fs previousHashes rest in
          ((calls ++ calls')%list, option_map (cons c) r)
      end
  end.

(** The second loop of [analyzeChanges]: the ledger entries that are not
    among the discovered paths. *)
Definition deletedChanges (fls : list DiscoveredFile)
  (previousHashes : option FileHashes) : list FileChange :=
  match previousHashes with
  | None => []
  | Some ph =>
      map (fun prevPath => mkChange prevPath Deleted None)
        (filter (fun prevPath => negb (set_has (map path fls) prevPath))
           (obj_keys (h_files ph)))
  end.

(** [analyzeChanges]: the calls made and the verdicts, [None] when a hash
    computation throws. *)
Definition analyzeChanges (fs : FileSystem) (fls : list DiscoveredFile)
  (previousHashes : option FileHashes)
  : list FsCall * option (list FileChange) :=
  let (calls, r) := analyzeFiles fs previousHashes fls in
  (calls,
   option_map (fun cs => (cs ++ deletedChanges fls previousHashes)%list) r).

(** [new Map(files.map((f) => [f.path, f])).get(p)]: the last file with
    that path. *)
Fixpoint fileMap_get (fls : list DiscoveredFile) (p : string)
  : option DiscoveredFile :=
  match fls with
  | [] => None
  | f :: rest =>
      match fileMap_get rest p with
      | Some g => Some g
      | None => if String.eqb (path f) p then Some f else None
      end
  end.

(** Keys that are canonical array indices come first in [Object.keys], in
    numeric order. *)
Definition digitValue (c : ascii) : option N :=
  let n := JS.code c in
  if (48 <=? n) && (n <=? 57) then Some (N.of_nat (n - 48)) else None.

Fixpoint digitsValue (acc : N) (s : string) : option N :=
  match s with
  | EmptyString => Some acc
  | String c s' =>
      match digitValue c with
      | Some d => digitsValue (acc * 10 + d)%N s'
      | None => None
      end
  end.

Definition arrayIndex (k : string) : option N :=
  match k with
  | EmptyString => None
  | String c rest =>
      if Ascii.eqb c "0"%char && JS.truthy rest then None
      else match digitsValue 0%N k with
           | Some n => if (n <? 4294967295)%N then Some n else None
           | None => None
           end
  end.

Fixpoint obj_replace {A : Type} (o : Obj A) (k : string) (v : A) : Obj A :=
  match o with
  | [] => []
  | (k', v') :: o' =>
      if String.eqb k k' then (k', v) :: o' else (k', v') :: obj_replace o' k v
  end.

Fixpoint obj_insertIndex {A : Type} (o : Obj A) (n : N) (k : string) (v : A)
  : Obj A :=
  match o with
  | [] => [(k, v)]
  | (k', v') :: o' =>
      match arrayIndex k' with
      | Some n' => if (n' <? n)%N then (k', v') :: obj_insertIndex o' n k v
                   else (k, v) :: o
      | None => (k, v) :: o
      end
  end.

(** [o[k] = v] on an object literal: an own property is overwritten in
    place, a new one is created (array indices first), and the key
    [__proto__] creates no property. *)
Definition obj_set {A : Type} (o : Obj A) (k : string) (v : A) : Obj A :=
  if String.eqb k "__proto__" then o
  else match obj_own o k with
       | Some _ => obj_replace o k v
       | None =>
           match arrayIndex k with
           | Some n => obj_insertIndex o n k v
           | None => (o ++ [(k, v)])%list
           end
       end.

(** The loop of [buildFileHashes]; [None] when a hash computation throws. *)
Fixpoint buildHashesFiles (fs : FileSystem) (changes : list FileChange)
  (fls : list DiscoveredFile) (hashesFiles : Obj FileHashEntry)
  : option (Obj FileHashEntry) :=
  match changes with
  | [] => Some hashesFiles
  | change :: rest =>
      match status change with
      | Deleted => buildHashesFiles fs rest fls hashesFiles
      | _ =>
          match fileMap_get fls (c_path change) with
          | None => buildHashesFiles fs rest fls hashesFiles
          | Some f =>
              let h :=
                if JS.truthyOpt (c_hash change) then c_hash change
                else computeFileHash fs (absolutePath f) in
              match h with
              | None => None
              | Some hv =>
                  buildHashesFiles fs rest fls
                    (obj_set hashesFiles (c_path change)
                       (mkEntry hv (mtime f) (size f)))
              end
          end
      end
  end.

(** [buildFileHashes] *)
Definition buildFileHashes (fs : FileSystem) (changes : list FileChange)
  (fls : list DiscoveredFile) (gitCommit : option string)
  : option FileHashes :=
  option_map (mkHashes FILE_HASHES_SCHEMA_VERSION gitCommit)
    (buildHashesFiles fs changes fls []).

Definition isNewOrChanged (c : FileChange) : bool :=
  match status c with New | Changed => true | _ => false end.

(** [getFilesToIndex] *)
Definition getFilesToIndex (changes : list FileChange) : list string :=
  map c_path (filter isNewOrChanged changes).

(** [getChangedCount] *)
Definition getChangedCount (changes : list FileChange) : nat :=
  List.length (filter isNewOrChanged changes).

(** [Map<string, A>]: the entries in insertion order. *)
Definition StrMap (A : Type) : Type := list (string * A).

Definition map_get {A : Type} (m : StrMap A) (k : string) : option A :=
  obj_own m k.

Definition map_has {A : Type} (m : StrMap A) (k : string) : bool :=
  match map_get m k with Some _ => true | None => false end.

Definition map_set {A : Type} (m : StrMap A) (k : string) (v : A)
  : StrMap A :=
  match map_get m k with
  | Some _ => obj_replace m k v
  | None => (m ++ [(k, v)])%list
  end.

(** [loadCachedSymbols]: [stored] are the records of the lines of
    [symbols.jsonl] that parse, [None] when the file is missing or
    unreadable. *)
Definition loadCachedSymbols (stored : option (list Symbol))
  : StrMap (list Symbol) :=
  match stored with
  | None => []
  | Some symbols =>
      fold_left
        (fun cache symbol =>
           let existing :=
             match map_get cache (file symbol) with
             | Some l => l
             | None => []
             end in
           map_set cache (file symbol) (existing ++ [symbol])%list)
        symbols []
  end.

(* ------------------------------------------------------------------ *)
(** ** Configuration changes and verification ([invalidation.ts]) *)

Fixpoint insertSorted (x : string) (l : list string) : list string :=
  match l with
  | [] => [x]
  | y :: l' => if String.leb x y then x :: l else y :: insertSorted x l'
  end.

(** [[...a].sort()]: ascending by code units. *)
Definition sortStrings (l : list string) : list string :=
  fold_right insertSorted [] l.

Fixpoint everyEqual (a b : list string) : bool :=
  match a, b with
  | [], _ => true
  | x :: a', y :: b' => String.eqb x y && everyEqual a' b'
  | _ :: _, [] => false
  end.

(** [arraysEqual] *)
Definition arraysEqual (a b : list string) : bool :=
  if negb (List.length a =? List.length b) then false
  else everyEqual (sortStrings a) (sortStrings b).

Record CurrentConfig : Type := mkCurrentConfig {
  includeGlobs : list string;
  excludeGlobs : list string;
  maxFileKb : Z;
  respectGitignore : bool;
  adapters : list string
}.

(** [hasConfigChanged] *)
Definition hasConfigChanged (currentConfig : CurrentConfig)
  (previousMeta : option IndexMeta) : bool :=
  match previousMeta with
  | None => false
  | Some pm =>
      let prevConfig := config pm in
      if negb (arraysEqual (includeGlobs currentConfig)
                 (include_globs prevConfig)) then true
      else if negb (arraysEqual (excludeGlobs currentConfig)
                      (exclude_globs prevConfig)) then true
      else if negb (maxFileKb currentConfig =? max_file_kb prevConfig)%Z
      then true
      else if negb (Bool.eqb (respectGitignore currentConfig)
                      (respect_gitignore prevConfig)) then true
      else if negb (arraysEqual (adapters currentConfig)
                      (adapters_used prevConfig)) then true
      else false
  end.

(** The strings of the values of an array, when each can be converted. *)
Fixpoint sortKeys (l : list JsonValue)
  : Outcome (list (string * JsonValue)) :=
  match l with
  | [] => Returned []
  | x :: l' =>
      andThen (jsonToString x) (fun k =>
      andThen (sortKeys l') (fun ks => Returned ((k, x) :: ks)))
  end.

Fixpoint insertKeyed (x : string * JsonValue) (l : list (string * JsonValue))
  : list (string * JsonValue) :=
  match l with
  | [] => [x]
  | y :: l' =>
      if String.leb (fst x) (fst y) then x :: l else y :: insertKeyed x l'
  end.

(** [[...b].sort()] on an array of any values: ascending by the code units
    of their strings, values of equal strings in their order. An array of
    fewer than two values is returned without any comparison; in a longer
    one every value is compared at least once, and the conversion of any of
    them may throw. *)
Definition sortJson (l : list JsonValue) : Outcome (list JsonValue) :=
  if List.length l <? 2 then Returned l
  else andThen (sortKeys l) (fun ks =>
       Returned (map snd (fold_right insertKeyed [] ks))).

(** [sortedA.every((val, idx) => val === sortedB[idx])] *)
Fixpoint everyStrictlyEqual (a : list string) (b : list JsonValue) : bool :=
  match a, b with
  | [], _ => true
  | x :: a', JString y :: b' => String.eqb x y && everyStrictlyEqual a' b'
  | _ :: _, _ => false
  end.

(** The characters of a string, as [[...b]] spreads them. *)
Fixpoint charactersOf (s : string) : list string :=
  match s with
  | EmptyString => []
  | String c s' => String c EmptyString :: charactersOf s'
  end.

(** [arraysEqual(a, b)] for a value [b] that need not be an array of
    strings: [b.length] throws on [undefined] and [null] and is
    [undefined] on a boolean or a number; a string is spread into its
    characters; an object is not iterable, so that [[...b]] throws when its
    property [length] lets it get that far; sorting an array throws when
    one of its values cannot be converted to a string. *)
Definition arraysEqualLoose (a : list string) (b : option JsonValue)
  : Outcome bool :=
  match b with
  | None | Some JNull => Throws
  | Some (JBool _) | Some (JNumber _) => Returned false
  | Some (JString s) => Returned (arraysEqual a (charactersOf s))
  | Some (JArray xs) =>
      if negb (List.length a =? List.length xs) then Returned false
      else andThen (sortJson xs) (fun sortedB =>
           Returned (everyStrictlyEqual (sortStrings a) sortedB))
  | Some (JObject o) =>
      if negb (isInteger (obj_own o "length") (Z.of_nat (List.length a)))
      then Returned false
      else Throws
  end.

(** [hasConfigChanged] on what [loadIndexMeta] returns: [null], a value of
    the shape of [IndexMeta], or any other JSON value, on which the
    readings of [prevConfig] may throw. *)
Definition hasConfigChangedLoose (currentConfig : CurrentConfig)
  (previousMeta : option (Loose IndexMeta)) : Outcome bool :=
  match previousMeta with
  | None => Returned false
  | Some (Typed pm) => Returned (hasConfigChanged currentConfig (Some pm))
  | Some (Untyped v) =>
      if negb (jsonTruthy v) then Returned false
      else
        let prevConfig := jsonProperty v "config" in
        andThen (propertyOf prevConfig "include_globs") (fun include_globs =>
        andThen (arraysEqualLoose (includeGlobs currentConfig) include_globs)
          (fun sameIncludes =>
        if negb sameIncludes then Returned true
        else
        andThen (propertyOf prevConfig "exclude_globs") (fun exclude_globs =>
        andThen (arraysEqualLoose (excludeGlobs currentConfig) exclude_globs)
          (fun sameExcludes =>
        if negb sameExcludes then Returned true
        else
        andThen (propertyOf prevConfig "max_file_kb") (fun max_file_kb =>
        if negb (isInteger max_file_kb (maxFileKb currentConfig))
        then Returned true
        else
        andThen (propertyOf prevConfig "respect_gitignore")
          (fun respect_gitignore =>
        if match respect_gitignore with
           | Some (JBool b) => negb (Bool.eqb (respectGitignore currentConfig) b)
           | _ => true
           end
        then Returned true
        else
        andThen (propertyOf prevConfig "adapters_used") (fun adapters_used =>
        andThen (arraysEqualLoose (adapters currentConfig) adapters_used)
          (fun sameAdapters =>
        if negb sameAdapters then Returned true else Returned false))))))))
  end.

(** A file of the artifact directory, as a reader finds it. *)
Inductive Stored (A : Type) : Type :=
| Missing
| Unparseable (message : string)
| Parsed (a : A).
Arguments Missing {A}.
Arguments Unparseable {A} message.
Arguments Parsed {A} a.

(** A line of [symbols.jsonl], as far as the verifier looks at it. *)
Inductive JsonLine : Type :=
| BlankLine       (* [line.trim()] is empty *)
| ValidLine       (* [JSON.parse(line)] returns *)
| InvalidLine.    (* [JSON.parse(line)] throws *)

(** The artifact directory as [verifyIndex] reads it; the parsed values of
    [repo_map.json] and [test_map.json] are not inspected, those of
    [meta.json] and [file_hashes.json] are used without any check of their
    shape. *)
Record StoredIndex : Type := mkStored {
  s_meta : Stored (Loose IndexMeta);
  s_repo_map : Stored unit;
  s_symbols : Stored (list JsonLine);
  s_test_map : Stored unit;
  s_file_hashes : Stored (Loose FileHashes)
}.

Record VerifyResult : Type := mkVerify {
  valid : bool;
  v_errors : list string;
  v_warnings : list string
}.

Definition isMissing {A : Type} (s : Stored A) : bool :=
  match s with Missing => true | _ => false end.

(** The first loop of [verifyIndex], over [requiredFiles]. *)
Definition missingErrors (d : StoredIndex) : list string :=
  map (fun f => "Required file missing: " ++ f)
    (map fst
       (filter snd
          [ ("meta.json", isMissing (s_meta d));
            ("repo_map.json", isMissing (s_repo_map d));
            ("symbols.jsonl", isMissing (s_symbols d));
            ("test_map.json", isMissing (s_test_map d));
            ("file_hashes.json", isMissing (s_file_hashes d)) ])).

(** What reading and parsing yields; reading a missing file throws. *)
Definition readStored {A : Type} (s : Stored A) : string + A :=
  match s with
  | Missing => inl "ENOENT: no such file or directory"
  | Unparseable message => inl message
  | Parsed a => inr a
  end.

Definition isBlank (l : JsonLine) : bool :=
  match l with BlankLine => true | _ => false end.

(** The loop over the non-blank lines of [symbols.jsonl]. *)
Fixpoint invalidLineErrors (ls : list JsonLine) (i : nat) : list string :=
  match ls with
  | [] => []
  | l :: ls' =>
      match l with
      | InvalidLine =>
          ("symbols.jsonl line " ++ JS.ofNat (i + 1) ++ " is invalid JSON")
          :: invalidLineErrors ls' (S i)
      | _ => invalidLineErrors ls' (S i)
      end
  end.

(** [meta.schema_version], when [meta.schema_version.split('.')] does not
    throw: only a string has a method [split]. *)
Definition schemaVersionOf (meta : Loose IndexMeta) : Outcome string :=
  match meta with
  | Typed m => Returned (schema_version m)
  | Untyped v =>
      match propertyOf (Some v) "schema_version" with
      | Returned (Some (JString version)) => Returned version
      | _ => Throws
      end
  end.

(** [Object.keys(fileHashes.files).length] *)
Definition hashFileCountOf (fileHashes : Loose FileHashes) : Outcome Z :=
  match fileHashes with
  | Typed h => Returned (Z.of_nat (List.length (obj_keys (h_files h))))
  | Untyped v =>
      match propertyOf (Some v) "files" with
      | Returned (Some JNull) | Returned None | Throws => Throws
      | Returned (Some files) => Returned (Z.of_nat (ownKeyCount files))
      end
  end.

(** [meta.stats], when a property of it can be read; [meta] is no longer
    [null] here. *)
Definition statsOf (meta : Loose IndexMeta) : Outcome (Loose IndexStats) :=
  match meta with
  | Typed m => Returned (Typed (stats m))
  | Untyped v =>
      match jsonProperty v "stats" with
      | None | Some JNull => Throws
      | Some st => Returned (Untyped st)
      end
  end.

(** [stats.total_files] and [stats.total_symbols] *)
Definition totalFilesOf (st : Loose IndexStats) : option JsonValue :=
  match st with
  | Typed st => Some (JNumber (JsInt (total_files st)))
  | Untyped v => jsonProperty v "total_files"
  end.

Definition totalSymbolsOf (st : Loose IndexStats) : option JsonValue :=
  match st with
  | Typed st => Some (JNumber (JsInt (total_symbols st)))
  | Untyped v => jsonProperty v "total_symbols"
  end.

(** The warning of [verifyIndex] for a file count that differs; the
    template literal converts [meta.stats.total_files] to a string. *)
Definition fileCountWarning (metaStats : Loose IndexStats)
  (hashFileCount : Z) : Outcome (list string) :=
  if negb (isInteger (totalFilesOf metaStats) hashFileCount)
  then andThen (textOf (totalFilesOf metaStats)) (fun total_files =>
       Returned ["File count mismatch: meta.json has " ++ total_files
                 ++ ", file_hashes.json has " ++ JS.ofZ hashFileCount])
  else Returned [].

(** The warning for a symbol count that differs. *)
Definition symbolCountWarning (metaStats : Loose IndexStats)
  (symbolCount : Z) : Outcome (list string) :=
  if negb (isInteger (totalSymbolsOf metaStats) symbolCount)
  then andThen (textOf (totalSymbolsOf metaStats)) (fun total_symbols =>
       Returned ["Symbol count mismatch: meta.json has " ++ total_symbols
                 ++ ", symbols.jsonl has " ++ JS.ofZ symbolCount])
  else Returned [].

(** [verifyIndex]; the readings of [meta] and [fileHashes] outside the
    [try] blocks throw a [TypeError] when the value has not the field, and
    so does the first template literal on a value that cannot be converted
    to a string; the second one stands inside the [try] block of
    [symbols.jsonl], whose handler records the error. *)
Definition verifyIndex (d : StoredIndex) : Outcome VerifyResult :=
  let errors0 := missingErrors d in
  if 0 <? List.length errors0 then Returned (mkVerify false errors0 [])
  else
    match readStored (s_meta d) with
    | inl msg =>
        Returned (mkVerify false ["meta.json unparseable: " ++ msg] [])
    | inr meta =>
        match schemaVersionOf meta with
        | Throws => Throws
        | Returned version =>
        let warnings1 :=
          if negb (String.eqb (majorOf version) "1")
          then ["Schema version mismatch: " ++ version
                ++ " (supported: 1.x.x)"]
          else [] in
        match readStored (s_file_hashes d) with
        | inl msg =>
            Returned
              (mkVerify false ["file_hashes.json unparseable: " ++ msg]
                 warnings1)
        | inr fileHashes =>
            match hashFileCountOf fileHashes with
            | Throws => Throws
            | Returned hashFileCount =>
            match statsOf meta with
            | Throws => Throws
            | Returned metaStats =>
            match fileCountWarning metaStats hashFileCount with
            | Throws => Throws
            | Returned fileWarning =>
            let warnings2 := app warnings1 fileWarning in
            let '(errors3, warnings3) :=
              match readStored (s_symbols d) with
              | inl msg => (["symbols.jsonl unreadable: " ++ msg], warnings2)
              | inr ls =>
                  let symbolLines := filter (fun l => negb (isBlank l)) ls in
                  let symbolCount := Z.of_nat (List.length symbolLines) in
                  let lineErrors := invalidLineErrors symbolLines 0 in
                  match symbolCountWarning metaStats symbolCount with
                  | Throws =>
                      (app lineErrors
                         ["symbols.jsonl unreadable: " ++ cannotConvertMessage],
                       warnings2)
                  | Returned symbolWarning =>
                      (lineErrors, app warnings2 symbolWarning)
                  end
              end in
            let errors4 :=
              match readStored (s_repo_map d) with
              | inl msg => app errors3 ["repo_map.json unparseable: " ++ msg]
              | inr _ => errors3
              end in
            let errors5 :=
              match readStored (s_test_map d) with
              | inl msg => app errors4 ["test_map.json unparseable: " ++ msg]
              | inr _ => errors4
              end in
            Returned (mkVerify (List.length errors5 =? 0) errors5 warnings3)
            end
            end
            end
        end
        end
    end.

(* ------------------------------------------------------------------ *)
(** ** The writer ([writer.ts]) *)

(** The operations the writer performs on the file system. *)
Inductive FsOp : Type :=
| WriteFile (target content : string)
| Rename (source target : string).

(** [path.join(dir, `.${path.basename(filePath)}.tmp`)] for
    [dir = path.dirname(filePath)] *)
Definition tempPathOf (filePath : string) : string :=
  Path.join (Path.dirname filePath) ("." ++ Path.basename filePath ++ ".tmp").

(** [writeJsonAtomic], given the text [JSON.stringify(data, null, 2)]. *)
Definition writeJsonAtomic (filePath json : string) : list FsOp :=
  [WriteFile (tempPathOf filePath) json; Rename (tempPathOf filePath) filePath].

Section Writer.
Variables RepoMap TestMap : Type.
(** [JSON.stringify(x, null, 2)] at the four object types and
    [JSON.stringify(s)] at symbols. *)
Variable prettyMeta : IndexMeta -> string.
Variable prettyRepoMap : RepoMap -> string.
Variable prettyTestMap : TestMap -> string.
Variable prettyFileHashes : FileHashes -> string.
Variable stringifySymbol : Symbol -> string.

(** The text written to [symbols.jsonl]. *)
Definition symbolsText (symbols : list Symbol) : string :=
  let lines := map stringifySymbol symbols in
  JS.join LF lines ++ (if 0 <? List.length lines then LF else "").

(** [writeSymbolsAtomic] *)
Definition writeSymbolsAtomic (filePath : string) (symbols : list Symbol)
  : list FsOp :=
  [WriteFile (tempPathOf filePath) (symbolsText symbols);
   Rename (tempPathOf filePath) filePath].

(** [writeIndexFiles]: the operations of a run in which none throws. *)
Definition writeIndexFiles (indexDir : string) (meta : IndexMeta)
  (repoMap : RepoMap) (testMap : TestMap) (fileHashes : FileHashes)
  (symbols : list Symbol) : list FsOp :=
  (writeJsonAtomic (Path.join indexDir "file_hashes.json")
     (prettyFileHashes fileHashes)
   ++ writeSymbolsAtomic (Path.join indexDir "symbols.jsonl") symbols
   ++ writeJsonAtomic (Path.join indexDir "repo_map.json")
        (prettyRepoMap repoMap)
   ++ writeJsonAtomic (Path.join indexDir "test_map.json")
        (prettyTestMap testMap)
   ++ writeJsonAtomic (Path.join indexDir "meta.json") (prettyMeta meta))%list.

End Writer.

(* ------------------------------------------------------------------ *)
(** ** Code files and languages ([filter.ts]) *)

Definition CODE_EXTENSIONS : list string :=
  [ ".js"; ".jsx"; ".ts"; ".tsx"; ".mjs"; ".cjs"; ".py"; ".pyi"; ".rs";
    ".go"; ".java"; ".kt"; ".kts"; ".c"; ".h"; ".cpp"; ".hpp"; ".cc"; ".hh";
    ".rb"; ".php"; ".sh"; ".bash"; ".zsh"; ".swift"; ".scala"; ".clj"; ".ex";
    ".exs"; ".erl"; ".hs" ].

(** [isCodeFile] *)
Definition isCodeFile (filePath : string) : bool :=
  JS.arrayIncludes CODE_EXTENSIONS (JS.toLowerCase (Path.extname filePath)).

Inductive Language : Type :=
| Typescript | Javascript | Python | Rust | Go | Java | Kotlin | C | Cpp
| Ruby | Unknown.

(** [detectLanguage] *)
Definition detectLanguage (filePath : string) : Language :=
  let ext := JS.toLowerCase (Path.extname filePath) in
  if JS.arrayIncludes [".ts"; ".tsx"] ext then Typescript
  else if JS.arrayIncludes [".js"; ".jsx"; ".mjs"; ".cjs"] ext then Javascript
  else if JS.arrayIncludes [".py"; ".pyi"] ext then Python
  else if String.eqb ext ".rs" then Rust
  else if String.eqb ext ".go" then Go
  else if String.eqb ext ".java" then Java
  else if JS.arrayIncludes [".kt"; ".kts"] ext then Kotlin
  else if JS.arrayIncludes [".c"; ".h"] ext then C
  else if JS.arrayIncludes [".cpp"; ".hpp"; ".cc"; ".hh"] ext then Cpp
  else if String.eqb ext ".rb" then Ruby
  else Unknown.

(* ------------------------------------------------------------------ *)
(** ** The test map ([tests/ids.ts], [tests/parsing.ts],
       [tests/detection.ts], [test-map.ts]) *)

Inductive TestTier : Type := Fast | Slow | Integration.

Record ParsedTest : Type := mkParsed {
  pt_name : option string;
  pt_line : nat
}.

Record TestEntry : Type := mkTestEntry {
  test_id : string;
  t_file : string;
  t_name : option string;
  t_tags : list string;
  tier : TestTier;
  files_touched : list string;
  packages : list string
}.

(** [generateTestId] *)
Definition generateTestId (filePath : string) (testName : option string)
  (line : option nat) (unnamedCounter : nat) : string :=
  if JS.truthyOpt testName
  then filePath ++ "::" ++ match testName with Some n => n | None => "" end
  else match line with
       | Some l => filePath ++ "::unnamed_test:L" ++ JS.ofNat l
       | None => filePath ++ "::unnamed_test:" ++ JS.ofNat unnamedCounter
       end.

(** [(testName || '').toLowerCase()] *)
Definition lowerNameOf (testName : option string) : string :=
  JS.toLowerCase
    (match testName with
     | Some n => if JS.truthy n then n else ""
     | None => ""
     end).

(** [determineTestTier] *)
Definition determineTestTier (filePath : string) (testName : option string)
  : TestTier :=
  let lowerPath := JS.toLowerCase filePath in
  let lowerName := lowerNameOf testName in
  if JS.includes lowerPath "integration"
     || JS.includes lowerPath "e2e"
     || JS.includes lowerName "integration"
     || JS.includes lowerName "e2e"
  then Integration
  else if JS.includes lowerPath "slow"
          || JS.includes lowerPath "benchmark"
          || JS.includes lowerName "slow"
          || JS.includes lowerName "benchmark"
          || JS.includes lowerName "perf"
  then Slow
  else Fast.

(** [extractTestTags] *)
Definition extractTestTags (filePath : string) (testName : option string)
  : list string :=
  let lowerPath := JS.toLowerCase filePath in
  let lowerName := lowerNameOf testName in
  filter (fun tag => JS.includes lowerPath tag || JS.includes lowerName tag)
    [ "unit"; "integration"; "e2e"; "smoke"; "regression"; "api"; "ui";
      "component" ].

(** The first loop of [extractTestPackage]: [before] is [parts[i - 1]],
    [todo] are [parts[i]], [parts[i + 1]], ...; the loop stops before the
    last part. *)
Fixpoint packageScan (before : option string) (todo : list string)
  : option string :=
  match todo with
  | part :: ((next :: _) as todo') =>
      if JS.arrayIncludes ["__tests__"; "tests"; "test"; "spec"; "specs"] part
      then packageScan (Some part) todo'
      else if JS.arrayIncludes ["src"; "lib"; "pkg"; "internal"; "cmd"] part
      then packageScan (Some part) todo'
      else
        match before with
        | Some b =>
            if String.eqb b "node_modules"
            then if JS.startsWith part "@" then Some (part ++ "/" ++ next)
                 else Some part
            else packageScan (Some part) todo'
        | None => packageScan (Some part) todo'
        end
  | _ => None
  end.

(** [extractTestPackage] *)
Definition extractTestPackage (filePath : string) : option string :=
  let parts := JS.split "/"%char filePath in
  match packageScan None parts with
  | Some p => Some p
  | None =>
      find (fun part =>
              negb (JS.arrayIncludes ["src"; "__tests__"; "tests"; "test"] part)
              && negb (JS.includes part "."))
        parts
  end.

Module Parsing.
Import Regex.

(** The class of the three quotes: apostrophe, double quote (code 34) and
    backtick. *)
Definition quote : re :=
  Chr (fun c => Ascii.eqb c "'"%char || Ascii.eqb c "034"%char
                || Ascii.eqb c "`"%char).

(** [/(?:describe|it|test)\s*\(\s*(Q)(.+?)\1/], with [Q] the class of the
    three quotes. *)
Definition jestPattern : re :=
  seq [ alt [lit "describe"; lit "it"; lit "test"]; star space; chr "("%char;
        star space; Grp 1 quote; Grp 2 (plusLazy dot); Ref 1 ].

(** [/^def\s+(test_\w+)\s*\(/] *)
Definition pytestPattern : re :=
  seq [ Bol; lit "def"; plus space; Grp 1 (seq [lit "test_"; plus word]);
        star space; chr "("%char ].

(** [/^func\s+(Test\w+)\s*\(/] *)
Definition goPattern : re :=
  seq [ Bol; lit "func"; plus space; Grp 1 (seq [lit "Test"; plus word]);
        star space; chr "("%char ].

(** [/^(?:async\s+)?fn\s+(\w+)\s*\(/] *)
Definition rustFnPattern : re :=
  seq [ Bol; opt (seq [lit "async"; plus space]); lit "fn"; plus space;
        Grp 1 (plus word); star space; chr "("%char ].

(** [match && match[n]]: the capture when it is not empty. *)
Definition captured (pattern : re) (n : nat) (l : string) : option string :=
  match exec false pattern l with
  | Some mt =>
      match group n mt with
      | Some s => if JS.truthy s then Some s else None
      | None => None
      end
  | None => None
  end.

(** One loop serves [parseJestTests], [parsePytestTests] and
    [parseGoTests]: [prepare] is the identity or [trim]. *)
Fixpoint parseLines (pattern : re) (n : nat) (prepare : string -> string)
  (ls : list string) (i : nat) : list ParsedTest :=
  match ls with
  | [] => []
  | l :: ls' =>
      match captured pattern n (prepare l) with
      | Some nm => mkParsed (Some nm) (i + 1) :: parseLines pattern n prepare ls' (S i)
      | None => parseLines pattern n prepare ls' (S i)
      end
  end.

Definition parseJestTests (content : string) : list ParsedTest :=
  parseLines jestPattern 2 (fun l => l) (JS.split "010"%char content) 0.

Definition parsePytestTests (content : string) : list ParsedTest :=
  parseLines pytestPattern 1 JS.trim (JS.split "010"%char content) 0.

Definition parseGoTests (content : string) : list ParsedTest :=
  parseLines goPattern 1 JS.trim (JS.split "010"%char content) 0.

(** The loop of [parseRustTests]. *)
Fixpoint rustLines (ls : list string) (i : nat) (expectingFn : bool)
  (testAttrLine : nat) : list ParsedTest :=
  match ls with
  | [] => []
  | raw :: ls' =>
      let l := JS.trim raw in
      if String.eqb l "#[test]" || JS.startsWith l "#[test]"
      then rustLines ls' (S i) true (i + 1)
      else if expectingFn then
        match captured rustFnPattern 1 l with
        | Some nm =>
            mkParsed (Some nm) testAttrLine :: rustLines ls' (S i) false testAttrLine
        | None => rustLines ls' (S i) false testAttrLine
        end
      else rustLines ls' (S i) expectingFn testAttrLine
  end.

Definition parseRustTests (content : string) : list ParsedTest :=
  rustLines (JS.split "010"%char content) 0 false 0.

End Parsing.

Inductive Framework : Type :=
| Jest | Mocha | Pytest | GoTest | RustTest | Vitest | UnknownFramework.

(** [parseTestNames] *)
Definition parseTestNames (content : string) (framework : Framework)
  : list ParsedTest :=
  match framework with
  | Jest | Mocha | Vitest => Parsing.parseJestTests content
  | Pytest => Parsing.parsePytestTests content
  | GoTest => Parsing.parseGoTests content
  | RustTest => Parsing.parseRustTests content
  | UnknownFramework => []
  end.

(** [parseTestsFromFile] *)
Definition parseTestsFromFile (fs : FileSystem) (filePath absPath : string)
  (framework : Framework) : list ParsedTest :=
  match readFileSync fs absPath with
  | Some content => parseTestNames content framework
  | None => []
  end.

(** [detectTestFramework] *)
Definition detectTestFramework (filePath : string) : Framework :=
  let ext := JS.toLowerCase (Path.extname filePath) in
  let basename := Path.basename filePath in
  if JS.endsWith basename "_test.go" then GoTest
  else if String.eqb ext ".rs" then RustTest
  else if String.eqb ext ".py" then Pytest
  else if JS.arrayIncludes [".ts"; ".tsx"; ".js"; ".jsx"; ".mjs"] ext then Jest
  else UnknownFramework.

(** The loop over the parsed tests of one file in [buildTestEntries]. *)
Fixpoint entriesOf (filePath : string) (pkg : option string)
  (parsedTests : list ParsedTest) (unnamedCounter : nat) : list TestEntry :=
  match parsedTests with
  | [] => []
  | test :: rest =>
      let counter :=
        if negb (JS.truthyOpt (pt_name test)) then S unnamedCounter
        else unnamedCounter in
      mkTestEntry
        (generateTestId filePath (pt_name test) (Some (pt_line test)) counter)
        filePath (pt_name test)
        (extractTestTags filePath (pt_name test))
        (determineTestTier filePath (pt_name test))
        []
        (if JS.truthyOpt pkg then match pkg with Some p => [p] | None => [] end
         else [])
      :: entriesOf filePath pkg rest counter
  end.

(** The body of the loop of [buildTestEntries] for one test file. *)
Definition entriesOfFile (fs : FileSystem) (f : DiscoveredFile)
  : list TestEntry :=
  let framework := detectTestFramework (path f) in
  let parsedTests := parseTestsFromFile fs (path f) (absolutePath f) framework in
  let pkg := extractTestPackage (path f) in
  if List.length parsedTests =? 0
  then [ mkTestEntry (generateTestId (path f) None None 1) (path f) None
           (extractTestTags (path f) None) (determineTestTier (path f) None)
           []
           (if JS.truthyOpt pkg
            then match pkg with Some p => [p] | None => [] end else []) ]
  else entriesOf (path f) pkg parsedTests 0.

(** [buildTestEntries] *)
Definition buildTestEntries (fs : FileSystem) (testFiles : list DiscoveredFile)
  : list TestEntry :=
  flat_map (entriesOfFile fs) testFiles.

(* ------------------------------------------------------------------ *)
(** ** Subdirectory selection ([modules.ts]) *)

Definition IMPORTANT_SUBDIRS : list string :=
  [ "components"; "lib"; "hooks"; "utils"; "services"; "handlers"; "actions";
    "api"; "store"; "data"; "types"; "models"; "views"; "controllers";
    "middleware"; "routes"; "pages"; "features"; "modules"; "core"; "common";
    "shared" ].

Definition SUBDIR_DESCRIPTIONS : Obj string :=
  [ ("components", "React/UI components");
    ("lib", "Utility libraries");
    ("hooks", "React hooks");
    ("utils", "Utility functions");
    ("services", "Service layer");
    ("handlers", "Request/event handlers");
    ("actions", "Action creators/handlers");
    ("api", "API layer");
    ("store", "State management");
    ("data", "Data definitions and content");
    ("types", "Type definitions");
    ("models", "Data models");
    ("views", "View components");
    ("controllers", "Controllers");
    ("middleware", "Middleware functions");
    ("routes", "Route definitions");
    ("pages", "Page components");
    ("features", "Feature modules");
    ("modules", "Application modules");
    ("core", "Core functionality");
    ("common", "Common/shared code");
    ("shared", "Shared utilities") ].

Definition MIN_CODE_FILES_FOR_SUBDIR : nat := 3.
Definition MAX_SUBDIRS_PER_MODULE : nat := 10.
Definition LARGE_DIR_THRESHOLD : nat := 20.

(** [SubDirectory]; [description] is the outcome of the lookup
    [SUBDIR_DESCRIPTIONS[subdirName]]. *)
Record SubDirectory : Type := mkSubDir {
  sd_name : string;
  sd_path : string;
  fileCount : nat;
  codeFileCount : nat;
  key_files : list string;
  description : Lookup string
}.

Definition withCodeFileCount (s : SubDirectory) (n : nat) : SubDirectory :=
  mkSubDir (sd_name s) (sd_path s) (fileCount s) n (key_files s)
    (description s).

(** Truthiness of the looked-up description: the own descriptions are
    non-empty strings, the inherited members are functions or objects. *)
Definition hasDescription (s : SubDirectory) : bool :=
  match description s with
  | Own d => JS.truthy d
  | Inherited => true
  | Absent => false
  end.

Record DirData : Type := mkDirData {
  d_files : list DiscoveredFile;
  d_codeFiles : list DiscoveredFile;
  isImportant : bool;
  d_depth : nat
}.

Record Candidate : Type := mkCandidate {
  subdir : SubDirectory;
  score : Z;
  hasImportantChildren : bool
}.

(** [child.startsWith(parent + '/') && child !== parent] *)
Definition isBelow (child parent : string) : bool :=
  JS.startsWith child (parent ++ "/") && negb (String.eqb child parent).

(** A stable sort by a comparator, as [Array.prototype.sort]: an element
    goes before the first one it must precede. *)
Fixpoint insertBy {A : Type} (cmp : A -> A -> Z) (x : A) (sorted : list A)
  : list A :=
  match sorted with
  | [] => [x]
  | y :: rest =>
      if (cmp x y <? 0)%Z then x :: sorted else y :: insertBy cmp x rest
  end.

Definition stableSort {A : Type} (cmp : A -> A -> Z) (l : list A) : list A :=
  fold_left (fun sorted x => insertBy cmp x sorted) l [].

Section Subdirectories.
(** [String.prototype.localeCompare], which depends on the locale of the
    host. *)
Variable localeCompare : string -> string -> Z.

Definition normalizeModulePath (modulePath : string) : string :=
  if String.eqb modulePath "." then "" else modulePath.

(** The inner loop of the grouping: levels [i], [i + 1], ... of one file;
    [budget] counts the iterations left. *)
Fixpoint groupLevels (nmp : string) (modulePaths : StringSet)
  (f : DiscoveredFile) (parts : list string) (i budget : nat)
  (subdirMap : StrMap DirData) : StrMap DirData :=
  match budget with
  | O => subdirMap
  | S budget' =>
      let subdirRelPath := JS.join "/" (firstn (i + 1) parts) in
      let subdirFullPath :=
        if JS.truthy nmp then nmp ++ "/" ++ subdirRelPath else subdirRelPath in
      let subdirName := nth i parts "" in
      if set_has modulePaths subdirFullPath
      then groupLevels nmp modulePaths f parts (S i) budget' subdirMap
      else
        let isImportantName := JS.arrayIncludes IMPORTANT_SUBDIRS subdirName in
        let data :=
          match map_get subdirMap subdirFullPath with
          | Some d => d
          | None => mkDirData [] [] isImportantName (i + 1)
          end in
        let data' :=
          mkDirData (d_files data ++ [f])
            (if isCodeFile (path f) then d_codeFiles data ++ [f]
             else d_codeFiles data)
            (isImportant data) (d_depth data) in
        groupLevels nmp modulePaths f parts (S i) budget'
          (map_set subdirMap subdirFullPath data')
  end.

(** The body of the grouping loop for one file of the module. *)
Definition groupFile (nmp : string) (modulePaths : StringSet) (depth : nat)
  (subdirMap : StrMap DirData) (f : DiscoveredFile) : StrMap DirData :=
  let relPath :=
    if JS.truthy nmp then JS.drop (String.length nmp + 1) (path f)
    else path f in
  let parts := JS.split "/"%char relPath in
  groupLevels nmp modulePaths f parts 0
    (Nat.min (List.length parts - 1) depth) subdirMap.

(** The inner loop of the promotion: the children of one large important
    directory. *)
Definition promoteChildren (parentPath : string) (subdirMap : StrMap DirData)
  : StrMap DirData :=
  map (fun '(childPath, childData) =>
         if isBelow childPath parentPath
            && (JS.arrayIncludes IMPORTANT_SUBDIRS (Path.basename childPath)
                || (MIN_CODE_FILES_FOR_SUBDIR * 2
                    <=? List.length (d_codeFiles childData)))
         then (childPath,
               mkDirData (d_files childData) (d_codeFiles childData) true
                 (d_depth childData))
         else (childPath, childData))
    subdirMap.

(** The promotion loop: the directories are visited in the order of the
    map, each seeing the marks left by the ones before it. *)
Definition promoteNested (subdirMap : StrMap DirData) : StrMap DirData :=
  fold_left
    (fun m parentPath =>
       match map_get m parentPath with
       | Some parentData =>
           if (LARGE_DIR_THRESHOLD <=? List.length (d_codeFiles parentData))
              && isImportant parentData
           then promoteChildren parentPath m
           else m
       | None => m
       end)
    (map fst subdirMap) subdirMap.

(** The body of the loop that filters and scores. *)
Definition candidateOf (subdirMap : StrMap DirData) (subdirPath : string)
  (data : DirData) : option Candidate :=
  let subdirName := Path.basename subdirPath in
  let codeCount := List.length (d_codeFiles data) in
  let hasEnoughCode := MIN_CODE_FILES_FOR_SUBDIR <=? codeCount in
  if negb (isImportant data) && negb hasEnoughCode then None
  else
    let hasImportantChildren :=
      existsb (fun '(otherPath, otherData) =>
                 isBelow otherPath subdirPath
                 && isImportant otherData
                 && (MIN_CODE_FILES_FOR_SUBDIR
                     <=? List.length (d_codeFiles otherData)))
        subdirMap in
    let boost : Z := if isImportant data then 50%Z else 0%Z in
    let penalty : Z :=
      if hasImportantChildren && (LARGE_DIR_THRESHOLD <? codeCount)
      then 30%Z else 0%Z in
    let nested : Z := if 1 <? d_depth data then 10%Z else 0%Z in
    let score := (Z.of_nat codeCount + boost - penalty + nested)%Z in
    Some (mkCandidate
            (mkSubDir subdirName subdirPath (List.length (d_files data))
               codeCount [] (obj_get SUBDIR_DESCRIPTIONS subdirName))
            score hasImportantChildren).

Fixpoint candidatesOf (subdirMap entries : StrMap DirData) : list Candidate :=
  match entries with
  | [] => []
  | (subdirPath, data) :: rest =>
      match candidateOf subdirMap subdirPath data with
      | Some c => c :: candidatesOf subdirMap rest
      | None => candidatesOf subdirMap rest
      end
  end.

(** [candidates.sort((a, b) => b.score - a.score)] *)
Definition sortByScore (cs : list Candidate) : list Candidate :=
  stableSort (fun a b => (score b - score a)%Z) cs.

(** The direct count of one candidate: its code files less those of every
    candidate below it, floored at zero. *)
Definition directCountOf (candidates : list Candidate) (candidate : Candidate)
  : nat :=
  let childPaths :=
    map (fun c => sd_path (subdir c))
      (filter (fun c => isBelow (sd_path (subdir c)) (sd_path (subdir candidate)))
         candidates) in
  let directCount :=
    fold_left
      (fun (acc : Z) childPath =>
         match find (fun c => String.eqb (sd_path (subdir c)) childPath)
                 candidates with
         | Some childCandidate =>
             (acc - Z.of_nat (codeFileCount (subdir childCandidate)))%Z
         | None => acc
         end)
      childPaths (Z.of_nat (codeFileCount (subdir candidate))) in
  Z.to_nat (Z.max 0 directCount).

(** [directFileCounts] *)
Definition directFileCountsOf (candidates : list Candidate) : StrMap nat :=
  fold_left
    (fun m candidate =>
       map_set m (sd_path (subdir candidate))
         (directCountOf candidates candidate))
    candidates [].

(** [directFileCounts.get(p) || 0] *)
Definition directCountAt (directFileCounts : StrMap nat) (p : string) : nat :=
  match map_get directFileCounts p with
  | Some n => n
  | None => 0
  end.

(** The body of the selection loop for one candidate: the subdirectory it
    pushes, if any. *)
Definition selectStep (directFileCounts : StrMap nat)
  (selectedPaths : StringSet) (candidate : Candidate) : option SubDirectory :=
  let p := sd_path (subdir candidate) in
  let hasSelectedChild :=
    existsb (fun selectedPath => JS.startsWith selectedPath (p ++ "/"))
      selectedPaths in
  let directCount := directCountAt directFileCounts p in
  let large :=
    hasImportantChildren candidate
    && (LARGE_DIR_THRESHOLD <? codeFileCount (subdir candidate)) in
  if large && (directCount <? 10) then None
  else
    let sd :=
      if large then withCodeFileCount (subdir candidate) directCount
      else subdir candidate in
    if hasSelectedChild && (directCount <? MIN_CODE_FILES_FOR_SUBDIR) then None
    else
      let hasSelectedParent :=
        existsb (fun selectedPath => JS.startsWith p (selectedPath ++ "/"))
          selectedPaths in
      if hasSelectedParent && negb (hasDescription sd)
         && (codeFileCount sd <? 10)
      then None
      else Some sd.

(** The selection loop, with its [break] once the result is full;
    [result] is kept in the order of the pushes. *)
Fixpoint selectLoop (directFileCounts : StrMap nat)
  (candidates : list Candidate) (selectedPaths : StringSet)
  (result : list SubDirectory) : list SubDirectory :=
  match candidates with
  | [] => result
  | candidate :: rest =>
      match selectStep directFileCounts selectedPaths candidate with
      | None => selectLoop directFileCounts rest selectedPaths result
      | Some sd =>
          let result' := (result ++ [sd])%list in
          if MAX_SUBDIRS_PER_MODULE <=? List.length result' then result'
          else selectLoop directFileCounts rest
                 (set_add selectedPaths (sd_path sd)) result'
      end
  end.

(** The comparator of the final sort. *)
Definition byCodeThenPath (a b : SubDirectory) : Z :=
  if negb (codeFileCount b =? codeFileCount a)
  then (Z.of_nat (codeFileCount b) - Z.of_nat (codeFileCount a))%Z
  else localeCompare (sd_path a) (sd_path b).

(** The candidates of a module, sorted by score. *)
Definition subdirCandidates (fls : list DiscoveredFile) (modulePath : string)
  (modulePaths : StringSet) (depth : nat) : list Candidate :=
  let nmp := normalizeModulePath modulePath in
  let moduleFiles :=
    filter (fun f => if String.eqb nmp "" then true
                     else JS.startsWith (path f) (nmp ++ "/")) fls in
  let subdirMap :=
    promoteNested (fold_left (groupFile nmp modulePaths depth) moduleFiles []) in
  sortByScore (candidatesOf subdirMap subdirMap).

(** The subdirectories in the order the selection loop pushes them. *)
Definition selectedSubdirectories (fls : list DiscoveredFile)
  (modulePath : string) (modulePaths : StringSet) (depth : nat)
  : list SubDirectory :=
  let candidates := subdirCandidates fls modulePath modulePaths depth in
  selectLoop (directFileCountsOf candidates) candidates [] [].

(** [detectSubdirectories] *)
Definition detectSubdirectories (fls : list DiscoveredFile)
  (modulePath : string) (modulePaths : StringSet) (depth : nat)
  : list SubDirectory :=
  stableSort byCodeThenPath
    (selectedSubdirectories fls modulePath modulePaths depth).

End Subdirectories.

(* ------------------------------------------------------------------ *)
(** ** Test files ([tests/detection.ts]) and the test map *)

Module Detection.
Import Regex.

Definition jsExt : list re :=
  [ chr "."%char;
    Chr (fun c => Ascii.eqb c "j"%char || Ascii.eqb c "t"%char);
    chr "s"%char; opt (chr "x"%char); Eol ].

(** [TEST_FILE_PATTERNS] *)
Definition TEST_FILE_PATTERNS : list re :=
  [ seq (lit ".test" :: jsExt);           (* /\.test\.[jt]sx?$/ *)
    seq (lit ".spec" :: jsExt);           (* /\.spec\.[jt]sx?$/ *)
    seq (lit "_test" :: jsExt);           (* /_test\.[jt]sx?$/ *)
    seq (lit "_spec" :: jsExt);           (* /_spec\.[jt]sx?$/ *)
    seq [lit "_test.py"; Eol];            (* /_test\.py$/ *)
    seq [lit "test_"; star dot; lit ".py"; Eol];   (* /test_.*\.py$/ *)
    seq [lit "_test.go"; Eol];            (* /_test\.go$/ *)
    seq [lit "_test.rs"; Eol];            (* /_test\.rs$/ *)
    seq [lit "tests.rs"; Eol] ].          (* /tests\.rs$/ *)

Definition TEST_DIR_PATTERNS : list string :=
  [ "__tests__"; "tests"; "test"; "spec"; "specs"; "__test__"; "__spec__";
    "__specs__" ].

(** [pattern.test(s)] *)
Definition test (pattern : re) (s : string) : bool :=
  match exec false pattern s with Some _ => true | None => false end.

(** [isTestFile] *)
Definition isTestFile (filePath : string) : bool :=
  if negb (isCodeFile filePath) then false
  else
    let basename := Path.basename filePath in
    let dirname := Path.dirname filePath in
    existsb (fun pattern => test pattern basename) TEST_FILE_PATTERNS
    || existsb (JS.arrayIncludes TEST_DIR_PATTERNS)
         (JS.split "/"%char dirname).

(** [findTestFiles] *)
Definition findTestFiles (fls : list DiscoveredFile) : list DiscoveredFile :=
  filter (fun f => isTestFile (path f)) fls.

End Detection.

Definition TEST_MAP_SCHEMA_VERSION : string := "1.0.0".

Record TestMap : Type := mkTestMap {
  tm_schema_version : string;
  tests : list TestEntry;
  coverage_edges : Obj (list string)
}.

(** [buildTestMap]; the adapters are not consulted. *)
Definition buildTestMap (fs : FileSystem) (fls : list DiscoveredFile)
  : TestMap :=
  mkTestMap TEST_MAP_SCHEMA_VERSION
    (buildTestEntries fs (Detection.findTestFiles fls)) [].

(* ------------------------------------------------------------------ *)
(** ** Extraction from a file ([symbols.ts]) and the builder
       ([builder.ts])

    What the builder calls and this development does not embed: the Python,
    Rust and Go extractors, the repo map builder and [JSON.stringify].
    They are the fields of [Externals]; every statement about the builder
    holds for all of them. *)

Record Externals : Type := mkExternals {
  extractPythonSymbols : string -> string -> list AdapterSymbol;
  extractRustSymbols : string -> string -> list AdapterSymbol;
  extractGoSymbols : string -> string -> list AdapterSymbol;
  RepoMap : Type;
  buildRepoMap : FileSystem -> list DiscoveredFile -> string -> RepoMap;
  prettyMeta : IndexMeta -> string;
  prettyRepoMap : RepoMap -> string;
  prettyTestMap : TestMap -> string;
  prettyFileHashes : FileHashes -> string;
  stringifySymbol : Symbol -> string
}.

(** [extractSymbolsBaseline] *)
Definition extractSymbolsBaseline (E : Externals) (content filePath : string)
  : list AdapterSymbol :=
  match detectLanguage filePath with
  | Typescript | Javascript =>
      Typescript.extractTypescriptSymbols content filePath
  | Python => extractPythonSymbols E content filePath
  | Rust => extractRustSymbols E content filePath
  | Go => extractGoSymbols E content filePath
  | _ => []
  end.

Record Extraction : Type := mkExtraction {
  x_symbols : list Symbol;
  adapterUsed : option string;
  x_error : option string
}.

(** The loop over the adapters in [extractSymbolsFromFile]: the symbols of
    the first adapter that is available and returns a non-empty list. An
    adapter that throws is skipped. *)
Fixpoint tryAdapters (adapters : list IndexAdapter)
  (absPath content : string) : option (string * list AdapterSymbol) :=
  match adapters with
  | [] => None
  | adapter :: rest =>
      match isAvailable adapter with
      | Some true =>
          match extractSymbols adapter absPath content with
          | Some (s :: more) => Some (adapter_name adapter, s :: more)
          | _ => tryAdapters rest absPath content
          end
      | _ => tryAdapters rest absPath content
      end
  end.

(** [extractSymbolsFromFile]: the result and the updated set of
    identifiers. *)
Definition extractSymbolsFromFile (E : Externals) (fs : FileSystem)
  (filePath absPath : string) (adapters : list IndexAdapter)
  (existingIds : StringSet) : Extraction * StringSet :=
  match readFileSync fs absPath with
  | None =>
      (mkExtraction [] None
         (Some ("Failed to read file: " ++ errorMessage fs absPath)),
       existingIds)
  | Some content =>
      match tryAdapters adapters absPath content with
      | Some (nm, adapterSymbols) =>
          let (symbols, ids) := toSymbols adapterSymbols filePath existingIds in
          (mkExtraction symbols (Some nm) None, ids)
      | None =>
          let (symbols, ids) :=
            toSymbols (extractSymbolsBaseline E content filePath) filePath
              existingIds in
          (mkExtraction symbols None None, ids)
      end
  end.

(** [IndexBuildOptions], without the logger. *)
Record IndexBuildOptions : Type := mkOptions {
  force : bool;
  arkDir : string;
  repoRoot : string;
  opt_includeGlobs : list string;
  opt_excludeGlobs : list string;
  opt_maxFileKb : Z;
  maxFiles : Z;
  opt_respectGitignore : bool;
  opt_adapters : list IndexAdapter
}.

(** What a run of the builder finds outside the artifact directory. *)
Record World : Type := mkWorld {
  ripgrepAvailable : bool;            (* isRipgrepAvailable() *)
  gitCommit : option string;          (* getGitCommit(repoRoot) *)
  discovery : DiscoveryResult;        (* discoverFiles(discoveryOptions) *)
  fsys : FileSystem;
  startTime : Z;                      (* the two readings of Date.now() *)
  endTime : Z;
  nowISO : string;                    (* new Date().toISOString() *)
  writeFailure : option string;       (* the message of the error a write throws *)
  indexDirExists : string -> bool;    (* fs.existsSync, asked of the index directory *)
  mkdirThrows : string -> bool        (* fs.mkdirSync(dir, { recursive: true }) throws *)
}.

(** What a run finds in the artifact directory: what [loadIndexMeta]
    returns ([None] for [null]: the file is missing, unreadable or
    unparseable), which is used without any check of its shape, and the
    parsed [file_hashes.json] and the records of [symbols.jsonl], in the
    shapes of their types, each [None] when the file is missing or
    unreadable. *)
Record PreviousIndex : Type := mkPrevious {
  p_loaded_meta : option (Loose IndexMeta);
  p_file_hashes : option FileHashes;
  p_symbols : option (list Symbol)
}.

(** The previous metadata, when it has the shape of [IndexMeta]. *)
Definition p_meta (previous : PreviousIndex) : option IndexMeta :=
  match p_loaded_meta previous with
  | Some (Typed meta) => Some meta
  | _ => None
  end.

Definition noIndex : PreviousIndex := mkPrevious None None None.

Inductive ErrorCode : Type :=
| ARK_INDEX_TOO_MANY_FILES
| ARK_INDEX_RIPGREP_MISSING
| ARK_INDEX_WRITE_ERROR.

Record BuildStats : Type := mkBuildStats {
  b_stats : IndexStats;
  incremental : bool;
  files_changed : nat
}.

Record IndexBuildResult : Type := mkResult {
  success : bool;
  error : option (ErrorCode * string);
  r_stats : option BuildStats;
  r_warnings : list IndexWarning
}.

(** The five artifacts of a build. *)
Record Artifacts (E : Externals) : Type := mkArtifacts {
  art_meta : IndexMeta;
  art_repo_map : RepoMap E;
  art_test_map : TestMap;
  art_file_hashes : FileHashes;
  art_symbols : list Symbol
}.
Arguments art_meta {E} a.
Arguments art_repo_map {E} a.
Arguments art_test_map {E} a.
Arguments art_file_hashes {E} a.
Arguments art_symbols {E} a.

(** A run either rejects ([mkdirSync], [hasConfigChanged] or a hash
    computation threw outside any handler) or resolves with a result; a
    run that wrote its artifacts also carries them and the operations of
    the writer. When a write throws, the run resolves with
    [ARK_INDEX_WRITE_ERROR]; which files it had replaced by then is not
    modelled. *)
Inductive BuildOutcome (E : Externals) : Type :=
| Rejected
| Resolved (result : IndexBuildResult)
    (written : option (Artifacts E * list FsOp)).
Arguments Rejected {E}.
Arguments Resolved {E} result written.

Definition META_SCHEMA_VERSION : string := "1.0.0".
Definition ARK_VERSION : string := "0.1.0".

(** State of the extraction loop of [buildIndex]. *)
Record LoopState : Type := mkLoop {
  allSymbols : list Symbol;
  existingIds : StringSet;
  adaptersUsed : StringSet;
  loopWarnings : list IndexWarning
}.

(** The body of the extraction loop for one discovered file. *)
Definition extractStep (E : Externals) (fs : FileSystem)
  (adapters : list IndexAdapter) (filesToIndex : list string)
  (cachedSymbols : StrMap (list Symbol)) (st : LoopState) (f : DiscoveredFile)
  : LoopState :=
  let needsExtraction := JS.arrayIncludes filesToIndex (path f) in
  match (if negb needsExtraction then map_get cachedSymbols (path f)
         else None) with
  | Some cached =>
      mkLoop (allSymbols st ++ cached)
        (fold_left set_add (map symbol_id cached) (existingIds st))
        (adaptersUsed st) (loopWarnings st)
  | None =>
      let (result, ids) :=
        extractSymbolsFromFile E fs (path f) (absolutePath f) adapters
          (existingIds st) in
      mkLoop (allSymbols st ++ x_symbols result) ids
        (match adapterUsed result with
         | Some nm => if JS.truthy nm then set_add (adaptersUsed st) nm
                      else adaptersUsed st
         | None => adaptersUsed st
         end)
        (match x_error result with
         | Some msg =>
             if JS.truthy msg
             then (loopWarnings st
                   ++ [mkWarning "ARK_INDEX_EXTRACTION_ERROR" (Some (path f)) msg])
             else loopWarnings st
         | None => loopWarnings st
         end)
  end.

(** [path.join(arkDir, 'index')], the index directory. *)
Definition indexDirOf (arkDirPath : string) : string :=
  Path.join arkDirPath "index".

(** [ensureIndexDir]: the path it returns, and whether it created the
    directory; [mkdirSync] may throw. *)
Definition ensureIndexDir (w : World) (arkDirPath : string)
  : Outcome (string * bool) :=
  let indexDir := Path.join arkDirPath "index" in
  if negb (indexDirExists w indexDir)
  then if mkdirThrows w indexDir then Throws else Returned (indexDir, true)
  else Returned (indexDir, false).

Definition failure (code : ErrorCode) (message : string)
  (ws : list IndexWarning) : IndexBuildResult :=
  mkResult false (Some (code, message)) None ws.

(** [buildIndex] *)
Definition buildIndex (E : Externals) (options : IndexBuildOptions)
  (w : World) (previous : PreviousIndex) : BuildOutcome E :=
  if negb (ripgrepAvailable w)
  then Resolved
         (failure ARK_INDEX_RIPGREP_MISSING
            "ripgrep (rg) is not installed or not in PATH" [])
         None
  else
    match ensureIndexDir w (arkDir options) with
    | Throws => Rejected
    | Returned (indexDir, _) =>
    (* Load previous index state *)
    let previousMeta := p_loaded_meta previous in
    let previousHashes :=
      if force options then None else loadFileHashes (p_file_hashes previous) in
    (* Check for config changes *)
    let currentConfig :=
      mkCurrentConfig (opt_includeGlobs options) (opt_excludeGlobs options)
        (opt_maxFileKb options) (opt_respectGitignore options)
        (map adapter_name (opt_adapters options)) in
    match hasConfigChangedLoose currentConfig previousMeta with
    | Throws => Rejected
    | Returned configChanged =>
    let forceFullIndex := force options || configChanged in
    (* Discover files *)
    let found := discovery w in
    match find (fun err => JS.includes (snd err) "exceeding max_files")
            (errors found) with
    | Some err =>
        Resolved (failure ARK_INDEX_TOO_MANY_FILES (snd err) []) None
    | None =>
        let warnings0 :=
          map (fun sk => mkWarning "ARK_INDEX_FILE_SKIPPED" (Some (fst sk))
                           (snd sk))
            (skipped found) in
        (* Analyze changes *)
        let analysis :=
          if forceFullIndex
          then Some (map (fun f => mkChange (path f) New None) (files found))
          else snd (analyzeChanges (fsys w) (files found) previousHashes) in
        match analysis with
        | None => Rejected
        | Some changes =>
            let filesToIndex :=
              if forceFullIndex then map path (files found)
              else getFilesToIndex changes in
            let filesChanged :=
              if forceFullIndex then List.length (files found)
              else getChangedCount changes in
            let isIncremental :=
              negb forceFullIndex
              && match previousHashes with Some _ => true | None => false end in
            let cachedSymbols :=
              if isIncremental then loadCachedSymbols (p_symbols previous)
              else [] in
            (* Extract symbols *)
            let st :=
              fold_left
                (extractStep E (fsys w) (opt_adapters options) filesToIndex
                   cachedSymbols)
                (files found) (mkLoop [] [] [] warnings0) in
            let repoMap := buildRepoMap E (fsys w) (files found)
                             (repoRoot options) in
            let testMap := buildTestMap (fsys w) (files found) in
            match buildFileHashes (fsys w) changes (files found)
                    (gitCommit w) with
            | None => Rejected
            | Some fileHashes =>
                let allWarnings := loopWarnings st in
                let indexStats :=
                  mkStats (Z.of_nat (List.length (files found)))
                    (Z.of_nat (List.length (files found))
                     - Z.of_nat (List.length (skipped found)))%Z
                    (Z.of_nat (List.length (skipped found)))
                    (Z.of_nat (List.length (allSymbols st)))
                    (Z.of_nat (List.length (tests testMap)))
                    (endTime w - startTime w)%Z in
                let buildStats :=
                  mkBuildStats indexStats isIncremental filesChanged in
                let metaStatus :=
                  if 0 <? List.length allWarnings then Partial else Success in
                let meta :=
                  mkMeta META_SCHEMA_VERSION ARK_VERSION (nowISO w)
                    (repoRoot options) (gitCommit w) metaStatus indexStats
                    (mkMetaConfig (opt_includeGlobs options)
                       (opt_excludeGlobs options) (opt_maxFileKb options)
                       (opt_respectGitignore options) (adaptersUsed st))
                    allWarnings in
                match writeFailure w with
                | None =>
                  Resolved
                       (mkResult true None (Some buildStats) allWarnings)
                       (Some
                          (mkArtifacts E meta repoMap testMap fileHashes
                             (allSymbols st),
                           writeIndexFiles (RepoMap E) TestMap (prettyMeta E)
                             (prettyRepoMap E) (prettyTestMap E)
                             (prettyFileHashes E) (stringifySymbol E)
                             indexDir meta repoMap testMap fileHashes
                             (allSymbols st)))
                | Some msg =>
                  Resolved
                       (failure ARK_INDEX_WRITE_ERROR
                          ("Failed to write index files: " ++ msg) allWarnings)
                       None
                end
            end
        end
    end
    end
    end.

(** What the next run finds after a run that wrote its artifacts: parsing
    gives back what was serialized. *)
Definition storedBy {E : Externals} (previous : PreviousIndex)
  (outcome : BuildOutcome E) : PreviousIndex :=
  match outcome with
  | Resolved _ (Some (a, _)) =>
      mkPrevious (Some (Typed (art_meta a))) (Some (art_file_hashes a))
        (Some (art_symbols a))
  | _ => previous
  end.

(** [stats.files_changed] of a run, when it reports statistics. *)
Definition filesChangedOf {E : Externals} (outcome : BuildOutcome E)
  : option nat :=
  match outcome with
  | Resolved result _ => option_map files_changed (r_stats result)
  | Rejected => None
  end.

(** The symbols a run wrote. *)
Definition symbolsOf {E : Externals} (outcome : BuildOutcome E)
  : option (list Symbol) :=
  match outcome with
  | Resolved _ (Some (a, _)) => Some (art_symbols a)
  | _ => None
  end.


(* ------------------------------------------------------------------ *)
(** ** The artifact directory on disk

    What the operations of the writer leave on disk and how the verifier
    reads it back. *)

(** The regular files of a disk: the text under each path. *)
Definition Disk : Type := string -> option string.

(** [fs.writeFileSync(target, content)] and [fs.renameSync(source,
    target)], for calls that do not throw. *)
Definition applyOp (d : Disk) (op : FsOp) : Disk :=
  match op with
  | WriteFile target content =>
      fun p => if String.eqb p target then Some content else d p
  | Rename source target =>
      fun p => if String.eqb p target then d source
               else if String.eqb p source then None
               else d p
  end.

Definition runOps (d : Disk) (ops : list FsOp) : Disk := fold_left applyOp ops d.

(** [JSON.parse] at the artifacts: the message of the error it throws, or
    the value, of the shape of its type or not; for [repo_map.json] and
    [test_map.json] the verifier only asks whether the text parses, and so
    it does for a line of [symbols.jsonl]. *)
Record Parsers : Type := mkParsers {
  parseMeta : string -> string + Loose IndexMeta;
  parseFileHashes : string -> string + Loose FileHashes;
  parseJson : string -> string + unit;
  parsesLine : string -> bool
}.

(** [fs.existsSync(p)], then [JSON.parse(fs.readFileSync(p, 'utf-8'))]. *)
Definition readArtifact {A : Type} (parse : string -> string + A) (d : Disk)
  (p : string) : Stored A :=
  match d p with
  | None => Missing
  | Some text =>
      match parse text with
      | inl message => Unparseable message
      | inr a => Parsed a
      end
  end.

(** A line of [symbols.jsonl] as the verifier treats it: dropped when
    [line.trim()] is empty, else handed to [JSON.parse]. *)
Definition lineOf (P : Parsers) (l : string) : JsonLine :=
  if negb (JS.truthy (JS.trim l)) then BlankLine
  else if parsesLine P l then ValidLine else InvalidLine.

(** The artifact directory as [verifyIndex(indexDir)] finds it. *)
Definition readIndex (P : Parsers) (d : Disk) (indexDir : string)
  : StoredIndex :=
  mkStored
    (readArtifact (parseMeta P) d (Path.join indexDir "meta.json"))
    (readArtifact (parseJson P) d (Path.join indexDir "repo_map.json"))
    (match d (Path.join indexDir "symbols.jsonl") with
     | None => Missing
     | Some text => Parsed (map (lineOf P) (JS.split "010"%char text))
     end)
    (readArtifact (parseJson P) d (Path.join indexDir "test_map.json"))
    (readArtifact (parseFileHashes P) d
       (Path.join indexDir "file_hashes.json")).

(* ------------------------------------------------------------------ *)
(** ** Entrypoints ([entrypoints.ts]) *)

Inductive EntrypointType : Type := Executable | ModuleEntry | Library.

Record Entrypoint : Type := mkEntrypoint {
  ep_path : string;
  ep_type : EntrypointType;
  ep_description : string
}.

Module Entrypoints.
Import Regex.

(** [ENTRYPOINT_PATTERNS] *)
Definition ENTRYPOINT_PATTERNS : list (re * EntrypointType * string) :=
  [ (* /^main\.(ts|js|mjs|go|rs|py)$/ *)
    (seq [Bol; lit "main.";
          Grp 1 (alt [lit "ts"; lit "js"; lit "mjs"; lit "go"; lit "rs";
                      lit "py"]);
          Eol],
     Executable, "Main application entrypoint");
    (* /^index\.(ts|js|mjs|py)$/ *)
    (seq [Bol; lit "index.";
          Grp 1 (alt [lit "ts"; lit "js"; lit "mjs"; lit "py"]); Eol],
     ModuleEntry, "Module entrypoint");
    (* /^mod\.rs$/ *)
    (seq [Bol; lit "mod.rs"; Eol], ModuleEntry, "Rust module entrypoint");
    (* /^__init__\.py$/ *)
    (seq [Bol; lit "__init__.py"; Eol], ModuleEntry,
     "Python package entrypoint");
    (* /^lib\.(ts|js|rs)$/ *)
    (seq [Bol; lit "lib."; Grp 1 (alt [lit "ts"; lit "js"; lit "rs"]); Eol],
     Library, "Library entrypoint") ].

(** [isEntrypoint] *)
Definition isEntrypoint (filePath : string) : bool :=
  let basename := Path.basename filePath in
  existsb (fun row => Detection.test (fst (fst row)) basename)
    ENTRYPOINT_PATTERNS.

(** [getEntrypointInfo] *)
Definition getEntrypointInfo (filePath : string)
  : option (EntrypointType * string) :=
  let basename := Path.basename filePath in
  match find (fun row => Detection.test (fst (fst row)) basename)
          ENTRYPOINT_PATTERNS with
  | Some (_, type, description) => Some (type, description)
  | None => None
  end.

(** [findModuleEntrypoints]: the files that pass the two [continue]s and
    the test, in the order of the list. *)
Definition findModuleEntrypoints (fls : list DiscoveredFile)
  (modulePath : string) : list string :=
  let modulePrefix :=
    if String.eqb modulePath "." then "" else modulePath ++ "/" in
  map path
    (filter
       (fun f =>
          (if String.eqb modulePrefix ""
           then negb (JS.includes (path f) "/")
           else JS.startsWith (path f) modulePrefix
                && negb (JS.includes
                           (JS.drop (String.length modulePrefix) (path f))
                           "/"))
          && isEntrypoint (path f))
       fls).

Section Sorting.
(** [a.localeCompare(b)], which depends on the locale of the host. *)
Variable localeCompare : string -> string -> Z.

Definition byPath (a b : Entrypoint) : Z :=
  localeCompare (ep_path a) (ep_path b).

(** [findEntrypoints] *)
Definition findEntrypoints (fls : list DiscoveredFile) : list Entrypoint :=
  stableSort byPath
    (flat_map
       (fun f =>
          match getEntrypointInfo (path f) with
          | Some (type, description) =>
              [mkEntrypoint (path f) type description]
          | None => []
          end)
       fls).

(** What the body of the loop of [findRootEntrypoints] pushes for one
    file. *)
Definition rootEntrypointsOf (f : DiscoveredFile) : list Entrypoint :=
  let parts := JS.split "/"%char (path f) in
  ((if List.length parts =? 1
    then match getEntrypointInfo (path f) with
         | Some (type, description) =>
             [mkEntrypoint (path f) type description]
         | None => []
         end
    else [])
   ++
   (match parts with
    | first :: _ =>
        if (2 <=? List.length parts)
           && JS.arrayIncludes ["bin"; "scripts"; "cmd"] first
        then if String.eqb first "bin"
             then [mkEntrypoint (path f) Executable
                     ("CLI entrypoint: " ++ Path.basename (path f))]
             else []
        else []
    | [] => []
    end))%list.

(** [findRootEntrypoints]; [repoRoot] is not used. *)
Definition findRootEntrypoints (fls : list DiscoveredFile)
  (repoRoot : string) : list Entrypoint :=
  stableSort byPath (flat_map rootEntrypointsOf fls).

End Sorting.

End Entrypoints.

(* ------------------------------------------------------------------ *)
(** ** File discovery ([discovery.ts])

    The host runs ripgrep and answers the questions about single files;
    [isWithinRoot], [isSymlink], [isReadable] and [getFileStats] of
    [filter.ts] are among its fields. *)

Record DiscoveryOptions : Type := mkDiscoveryOptions {
  d_includeGlobs : list string;
  d_excludeGlobs : list string;
  d_maxFileKb : Z;
  d_maxFiles : Z;
  d_respectGitignore : bool;
  d_followSymlinks : bool;
  d_repoRoot : string
}.

(** What [spawnSync] returns: the message of [rg.error], [rg.status],
    [rg.stdout] and [rg.stderr]. *)
Record SpawnResult : Type := mkSpawn {
  rg_error : option string;
  rg_status : option Z;
  rg_stdout : option string;
  rg_stderr : string
}.

Record DiscoveryHost : Type := mkDiscoveryHost {
  spawnRipgrep : list string -> string -> SpawnResult;  (* args, cwd *)
  resolvePath : string -> string -> string;    (* path.resolve(root, p) *)
  isWithinRoot : string -> string -> bool;
  isSymlink : string -> bool;
  (* fs.realpathSync: the path, or the message of the error thrown, when
     it is an Error *)
  realpathSync : string -> option string + string;
  existsSync : string -> bool;
  isReadable : string -> bool;
  getFileStats : string -> option (Z * string)   (* size, mtime *)
}.

(** [buildRipgrepArgs] *)
Definition buildRipgrepArgs (options : DiscoveryOptions) : list string :=
  (["--files"; "--hidden"]
   ++ (if d_followSymlinks options then ["--follow"] else [])
   ++ (if negb (d_respectGitignore options) then ["--no-ignore"] else [])
   ++ ["--glob"; "!**/.git/**"; "--glob"; "!**/.ark/**"]
   ++ flat_map (fun glob => ["--glob"; ("!" ++ glob)%string])
        (d_excludeGlobs options)
   ++ (let hasDefaultInclude :=
         match d_includeGlobs options with
         | [glob] => String.eqb glob "**/*"
         | _ => false
         end in
       if negb hasDefaultInclude
       then flat_map (fun glob => ["--glob"; glob]) (d_includeGlobs options)
       else []))%list.

(** [filePath.split(path.sep).join('/')], with [/] for [path.sep]. *)
Definition normalizeToForwardSlashes (filePath : string) : string :=
  JS.join "/" (JS.split "/"%char filePath).

(** [Math.ceil(size / 1024)] *)
Definition sizeKbOf (size : Z) : Z := (- ((- size) / 1024))%Z.

(** The body of the loop of [discoverFiles] for one path: the reason for
    skipping it, or the file. *)
Definition discoverOne (H : DiscoveryHost) (options : DiscoveryOptions)
  (relativePath : string) : (string * string) + DiscoveredFile :=
  let absolutePath := resolvePath H (d_repoRoot options) relativePath in
  let normalizedPath := normalizeToForwardSlashes relativePath in
  if negb (isWithinRoot H relativePath (d_repoRoot options))
  then inl (normalizedPath, "Path traversal detected")
  else if negb (d_followSymlinks options) && isSymlink H absolutePath
  then inl (normalizedPath, "Symlink skipped")
  else
    let resolved : (string * string) + string :=
      if d_followSymlinks options && isSymlink H absolutePath
      then match realpathSync H absolutePath with
           | inr resolvedPath =>
               if negb (existsSync H resolvedPath)
               then inl (normalizedPath, "Symlink target does not exist")
               else inr resolvedPath
           | inl thrown =>
               inl (normalizedPath,
                    "Failed to resolve symlink: "
                    ++ match thrown with
                       | Some message => message
                       | None => "Unknown error"
                       end)
           end
      else inr absolutePath in
    match resolved with
    | inl skip => inl skip
    | inr resolvedPath =>
        if negb (isReadable H resolvedPath)
        then inl (normalizedPath, "Permission denied")
        else
          match getFileStats H resolvedPath with
          | None => inl (normalizedPath, "Unable to read file stats")
          | Some (fileSize, fileMtime) =>
              let sizeKb := sizeKbOf fileSize in
              if (d_maxFileKb options <? sizeKb)%Z
              then inl (normalizedPath,
                        "File size " ++ JS.ofZ sizeKb
                        ++ "KB exceeds max_file_kb "
                        ++ JS.ofZ (d_maxFileKb options) ++ "KB")
              else inr (mkFile normalizedPath absolutePath fileSize
                          fileMtime)
          end
    end.

(** The lines of the output of ripgrep, trimmed, without the empty ones. *)
Definition listedPaths (stdout : option string) : list string :=
  filter (fun l => 0 <? String.length l)
    (map JS.trim
       (JS.split "010"%char
          (match stdout with
           | Some s => if JS.truthy s then s else ""
           | None => ""
           end))).

(** The loop of [discoverFiles]. *)
Fixpoint discoverAll (H : DiscoveryHost) (options : DiscoveryOptions)
  (filePaths : list string) (result : DiscoveryResult) : DiscoveryResult :=
  match filePaths with
  | [] => result
  | relativePath :: rest =>
      discoverAll H options rest
        (match discoverOne H options relativePath with
         | inl skip =>
             mkDiscovery (files result) (skipped result ++ [skip])
               (errors result)
         | inr file =>
             mkDiscovery (files result ++ [file]) (skipped result)
               (errors result)
         end)
  end.

(** [discoverFiles] *)
Definition discoverFiles (H : DiscoveryHost) (options : DiscoveryOptions)
  : DiscoveryResult :=
  let rg := spawnRipgrep H (buildRipgrepArgs options) (d_repoRoot options) in
  match rg_error rg with
  | Some message =>
      mkDiscovery [] [] [("", "ripgrep execution failed: " ++ message)]
  | None =>
      if match rg_status rg with Some 2%Z => true | _ => false end
      then mkDiscovery [] [] [("", "ripgrep error: " ++ rg_stderr rg)]
      else
        let filePaths := listedPaths (rg_stdout rg) in
        if (d_maxFiles options <? Z.of_nat (List.length filePaths))%Z
        then mkDiscovery [] []
               [("", "Repository has " ++ JS.ofNat (List.length filePaths)
                     ++ " files, exceeding max_files limit of "
                     ++ JS.ofZ (d_maxFiles options))]
        else discoverAll H options filePaths (mkDiscovery [] [] [])
  end.

(** The options with which [buildIndex] calls [discoverFiles]:
    [followSymlinks] is not set. *)
Definition discoveryOptionsOf (options : IndexBuildOptions)
  : DiscoveryOptions :=
  mkDiscoveryOptions (opt_includeGlobs options) (opt_excludeGlobs options)
    (opt_maxFileKb options) (maxFiles options)
    (opt_respectGitignore options) false (repoRoot options).

(* ------------------------------------------------------------------ *)
(** ** Modules ([modules.ts]) *)

(** [Module]; [subdirectories] is absent until the repo map sets it. *)
Record Module : Type := mkModule {
  m_path : string;
  m_description : option string;
  m_entrypoints : list string;
  m_key_files : list string;
  m_responsibilities : list string;
  m_subdirectories : option (list SubDirectory)
}.

Definition PACKAGE_MANIFESTS : list string :=
  [ "package.json"; "Cargo.toml"; "go.mod"; "pyproject.toml"; "setup.py" ].

(** [findManifestDirectories] *)
Definition findManifestDirectories (fls : list DiscoveredFile) : StringSet :=
  fold_left
    (fun manifestDirs f =>
       let basename := Path.basename (path f) in
       if JS.arrayIncludes PACKAGE_MANIFESTS basename
       then
         let dir := Path.dirname (path f) in
         set_add manifestDirs
           (if String.eqb dir "." then "" else normalizeToForwardSlashes dir)
       else manifestDirs)
    fls [].

(** [findCodeDirectories] *)
Definition findCodeDirectories (fls : list DiscoveredFile) : StringSet :=
  fold_left
    (fun codeDirs f =>
       if isCodeFile (path f)
       then match JS.split "/"%char (path f) with
            | first :: _ :: _ => set_add codeDirs first
            | _ => codeDirs
            end
       else codeDirs)
    fls [].

(** [path.join(a, b, c)] *)
Definition join3 (a b c : string) : string :=
  match filter JS.truthy [a; b; c] with
  | [] => "."
  | parts => Path.normalize (JS.join "/" parts)
  end.

(** The loop of [extractDescriptionFromReadme] over the lines: the lines
    of the paragraph it stops with. *)
Fixpoint readmeParagraph (lines : list string) (inCodeBlock : bool)
  (paragraphLines : list string) : list string :=
  match lines with
  | [] => paragraphLines
  | l :: rest =>
      if JS.startsWith (JS.trim l) "```"
      then readmeParagraph rest (negb inCodeBlock) paragraphLines
      else if inCodeBlock then readmeParagraph rest inCodeBlock paragraphLines
      else
        let trimmed := JS.trim l in
        if JS.startsWith trimmed "#" then
          if 0 <? List.length paragraphLines then paragraphLines
          else readmeParagraph rest inCodeBlock paragraphLines
        else if String.length trimmed =? 0 then
          if 0 <? List.length paragraphLines then paragraphLines
          else readmeParagraph rest inCodeBlock paragraphLines
        else if JS.startsWith trimmed "[![" || JS.includes trimmed "badge"
        then readmeParagraph rest inCodeBlock paragraphLines
        else readmeParagraph rest inCodeBlock (paragraphLines ++ [trimmed])
  end.

(** [extractDescriptionFromReadme]: a file that does not exist cannot be
    read. *)
Definition extractDescriptionFromReadme (fs : FileSystem)
  (repoRoot moduleDir : string) : option string :=
  let readmePath := join3 repoRoot moduleDir "README.md" in
  match readFileSync fs readmePath with
  | None => None
  | Some content =>
      let paragraphLines :=
        readmeParagraph (JS.split "010"%char content) false [] in
      if List.length paragraphLines =? 0 then None
      else
        let description := JS.join " " paragraphLines in
        Some (if 200 <? String.length description
              then JS.substring 0 197 description ++ "..."
              else description)
  end.

(** The directories of the modules, in the order in which [detectModules]
    adds them to its set. *)
Definition moduleDirsOf (fls : list DiscoveredFile) : StringSet :=
  let manifestDirs := findManifestDirectories fls in
  let codeDirs := findCodeDirectories fls in
  let moduleDirs := fold_left set_add manifestDirs [] in
  let hasRootManifest := set_has manifestDirs "" in
  if negb hasRootManifest
  then
    fold_left
      (fun moduleDirs dir =>
         let isCovered :=
           existsb
             (fun manifestDir =>
                String.eqb dir manifestDir
                || JS.startsWith dir (manifestDir ++ "/"))
             manifestDirs in
         if negb isCovered then set_add moduleDirs dir else moduleDirs)
      codeDirs moduleDirs
  else moduleDirs.

(** [detectModules]; the comparison of paths is that of the host. *)
Definition detectModules (localeCompare : string -> string -> Z)
  (fs : FileSystem) (fls : list DiscoveredFile) (repoRoot : string)
  : list Module :=
  stableSort (fun a b => localeCompare (m_path a) (m_path b))
    (map
       (fun moduleDir =>
          mkModule (if JS.truthy moduleDir then moduleDir else ".")
            (extractDescriptionFromReadme fs repoRoot moduleDir) [] [] []
            None)
       (moduleDirsOf fls)).

(* ------------------------------------------------------------------ *)
(** ** Reading the index ([api.ts])

    The methods of [IndexAPI] that read [symbols.jsonl], on a disk whose
    files can be read. [parseSymbol] is [JSON.parse(line) as Symbol], with
    [None] when it throws; a line that parses is taken to hold a symbol. *)

Inductive ApiError : Type :=
| IndexNotFoundError
| IndexCorruptError (message : string).

Definition SymbolKind_eqb (a b : SymbolKind) : bool :=
  match a, b with
  | KFunction, KFunction | KClass, KClass | KMethod, KMethod
  | KInterface, KInterface | KType, KType | KEnum, KEnum
  | KConstant, KConstant | KModule, KModule | KVariable, KVariable => true
  | _, _ => false
  end.

(** [FindSymbolsOptions], with the defaults filled in. *)
Record FindSymbolsOptions : Type := mkFindOptions {
  fo_limit : Z;
  fo_kind : option SymbolKind;
  fo_exactMatch : bool
}.

Definition defaultFindOptions : FindSymbolsOptions :=
  mkFindOptions 100 None false.

Module IndexAPI.
Section Reader.
Variable parseSymbol : string -> option Symbol.

(** [content.split('\n').filter((line) => line.trim())] *)
Definition symbolLines (content : string) : list string :=
  filter (fun l => JS.truthy (JS.trim l)) (JS.split "010"%char content).

(** [getAllSymbols], for the index directory [path.join(arkDir,
    'index')]. *)
Definition getAllSymbols (d : Disk) (arkDirPath : string)
  : ApiError + list Symbol :=
  match d (Path.join (Path.join arkDirPath "index") "symbols.jsonl") with
  | None => inl IndexNotFoundError
  | Some content =>
      inr (flat_map
             (fun l => match parseSymbol l with
                       | Some symbol => [symbol]
                       | None => []
                       end)
             (symbolLines content))
  end.

(** [getSymbolsInFile] *)
Definition getSymbolsInFile (d : Disk) (arkDirPath filePath : string)
  : ApiError + list Symbol :=
  match d (Path.join (Path.join arkDirPath "index") "symbols.jsonl") with
  | None => inl IndexNotFoundError
  | Some content =>
      inr (flat_map
             (fun l => match parseSymbol l with
                       | Some symbol =>
                           if String.eqb (file symbol) filePath
                           then [symbol] else []
                       | None => []
                       end)
             (symbolLines content))
  end.

(** The test of [findSymbols] on a parsed symbol. *)
Definition isMatch (lowerQuery : string) (options : FindSymbolsOptions)
  (symbol : Symbol) : bool :=
  match fo_kind options with
  | Some k => SymbolKind_eqb (kind symbol) k
  | None => true
  end
  && (let lowerName := JS.toLowerCase (name symbol) in
      if fo_exactMatch options then String.eqb lowerName lowerQuery
      else JS.startsWith lowerName lowerQuery).

(** The loop of [findSymbols], with its [break] at the limit. *)
Fixpoint findLoop (lowerQuery : string) (options : FindSymbolsOptions)
  (lines : list string) (results : list Symbol) : list Symbol :=
  match lines with
  | [] => results
  | l :: rest =>
      if (fo_limit options <=? Z.of_nat (List.length results))%Z
      then results
      else
        match parseSymbol l with
        | Some symbol =>
            if isMatch lowerQuery options symbol
            then findLoop lowerQuery options rest (results ++ [symbol])
            else findLoop lowerQuery options rest results
        | None => findLoop lowerQuery options rest results
        end
  end.

(** The comparator of the final sort. *)
Definition byRelevance (lowerQuery : string) (a b : Symbol) : Z :=
  let aExact := String.eqb (JS.toLowerCase (name a)) lowerQuery in
  let bExact := String.eqb (JS.toLowerCase (name b)) lowerQuery in
  if aExact && negb bExact then (-1)%Z
  else if negb aExact && bExact then 1%Z
  else (Z.of_nat (String.length (name a))
        - Z.of_nat (String.length (name b)))%Z.

(** [findSymbols] *)
Definition findSymbols (d : Disk) (arkDirPath query : string)
  (options : FindSymbolsOptions) : ApiError + list Symbol :=
  match d (Path.join (Path.join arkDirPath "index") "symbols.jsonl") with
  | None => inl IndexNotFoundError
  | Some content =>
      let lowerQuery := JS.toLowerCase query in
      inr (stableSort (byRelevance lowerQuery)
             (findLoop lowerQuery options (symbolLines content) []))
  end.

End Reader.
End IndexAPI.

(* ------------------------------------------------------------------ *)
(** ** The baseline Python extractor ([extractors/python.ts]) *)

Module PythonExtractor.
Import Regex.

Definition isUpper (c : ascii) : bool :=
  let n := JS.code c in (65 <=? n) && (n <=? 90).

Definition isUpperDigitUnderscore (c : ascii) : bool :=
  let n := JS.code c in
  ((65 <=? n) && (n <=? 90)) || ((48 <=? n) && (n <=? 57)) || (n =? 95).

(** [/^class\s+(\w+)(?:\s*\(|:)/] *)
Definition classPattern : re :=
  seq [ Bol; lit "class"; plus space; Grp 1 (plus word);
        alt [seq [star space; chr "("%char]; chr ":"%char] ].

(** [/^(async\s+)?def\s+(\w+)\s*\(/] *)
Definition funcPattern : re :=
  seq [ Bol; opt (Grp 1 (seq [lit "async"; plus space])); lit "def";
        plus space; Grp 2 (plus word); star space; chr "("%char ].

(** [/^(U)\s*(?:T)?=/], with [U] for an upper-case letter followed by any
    number of upper-case letters, digits and underscores, and [T] for a
    colon, white space, word characters and white space (a type
    annotation). *)
Definition varPattern : re :=
  seq [ Bol; Grp 1 (seq [Chr isUpper; star (Chr isUpperDigitUnderscore)]);
        star space;
        opt (seq [chr ":"%char; star space; plus word; star space]);
        chr "="%char ].

(** [match[n]] for a group that takes part in every match of its
    pattern. *)
Definition groupOf (n : nat) (mt : result) : string :=
  match group n mt with Some s => s | None => "" end.

(** The loop of [findPythonBlockEnd]: [ls] are the lines from index [i]
    on. *)
Fixpoint blockEnd (ls : list string) (i : nat) (baseIndent : nat)
  (endLine : nat) : nat :=
  match ls with
  | [] => endLine
  | l :: rest =>
      let trimmed := JS.trimStart l in
      if (String.length trimmed =? 0) || JS.startsWith trimmed "#"
      then blockEnd rest (S i) baseIndent endLine
      else
        let currentIndent := String.length l - String.length trimmed in
        if currentIndent <=? baseIndent then endLine
        else blockEnd rest (S i) baseIndent i
  end.

(** [findPythonBlockEnd] *)
Definition findPythonBlockEnd (lines : list string) (startLine : nat)
  (baseIndent : nat) : nat :=
  blockEnd (skipn (S startLine) lines) (S startLine) baseIndent startLine.

(** [s.length > 200 ? s.substring(0, 197) + '...' : s] *)
Definition truncate200 (s : string) : string :=
  if 200 <? String.length s then JS.substring 0 197 s ++ "..." else s.

(** The three double quotes and the three apostrophes. *)
Definition tripleQuotes : list string :=
  [ String "034" (String "034" (String "034" "")); "'''" ].

(** The inner loop of [extractPythonDocstring] over the lines after the
    first one: the docstring it returns, or [None] when it runs out or
    breaks. *)
Fixpoint docstringBody (quote : string) (ls : list string) : option string :=
  match ls with
  | [] => None
  | raw :: rest =>
      let l := JS.trim raw in
      if JS.endsWith l quote then
        let lastContent :=
          JS.trim (JS.substring 0 (String.length l - 3) l) in
        if JS.truthy lastContent then Some (truncate200 lastContent)
        else None
      else if JS.truthy l && negb (JS.startsWith l ":")
      then Some (truncate200 l)
      else docstringBody quote rest
  end.

(** The loop over the two quotes. *)
Fixpoint docstringQuotes (quotes : list string) (firstLine : string)
  (following : list string) : option string :=
  match quotes with
  | [] => None
  | quote :: more =>
      if JS.startsWith firstLine quote then
        if JS.endsWith firstLine quote && (6 <? String.length firstLine)
        then Some (truncate200
                     (JS.trim (JS.substring 3 (String.length firstLine - 3)
                                 firstLine)))
        else
          let content := JS.trim (JS.drop 3 firstLine) in
          if JS.truthy content then Some (truncate200 content)
          else
            match docstringBody quote following with
            | Some d => Some d
            | None => docstringQuotes more firstLine following
            end
      else docstringQuotes more firstLine following
  end.

(** The first loop of [extractPythonDocstring]: the index after the first
    of the lines [ls] (which start at index [i]) that has a colon. *)
Fixpoint afterColon (ls : list string) (i : nat) : option nat :=
  match ls with
  | [] => None
  | l :: rest =>
      if JS.includes l ":" then Some (i + 1) else afterColon rest (S i)
  end.

(** [extractPythonDocstring] *)
Definition extractPythonDocstring (lines : list string)
  (definitionLine : nat) : option string :=
  let searchStart :=
    match afterColon (firstn 5 (skipn definitionLine lines)) definitionLine
    with
    | Some i => i
    | None => definitionLine + 1
    end in
  match nth_error lines searchStart with
  | None => None
  | Some raw =>
      docstringQuotes tripleQuotes (JS.trim raw)
        (firstn 9 (skipn (S searchStart) lines))
  end.

(** The loop that extends a signature over the following lines. *)
Fixpoint signatureLoop (ls : list string) (signature : string) : string :=
  match ls with
  | [] => signature
  | l :: rest =>
      let signature' := signature ++ " " ++ JS.trim l in
      if JS.includes l ":" then signature' else signatureLoop rest signature'
  end.

(** The signature of a function. *)
Definition functionSignature (lines : list string) (lineIndex : nat)
  (trimmedLine : string) : string :=
  let signature :=
    if negb (JS.includes trimmedLine ":")
    then signatureLoop (firstn 4 (skipn (S lineIndex) lines)) trimmedLine
    else trimmedLine in
  let colonIndex := JS.indexOf signature ":" in
  let signature :=
    if (0 <? colonIndex)%Z
    then JS.substring 0 (Z.to_nat colonIndex) signature
    else signature in
  truncate200 signature.

(** The class context of the loop: [currentClass] and
    [currentClassIndent]. *)
Record Context : Type := mkContext {
  currentClass : option string;
  currentClassIndent : nat
}.

(** The body of the loop of [extractPythonSymbols] for the line at
    [lineIndex]: the context after it and the symbols it pushes. *)
Definition lineStep (lines : list string) (lineIndex : nat) (l : string)
  (ctx : Context) : Context * list AdapterSymbol :=
  let trimmedLine := JS.trimStart l in
  let indent := String.length l - String.length trimmedLine in
  (* Update class context *)
  let ctx :=
    match currentClass ctx with
    | Some _ =>
        if (indent <=? currentClassIndent ctx)
           && (0 <? String.length trimmedLine)
        then mkContext None (currentClassIndent ctx)
        else ctx
    | None => ctx
    end in
  let classMatch := exec false classPattern trimmedLine in
  match classMatch, indent =? 0 with
  | Some mt, true =>
      let name := groupOf 1 mt in
      let endLine := findPythonBlockEnd lines lineIndex indent in
      (mkContext (Some name) indent,
       [ mkAdapterSymbol name KClass
           (mkSpan (mkPosition (Z.of_nat lineIndex + 1) (Z.of_nat indent))
                   (mkPosition (Z.of_nat endLine + 1) 0%Z))
           (Some (removeFirst false (seq [chr ":"%char; Eol]) trimmedLine))
           (extractPythonDocstring lines lineIndex)
           (Some (if JS.startsWith name "_" then VPrivate else VExport)) ])
  | _, _ =>
      let fromFunction :=
        match exec false funcPattern trimmedLine with
        | Some mt =>
            let name := groupOf 2 mt in
            let isMethod :=
              match currentClass ctx with
              | Some _ => currentClassIndent ctx <? indent
              | None => false
              end in
            let kind := if isMethod then KMethod else KFunction in
            if (indent =? 0) || isMethod then
              let endLine := findPythonBlockEnd lines lineIndex indent in
              [ mkAdapterSymbol
                  (match currentClass ctx with
                   | Some c =>
                       if isMethod && JS.truthy c then c ++ "." ++ name
                       else name
                   | None => name
                   end)
                  kind
                  (mkSpan
                     (mkPosition (Z.of_nat lineIndex + 1) (Z.of_nat indent))
                     (mkPosition (Z.of_nat endLine + 1) 0%Z))
                  (Some (functionSignature lines lineIndex trimmedLine))
                  (extractPythonDocstring lines lineIndex)
                  (Some (if JS.startsWith name "__"
                            && negb (JS.endsWith name "__")
                         then VPrivate
                         else if JS.startsWith name "_" then VInternal
                         else VExport)) ]
            else []
        | None => []
        end in
      let fromVariable :=
        match exec false varPattern trimmedLine, indent =? 0 with
        | Some mt, true =>
            [ mkAdapterSymbol (groupOf 1 mt) KConstant
                (mkSpan (mkPosition (Z.of_nat lineIndex + 1) 0%Z)
                        (mkPosition (Z.of_nat lineIndex + 1)
                           (Z.of_nat (String.length l))))
                (Some (if 100 <? String.length trimmedLine
                       then JS.substring 0 97 trimmedLine ++ "..."
                       else trimmedLine))
                None
                (Some VExport) ]
        | _, _ => []
        end in
      (ctx, (fromFunction ++ fromVariable)%list)
  end.

Fixpoint scanLines (lines : list string) (todo : list string)
  (lineIndex : nat) (ctx : Context) : list AdapterSymbol :=
  match todo with
  | [] => []
  | l :: todo' =>
      let (ctx', pushed) := lineStep lines lineIndex l ctx in
      (pushed ++ scanLines lines todo' (S lineIndex) ctx')%list
  end.

(** [extractPythonSymbols] *)
Definition extractPythonSymbols (content filePath : string)
  : list AdapterSymbol :=
  let lines := JS.split "010"%char content in
  scanLines lines lines 0 (mkContext None 0).

End PythonExtractor.

(* ------------------------------------------------------------------ *)
(** ** Build commands ([buildcmds.ts]) *)

Record BuildCommands : Type := mkBuildCommands {
  bc_build : option string;
  bc_test_fast : option string;
  bc_test_full : option string
}.

Module BuildCmds.
Import Regex.

Section Manifests.

(** The host: [fs.existsSync], the numbers that are zero or [NaN], and
    [JSON.parse], which throws on a text that is not JSON. *)
Variable pathExists : string -> bool.
Variable number : Type.
Variable isZeroOrNaN : number -> bool.
Variable JSONparse : string -> option (Json number).
Variable fs : FileSystem.

Definition truthyJson (v : Json number) : bool :=
  match v with
  | JNull => false
  | JBool b => b
  | JNumber n => negb (isZeroOrNaN n)
  | JString s => JS.truthy s
  | JArray _ | JObject _ => true
  end.

(** [v[k]] for a value that is not [null] and a key that no prototype
    defines: an own property of an object, [undefined] otherwise. *)
Definition property (v : Json number) (k : string) : option (Json number) :=
  match v with
  | JObject o => obj_own o k
  | _ => None
  end.

(** [if (scripts[k])] *)
Definition hasScript (scripts : Json number) (k : string) : bool :=
  match property scripts k with
  | Some v => truthyJson v
  | None => false
  end.

(** [Object.keys(commands).length > 0 ? commands : null] *)
Definition orNull (commands : BuildCommands) : option BuildCommands :=
  match commands with
  | mkBuildCommands None None None => None
  | _ => Some commands
  end.

(** [extractFromPackageJson]; reading a property of [null] throws. *)
Definition extractFromPackageJson (repoRoot : string)
  : option BuildCommands :=
  let packagePath := Path.join repoRoot "package.json" in
  if negb (pathExists packagePath) then None
  else
    match readFileSync fs packagePath with
    | None => None
    | Some content =>
        match JSONparse content with
        | None | Some JNull => None
        | Some pkg =>
            let scripts :=
              match property pkg "scripts" with
              | Some v => if truthyJson v then v else JObject []
              | None => JObject []
              end in
            orNull
              (mkBuildCommands
                 (if hasScript scripts "build" then Some "npm run build"
                  else None)
                 (if hasScript scripts "test" then Some "npm test" else None)
                 (if hasScript scripts "test:full"
                  then Some "npm run test:full"
                  else if hasScript scripts "test:all"
                  then Some "npm run test:all"
                  else if hasScript scripts "test:ci"
                  then Some "npm run test:ci"
                  else if hasScript scripts "test" then Some "npm test"
                  else None))
        end
    end.

Definition isTargetStart (c : ascii) : bool :=
  let n := JS.code c in
  ((97 <=? n) && (n <=? 122)) || ((65 <=? n) && (n <=? 90)) || (n =? 95).

Definition isTargetChar (c : ascii) : bool :=
  let n := JS.code c in
  ((97 <=? n) && (n <=? 122)) || ((65 <=? n) && (n <=? 90))
  || ((48 <=? n) && (n <=? 57)) || (n =? 95) || (n =? 45).

(** [/^(N)\s*:/], with [N] for a letter or an underscore followed by any
    number of letters, digits, underscores and hyphens. *)
Definition targetPattern : re :=
  seq [ Bol; Grp 1 (seq [Chr isTargetStart; star (Chr isTargetChar)]);
        star space; chr ":"%char ].

(** The targets that the loop over the lines of a Makefile collects. *)
Definition makefileTargets (content : string) : StringSet :=
  fold_left
    (fun targets line =>
       match exec false targetPattern line with
       | Some mt => set_add targets (PythonExtractor.groupOf 1 mt)
       | None => targets
       end)
    (JS.split "010"%char content) [].

Definition extractFromMakefile (repoRoot : string) : option BuildCommands :=
  let makefilePath := Path.join repoRoot "Makefile" in
  if negb (pathExists makefilePath) then None
  else
    match readFileSync fs makefilePath with
    | None => None
    | Some content =>
        let targets := makefileTargets content in
        orNull
          (mkBuildCommands
             (if set_has targets "build" then Some "make build"
              else if set_has targets "all" then Some "make all"
              else None)
             (if set_has targets "test" then Some "make test" else None)
             (if set_has targets "test-all" then Some "make test-all"
              else if set_has targets "test-full" then Some "make test-full"
              else if set_has targets "test" then Some "make test"
              else None))
    end.

Definition extractFromCargoToml (repoRoot : string) : option BuildCommands :=
  if negb (pathExists (Path.join repoRoot "Cargo.toml")) then None
  else Some (mkBuildCommands (Some "cargo build") (Some "cargo test")
               (Some "cargo test --all-features")).

Definition extractFromPyprojectToml (repoRoot : string)
  : option BuildCommands :=
  if negb (pathExists (Path.join repoRoot "pyproject.toml")) then None
  else Some (mkBuildCommands (Some "pip install -e .") (Some "pytest")
               (Some "pytest --cov")).

Definition extractFromSetupPy (repoRoot : string) : option BuildCommands :=
  if negb (pathExists (Path.join repoRoot "setup.py")) then None
  else Some (mkBuildCommands (Some "pip install -e .") (Some "pytest")
               (Some "pytest --cov")).

Definition extractFromGoMod (repoRoot : string) : option BuildCommands :=
  if negb (pathExists (Path.join repoRoot "go.mod")) then None
  else Some (mkBuildCommands (Some "go build ./...") (Some "go test ./...")
               (Some "go test -race ./...")).

(** The loop of [extractBuildCommands] over its extractors. *)
Fixpoint firstCommands (extractors : list (string -> option BuildCommands))
  (repoRoot : string) : BuildCommands :=
  match extractors with
  | [] => mkBuildCommands None None None
  | extractor :: rest =>
      match extractor repoRoot with
      | Some commands => commands
      | None => firstCommands rest repoRoot
      end
  end.

Definition extractBuildCommands (repoRoot : string) : BuildCommands :=
  firstCommands
    [ extractFromMakefile; extractFromPackageJson; extractFromCargoToml;
      extractFromPyprojectToml; extractFromSetupPy; extractFromGoMod ]
    repoRoot.

End Manifests.

End BuildCmds.
(* ================================================================== *)
(** * Properties *)

(* ------------------------------------------------------------------ *)
(** ** [node:path] on sample paths *)

Example basename_examples :
  map Path.basename ["pkg/lib/core"; "a/"; "///"; ""; "a.ts"; "/x//y//"]
  = ["core"; "a"; ""; ""; "a.ts"; "y"].
Proof. reflexivity. Qed.

Example dirname_examples :
  map Path.dirname ["a/b/c.ts"; "c.ts"; "/c.ts"; "a//b"; "/a/b"; "a///"; "//a"; ""]
  = ["a/b"; "."; "/"; "a/"; "/a"; "."; "//"; "."].
Proof. reflexivity. Qed.

Example extname_examples :
  map Path.extname
    ["src/a.ts"; ".bashrc"; ".."; "a."; "a.b.c"; "noext"; "x/.git/"; "..a"; "dir.d/f"]
  = [".ts"; ""; ""; "."; ".c"; ""; ""; ".a"; ""].
Proof. reflexivity. Qed.

Example join_examples :
  map (fun d => Path.join d "meta.json")
    [".ark/index"; ""; "/"; "a//b/"; ".."; "a/../.."; "/.."; "./x/."]
  = [".ark/index/meta.json"; "meta.json"; "/meta.json"; "a/b/meta.json";
     "../meta.json"; "../meta.json"; "/meta.json"; "x/meta.json"].
Proof. reflexivity. Qed.

(* ------------------------------------------------------------------ *)
(** ** Substrings *)

(** [t] occurs in [s]. *)
Definition Contains (s t : string) : Prop :=
  exists a b : string, s = a ++ t ++ b.

Lemma startsWith_spec (s p : string) :
  JS.startsWith s p = true <-> exists b, s = p ++ b.
Proof.
  revert s; induction p as [|c p IH]; intros s; simpl.
  - split; [intros _; now exists s | reflexivity].
  - destruct s as [|d s]; simpl.
    + split; [discriminate | intros [b Hb]; discriminate].
    + rewrite andb_true_iff, Ascii.eqb_eq, IH. split.
      * intros [-> [b ->]]. now exists b.
      * intros [b Hb]. injection Hb as -> ->. split; [reflexivity | now exists b].
Qed.

Lemma includes_spec (s t : string) :
  JS.includes s t = true <-> Contains s t.
Proof.
  unfold Contains. induction s as [|c s IH].
  - cbn [JS.includes]. rewrite orb_false_r, startsWith_spec. split.
    + intros [b Hb]. now exists EmptyString, b.
    + intros [a [b H]]. destruct a; [now exists b | discriminate].
  - cbn [JS.includes]. rewrite orb_true_iff, startsWith_spec, IH. split.
    + intros [[b Hb] | [a [b Hab]]].
      * now exists EmptyString, b.
      * exists (String c a), b. simpl. now rewrite Hab.
    + intros [a [b H]]. destruct a as [|d a]; simpl in H.
      * left. now exists b.
      * right. injection H as _ H. now exists a, b.
Qed.

Lemma includes_false (s t : string) :
  JS.includes s t = false <-> ~ Contains s t.
Proof.
  rewrite <- includes_spec. destruct (JS.includes s t); split; congruence.
Qed.

(* ------------------------------------------------------------------ *)
(** ** Test tiers *)

(** The path or the name mentions [k], letter case aside. *)
Definition mentions (filePath : string) (testName : option string)
  (k : string) : Prop :=
  Contains (JS.toLowerCase filePath) k \/ Contains (lowerNameOf testName) k.

Definition integrationLike (filePath : string) (testName : option string)
  : Prop :=
  mentions filePath testName "integration" \/ mentions filePath testName "e2e".

(** The keywords of the slow tier: [perf] counts in the name only. *)
Definition slowLike (filePath : string) (testName : option string) : Prop :=
  mentions filePath testName "slow" \/ mentions filePath testName "benchmark"
  \/ Contains (lowerNameOf testName) "perf".

Lemma mentions_spec (filePath : string) (testName : option string)
  (k : string) :
  mentions filePath testName k
  <-> JS.includes (JS.toLowerCase filePath) k
      || JS.includes (lowerNameOf testName) k = true.
Proof.
  unfold mentions. now rewrite orb_true_iff, !includes_spec.
Qed.

Lemma integrationLike_spec (filePath : string) (testName : option string) :
  integrationLike filePath testName
  <-> JS.includes (JS.toLowerCase filePath) "integration"
      || JS.includes (JS.toLowerCase filePath) "e2e"
      || JS.includes (lowerNameOf testName) "integration"
      || JS.includes (lowerNameOf testName) "e2e" = true.
Proof.
  unfold integrationLike. rewrite !mentions_spec, !orb_true_iff. tauto.
Qed.

Lemma slowLike_spec (filePath : string) (testName : option string) :
  slowLike filePath testName
  <-> JS.includes (JS.toLowerCase filePath) "slow"
      || JS.includes (JS.toLowerCase filePath) "benchmark"
      || JS.includes (lowerNameOf testName) "slow"
      || JS.includes (lowerNameOf testName) "benchmark"
      || JS.includes (lowerNameOf testName) "perf" = true.
Proof.
  unfold slowLike. rewrite !mentions_spec, <- includes_spec, !orb_true_iff.
  tauto.
Qed.

(** C7, as the code has it. Both inputs are lowercased first (a null name
    counts as the empty string). [determineTestTier] returns [integration]
    exactly when the path or the name contains [integration] or [e2e];
    otherwise it returns [slow] exactly when the path or the name contains
    [slow] or [benchmark], or the name contains [perf]; otherwise it
    returns [fast]. *)
Theorem determineTestTier_cases (filePath : string) (testName : option string) :
  (determineTestTier filePath testName = Integration
   <-> integrationLike filePath testName)
  /\ (determineTestTier filePath testName = Slow
      <-> ~ integrationLike filePath testName /\ slowLike filePath testName)
  /\ (determineTestTier filePath testName = Fast
      <-> ~ integrationLike filePath testName /\ ~ slowLike filePath testName).
Proof.
  rewrite integrationLike_spec, slowLike_spec. unfold determineTestTier.
  destruct (_ || _ || _ || _); destruct (_ || _ || _ || _ || _);
    repeat split; try discriminate; intuition congruence.
Qed.

(** C7, the claim as stated fails: a path that contains [perf] (and none of
    the integration keywords) with a name that contains none of the
    keywords is classified [fast], not [slow]. *)
Lemma determineTestTier_perf_in_path :
  JS.includes "perf/render.test.ts" "perf" = true
  /\ JS.includes "perf/render.test.ts" "integration" = false
  /\ JS.includes "perf/render.test.ts" "e2e" = false
  /\ JS.includes "draws a frame" "integration" = false
  /\ JS.includes "draws a frame" "e2e" = false
  /\ determineTestTier "perf/render.test.ts" (Some "draws a frame") = Fast
  /\ Fast <> Slow.
Proof. repeat split; try reflexivity; discriminate. Qed.

(* ------------------------------------------------------------------ *)
(** ** Test identifiers *)

(** A parsed test carries a name, and the name is not empty. *)
Definition named (t : ParsedTest) : Prop :=
  exists n, pt_name t = Some n /\ JS.truthy n = true.

Lemma captured_truthy (pattern : Regex.re) (k : nat) (l s : string) :
  Parsing.captured pattern k l = Some s -> JS.truthy s = true.
Proof.
  unfold Parsing.captured.
  destruct (Regex.exec false pattern l) as [mt|]; [|discriminate].
  destruct (Regex.group k mt) as [g|]; [|discriminate].
  destruct (JS.truthy g) eqn:Hg; [|discriminate].
  now intros [= <-].
Qed.

Lemma parseLines_named (pattern : Regex.re) (k : nat)
  (prepare : string -> string) (ls : list string) (i : nat) :
  Forall named (Parsing.parseLines pattern k prepare ls i).
Proof.
  revert i; induction ls as [|l ls IH]; intros i; simpl; [constructor|].
  destruct (Parsing.captured pattern k (prepare l)) as [nm|] eqn:Hc; [|apply IH].
  constructor; [|apply IH].
  exists nm. split; [reflexivity | eapply captured_truthy; eassumption].
Qed.

Lemma rustLines_named (ls : list string) (i : nat) (expecting : bool)
  (attrLine : nat) :
  Forall named (Parsing.rustLines ls i expecting attrLine).
Proof.
  revert i expecting attrLine; induction ls as [|l ls IH];
    intros i expecting attrLine; simpl; [constructor|].
  destruct (_ || _); [apply IH|].
  destruct expecting; [|apply IH].
  destruct (Parsing.captured Parsing.rustFnPattern 1 (JS.trim l)) as [nm|] eqn:Hc;
    [|apply IH].
  constructor; [|apply IH].
  exists nm. split; [reflexivity | eapply captured_truthy; eassumption].
Qed.

Lemma parseTestNames_named (content : string) (framework : Framework) :
  Forall named (parseTestNames content framework).
Proof.
  destruct framework; simpl;
    try apply parseLines_named; try apply rustLines_named; constructor.
Qed.

Lemma parseTestsFromFile_named (fs : FileSystem) (filePath absPath : string)
  (framework : Framework) :
  Forall named (parseTestsFromFile fs filePath absPath framework).
Proof.
  unfold parseTestsFromFile. destruct (readFileSync fs absPath).
  - apply parseTestNames_named.
  - constructor.
Qed.

(** The identifier of an entry is [file::name] whenever it has a name. *)
Definition plainId (e : TestEntry) : Prop :=
  forall n, t_name e = Some n -> test_id e = t_file e ++ "::" ++ n.

Lemma entriesOf_plain (filePath : string) (pkg : option string)
  (parsedTests : list ParsedTest) (counter : nat) :
  Forall named parsedTests ->
  Forall plainId (entriesOf filePath pkg parsedTests counter).
Proof.
  intros H; revert counter; induction H as [|t ts [n [Hn Ht]] _ IH];
    intros counter; simpl; [constructor|].
  constructor; [|apply IH].
  intros n' Hn'. cbn in Hn' |- *. unfold generateTestId.
  rewrite Hn in Hn' |- *. injection Hn' as <-. cbn. now rewrite Ht.
Qed.

Lemma entriesOfFile_plain (fs : FileSystem) (f : DiscoveredFile) :
  Forall plainId (entriesOfFile fs f).
Proof.
  unfold entriesOfFile. destruct (_ =? 0).
  - constructor; [|constructor]. intros n Hn. discriminate.
  - apply entriesOf_plain, parseTestsFromFile_named.
Qed.

Lemma buildTestEntries_plain (fs : FileSystem) (testFiles : list DiscoveredFile) :
  Forall plainId (buildTestEntries fs testFiles).
Proof.
  unfold buildTestEntries. induction testFiles as [|f fls IH]; simpl.
  - constructor.
  - apply Forall_app. split; [apply entriesOfFile_plain | exact IH].
Qed.

(** C9. Two entries of [buildTestEntries] for the same file and the same
    non-null name have the same [test_id]: the identifier of a named test
    is [file::name], with no line or counter suffix. *)
Theorem named_tests_share_id (fs : FileSystem) (testFiles : list DiscoveredFile)
  (e1 e2 : TestEntry) (n : string) :
  In e1 (buildTestEntries fs testFiles) ->
  In e2 (buildTestEntries fs testFiles) ->
  t_file e1 = t_file e2 ->
  t_name e1 = Some n ->
  t_name e2 = Some n ->
  test_id e1 = test_id e2 /\ test_id e1 = t_file e1 ++ "::" ++ n.
Proof.
  intros H1 H2 Hf Hn1 Hn2.
  pose proof (buildTestEntries_plain fs testFiles) as HP.
  rewrite Forall_forall in HP.
  rewrite (HP e1 H1 n Hn1), (HP e2 H2 n Hn2), Hf. split; reflexivity.
Qed.

(** A test file in which the name [works] is used twice, on lines 1 and 3. *)
Definition twiceNamed : FileSystem :=
  mkFs (fun _ => None)
    (fun p => if String.eqb p "/repo/src/a.test.ts"
              then Some (unlines [ "it('works', () => {});"; "";
                                   "it('works', () => {});" ])
              else None)
    (fun _ => None) (fun _ => "ENOENT").

Definition twiceNamedFile : DiscoveredFile :=
  mkFile "src/a.test.ts" "/repo/src/a.test.ts" 48%Z "2024-01-01T00:00:00.000Z".

Definition worksEntry : TestEntry :=
  mkTestEntry "src/a.test.ts::works" "src/a.test.ts" (Some "works") [] Fast []
    [].

(** The two entries of that file share the identifier [file::works]. *)
Lemma named_tests_share_id_witness :
  buildTestEntries twiceNamed [twiceNamedFile] = [worksEntry; worksEntry]
  /\ test_id worksEntry = "src/a.test.ts::works".
Proof.
  split; [vm_compute; reflexivity|].
  refine (proj2 (named_tests_share_id twiceNamed [twiceNamedFile]
                   worksEntry worksEntry "works" _ _ _ _ _));
    try reflexivity; vm_compute; auto.
Defined.

(* ------------------------------------------------------------------ *)
(** ** The TypeScript extractor: one symbol per line, all exported *)

Definition startLine (s : AdapterSymbol) : Z := line (start (a_span s)).

(** The non-empty name a pattern captures on a line, if it matches. *)
Definition nameBy (p : Regex.re * SymbolKind * nat) (l : string)
  : option string :=
  let '(regex, _, nameGroup) := p in
  match Regex.exec true regex l with
  | Some mt =>
      match Regex.group nameGroup mt with
      | Some nm => if JS.truthy nm then Some nm else None
      | None => None
      end
  | None => None
  end.

(** On line [l] the table [ps] yields [nm] with kind [k]: some pattern of
    kind [k] captures [nm], and no pattern before it captures a name. *)
Definition wins (ps : list (Regex.re * SymbolKind * nat)) (l nm : string)
  (k : SymbolKind) : Prop :=
  exists before p after,
    ps = (before ++ p :: after)%list
    /\ snd (fst p) = k
    /\ nameBy p l = Some nm
    /\ Forall (fun q => nameBy q l = None) before.

Lemma firstMatch_wins (ps : list (Regex.re * SymbolKind * nat))
  (l nm : string) (k : SymbolKind) :
  Typescript.firstMatch ps l = Some (nm, k) -> wins ps l nm k.
Proof.
  induction ps as [|[[regex kind] g] ps IH]; simpl; [discriminate|].
  intros H.
  destruct (nameBy (regex, kind, g) l) as [n0|] eqn:Hn.
  - exists [], (regex, kind, g), ps. simpl in Hn |- *.
    destruct (Regex.exec true regex l) as [mt|]; [|discriminate].
    destruct (Regex.group g mt) as [s0|]; [|discriminate].
    destruct (JS.truthy s0); [|discriminate].
    injection H as <- <-. injection Hn as <-.
    repeat split. constructor.
  - assert (Hrest : Typescript.firstMatch ps l = Some (nm, k)).
    { simpl in Hn. destruct (Regex.exec true regex l) as [mt|]; [|exact H].
      destruct (Regex.group g mt) as [s0|]; [|exact H].
      destruct (JS.truthy s0); [discriminate | exact H]. }
    destruct (IH Hrest) as [before [p [after [-> [Hk [Hp Hb]]]]]].
    exists ((regex, kind, g) :: before), p, after.
    repeat split; try assumption. constructor; assumption.
Qed.

(** The symbol comes from the line with index [j] of [ls], through the
    first pattern of the table that captures a name on it. *)
Definition fromLine (ls : list string) (offset : nat) (s : AdapterSymbol)
  : Prop :=
  exists j l,
    nth_error ls j = Some l
    /\ startLine s = (Z.of_nat (offset + j) + 1)%Z
    /\ wins Typescript.patterns l (a_name s) (a_kind s).

Lemma symbolAt_spec (lines : list string) (i : nat) (l : string)
  (s : AdapterSymbol) :
  Typescript.symbolAt lines i l = Some s ->
  startLine s = (Z.of_nat i + 1)%Z
  /\ a_visibility s = Some VExport
  /\ wins Typescript.patterns l (a_name s) (a_kind s).
Proof.
  unfold Typescript.symbolAt.
  destruct (Typescript.firstMatch Typescript.patterns l) as [[nm k]|] eqn:Hm;
    [|discriminate].
  intros [= <-]. repeat split. now apply firstMatch_wins.
Qed.

Lemma fromLine_shift (l : string) (ls : list string) (i : nat)
  (syms : list AdapterSymbol) :
  Forall (fromLine ls (S i)) syms -> Forall (fromLine (l :: ls) i) syms.
Proof.
  apply Forall_impl. intros s [j [l' [Hj [Hs Hm]]]].
  exists (S j), l'. repeat split; [exact Hj | | exact Hm].
  rewrite Hs. f_equal. lia.
Qed.

Lemma scanLines_spec (lines todo : list string) (i : nat) :
  let syms := Typescript.scanLines lines todo i in
  Forall (fun s => (Z.of_nat i < startLine s)%Z) syms
  /\ StronglySorted Z.lt (map startLine syms)
  /\ Forall (fun s => a_visibility s = Some VExport) syms
  /\ Forall (fromLine todo i) syms.
Proof.
  revert i; induction todo as [|l todo IH]; intros i; simpl.
  - repeat split; constructor.
  - destruct (IH (S i)) as [Hlt [Hsorted [Hvis Hfrom]]].
    assert (Hlt' : Forall (fun s => (Z.of_nat i < startLine s)%Z)
                     (Typescript.scanLines lines todo (S i))).
    { revert Hlt. apply Forall_impl. intros s Hs. lia. }
    destruct (Typescript.symbolAt lines i l) as [sym|] eqn:Hsym.
    + apply symbolAt_spec in Hsym. destruct Hsym as [Hline [Hv Hm]].
      repeat split.
      * constructor; [lia | exact Hlt'].
      * simpl. constructor; [exact Hsorted|].
        rewrite Forall_map. revert Hlt. apply Forall_impl. intros s Hs. lia.
      * constructor; assumption.
      * constructor; [|now apply fromLine_shift].
        exists 0, l. repeat split; [|exact Hm]. rewrite Hline. f_equal. lia.
    + repeat split; try assumption. now apply fromLine_shift.
Qed.

Lemma increasing_at_most_once (n : Z) (l : list Z) :
  StronglySorted Z.lt l -> List.length (filter (Z.eqb n) l) <= 1.
Proof.
  induction 1 as [|x l Hs IH Hall]; simpl; [lia|].
  destruct (Z.eqb_spec n x) as [->|Hne]; [|exact IH].
  simpl. assert (Hnone : filter (Z.eqb x) l = []).
  { clear -Hall. induction Hall as [|y l Hy _ IH]; simpl; [reflexivity|].
    destruct (Z.eqb_spec x y); [lia | exact IH]. }
  rewrite Hnone. simpl. lia.
Qed.

(** C10. For every content, the symbols of the baseline TypeScript and
    JavaScript extractor all have visibility [export]; their start lines
    increase strictly, so that no source line has more than one symbol; and
    each symbol is the one given by the first pattern of the table that
    captures a non-empty name on its line ([wins]). *)
Theorem extractTypescriptSymbols_one_per_line (content filePath : string) :
  let syms := Typescript.extractTypescriptSymbols content filePath in
  Forall (fun s => a_visibility s = Some VExport) syms
  /\ StronglySorted Z.lt (map startLine syms)
  /\ (forall n : Z,
        List.length (filter (fun s => Z.eqb n (startLine s)) syms) <= 1)
  /\ Forall (fromLine (JS.split "010"%char content) 0) syms.
Proof.
  unfold Typescript.extractTypescriptSymbols.
  destruct (scanLines_spec (JS.split "010"%char content)
              (JS.split "010"%char content) 0) as [_ [Hs [Hv Hf]]].
  cbv zeta. repeat split; try assumption.
  intros n.
  pose proof (increasing_at_most_once n _ Hs) as H.
  set (syms := Typescript.scanLines _ _ 0) in *.
  clearbody syms. clear -H.
  assert (E : forall l, List.length (filter (fun s => Z.eqb n (startLine s)) l)
                        = List.length (filter (Z.eqb n) (map startLine l))).
  { induction l as [|s l IH]; simpl; [reflexivity|].
    destruct (Z.eqb n (startLine s)); simpl; now rewrite IH. }
  now rewrite E.
Qed.

(* ------------------------------------------------------------------ *)
(** ** The scenario "TS export + method + collision" *)

(** Extraction followed by identifier generation, from an empty set of
    identifiers. *)
Definition indexedSymbols (content filePath : string) : list Symbol :=
  fst (toSymbols (Typescript.extractTypescriptSymbols content filePath)
         filePath []).

(** Identifier, kind and start line of a symbol. *)
Definition summary (s : Symbol) : string * SymbolKind * option Z :=
  (symbol_id s, kind s, option_map (fun sp => line (start sp)) (span s)).

(** [src/a.ts]: the function on line 1, the class on line 3, its method on
    line 5. *)
Definition scenario_a_ts : string :=
  unlines [ "export function f() {}";
            "";
            "export class C {";
            "";
            "  f() {}";
            "}";
            "" ].

Lemma patterns_no_method :
  Forall (fun p : Regex.re * SymbolKind * nat => snd (fst p) <> KMethod)
    Typescript.patterns.
Proof. repeat constructor; discriminate. Qed.

Lemma toSymbols_kinds (l : list AdapterSymbol) (filePath : string)
  (ids : StringSet) :
  map kind (fst (toSymbols l filePath ids)) = map a_kind l.
Proof.
  revert ids; induction l as [|a l IH]; intros ids; simpl; [reflexivity|].
  unfold adapterSymbolToSymbol.
  destruct (generateSymbolId filePath (a_name a) _ ids None) as [sid ids1].
  specialize (IH ids1). destruct (toSymbols l filePath ids1) as [syms ids2].
  simpl in *. now rewrite IH.
Qed.

(** C6, the claim as stated fails: the symbols of the scenario are not the
    three of the claim; there are two of them, and none has the identifier
    [src/a.ts::C.f:L5]. *)
Lemma scenario_a_ts_has_no_method :
  map summary (indexedSymbols scenario_a_ts "src/a.ts")
  <> [ ("src/a.ts::f", KFunction, Some 1%Z);
       ("src/a.ts::C", KClass, Some 3%Z);
       ("src/a.ts::C.f:L5", KMethod, Some 5%Z) ]
  /\ List.length (indexedSymbols scenario_a_ts "src/a.ts") = 2
  /\ ~ In "src/a.ts::C.f:L5"
         (map symbol_id (indexedSymbols scenario_a_ts "src/a.ts")).
Proof.
  split; [|split].
  - vm_compute. discriminate.
  - vm_compute. reflexivity.
  - vm_compute. intros [H|[H|[]]]; discriminate.
Qed.

(* ------------------------------------------------------------------ *)
(** ** The verifier *)

Definition schemaWarning (version : string) : string :=
  "Schema version mismatch: " ++ version ++ " (supported: 1.x.x)".

Lemma length_zero_nil {A : Type} (l : list A) :
  (List.length l =? 0) = true <-> l = [].
Proof. destruct l; simpl; split; congruence. Qed.

Lemma verifyIndex_valid_iff (d : StoredIndex) (r : VerifyResult) :
  verifyIndex d = Returned r -> (valid r = true <-> v_errors r = []).
Proof.
  unfold verifyIndex.
  destruct (missingErrors d) as [|e es] eqn:Hm; simpl.
  - destruct (readStored (s_meta d)) as [msg|meta];
      [intros [= <-]; split; discriminate|].
    destruct (schemaVersionOf meta) as [|version]; [discriminate|].
    destruct (readStored (s_file_hashes d)) as [msg|fileHashes];
      [intros [= <-]; split; discriminate|].
    destruct (hashFileCountOf fileHashes) as [|n]; [discriminate|].
    destruct (statsOf meta) as [|metaStats]; [discriminate|].
    destruct (fileCountWarning metaStats n) as [|fileWarning];
      [discriminate|].
    destruct (readStored (s_symbols d)) as [msg|ls];
      [|destruct (symbolCountWarning metaStats _)];
      intros [= <-]; simpl; apply length_zero_nil.
  - intros [= <-]. split; discriminate.
Qed.

Lemma invalidLineErrors_none (ls : list JsonLine) (i : nat) :
  Forall (fun l => l <> InvalidLine) ls -> invalidLineErrors ls i = [].
Proof.
  intros H; revert i; induction H as [|l ls Hl _ IH]; intros i; simpl.
  - reflexivity.
  - destruct l; try apply IH. congruence.
Qed.

Lemma nonblank_valid (ls : list JsonLine) :
  Forall (fun l => l <> InvalidLine) (filter (fun l => negb (isBlank l)) ls)
  <-> Forall (fun l => l <> InvalidLine) ls.
Proof.
  rewrite !Forall_forall. split; intros H l Hl.
  - destruct l; try discriminate.
    apply (H InvalidLine). apply filter_In. split; [exact Hl | reflexivity].
  - apply filter_In in Hl as [Hl _]. apply H, Hl.
Qed.

(** The counts of statistics of the declared shape are numbers, which
    print. *)
Lemma fileCountWarning_typed (st : IndexStats) (n : Z) :
  fileCountWarning (Typed st) n <> Throws.
Proof.
  unfold fileCountWarning. cbn [totalFilesOf textOf jsonToString andThen].
  now destruct (negb _).
Qed.

Lemma symbolCountWarning_typed (st : IndexStats) (n : Z) :
  symbolCountWarning (Typed st) n <> Throws.
Proof.
  unfold symbolCountWarning.
  cbn [totalSymbolsOf textOf jsonToString andThen].
  now destruct (negb _).
Qed.

(** The verifier on an artifact directory whose five files are present and
    parse and on which no reading throws and both counts can be printed: it
    returns the invalid lines of [symbols.jsonl] as its errors. *)
Lemma verifyIndex_parsed (d : StoredIndex) (meta : Loose IndexMeta)
  (fileHashes : Loose FileHashes) (ls : list JsonLine) (version : string)
  (n : Z) (st : Loose IndexStats) :
  s_meta d = Parsed meta ->
  s_repo_map d = Parsed tt ->
  s_symbols d = Parsed ls ->
  s_test_map d = Parsed tt ->
  s_file_hashes d = Parsed fileHashes ->
  schemaVersionOf meta = Returned version ->
  hashFileCountOf fileHashes = Returned n ->
  statsOf meta = Returned st ->
  fileCountWarning st n <> Throws ->
  symbolCountWarning st
    (Z.of_nat (List.length (filter (fun l => negb (isBlank l)) ls)))
  <> Throws ->
  exists r,
    verifyIndex d = Returned r
    /\ v_errors r
       = invalidLineErrors (filter (fun l => negb (isBlank l)) ls) 0.
Proof.
  intros Hmeta Hrepo Hsym Htest Hhash Hversion Hn Hst Hfile Hsymbols.
  unfold verifyIndex, missingErrors.
  rewrite Hmeta, Hrepo, Hsym, Htest, Hhash.
  cbn [readStored isMissing filter map fst snd List.length Nat.ltb
       Nat.leb].
  rewrite Hversion, Hn, Hst.
  destruct (fileCountWarning st n) as [|fileWarning]; [now destruct Hfile|].
  destruct (symbolCountWarning st _) as [|symbolWarning];
    [now destruct Hsymbols|].
  eexists. split; reflexivity.
Qed.

(** Once the five files exist and [meta.json] parsed, every result carries
    the warning of a schema version of another major. *)
Lemma verifyIndex_warns (d : StoredIndex) (meta : Loose IndexMeta)
  (version : string) (r : VerifyResult) :
  missingErrors d = [] ->
  s_meta d = Parsed meta ->
  schemaVersionOf meta = Returned version ->
  majorOf version <> "1" ->
  verifyIndex d = Returned r ->
  In (schemaWarning version) (v_warnings r).
Proof.
  intros Hmissing Hmeta Hversion Hmajor. unfold verifyIndex.
  rewrite Hmissing, Hmeta. cbn [List.length Nat.ltb Nat.leb readStored].
  rewrite Hversion.
  destruct (String.eqb_spec (majorOf version) "1") as [E|_];
    [contradiction|].
  cbn [negb]. fold (schemaWarning version).
  destruct (readStored (s_file_hashes d)) as [msg|fileHashes];
    [intros [= <-]; now left|].
  destruct (hashFileCountOf fileHashes) as [|n]; [discriminate|].
  destruct (statsOf meta) as [|metaStats]; [discriminate|].
  destruct (fileCountWarning metaStats n) as [|fileWarning];
    [discriminate|].
  destruct (readStored (s_symbols d)) as [msg|ls];
    [|destruct (symbolCountWarning metaStats _)];
    intros [= <-]; cbn [v_warnings]; now left.
Qed.

(** C5, as the code has it. When the verifier returns, [valid] is true
    exactly when the error list is empty, and the schema-major check is
    not among the validity checks: once the five files exist and
    [meta.json] parsed, a [meta.schema_version] whose major component
    differs from [1] puts the warning of the mismatch into every result
    that is returned, and for every artifact set in which all five files
    are present and parse (every non-blank line of [symbols.jsonl]
    included) and [meta.json] and [file_hashes.json] hold values of the
    shapes of [IndexMeta] and [FileHashes], the verifier returns
    [valid = true] with no error, whatever the schema version. *)
Theorem verifyIndex_schema_version_warns :
  (forall d r, verifyIndex d = Returned r ->
               (valid r = true <-> v_errors r = []))
  /\ (forall d meta version r,
        missingErrors d = [] ->
        s_meta d = Parsed meta ->
        schemaVersionOf meta = Returned version ->
        majorOf version <> "1" ->
        verifyIndex d = Returned r ->
        In (schemaWarning version) (v_warnings r))
  /\ (forall d meta fileHashes ls,
        s_meta d = Parsed (Typed meta) ->
        s_repo_map d = Parsed tt ->
        s_symbols d = Parsed ls ->
        Forall (fun l => l <> InvalidLine) ls ->
        s_test_map d = Parsed tt ->
        s_file_hashes d = Parsed (Typed fileHashes) ->
        exists r,
          verifyIndex d = Returned r /\ valid r = true /\ v_errors r = []).
Proof.
  split; [exact verifyIndex_valid_iff|].
  split; [exact verifyIndex_warns|].
  intros d meta fileHashes ls Hmeta Hrepo Hsym Hls Htest Hhash.
  destruct (verifyIndex_parsed d (Typed meta) (Typed fileHashes) ls
              (schema_version meta)
              (Z.of_nat (List.length (obj_keys (h_files fileHashes))))
              (Typed (stats meta)) Hmeta Hrepo Hsym Htest Hhash eq_refl
              eq_refl eq_refl (fileCountWarning_typed _ _)
              (symbolCountWarning_typed _ _)) as (r & Hr & Herr).
  assert (Hnone : v_errors r = []).
  { rewrite Herr. apply invalidLineErrors_none. now apply nonblank_valid. }
  exists r. split; [exact Hr|].
  split; [now apply (verifyIndex_valid_iff d r Hr) | exact Hnone].
Qed.

(** An artifact set whose files all parse and agree on the counts, written
    by a tool with schema version [2.0.0]. *)
Definition futureIndex : StoredIndex :=
  mkStored
    (Parsed
       (Typed
          (mkMeta "2.0.0" "0.1.0" "2024-01-01T00:00:00.000Z" "/repo" None
             Success (mkStats 1 1 0 1 0 5)
             (mkMetaConfig ["**/*"] [] 256 true []) [])))
    (Parsed tt)
    (Parsed [ValidLine])
    (Parsed tt)
    (Parsed
       (Typed
          (mkHashes "1.0.0" None
             [ ("src/a.ts",
                mkEntry "sha256:00" "2024-01-01T00:00:00.000Z" 23%Z) ]))).

(** C5, the claim as stated fails: with all five files present and
    parseable and schema version [2.0.0], whose major component is not [1],
    the verifier returns [valid = true]; the mismatch is its only warning. *)
Lemma verifyIndex_accepts_other_major :
  majorOf "2.0.0" <> "1"
  /\ verifyIndex futureIndex
     = Returned
         (mkVerify true []
            ["Schema version mismatch: 2.0.0 (supported: 1.x.x)"]).
Proof. split; [vm_compute; discriminate | vm_compute; reflexivity]. Qed.

(** The verifier on that artifact set: it returns, what it returns is
    valid, and the mismatch is warned. *)
Lemma verifyIndex_schema_version_warns_witness :
  exists r,
    verifyIndex futureIndex = Returned r
    /\ valid r = true
    /\ v_errors r = []
    /\ In "Schema version mismatch: 2.0.0 (supported: 1.x.x)"
         (v_warnings r).
Proof.
  destruct verifyIndex_schema_version_warns as (_ & Hwarns & Hvalid).
  destruct (Hvalid futureIndex _ _ [ValidLine] eq_refl eq_refl eq_refl
              ltac:(repeat constructor; discriminate) eq_refl eq_refl)
    as (r & Hr & Hv & He).
  exists r. repeat (split; [assumption|]).
  change (In (schemaWarning "2.0.0") (v_warnings r)).
  apply (Hwarns futureIndex (Typed _) "2.0.0" r eq_refl eq_refl eq_refl);
    [vm_compute; discriminate | exact Hr].
Defined.

(** The same directory with [meta.json] holding [{}]: the file parses, and
    the verifier throws on [meta.schema_version.split]; so it does at
    [Object.keys(fileHashes.files)] for a ledger [{}], at
    [meta.stats.total_files] for a [meta.json] without [stats], and at the
    template literal for a [total_files] with a property [toString]. Empty
    statistics and a ledger whose [files] is a string give two warnings;
    a [total_symbols] that cannot be printed gives an error. *)
Example verifyIndex_throws :
  let metaOf stats :=
    Parsed (Untyped (JObject (("schema_version", JString "1.0.0") :: stats)))
  in
  let filesOf v := Parsed (Untyped (JObject [("files", v)])) in
  let unprintable := JObject [("toString", JNull)] in
  verifyIndex
    (mkStored (Parsed (Untyped (JObject []))) (Parsed tt)
       (Parsed [ValidLine]) (Parsed tt) (s_file_hashes futureIndex))
  = Throws
  /\ verifyIndex
       (mkStored (s_meta futureIndex) (Parsed tt) (Parsed [ValidLine])
          (Parsed tt) (Parsed (Untyped (JObject []))))
     = Throws
  /\ verifyIndex
       (mkStored (metaOf []) (Parsed tt) (Parsed [ValidLine]) (Parsed tt)
          (s_file_hashes futureIndex))
     = Throws
  /\ verifyIndex
       (mkStored
          (metaOf [("stats", JObject [("total_files", unprintable)])])
          (Parsed tt) (Parsed [ValidLine]) (Parsed tt)
          (filesOf (JObject [])))
     = Throws
  /\ verifyIndex
       (mkStored (metaOf [("stats", JObject [])])
          (Parsed tt) (Parsed [ValidLine]) (Parsed tt)
          (filesOf (JString "ab")))
     = Returned
         (mkVerify true []
            ["File count mismatch: meta.json has undefined, file_hashes.json has 2";
             "Symbol count mismatch: meta.json has undefined, symbols.jsonl has 1"])
  /\ verifyIndex
       (mkStored
          (metaOf [("stats",
                    JObject [("total_files", JNumber (JsInt 0));
                             ("total_symbols", JArray [unprintable])])])
          (Parsed tt) (Parsed [ValidLine]) (Parsed tt)
          (filesOf (JObject [])))
     = Returned
         (mkVerify false
            ["symbols.jsonl unreadable: Cannot convert object to primitive value"]
            []).
Proof. cbv zeta. repeat split; vm_compute; reflexivity. Qed.

(* ------------------------------------------------------------------ *)
(** ** Change analysis *)

(** The stored mtime and size both equal the current ones. *)
Definition quickMatch (fs : FileSystem) (f : DiscoveredFile)
  (e : FileHashEntry) : Prop :=
  exists st, statSync fs (absolutePath f) = Some st
             /\ st_mtime st = e_mtime e /\ st_size st = e_size e.

(** The file can be examined and its mtime or its size differs. *)
Definition quickMiss (fs : FileSystem) (f : DiscoveredFile)
  (e : FileHashEntry) : Prop :=
  exists st, statSync fs (absolutePath f) = Some st
             /\ ~ (st_mtime st = e_mtime e /\ st_size st = e_size e).

(** The content hash of the file is computed among [calls]. *)
Definition hashed (calls : list FsCall) (f : DiscoveredFile) : Prop :=
  In (HashCall (absolutePath f)) calls.

(** What [classify] yields for a file that has the ledger entry [e]. *)
Definition verdictFor (fs : FileSystem) (f : DiscoveredFile)
  (e : FileHashEntry) (calls : list FsCall) (v : option FileChange) : Prop :=
  (quickMatch fs f e ->
     ~ hashed calls f
     /\ v = Some (mkChange (path f) Unchanged (Some (hash e))))
  /\ ((exists c, v = Some c /\ status c = Unchanged) /\ ~ hashed calls f ->
      quickMatch fs f e)
  /\ (quickMiss fs f e ->
      hashed calls f
      /\ match computeFileHash fs (absolutePath f) with
         | Some h =>
             v = Some (mkChange (path f)
                         (if String.eqb h (hash e) then Unchanged else Changed)
                         (Some h))
         | None => v = None
         end)
  /\ (statSync fs (absolutePath f) = None ->
      ~ hashed calls f /\ v = Some (mkChange (path f) Changed None)).

Lemma obj_get_own {A : Type} (o : Obj A) (k : string) (v : A) :
  obj_own o k = Some v -> obj_get o k = Own v.
Proof. unfold obj_get. now intros ->. Qed.

Lemma not_hashed_stat (p : string) (f : DiscoveredFile) :
  ~ hashed [StatCall p] f.
Proof. intros [H|[]]. discriminate. Qed.

Lemma classify_own_eq (fs : FileSystem) (ph : FileHashes)
  (f : DiscoveredFile) (e : FileHashEntry) :
  obj_own (h_files ph) (path f) = Some e ->
  classify fs (Some ph) f
  = match statSync fs (absolutePath f) with
    | None =>
        ([StatCall (absolutePath f)], Some (mkChange (path f) Changed None))
    | Some st =>
        if String.eqb (st_mtime st) (e_mtime e) && (st_size st =? e_size e)%Z
        then ([StatCall (absolutePath f)],
              Some (mkChange (path f) Unchanged (Some (hash e))))
        else ([StatCall (absolutePath f); HashCall (absolutePath f)],
              match computeFileHash fs (absolutePath f) with
              | Some h =>
                  Some (mkChange (path f)
                          (if String.eqb h (hash e) then Unchanged else Changed)
                          (Some h))
              | None => None
              end)
    end.
Proof.
  intros Hown. unfold classify. rewrite (obj_get_own _ _ _ Hown).
  unfold quickChangeCheck. cbn [option_map].
  destruct (statSync fs (absolutePath f)) as [st|]; [|reflexivity].
  destruct (String.eqb (st_mtime st) (e_mtime e) && (st_size st =? e_size e)%Z);
    [reflexivity|].
  destruct (computeFileHash fs (absolutePath f)) as [h|]; [|reflexivity].
  destruct (String.eqb h (hash e)); reflexivity.
Qed.

Lemma quick_test (st : Stats) (e : FileHashEntry) :
  String.eqb (st_mtime st) (e_mtime e) && (st_size st =? e_size e)%Z = true
  <-> st_mtime st = e_mtime e /\ st_size st = e_size e.
Proof. now rewrite andb_true_iff, String.eqb_eq, Z.eqb_eq. Qed.

Lemma classify_own (fs : FileSystem) (ph : FileHashes) (f : DiscoveredFile)
  (e : FileHashEntry) :
  obj_own (h_files ph) (path f) = Some e ->
  verdictFor fs f e (fst (classify fs (Some ph) f))
    (snd (classify fs (Some ph) f)).
Proof.
  intros Hown. rewrite (classify_own_eq fs ph f e Hown).
  unfold verdictFor, quickMatch, quickMiss.
  destruct (statSync fs (absolutePath f)) as [st|] eqn:Hst.
  - destruct (String.eqb (st_mtime st) (e_mtime e)
              && (st_size st =? e_size e)%Z) eqn:Hq; cbn [fst snd].
    + apply quick_test in Hq. split; [|split; [|split]].
      * intros _. split; [apply not_hashed_stat | reflexivity].
      * intros _. now exists st.
      * intros [st' [[= <-] Hne]]. contradiction.
      * discriminate.
    + assert (Hne : ~ (st_mtime st = e_mtime e /\ st_size st = e_size e)).
      { rewrite <- quick_test, Hq. discriminate. }
      split; [|split; [|split]].
      * intros [st' [[= <-] Hm]]. contradiction.
      * intros [_ Hnh]. exfalso. apply Hnh. right. now left.
      * intros _. split; [right; now left|].
        destruct (computeFileHash fs (absolutePath f)); reflexivity.
      * discriminate.
  - cbn [fst snd]. split; [|split; [|split]].
    + intros [st' [[=] _]].
    + intros [[c [[= <-] Hc]] _]. discriminate.
    + intros [st' [[=] _]].
    + intros _. split; [apply not_hashed_stat | reflexivity].
Qed.

Lemma analyzeFiles_verdicts (fs : FileSystem) (prev : option FileHashes)
  (fls : list DiscoveredFile) (verdicts : list FileChange) :
  snd (analyzeFiles fs prev fls) = Some verdicts ->
  Forall2 (fun f c => snd (classify fs prev f) = Some c) fls verdicts
  /\ fst (analyzeFiles fs prev fls)
     = concat (map (fun f => fst (classify fs prev f)) fls).
Proof.
  revert verdicts; induction fls as [|f fls IH]; intros verdicts; simpl.
  - intros [= <-]. split; [constructor | reflexivity].
  - destruct (classify fs prev f) as [calls [c|]] eqn:Hc; [|discriminate].
    destruct (analyzeFiles fs prev fls) as [calls' [cs|]]; [|discriminate].
    simpl. intros [= <-]. destruct (IH cs eq_refl) as [H2 Hcalls].
    simpl in Hcalls.
    split; [constructor; [now rewrite Hc | exact H2] | now rewrite Hcalls].
Qed.

Lemma analyzeFiles_returns (fs : FileSystem) (prev : option FileHashes)
  (fls : list DiscoveredFile) :
  (forall f, In f fls -> snd (classify fs prev f) <> None) ->
  snd (analyzeFiles fs prev fls) <> None.
Proof.
  induction fls as [|f fls IH]; intros H; simpl; [discriminate|].
  pose proof (H f (or_introl eq_refl)) as Hf.
  destruct (classify fs prev f) as [calls [c|]]; [|now destruct Hf].
  specialize (IH (fun g Hg => H g (or_intror Hg))).
  destruct (analyzeFiles fs prev fls) as [calls' [cs|]]; simpl;
    [discriminate | exact IH].
Qed.

Lemma classify_returns (fs : FileSystem) (prev : option FileHashes)
  (f : DiscoveredFile) :
  digestSync fs (absolutePath f) <> None ->
  snd (classify fs prev f) <> None.
Proof.
  intros Hd.
  assert (Hh : exists h, computeFileHash fs (absolutePath f) = Some h).
  { unfold computeFileHash.
    destruct (digestSync fs (absolutePath f)) as [hex|]; [|now destruct Hd].
    now eexists. }
  destruct Hh as [h Hh]. unfold classify. rewrite Hh.
  destruct prev as [ph|]; [|discriminate].
  destruct (obj_get (h_files ph) (path f)) as [e| |]; try discriminate;
    match goal with
    | |- context [quickChangeCheck ?a ?b ?c ?d] =>
        destruct (quickChangeCheck a b c d)
    end; cbn [snd]; try discriminate.
  destruct (String.eqb h (hash e)); discriminate.
Qed.

Lemma deletedChanges_complete (fls : list DiscoveredFile) (ph : FileHashes)
  (k : string) :
  In k (obj_keys (h_files ph)) -> ~ In k (map path fls) ->
  In (mkChange k Deleted None) (deletedChanges fls (Some ph)).
Proof.
  intros Hk Hn. unfold deletedChanges.
  apply (in_map (fun p => mkChange p Deleted None)), filter_In.
  split; [exact Hk|]. unfold set_has.
  destruct (existsb (String.eqb k) (map path fls)) eqn:Hex; [|reflexivity].
  apply existsb_exists in Hex. destruct Hex as [x [Hx Heq]].
  apply String.eqb_eq in Heq. subst x. contradiction.
Qed.

(** C3. For every discovered file with a prior ledger entry: it is
    classified [unchanged] without a hash computation exactly when the
    stored mtime and size both equal the current ones; on a quick-check
    miss the content hash is computed and the verdict is [unchanged] when
    it equals the stored hash and [changed] otherwise; on a stat failure
    the verdict is [changed]. The verdicts of a run are those of the files
    in order, followed by a [deleted] verdict for every ledger entry that
    is not among the discovered paths; and the run returns whenever every
    file can be read. *)
Theorem analyzeChanges_verdicts (fs : FileSystem) (ph : FileHashes)
  (fls : list DiscoveredFile) :
  (forall f e,
     obj_own (h_files ph) (path f) = Some e ->
     verdictFor fs f e (fst (classify fs (Some ph) f))
       (snd (classify fs (Some ph) f)))
  /\ (forall changes,
        snd (analyzeChanges fs fls (Some ph)) = Some changes ->
        (exists verdicts,
           changes = (verdicts ++ deletedChanges fls (Some ph))%list
           /\ Forall2 (fun f c => snd (classify fs (Some ph) f) = Some c)
                fls verdicts)
        /\ (forall k, In k (obj_keys (h_files ph)) ->
                      ~ In k (map path fls) ->
                      In (mkChange k Deleted None) changes))
  /\ ((forall f, In f fls -> digestSync fs (absolutePath f) <> None) ->
      snd (analyzeChanges fs fls (Some ph)) <> None).
Proof.
  split; [intros f e; apply classify_own|]. split.
  - intros changes. unfold analyzeChanges.
    destruct (analyzeFiles fs (Some ph) fls) as [calls [cs|]] eqn:Ha;
      [|discriminate].
    simpl. intros [= <-].
    destruct (analyzeFiles_verdicts fs (Some ph) fls cs) as [H2 _];
      [now rewrite Ha|].
    split; [now exists cs|].
    intros k Hk Hn. apply in_or_app. right.
    now apply deletedChanges_complete.
  - intros Hread. unfold analyzeChanges.
    pose proof (analyzeFiles_returns fs (Some ph) fls
                  (fun f Hf => classify_returns fs (Some ph) f (Hread f Hf)))
      as Hr.
    destruct (analyzeFiles fs (Some ph) fls) as [calls [cs|]]; simpl;
      [discriminate | now destruct Hr].
Qed.

(** A prior ledger with entries for four files and a world in which: the
    stats of [a.ts] are as stored; [b.ts] was touched but has the stored
    content; [c.ts] was edited; [d.ts] cannot be examined; [gone.ts] is no
    longer discovered. *)
Definition ledgerExample : FileHashes :=
  mkHashes "1.0.0" None
    [ ("a.ts", mkEntry "sha256:aa" "2024-01-01T00:00:00.000Z" 10%Z);
      ("b.ts", mkEntry "sha256:bb" "2024-01-01T00:00:00.000Z" 20%Z);
      ("c.ts", mkEntry "sha256:cc" "2024-01-01T00:00:00.000Z" 30%Z);
      ("d.ts", mkEntry "sha256:dd" "2024-01-01T00:00:00.000Z" 40%Z);
      ("gone.ts", mkEntry "sha256:ee" "2024-01-01T00:00:00.000Z" 50%Z) ].

Definition worldExample : FileSystem :=
  mkFs
    (fun p =>
       if String.eqb p "/r/a.ts"
       then Some (mkFsStats "2024-01-01T00:00:00.000Z" 10%Z)
       else if String.eqb p "/r/b.ts"
       then Some (mkFsStats "2024-02-02T00:00:00.000Z" 20%Z)
       else if String.eqb p "/r/c.ts"
       then Some (mkFsStats "2024-02-02T00:00:00.000Z" 31%Z)
       else None)
    (fun _ => None)
    (fun p =>
       if String.eqb p "/r/a.ts" then Some "aa"
       else if String.eqb p "/r/b.ts" then Some "bb"
       else if String.eqb p "/r/c.ts" then Some "c2"
       else if String.eqb p "/r/d.ts" then Some "dd"
       else None)
    (fun _ => "EACCES").

Definition discoveredExample : list DiscoveredFile :=
  [ mkFile "a.ts" "/r/a.ts" 10%Z "2024-01-01T00:00:00.000Z";
    mkFile "b.ts" "/r/b.ts" 20%Z "2024-02-02T00:00:00.000Z";
    mkFile "c.ts" "/r/c.ts" 31%Z "2024-02-02T00:00:00.000Z";
    mkFile "d.ts" "/r/d.ts" 40%Z "2024-01-01T00:00:00.000Z" ].

(** The calls and the verdicts of [analyzeChanges] in that world. *)
Lemma analyzeChanges_verdicts_witness :
  analyzeChanges worldExample discoveredExample (Some ledgerExample)
  = ([ StatCall "/r/a.ts";
       StatCall "/r/b.ts"; HashCall "/r/b.ts";
       StatCall "/r/c.ts"; HashCall "/r/c.ts";
       StatCall "/r/d.ts" ],
     Some [ mkChange "a.ts" Unchanged (Some "sha256:aa");
            mkChange "b.ts" Unchanged (Some "sha256:bb");
            mkChange "c.ts" Changed (Some "sha256:c2");
            mkChange "d.ts" Changed None;
            mkChange "gone.ts" Deleted None ])
  /\ In (mkChange "gone.ts" Deleted None)
       [ mkChange "a.ts" Unchanged (Some "sha256:aa");
         mkChange "b.ts" Unchanged (Some "sha256:bb");
         mkChange "c.ts" Changed (Some "sha256:c2");
         mkChange "d.ts" Changed None;
         mkChange "gone.ts" Deleted None ].
Proof.
  split; [vm_compute; reflexivity|].
  refine (proj2 (proj1 (proj2
            (analyzeChanges_verdicts worldExample ledgerExample
               discoveredExample)) _ _) "gone.ts" _ _).
  - vm_compute. reflexivity.
  - vm_compute. tauto.
  - vm_compute. intros [H|[H|[H|[H|[]]]]]; discriminate.
Defined.

(* ------------------------------------------------------------------ *)
(** ** Paths of the writer *)

Lemma append_assoc (a b c : string) : (a ++ b) ++ c = a ++ (b ++ c).
Proof. induction a; simpl; congruence. Qed.

Lemma append_nil_r (s : string) : s ++ "" = s.
Proof. induction s; simpl; congruence. Qed.

Lemma length_append (a b : string) :
  String.length (a ++ b) = String.length a + String.length b.
Proof. induction a; simpl; congruence. Qed.

Lemma rev_onto_app (s acc : string) :
  JS.rev_onto s acc = JS.rev s ++ acc.
Proof.
  unfold JS.rev. revert acc; induction s as [|c s IH]; intros acc; simpl.
  - reflexivity.
  - rewrite IH, (IH (String c EmptyString)).
    rewrite append_assoc. reflexivity.
Qed.

Lemma rev_cons (c : ascii) (s : string) :
  JS.rev (String c s) = JS.rev s ++ String c EmptyString.
Proof. unfold JS.rev at 1. simpl. apply rev_onto_app. Qed.

Lemma rev_app (a b : string) : JS.rev (a ++ b) = JS.rev b ++ JS.rev a.
Proof.
  induction a as [|c a IH]; simpl.
  - now rewrite append_nil_r.
  - now rewrite !rev_cons, IH, append_assoc.
Qed.

Lemma rev_involutive (s : string) : JS.rev (JS.rev s) = s.
Proof.
  induction s as [|c s IH]; [reflexivity|].
  now rewrite rev_cons, rev_app, IH.
Qed.

Lemma rev_length (s : string) : String.length (JS.rev s) = String.length s.
Proof.
  induction s as [|c s IH]; [reflexivity|].
  rewrite rev_cons, length_append, IH. simpl. lia.
Qed.

Fixpoint noSlash (s : string) : bool :=
  match s with
  | EmptyString => true
  | String c s' => negb (Path.isSlash c) && noSlash s'
  end.

(** A file name: not empty, without a slash, and neither [.] nor [..]. *)
Definition isFileName (n : string) : bool :=
  JS.truthy n && noSlash n && negb (String.eqb n ".")
  && negb (String.eqb n "..").

Lemma isFileName_spec (n : string) :
  isFileName n = true ->
  n <> "" /\ noSlash n = true /\ n <> "." /\ n <> "..".
Proof.
  unfold isFileName. rewrite !andb_true_iff, !negb_true_iff, !String.eqb_neq.
  intros [[[H1 H2] H3] H4]. repeat split; try assumption.
  intros ->. discriminate.
Qed.

Lemma noSlash_app (a b : string) :
  noSlash (a ++ b) = noSlash a && noSlash b.
Proof.
  induction a as [|c a IH]; simpl; [reflexivity|].
  now rewrite IH, andb_assoc.
Qed.

Lemma noSlash_rev (s : string) : noSlash (JS.rev s) = noSlash s.
Proof.
  induction s as [|c s IH]; [reflexivity|].
  rewrite rev_cons, noSlash_app, IH. simpl.
  rewrite andb_true_r. apply andb_comm.
Qed.

Lemma split_nonempty (s : string) : JS.split Path.slash s <> [].
Proof.
  destruct s as [|c s]; simpl; [discriminate|].
  destruct (Ascii.eqb c Path.slash); [discriminate|].
  destruct (JS.split Path.slash s); discriminate.
Qed.

Lemma split_noSlash (s : string) :
  noSlash s = true -> JS.split Path.slash s = [s].
Proof.
  induction s as [|c s IH]; simpl; [reflexivity|].
  unfold Path.isSlash. destruct (Ascii.eqb c Path.slash); [discriminate|].
  simpl. intros H. now rewrite (IH H).
Qed.

Lemma split_app (a b : string) :
  JS.split Path.slash (a ++ String Path.slash b)
  = (JS.split Path.slash a ++ JS.split Path.slash b)%list.
Proof.
  induction a as [|c a IH]; simpl.
  - reflexivity.
  - destruct (Ascii.eqb c Path.slash).
    + now rewrite IH.
    + rewrite IH. pose proof (split_nonempty a) as Hn.
      destruct (JS.split Path.slash a); [contradiction | reflexivity].
Qed.

Lemma split_segments (s : string) :
  Forall (fun seg => noSlash seg = true) (JS.split Path.slash s).
Proof.
  induction s as [|c s IH]; simpl.
  - repeat constructor.
  - destruct (Ascii.eqb c Path.slash) eqn:Hc.
    + constructor; [reflexivity | exact IH].
    + pose proof (split_nonempty s) as Hn.
      destruct (JS.split Path.slash s) as [|h t]; [contradiction|].
      inversion IH; subst. constructor; [|assumption].
      simpl. unfold Path.isSlash. now rewrite Hc.
Qed.

Lemma join_cons (h : string) (l : list string) :
  l <> [] -> JS.join "/" (h :: l) = h ++ String Path.slash (JS.join "/" l).
Proof. destruct l; [congruence | reflexivity]. Qed.

Lemma join_snoc (l : list string) (x : string) :
  l <> [] ->
  JS.join "/" (l ++ [x]) = JS.join "/" l ++ String Path.slash x.
Proof.
  induction l as [|h t IH]; [congruence|]. intros _.
  destruct t as [|h' t'].
  - reflexivity.
  - rewrite <- app_comm_cons.
    rewrite join_cons by (now destruct t').
    rewrite IH by discriminate.
    rewrite (join_cons h (h' :: t')) by discriminate.
    now rewrite append_assoc.
Qed.

Lemma split_join (l : list string) :
  l <> [] -> Forall (fun seg => noSlash seg = true) l ->
  JS.split Path.slash (JS.join "/" l) = l.
Proof.
  induction l as [|h t IH]; [congruence|]. intros _ Hall.
  inversion Hall as [|? ? Hh Ht]; subst.
  destruct t as [|h' t'].
  - simpl. now apply split_noSlash.
  - rewrite join_cons by discriminate.
    rewrite split_app, (split_noSlash h Hh).
    now rewrite IH by (discriminate || assumption).
Qed.

(** A segment that normalization keeps. *)
Definition isSegment (s : string) : Prop :=
  s <> "" /\ s <> "." /\ noSlash s = true.

(** The stacks normalization builds, innermost segment first: [..] stays
    only above the root of a relative path, beneath everything else. *)
Fixpoint wfStack (allowAboveRoot : bool) (stack : list string) : Prop :=
  match stack with
  | [] => True
  | x :: below =>
      isSegment x /\ wfStack allowAboveRoot below
      /\ (x = ".." -> allowAboveRoot = true /\ Forall (eq "..") below)
  end.

Lemma normStep_push (allow : bool) (stack : list string) (seg : string) :
  seg <> "" -> seg <> "." -> seg <> ".." ->
  Path.normStep allow stack seg = seg :: stack.
Proof.
  intros H1 H2 H3. unfold Path.normStep.
  apply String.eqb_neq in H1, H2, H3. now rewrite H1, H2, H3.
Qed.

Lemma normStep_wf (allow : bool) (stack : list string) (seg : string) :
  noSlash seg = true -> wfStack allow stack ->
  wfStack allow (Path.normStep allow stack seg).
Proof.
  intros Hs Hwf. unfold Path.normStep.
  destruct (String.eqb_spec seg "") as [->|H1]; [exact Hwf|].
  destruct (String.eqb_spec seg ".") as [->|H2]; [exact Hwf|].
  cbn [orb].
  destruct (String.eqb_spec seg "..") as [->|H3].
  - destruct stack as [|top below].
    + destruct allow; simpl; [|exact I].
      repeat split; try discriminate; constructor.
    + destruct (String.eqb_spec top "..") as [->|Ht].
      * destruct allow; [|exact Hwf].
        simpl in Hwf. destruct Hwf as [Hseg [Hbelow Hdd]].
        destruct (Hdd eq_refl) as [_ Hall].
        simpl. repeat split; try discriminate; try assumption.
        constructor; [reflexivity | exact Hall].
      * simpl in Hwf. tauto.
  - simpl. repeat split; try assumption; contradiction.
Qed.

Lemma fold_normStep_wf (allow : bool) (segs stack : list string) :
  Forall (fun seg => noSlash seg = true) segs -> wfStack allow stack ->
  wfStack allow (fold_left (Path.normStep allow) segs stack).
Proof.
  intros H; revert stack; induction H as [|seg segs Hs _ IH]; intros stack Hwf;
    simpl; [exact Hwf|].
  apply IH. now apply normStep_wf.
Qed.

(** Normalizing the segments of a well-formed stack gives it back. *)
Lemma renormalize (allow : bool) (stack : list string) :
  wfStack allow stack ->
  fold_left (Path.normStep allow) (List.rev stack) [] = stack.
Proof.
  induction stack as [|x below IH]; [reflexivity|].
  intros [[Hx1 [Hx2 Hx3]] [Hbelow Hdd]].
  simpl. rewrite fold_left_app. simpl. rewrite (IH Hbelow).
  destruct (String.eqb_spec x "..") as [->|Hne].
  - destruct (Hdd eq_refl) as [-> Hall]. unfold Path.normStep. simpl.
    destruct below as [|top below']; [reflexivity|].
    inversion Hall; subst. reflexivity.
  - now apply normStep_push.
Qed.

Definition isAbs (p : string) : bool :=
  match p with
  | String c _ => Path.isSlash c
  | EmptyString => false
  end.

(** The stack normalization leaves for a path. *)
Definition stackOf (p : string) : list string :=
  fold_left (Path.normStep (negb (isAbs p))) (JS.split Path.slash p) [].

(** The normal form of [stack/name]. *)
Definition render (abs : bool) (stack : list string) (name : string)
  : string :=
  (if abs then "/" else "") ++ JS.join "/" (List.rev stack ++ [name]).

(** The normal form of the directory itself. *)
Definition dirOf (abs : bool) (stack : list string) : string :=
  match stack with
  | [] => if abs then "/" else "."
  | _ :: _ => (if abs then "/" else "") ++ JS.join "/" (List.rev stack)
  end.

Lemma stackOf_wf (p : string) : wfStack (negb (isAbs p)) (stackOf p).
Proof.
  unfold stackOf. apply fold_normStep_wf; [apply split_segments | exact I].
Qed.

Lemma rev_nonempty (n : string) :
  n <> "" -> exists c r, JS.rev n = String c r.
Proof.
  intros Hn. destruct (JS.rev n) as [|c r] eqn:Hr; [|now exists c, r].
  exfalso. apply Hn. rewrite <- (rev_involutive n), Hr. reflexivity.
Qed.

Lemma endsWith_slash_false (x n : string) :
  n <> "" -> noSlash n = true -> JS.endsWith (x ++ n) "/" = false.
Proof.
  intros Hn Hs. unfold JS.endsWith. rewrite rev_app.
  destruct (rev_nonempty n Hn) as [c [r Hr]]. rewrite Hr.
  rewrite <- noSlash_rev, Hr in Hs. simpl in Hs.
  apply andb_true_iff in Hs. destruct Hs as [Hc _].
  change (JS.rev "/") with "/". cbn [append JS.startsWith].
  unfold Path.isSlash in Hc. apply negb_true_iff in Hc.
  fold Path.slash. rewrite Ascii.eqb_sym. now rewrite Hc.
Qed.

Lemma join_snoc_nonempty (l : list string) (n : string) :
  n <> "" -> JS.join "/" (l ++ [n]) <> "".
Proof.
  intros Hn. destruct l as [|h t].
  - exact Hn.
  - rewrite join_snoc by discriminate. intros H.
    destruct (JS.join "/" (h :: t)); discriminate.
Qed.

(** [normalize] on a path that ends in a file name. *)
Lemma normalize_file (d n : string) :
  d <> "" -> isFileName n = true ->
  Path.normalize (d ++ String Path.slash n)
  = render (isAbs d) (stackOf d) n.
Proof.
  intros Hd Hn. destruct (isFileName_spec n Hn) as [Hn1 [Hn2 [Hn3 Hn4]]].
  destruct d as [|c0 d']; [congruence|].
  set (p := String c0 d' ++ String Path.slash n).
  assert (Hend : JS.endsWith p "/" = false).
  { unfold p. replace (String c0 d' ++ String Path.slash n)
      with ((String c0 d' ++ "/") ++ n) by (now rewrite append_assoc).
    now apply endsWith_slash_false. }
  assert (Hq : Path.normalizeString p (negb (Path.isSlash c0))
               = JS.join "/" (List.rev (stackOf (String c0 d')) ++ [n])).
  { unfold Path.normalizeString, p.
    rewrite split_app, fold_left_app, (split_noSlash n Hn2).
    cbn [fold_left]. rewrite normStep_push by assumption. reflexivity. }
  pose proof (join_snoc_nonempty (List.rev (stackOf (String c0 d'))) n Hn1)
    as Hne.
  unfold Path.normalize, render. change (String c0 d' ++ String Path.slash n)
    with p. unfold p at 1. cbn [append]. fold p.
  change (String c0 (d' ++ String Path.slash n)) with p.
  rewrite Hend, Hq. cbn [isAbs].
  destruct (JS.join "/" _) as [|q0 q]; [congruence|].
  destruct (Path.isSlash c0); reflexivity.
Qed.

Lemma fileName_first (n : string) :
  n <> "" -> noSlash n = true ->
  exists c r, n = String c r /\ Path.isSlash c = false.
Proof.
  destruct n as [|c r]; [congruence|]. intros _ H. simpl in H.
  apply andb_true_iff in H. destruct H as [H _].
  exists c, r. split; [reflexivity | now apply negb_true_iff].
Qed.

Lemma normalize_name (n : string) :
  isFileName n = true -> Path.normalize n = n.
Proof.
  intros Hn. destruct (isFileName_spec n Hn) as [Hn1 [Hn2 [Hn3 Hn4]]].
  destruct (fileName_first n Hn1 Hn2) as [c [r [-> Hc]]].
  unfold Path.normalize. rewrite Hc.
  pose proof (endsWith_slash_false "" (String c r) Hn1 Hn2) as Hend.
  cbn [append] in Hend. rewrite Hend.
  unfold Path.normalizeString. rewrite (split_noSlash _ Hn2).
  cbn [fold_left negb]. rewrite normStep_push by assumption. reflexivity.
Qed.

(** [path.join(dir, name)] in normal form. *)
Lemma join_file (dir n : string) :
  isFileName n = true ->
  Path.join dir n = render (isAbs dir) (stackOf dir) n.
Proof.
  intros Hn. destruct (isFileName_spec n Hn) as [Hn1 _].
  destruct dir as [|c0 d'].
  - destruct n as [|c r]; [congruence|].
    unfold Path.join. now rewrite normalize_name.
  - destruct n as [|c r]; [congruence|].
    unfold Path.join.
    change (String c0 d' ++ "/" ++ String c r)
      with (String c0 d' ++ String Path.slash (String c r)).
    now apply normalize_file.
Qed.

Lemma takeSegment_app (a b : string) :
  noSlash a = true -> b = "" \/ (exists b', b = String Path.slash b') ->
  Path.takeSegment (a ++ b) = a.
Proof.
  intros Ha Hb. induction a as [|c a IH]; simpl.
  - destruct Hb as [->|[b' ->]]; reflexivity.
  - simpl in Ha. apply andb_true_iff in Ha. destruct Ha as [Hc Ha].
    apply negb_true_iff in Hc. rewrite Hc. now rewrite IH.
Qed.

Lemma dropSegment_app (a b : string) :
  noSlash a = true ->
  Path.dropSegment (a ++ String Path.slash b) = String Path.slash b.
Proof.
  intros Ha. induction a as [|c a IH]; simpl; [reflexivity|].
  simpl in Ha. apply andb_true_iff in Ha. destruct Ha as [Hc Ha].
  apply negb_true_iff in Hc. rewrite Hc. now apply IH.
Qed.

Lemma dropSegment_noSlash (a : string) :
  noSlash a = true -> Path.dropSegment a = "".
Proof.
  intros Ha. induction a as [|c a IH]; simpl; [reflexivity|].
  simpl in Ha. apply andb_true_iff in Ha. destruct Ha as [Hc Ha].
  apply negb_true_iff in Hc. rewrite Hc. now apply IH.
Qed.

Lemma dropSlashes_noSlash (a : string) :
  noSlash a = true -> Path.dropSlashes a = a.
Proof.
  destruct a as [|c a]; simpl; [reflexivity|].
  intros Ha. apply andb_true_iff in Ha. destruct Ha as [Hc _].
  apply negb_true_iff in Hc. now rewrite Hc.
Qed.

Lemma dropSlashes_app (a b : string) :
  a <> "" -> noSlash a = true -> Path.dropSlashes (a ++ b) = a ++ b.
Proof.
  destruct a as [|c a]; [congruence|]. intros _ Ha. simpl in *.
  apply andb_true_iff in Ha. destruct Ha as [Hc _].
  apply negb_true_iff in Hc. now rewrite Hc.
Qed.

Lemma take_app_length (a b : string) :
  JS.take (String.length a) (a ++ b) = a.
Proof. induction a as [|c a IH]; simpl; [now destruct b | now rewrite IH]. Qed.

(** What stands before the file name in [render]: nothing, or a string
    that ends with a slash. *)
Definition prefixOf (abs : bool) (stack : list string) : string :=
  match stack with
  | [] => if abs then "/" else ""
  | _ :: _ =>
      ((if abs then "/" else "") ++ JS.join "/" (List.rev stack))
      ++ String Path.slash ""
  end.

Lemma render_prefix (abs : bool) (stack : list string) (n : string) :
  render abs stack n = prefixOf abs stack ++ n.
Proof.
  unfold render, prefixOf. destruct stack as [|x below].
  - reflexivity.
  - rewrite join_snoc.
    + now rewrite !append_assoc.
    + simpl. now destruct (List.rev below).
Qed.

Lemma prefixOf_rev (abs : bool) (stack : list string) :
  JS.rev (prefixOf abs stack) = ""
  \/ exists b, JS.rev (prefixOf abs stack) = String Path.slash b.
Proof.
  unfold prefixOf. destruct stack as [|x below].
  - destruct abs; [right; now exists "" | now left].
  - right. rewrite rev_app. now eexists.
Qed.

Lemma rev_fileName (n : string) :
  n <> "" -> noSlash n = true -> JS.rev n <> "" /\ noSlash (JS.rev n) = true.
Proof.
  intros Hn Hs. split; [|now rewrite noSlash_rev].
  destruct (rev_nonempty n Hn) as [c [r ->]]. discriminate.
Qed.

Lemma basename_render (abs : bool) (stack : list string) (n : string) :
  isFileName n = true -> Path.basename (render abs stack n) = n.
Proof.
  intros Hn. destruct (isFileName_spec n Hn) as [Hn1 [Hn2 _]].
  destruct (rev_fileName n Hn1 Hn2) as [Hr1 Hr2].
  rewrite render_prefix. unfold Path.basename. rewrite rev_app.
  rewrite dropSlashes_app by assumption.
  rewrite takeSegment_app by (assumption || apply prefixOf_rev).
  apply rev_involutive.
Qed.

Lemma wfStack_segments (allow : bool) (stack : list string) :
  wfStack allow stack -> Forall isSegment stack.
Proof.
  induction stack as [|x below IH]; [constructor|].
  intros [Hx [Hb _]]. constructor; [exact Hx | exact (IH Hb)].
Qed.

(** The joined segments of a non-empty stack start with a code unit that is
    not a slash. *)
Lemma join_stack_first (allow : bool) (stack : list string) :
  stack <> [] -> wfStack allow stack ->
  exists c r, JS.join "/" (List.rev stack) = String c r
              /\ Path.isSlash c = false.
Proof.
  intros Hne Hwf. apply wfStack_segments, Forall_rev in Hwf.
  destruct (List.rev stack) as [|h t] eqn:Hr.
  - apply (f_equal (@List.rev string)) in Hr. rewrite List.rev_involutive in Hr.
    now destruct Hne.
  - inversion Hwf as [|? ? [Hh1 [_ Hh3]] _]; subst.
    destruct (fileName_first h Hh1 Hh3) as [c [r [-> Hc]]].
    destruct t as [|h' t'].
    + now exists c, r.
    + rewrite join_cons by discriminate. now eexists c, _.
Qed.

Lemma rev_app_slash (a b : string) :
  JS.rev (a ++ String Path.slash b)
  = JS.rev b ++ String Path.slash (JS.rev a).
Proof. now rewrite rev_app, rev_cons, append_assoc. Qed.

Lemma dirname_render (abs : bool) (stack : list string) (n : string) :
  wfStack (negb abs) stack -> isFileName n = true ->
  Path.dirname (render abs stack n) = dirOf abs stack.
Proof.
  intros Hwf Hn. destruct (isFileName_spec n Hn) as [Hn1 [Hn2 _]].
  destruct (rev_fileName n Hn1 Hn2) as [Hr1 Hr2].
  destruct stack as [|x below].
  - unfold render, dirOf. cbn [List.rev app JS.join].
    destruct abs; cbn [append].
    + unfold Path.dirname.
      rewrite (dropSlashes_noSlash _ Hr2), (dropSegment_noSlash _ Hr2).
      reflexivity.
    + destruct (fileName_first n Hn1 Hn2) as [c [r [-> Hc]]].
      unfold Path.dirname. rewrite Hc.
      simpl in Hn2. apply andb_true_iff in Hn2. destruct Hn2 as [_ Hn2].
      rewrite <- noSlash_rev in Hn2.
      rewrite (dropSlashes_noSlash _ Hn2), (dropSegment_noSlash _ Hn2).
      reflexivity.
  - destruct (join_stack_first (negb abs) (x :: below)) as [c [r [HJ Hc]]];
      [discriminate | exact Hwf |].
    unfold render, dirOf. rewrite join_snoc by (simpl; now destruct (List.rev below)).
    rewrite HJ. destruct abs; cbn [append].
    + unfold Path.dirname.
      change (String c (r ++ String Path.slash n))
        with (String c r ++ String Path.slash n).
      rewrite rev_app_slash, dropSlashes_app, dropSegment_app by assumption.
      cbn [Path.isSlash String.length]. rewrite rev_length.
      change (Path.isSlash "/"%char) with true. cbn [andb Nat.eqb].
      change (String "/" (String c r ++ String Path.slash n))
        with (String "/" (String c r) ++ String Path.slash n).
      change (S (String.length (String c r)))
        with (String.length (String "/" (String c r))).
      apply take_app_length.
    + unfold Path.dirname. rewrite Hc.
      rewrite rev_app_slash, dropSlashes_app, dropSegment_app by assumption.
      cbn [andb String.length]. rewrite rev_length.
      change (String c (r ++ String Path.slash n))
        with (String c r ++ String Path.slash n).
      change (S (String.length r)) with (String.length (String c r)).
      apply take_app_length.
Qed.

Lemma dirOf_abs (abs : bool) (stack : list string) :
  wfStack (negb abs) stack -> isAbs (dirOf abs stack) = abs.
Proof.
  intros Hwf. unfold dirOf. destruct stack as [|x below].
  - now destruct abs.
  - destruct (join_stack_first (negb abs) (x :: below)) as [c [r [HJ Hc]]];
      [discriminate | exact Hwf |].
    rewrite HJ. destruct abs; [reflexivity | exact Hc].
Qed.

Lemma stackOf_dirOf (abs : bool) (stack : list string) :
  wfStack (negb abs) stack -> stackOf (dirOf abs stack) = stack.
Proof.
  intros Hwf. unfold stackOf. rewrite (dirOf_abs abs stack Hwf).
  unfold dirOf. destruct stack as [|x below].
  - now destruct abs.
  - assert (Hsplit : JS.split Path.slash (JS.join "/" (List.rev (x :: below)))
                     = List.rev (x :: below)).
    { apply split_join.
      - simpl. now destruct (List.rev below).
      - apply Forall_rev. apply wfStack_segments in Hwf.
        revert Hwf. apply Forall_impl. now intros s [_ [_ Hs]]. }
    destruct abs.
    + change ("/" ++ JS.join "/" (List.rev (x :: below)))
        with ("" ++ String Path.slash (JS.join "/" (List.rev (x :: below)))).
      rewrite split_app, Hsplit. cbn [JS.split app fold_left].
      change (Path.normStep (negb true) [] "") with (@nil string).
      now apply renormalize.
    + cbn [append]. rewrite Hsplit. now apply renormalize.
Qed.

(** The temporary path of an artifact is [path.join] of the directory and
    the dotted name. *)
Lemma tempPathOf_join (dir n : string) :
  isFileName n = true -> isFileName ("." ++ n ++ ".tmp") = true ->
  tempPathOf (Path.join dir n) = Path.join dir ("." ++ n ++ ".tmp").
Proof.
  intros Hn Ht. unfold tempPathOf.
  rewrite (join_file dir n Hn), (join_file dir _ Ht).
  pose proof (stackOf_wf dir) as Hwf.
  rewrite basename_render, dirname_render by assumption.
  rewrite (join_file _ _ Ht).
  now rewrite dirOf_abs, stackOf_dirOf.
Qed.

(* ------------------------------------------------------------------ *)
(** ** The writer: order, temporary files, symbol lines *)

(** Every line followed by a newline. *)
Fixpoint linesText (ls : list string) : string :=
  match ls with
  | [] => ""
  | l :: rest => l ++ LF ++ linesText rest
  end.

Lemma join_lines_cons (l : string) (rest : list string) :
  JS.join LF (l :: rest) ++ LF = linesText (l :: rest).
Proof.
  revert l; induction rest as [|l' rest' IH]; intros l.
  - cbn [JS.join linesText]. now rewrite append_nil_r.
  - change (JS.join LF (l :: l' :: rest'))
      with (l ++ LF ++ JS.join LF (l' :: rest')).
    rewrite !append_assoc, IH. reflexivity.
Qed.

Lemma join_lines (ls : list string) :
  JS.join LF ls ++ (if 0 <? List.length ls then LF else "") = linesText ls.
Proof.
  destruct ls as [|l rest]; [reflexivity | apply join_lines_cons].
Qed.

Lemma linesText_ends (l : string) (ls : list string) :
  JS.endsWith (linesText (l :: ls)) LF = true.
Proof.
  rewrite <- join_lines_cons. unfold JS.endsWith. rewrite rev_app.
  reflexivity.
Qed.

(** The atomic write of one artifact: the text goes to the dotted
    temporary file of the directory, which is then renamed. *)
Definition atomicWrite (dir name text : string) : list FsOp :=
  [ WriteFile (Path.join dir ("." ++ name ++ ".tmp")) text;
    Rename (Path.join dir ("." ++ name ++ ".tmp")) (Path.join dir name) ].

(** C2. [writeIndexFiles] writes [file_hashes.json], [symbols.jsonl],
    [repo_map.json], [test_map.json] and then [meta.json], in this order;
    each artifact [name] is written to [dir/.name.tmp], which is then
    renamed to [dir/name]; and the text of [symbols.jsonl] is the
    serialization of each symbol followed by a newline: one object per
    line, empty for no symbol and ending in a newline otherwise. *)
Theorem writeIndexFiles_order (RepoMapT TestMapT : Type)
  (prettyMeta0 : IndexMeta -> string) (prettyRepoMap0 : RepoMapT -> string)
  (prettyTestMap0 : TestMapT -> string)
  (prettyFileHashes0 : FileHashes -> string)
  (stringifySymbol0 : Symbol -> string)
  (indexDir : string) (meta : IndexMeta) (repoMap : RepoMapT)
  (testMap : TestMapT) (fileHashes : FileHashes) (symbols : list Symbol) :
  writeIndexFiles RepoMapT TestMapT prettyMeta0 prettyRepoMap0 prettyTestMap0
    prettyFileHashes0 stringifySymbol0 indexDir meta repoMap testMap
    fileHashes symbols
  = (atomicWrite indexDir "file_hashes.json" (prettyFileHashes0 fileHashes)
     ++ atomicWrite indexDir "symbols.jsonl"
          (linesText (map stringifySymbol0 symbols))
     ++ atomicWrite indexDir "repo_map.json" (prettyRepoMap0 repoMap)
     ++ atomicWrite indexDir "test_map.json" (prettyTestMap0 testMap)
     ++ atomicWrite indexDir "meta.json" (prettyMeta0 meta))%list
  /\ (symbolsText stringifySymbol0 symbols = "" <-> symbols = [])
  /\ (symbols <> [] ->
      JS.endsWith (symbolsText stringifySymbol0 symbols) LF = true).
Proof.
  split; [|split].
  - unfold writeIndexFiles, writeJsonAtomic, writeSymbolsAtomic, atomicWrite,
      symbolsText.
    rewrite join_lines.
    rewrite !tempPathOf_join by reflexivity. reflexivity.
  - unfold symbolsText. rewrite join_lines. destruct symbols as [|s rest].
    + split; reflexivity.
    + split; [|discriminate]. cbn [map linesText]. intros H.
      destruct (stringifySymbol0 s); discriminate.
  - intros Hne. unfold symbolsText. rewrite join_lines.
    destruct symbols as [|s rest]; [congruence|]. apply linesText_ends.
Qed.

(* ------------------------------------------------------------------ *)
(** ** Subdirectory selection *)

Lemma insertBy_perm {A : Type} (cmp : A -> A -> Z) (x : A) (l : list A) :
  Permutation (insertBy cmp x l) (x :: l).
Proof.
  induction l as [|y l IH]; simpl; [reflexivity|].
  destruct (cmp x y <? 0)%Z; [reflexivity|].
  rewrite IH. apply perm_swap.
Qed.

Lemma stableSort_perm {A : Type} (cmp : A -> A -> Z) (l : list A) :
  Permutation (stableSort cmp l) l.
Proof.
  unfold stableSort.
  assert (H : forall acc, Permutation (fold_left (fun s x => insertBy cmp x s) l acc)
                            (acc ++ l)).
  { induction l as [|x l IH]; intros acc; simpl.
    - now rewrite app_nil_r.
    - rewrite IH, insertBy_perm. apply Permutation_middle. }
  apply (H []).
Qed.

Lemma set_has_In (s : StringSet) (x : string) :
  set_has s x = true <-> In x s.
Proof.
  unfold set_has. rewrite existsb_exists. split.
  - intros [y [Hy Heq]]. apply String.eqb_eq in Heq. now subst.
  - intros H. exists x. split; [exact H | apply String.eqb_refl].
Qed.

Lemma set_add_In (s : StringSet) (x y : string) :
  In y (set_add s x) <-> In y s \/ y = x.
Proof.
  unfold set_add. destruct (set_has s x) eqn:Hx.
  - apply set_has_In in Hx. split; [now left | intros [H| ->]; assumption].
  - rewrite in_app_iff. simpl. intuition congruence.
Qed.

(** [child] lies below [parent]: its path extends the parent's path and a
    slash. *)
Definition below (child parent : SubDirectory) : Prop :=
  JS.startsWith (sd_path child) (sd_path parent ++ "/") = true.

(** In [l], a subdirectory pushed after one that lies below it has a
    direct count of at least [bound]. *)
Definition parentsHaveDirect (counts : StrMap nat) (bound : nat)
  (l : list SubDirectory) : Prop :=
  forall i j child parent,
    i < j -> nth_error l i = Some child -> nth_error l j = Some parent ->
    below child parent ->
    bound <= directCountAt counts (sd_path parent).

(** The subdirectory comes from a candidate, and a candidate with important
    children and more than twenty code files is only kept with a direct
    count of at least ten. *)
Definition fromCandidate (counts : StrMap nat) (candidates : list Candidate)
  (sd : SubDirectory) : Prop :=
  exists c, In c candidates
            /\ sd_path sd = sd_path (subdir c)
            /\ (hasImportantChildren c = true ->
                LARGE_DIR_THRESHOLD < codeFileCount (subdir c) ->
                10 <= directCountAt counts (sd_path sd)
                /\ codeFileCount sd = directCountAt counts (sd_path sd)).

Lemma selectStep_spec (counts : StrMap nat) (selectedPaths : StringSet)
  (c : Candidate) (sd : SubDirectory) :
  selectStep counts selectedPaths c = Some sd ->
  sd_path sd = sd_path (subdir c)
  /\ ((exists q, In q selectedPaths
                 /\ JS.startsWith q (sd_path (subdir c) ++ "/") = true) ->
      MIN_CODE_FILES_FOR_SUBDIR <= directCountAt counts (sd_path (subdir c)))
  /\ (hasImportantChildren c = true ->
      LARGE_DIR_THRESHOLD < codeFileCount (subdir c) ->
      10 <= directCountAt counts (sd_path sd)
      /\ codeFileCount sd = directCountAt counts (sd_path sd)).
Proof.
  unfold selectStep.
  set (p := sd_path (subdir c)).
  set (direct := directCountAt counts p).
  set (large := hasImportantChildren c && _).
  set (hasChild := existsb _ selectedPaths).
  destruct (large && (direct <? 10)) eqn:H1; [discriminate|].
  destruct (hasChild && (direct <? MIN_CODE_FILES_FOR_SUBDIR)) eqn:H2;
    [discriminate|].
  match goal with
  | |- (if ?b then _ else _) = _ -> _ => destruct b; [discriminate|]
  end.
  intros [= <-].
  assert (Hpath : sd_path (if large then withCodeFileCount (subdir c) direct
                           else subdir c) = p).
  { destruct large; reflexivity. }
  split; [exact Hpath|]. split.
  - intros [q [Hq Hpre]].
    assert (Hc : hasChild = true).
    { apply existsb_exists. now exists q. }
    rewrite Hc in H2. cbn [andb] in H2. apply Nat.ltb_ge in H2. exact H2.
  - intros Hi Hl. rewrite Hpath. fold direct.
    assert (Hlarge : large = true).
    { unfold large. rewrite Hi. cbn [andb]. now apply Nat.ltb_lt. }
    rewrite Hlarge in *. cbn [andb] in H1. apply Nat.ltb_ge in H1.
    split; [exact H1 | reflexivity].
Qed.

Lemma selectLoop_spec (counts : StrMap nat) (all : list Candidate)
  (candidates : list Candidate) (selectedPaths : StringSet)
  (result : list SubDirectory) :
  (forall c, In c candidates -> In c all) ->
  (forall q, In q selectedPaths <-> In q (map sd_path result)) ->
  List.length result < MAX_SUBDIRS_PER_MODULE ->
  parentsHaveDirect counts MIN_CODE_FILES_FOR_SUBDIR result ->
  Forall (fromCandidate counts all) result ->
  let final := selectLoop counts candidates selectedPaths result in
  List.length final <= MAX_SUBDIRS_PER_MODULE
  /\ parentsHaveDirect counts MIN_CODE_FILES_FOR_SUBDIR final
  /\ Forall (fromCandidate counts all) final.
Proof.
  revert selectedPaths result.
  induction candidates as [|c rest IH];
    intros selectedPaths result Hsub Hsel Hlen Hpar Hfrom; cbn [selectLoop].
  - cbv zeta. repeat split; [lia | exact Hpar | exact Hfrom].
  - destruct (selectStep counts selectedPaths c) as [sd|] eqn:Hstep.
    + destruct (selectStep_spec _ _ _ _ Hstep) as [Hpath [Hchild Hlarge]].
      assert (Hpar' : parentsHaveDirect counts MIN_CODE_FILES_FOR_SUBDIR
                        (result ++ [sd])).
      { intros i j child parent Hij Hi Hj Hbelow.
        destruct (Nat.lt_ge_cases j (List.length result)) as [Hjl|Hjl].
        - rewrite nth_error_app1 in Hi, Hj by lia.
          exact (Hpar i j child parent Hij Hi Hj Hbelow).
        - rewrite nth_error_app2 in Hj by lia.
          destruct (j - List.length result) as [|k] eqn:Hk;
            [|destruct k; discriminate].
          injection Hj as <-.
          rewrite nth_error_app1 in Hi by lia.
          rewrite Hpath. apply Hchild.
          exists (sd_path child). split.
          + apply Hsel, in_map. eapply nth_error_In; eassumption.
          + unfold below in Hbelow. now rewrite Hpath in Hbelow. }
      assert (Hfrom' : Forall (fromCandidate counts all) (result ++ [sd])).
      { apply Forall_app. split; [exact Hfrom|]. constructor; [|constructor].
        exists c. split; [apply Hsub; now left|]. split; assumption. }
      destruct (MAX_SUBDIRS_PER_MODULE <=? List.length (result ++ [sd]))
        eqn:Hfull.
      * cbv zeta. rewrite length_app in *. cbn [List.length] in *.
        repeat split; [lia | exact Hpar' | exact Hfrom'].
      * apply Nat.leb_gt in Hfull. apply IH; try assumption.
        -- intros c' Hc'. apply Hsub. now right.
        -- intros q. rewrite set_add_In, map_app, in_app_iff, Hsel. simpl.
           intuition congruence.
    + apply IH; try assumption. intros c' Hc'. apply Hsub. now right.
Qed.

(** C8, as the code has it. The result for a module has at most ten
    entries and is a rearrangement of the subdirectories in the order the
    selection loop pushed them. In that order, a directory pushed after
    one of its descendants has a direct code file count of at least three
    ([MIN_CODE_FILES_FOR_SUBDIR]); the bound of ten applies to a candidate
    with important children and more than twenty code files, which is only
    kept with a direct count of at least ten (its code file count is then
    replaced by the direct count). *)
Theorem detectSubdirectories_selection (localeCompare : string -> string -> Z)
  (fls : list DiscoveredFile) (modulePath : string) (modulePaths : StringSet)
  (depth : nat) :
  let candidates := subdirCandidates fls modulePath modulePaths depth in
  let counts := directFileCountsOf candidates in
  let selected := selectedSubdirectories fls modulePath modulePaths depth in
  let result :=
    detectSubdirectories localeCompare fls modulePath modulePaths depth in
  List.length result <= 10
  /\ Permutation result selected
  /\ parentsHaveDirect counts 3 selected
  /\ Forall (fromCandidate counts candidates) selected.
Proof.
  cbv zeta. unfold detectSubdirectories, selectedSubdirectories.
  set (candidates := subdirCandidates fls modulePath modulePaths depth).
  destruct (selectLoop_spec (directFileCountsOf candidates) candidates
              candidates [] [])
    as [Hlen [Hpar Hfrom]].
  - auto.
  - intros q. simpl. tauto.
  - unfold MAX_SUBDIRS_PER_MODULE. simpl. lia.
  - intros i j child parent _ Hi. destruct i; discriminate.
  - constructor.
  - repeat split; try assumption.
    + rewrite (Permutation_length (stableSort_perm _ _)). exact Hlen.
    + apply stableSort_perm.
Qed.

(** A package whose [lib] directory has four code files of its own and a
    [core] subdirectory with three. *)
Definition inRepo (p : string) : DiscoveredFile :=
  mkFile p ("/repo/" ++ p) 100%Z "2024-01-01T00:00:00.000Z".

Definition packageFiles : list DiscoveredFile :=
  map inRepo
    [ "pkg/package.json";
      "pkg/lib/a.ts"; "pkg/lib/b.ts"; "pkg/lib/c.ts"; "pkg/lib/d.ts";
      "pkg/lib/core/x.ts"; "pkg/lib/core/y.ts"; "pkg/lib/core/z.ts" ].

Definition coreDir : SubDirectory :=
  mkSubDir "core" "pkg/lib/core" 3 3 [] (Own "Core functionality").

Definition libDir : SubDirectory :=
  mkSubDir "lib" "pkg/lib" 7 7 [] (Own "Utility libraries").

(** Comparison by code units, the collation of the examples. *)
Definition codeUnitCompare (a b : string) : Z :=
  match String.compare a b with
  | Lt => (-1)%Z
  | Eq => 0%Z
  | Gt => 1%Z
  end.

(** C8, the claim as stated fails: [pkg/lib/core] is selected first, and
    its parent [pkg/lib] is then kept in the result although only four
    code files lie directly in it. *)
Lemma parent_kept_with_four_direct_files :
  selectedSubdirectories packageFiles "pkg" ["pkg"] 3 = [coreDir; libDir]
  /\ below coreDir libDir
  /\ directCountAt
       (directFileCountsOf (subdirCandidates packageFiles "pkg" ["pkg"] 3))
       (sd_path libDir) = 4
  /\ 4 < 10
  /\ detectSubdirectories codeUnitCompare packageFiles "pkg" ["pkg"] 3
     = [libDir; coreDir].
Proof. repeat split; try (vm_compute; reflexivity). lia. Qed.

(** In that package, [pkg/lib] follows [pkg/lib/core] in the selection and
    has at least three direct code files. *)
Lemma detectSubdirectories_selection_witness :
  nth_error (selectedSubdirectories packageFiles "pkg" ["pkg"] 3) 0
  = Some coreDir
  /\ nth_error (selectedSubdirectories packageFiles "pkg" ["pkg"] 3) 1
     = Some libDir
  /\ 3 <= directCountAt
            (directFileCountsOf (subdirCandidates packageFiles "pkg" ["pkg"] 3))
            (sd_path libDir).
Proof.
  split; [vm_compute; reflexivity|]. split; [vm_compute; reflexivity|].
  refine (proj1 (proj2 (proj2
            (detectSubdirectories_selection codeUnitCompare packageFiles
               "pkg" ["pkg"] 3)))
            0 1 coreDir libDir _ _ _ _).
  - lia.
  - vm_compute. reflexivity.
  - vm_compute. reflexivity.
  - vm_compute. reflexivity.
Defined.

(* ------------------------------------------------------------------ *)
(** ** Uniqueness of symbol identifiers *)

(** The identifier [generateSymbolId] falls back to. *)
Definition fallbackIdOf (filePath name : string) (line : Z) : string :=
  filePath ++ "::" ++ name ++ ":L" ++ JS.ofZ line.

(** A file for which an adapter reports three symbols named [f], the last
    two on the same line (a getter and a setter, say). *)
Definition sameLineSymbols : list AdapterSymbol :=
  let sym (l : Z) :=
    mkAdapterSymbol "f" KMethod (mkSpan (mkPosition l 2) (mkPosition l 30))
      None None None in
  [ sym 1%Z; sym 5%Z; sym 5%Z ].

Definition sameLineAdapter : IndexAdapter :=
  mkAdapter "lsp" (Some true) (fun _ _ => Some sameLineSymbols).

Definition oneFile : DiscoveredFile :=
  mkFile "src/a.ts" "/repo/src/a.ts" 23%Z "2024-01-01T00:00:00.000Z".

Definition oneFileSystem : FileSystem :=
  mkFs
    (fun p => if String.eqb p "/repo/src/a.ts"
              then Some (mkFsStats "2024-01-01T00:00:00.000Z" 23%Z)
              else None)
    (fun p => if String.eqb p "/repo/src/a.ts"
              then Some (unlines ["export function f() {}"; ""])
              else None)
    (fun p => if String.eqb p "/repo/src/a.ts" then Some "5f2b" else None)
    (fun _ => "ENOENT").

Definition oneFileWorld : World :=
  mkWorld true None (mkDiscovery [oneFile] [] []) oneFileSystem 1000%Z 1007%Z
    "2024-01-02T00:00:00.000Z" None
    (fun _ => false) (fun _ => false).

Definition optionsWith (adapterList : list IndexAdapter) : IndexBuildOptions :=
  mkOptions false ".ark" "/repo" ["**/*"] ["**/node_modules/**"] 256%Z
    100000%Z true adapterList.

Lemma generateSymbolId_base (filePath name : string) (line : Z)
  (ids : StringSet) :
  generateSymbolId filePath name line ids None
  = if negb (set_has ids (filePath ++ "::" ++ name))
    then (filePath ++ "::" ++ name, set_add ids (filePath ++ "::" ++ name))
    else (fallbackIdOf filePath name line,
          set_add ids (fallbackIdOf filePath name line)).
Proof.
  unfold generateSymbolId, fallbackIdOf.
  destruct (JS.includes name "."); destruct (negb _); try reflexivity;
    now rewrite !append_assoc.
Qed.

(** C1 fails on the code. [generateSymbolId] returns the fallback
    identifier without looking it up: when the base identifier and the
    fallback are both taken, it returns an identifier that is already in
    the set. A build in which an adapter reports three symbols [f] of one
    file, the last two on line 5, writes the identifier
    [src/a.ts::f:L5] twice. *)
Theorem symbol_ids_repeat :
  (forall filePath name line ids,
     In (filePath ++ "::" ++ name) ids ->
     In (fallbackIdOf filePath name line) ids ->
     In (fst (generateSymbolId filePath name line ids None)) ids)
  /\ (forall E : Externals,
        option_map (map symbol_id)
          (symbolsOf (buildIndex E (optionsWith [sameLineAdapter])
                        oneFileWorld noIndex))
        = Some ["src/a.ts::f"; "src/a.ts::f:L5"; "src/a.ts::f:L5"])
  /\ ~ NoDup ["src/a.ts::f"; "src/a.ts::f:L5"; "src/a.ts::f:L5"].
Proof.
  split; [|split].
  - intros filePath name line ids Hbase Hfall.
    rewrite generateSymbolId_base.
    apply set_has_In in Hbase. rewrite Hbase. exact Hfall.
  - intros E. vm_compute. reflexivity.
  - intros H. inversion H as [|? ? _ H']; subst.
    inversion H' as [|? ? Hn _]; subst. apply Hn. now left.
Qed.

(* ------------------------------------------------------------------ *)
(** ** Two runs with no change in between *)

(** An adapter that is configured and not available on this host. *)
Definition absentAdapter : IndexAdapter :=
  mkAdapter "lsp" (Some false) (fun _ _ => Some []).

(** The first run starts from an empty artifact directory, the second one
    from what the first one wrote; options and world are the same. *)
Definition firstRun (E : Externals) (adapterList : list IndexAdapter)
  : BuildOutcome E :=
  buildIndex E (optionsWith adapterList) oneFileWorld noIndex.

Definition secondRun (E : Externals) (adapterList : list IndexAdapter)
  : BuildOutcome E :=
  buildIndex E (optionsWith adapterList) oneFileWorld
    (storedBy noIndex (firstRun E adapterList)).

Definition configOf (adapterList : list IndexAdapter) : CurrentConfig :=
  mkCurrentConfig ["**/*"] ["**/node_modules/**"] 256%Z true
    (map adapter_name adapterList).

(** An adapter that is available and reports one symbol for the file. *)
Definition workingAdapter : IndexAdapter :=
  mkAdapter "lsp" (Some true)
    (fun _ _ =>
       Some [ mkAdapterSymbol "f" KFunction
                (mkSpan (mkPosition 1 16) (mkPosition 1 22)) None None None ]).

(** A third run, from what the second one wrote. *)
Definition thirdRun (E : Externals) (adapterList : list IndexAdapter)
  : BuildOutcome E :=
  buildIndex E (optionsWith adapterList) oneFileWorld
    (storedBy noIndex (secondRun E adapterList)).

(** C4 fails on the code. With one configured adapter that is not
    available, the first run records an empty [adapters_used]; the second
    run compares the configured names with it, takes the configuration as
    changed although nothing changed, re-indexes every file and reports
    [files_changed = 1]. With an adapter that is available and used, the
    second run reuses the cache, runs no adapter and records an empty
    [adapters_used] in turn, so that the third run re-indexes every file.
    With no adapter configured, the same runs report [files_changed = 0]
    and write the same symbols. *)
Theorem second_run_reindexes (E : Externals) :
  option_map (fun p => adapters_used (config p))
    (p_meta (storedBy noIndex (firstRun E [absentAdapter]))) = Some []
  /\ hasConfigChanged (configOf [absentAdapter])
       (p_meta (storedBy noIndex (firstRun E [absentAdapter]))) = true
  /\ filesChangedOf (secondRun E [absentAdapter]) = Some 1
  /\ filesChangedOf (secondRun E [workingAdapter]) = Some 0
  /\ filesChangedOf (thirdRun E [workingAdapter]) = Some 1
  /\ filesChangedOf (secondRun E []) = Some 0
  /\ filesChangedOf (thirdRun E []) = Some 0
  /\ symbolsOf (secondRun E []) = symbolsOf (firstRun E []).
Proof. repeat split; vm_compute; reflexivity. Qed.

(* ------------------------------------------------------------------ *)
(** ** Configuration comparison is insensitive to order *)

Lemma ascii_compare_eq (a b : ascii) : Ascii.compare a b = Eq -> a = b.
Proof. apply Ascii.compare_eq_iff. Qed.

Lemma ascii_compare_lt_trans (a b c : ascii) :
  Ascii.compare a b = Lt -> Ascii.compare b c = Lt -> Ascii.compare a c = Lt.
Proof.
  unfold Ascii.compare. rewrite !N.compare_lt_iff. apply N.lt_trans.
Qed.

Lemma string_compare_lt_trans (s1 : string) :
  forall s2 s3, String.compare s1 s2 = Lt -> String.compare s2 s3 = Lt ->
                String.compare s1 s3 = Lt.
Proof.
  induction s1 as [|c1 s1 IH]; intros [|c2 s2] [|c3 s3]; simpl; try congruence.
  destruct (Ascii.compare c1 c2) eqn:H12; try congruence;
    destruct (Ascii.compare c2 c3) eqn:H23; try congruence; intros H1 H2.
  - apply ascii_compare_eq in H12, H23. subst.
    destruct (Ascii.compare c3 c3) eqn:H; [eauto | reflexivity |].
    unfold Ascii.compare in H. rewrite N.compare_refl in H. discriminate.
  - apply ascii_compare_eq in H12. subst. rewrite H23. reflexivity.
  - apply ascii_compare_eq in H23. subst. rewrite H12. reflexivity.
  - rewrite (ascii_compare_lt_trans _ _ _ H12 H23). reflexivity.
Qed.

Lemma string_compare_refl (s : string) : String.compare s s = Eq.
Proof.
  induction s as [|c s IH]; simpl; [reflexivity|].
  unfold Ascii.compare. rewrite N.compare_refl. exact IH.
Qed.

Lemma leb_refl (s : string) : String.leb s s = true.
Proof. unfold String.leb. rewrite string_compare_refl. reflexivity. Qed.

Lemma leb_trans (s1 s2 s3 : string) :
  String.leb s1 s2 = true -> String.leb s2 s3 = true -> String.leb s1 s3 = true.
Proof.
  unfold String.leb.
  destruct (String.compare s1 s2) eqn:H12; try discriminate;
    destruct (String.compare s2 s3) eqn:H23; try discriminate; intros _ _.
  - apply String.compare_eq_iff in H12, H23. subst.
    rewrite string_compare_refl. reflexivity.
  - apply String.compare_eq_iff in H12. subst. rewrite H23. reflexivity.
  - apply String.compare_eq_iff in H23. subst. rewrite H12. reflexivity.
  - rewrite (string_compare_lt_trans _ _ _ H12 H23). reflexivity.
Qed.

Definition ascending : list string -> Prop :=
  StronglySorted (fun x y => String.leb x y = true).

Lemma insertSorted_perm (x : string) (l : list string) :
  Permutation (x :: l) (insertSorted x l).
Proof.
  induction l as [|y l IH]; simpl; [reflexivity|].
  destruct (String.leb x y); [reflexivity|].
  rewrite perm_swap. constructor. exact IH.
Qed.

Lemma sortStrings_perm (l : list string) : Permutation l (sortStrings l).
Proof.
  induction l as [|x l IH]; simpl; [reflexivity|].
  rewrite <- insertSorted_perm. constructor. exact IH.
Qed.

Lemma insertSorted_ascending (x : string) (l : list string) :
  ascending l -> ascending (insertSorted x l).
Proof.
  unfold ascending. induction l as [|y l IH]; intros Hl; simpl.
  - repeat constructor.
  - inversion Hl as [|? ? Hl' Hy]; subst.
    destruct (String.leb x y) eqn:Hxy.
    + constructor; [exact Hl|]. constructor; [exact Hxy|].
      rewrite Forall_forall in *. intros z Hz.
      apply (leb_trans _ _ _ Hxy). apply Hy, Hz.
    + constructor; [apply IH, Hl'|].
      rewrite Forall_forall in *. intros z Hz.
      apply (Permutation_in _ (Permutation_sym (insertSorted_perm x l))) in Hz.
      destruct Hz as [<-|Hz]; [|apply Hy, Hz].
      destruct (String.leb_total x y) as [H|H]; congruence.
Qed.

Lemma sortStrings_ascending (l : list string) : ascending (sortStrings l).
Proof.
  induction l as [|x l IH]; simpl; [constructor|].
  apply insertSorted_ascending, IH.
Qed.

(** Two ascending lists with the same members are the same list. *)
Lemma ascending_unique (l1 : list string) :
  forall l2, ascending l1 -> ascending l2 -> Permutation l1 l2 -> l1 = l2.
Proof.
  unfold ascending.
  induction l1 as [|x l1 IH]; intros l2 H1 H2 Hp.
  - apply Permutation_nil in Hp. congruence.
  - destruct l2 as [|y l2].
    + apply Permutation_sym, Permutation_nil in Hp. discriminate.
    + inversion H1 as [|? ? H1' Hx]; inversion H2 as [|? ? H2' Hy]; subst.
      assert (x = y) as ->.
      { rewrite Forall_forall in Hx, Hy.
        assert (In y (x :: l1)) as [->|Hin1]
          by (apply (Permutation_in _ (Permutation_sym Hp)); left; reflexivity);
          [reflexivity|].
        assert (In x (y :: l2)) as [->|Hin2]
          by (apply (Permutation_in _ Hp); left; reflexivity);
          [reflexivity|].
        apply String.leb_antisym; [apply Hx, Hin1 | apply Hy, Hin2]. }
      f_equal. apply IH; try assumption.
      apply (Permutation_cons_inv Hp).
Qed.

Lemma everyEqual_refl (l : list string) : everyEqual l l = true.
Proof.
  induction l as [|x l IH]; simpl; [reflexivity|].
  rewrite String.eqb_refl. exact IH.
Qed.

Lemma everyEqual_eq (a : list string) :
  forall b, List.length a = List.length b -> everyEqual a b = true -> a = b.
Proof.
  induction a as [|x a IH]; intros [|y b]; simpl; try discriminate.
  - reflexivity.
  - intros Hlen H. apply andb_true_iff in H as [Hxy H].
    apply String.eqb_eq in Hxy. subst. f_equal. apply IH; [lia | exact H].
Qed.

Lemma arraysEqual_iff (a b : list string) :
  arraysEqual a b = true <-> Permutation a b.
Proof.
  unfold arraysEqual. split.
  - destruct (List.length a =? List.length b) eqn:Hlen; simpl; [|discriminate].
    apply Nat.eqb_eq in Hlen. intros H.
    apply everyEqual_eq in H.
    + rewrite (sortStrings_perm a), H. symmetry. apply sortStrings_perm.
    + rewrite <- (Permutation_length (sortStrings_perm a)),
              <- (Permutation_length (sortStrings_perm b)). exact Hlen.
  - intros Hp. rewrite (Permutation_length Hp), Nat.eqb_refl. simpl.
    rewrite (ascending_unique (sortStrings a) (sortStrings b)).
    + apply everyEqual_refl.
    + apply sortStrings_ascending.
    + apply sortStrings_ascending.
    + rewrite <- (sortStrings_perm a), <- (sortStrings_perm b). exact Hp.
Qed.

(** X1: [hasConfigChanged] reports no change exactly when the two scalar
    settings are the stored ones and each list holds the stored entries, in
    any order; without a previous [meta.json] it never reports a change. *)
Theorem hasConfigChanged_false_iff (currentConfig : CurrentConfig)
  (pm : IndexMeta) :
  hasConfigChanged currentConfig None = false
  /\ (hasConfigChanged currentConfig (Some pm) = false
      <-> Permutation (includeGlobs currentConfig) (include_globs (config pm))
          /\ Permutation (excludeGlobs currentConfig)
               (exclude_globs (config pm))
          /\ maxFileKb currentConfig = max_file_kb (config pm)
          /\ respectGitignore currentConfig = respect_gitignore (config pm)
          /\ Permutation (adapters currentConfig)
               (adapters_used (config pm))).
Proof.
  split; [reflexivity|].
  unfold hasConfigChanged.
  rewrite <- !arraysEqual_iff, <- Z.eqb_eq,
          <- (Bool.eqb_true_iff (respectGitignore currentConfig)).
  destruct (arraysEqual (includeGlobs currentConfig) _),
           (arraysEqual (excludeGlobs currentConfig) _),
           (maxFileKb currentConfig =? _)%Z,
           (Bool.eqb (respectGitignore currentConfig) _),
           (arraysEqual (adapters currentConfig) _); simpl;
    intuition congruence.
Qed.

(* ------------------------------------------------------------------ *)
(** ** Previous metadata of other shapes

    A value of the shape of [IndexMeta] is treated as the JSON value with
    the same configuration is; on other values [hasConfigChanged] may
    throw. *)

Lemma sortKeys_strings (l : list string) :
  sortKeys (map JString l) = Returned (map (fun s => (s, JString s)) l).
Proof.
  induction l as [|x l IH]; [reflexivity|].
  cbn [map sortKeys jsonToString andThen]. now rewrite IH.
Qed.

Lemma insertKeyed_strings (x : string) (l : list string) :
  insertKeyed (x, JString x) (map (fun s => (s, JString s)) l)
  = map (fun s => (s, JString s)) (insertSorted x l).
Proof.
  induction l as [|y l IH]; [reflexivity|].
  cbn [map insertKeyed insertSorted fst].
  destruct (String.leb x y); [reflexivity|]. cbn [map]. now rewrite IH.
Qed.

Lemma sortKeyed_strings (l : list string) :
  fold_right insertKeyed [] (map (fun s => (s, JString s)) l)
  = map (fun s => (s, JString s)) (sortStrings l).
Proof.
  unfold sortStrings. induction l as [|x l IH]; [reflexivity|].
  cbn [map fold_right]. rewrite IH. apply insertKeyed_strings.
Qed.

Lemma sortJson_strings (l : list string) :
  sortJson (map JString l) = Returned (map JString (sortStrings l)).
Proof.
  unfold sortJson. rewrite length_map.
  destruct l as [|x [|y l]]; [reflexivity | reflexivity |].
  cbn [List.length Nat.ltb Nat.leb]. rewrite sortKeys_strings.
  cbn [andThen]. now rewrite sortKeyed_strings, map_map.
Qed.

Lemma everyStrictlyEqual_strings (a b : list string) :
  everyStrictlyEqual a (map JString b) = everyEqual a b.
Proof.
  revert b; induction a as [|x a IH]; intros [|y b]; cbn; try reflexivity.
  now rewrite IH.
Qed.

Lemma sortStrings_length (l : list string) :
  List.length (sortStrings l) = List.length l.
Proof.
  unfold sortStrings. induction l as [|x l IH]; [reflexivity|].
  cbn [fold_right List.length]. rewrite <- IH.
  generalize (fold_right insertSorted [] l) as sorted.
  induction sorted as [|y sorted IHs]; [reflexivity|].
  cbn [insertSorted]. destruct (String.leb x y); cbn [List.length];
    [reflexivity | now rewrite IHs].
Qed.

Lemma arraysEqualLoose_strings (a b : list string) :
  arraysEqualLoose a (Some (JArray (map JString b)))
  = Returned (arraysEqual a b).
Proof.
  unfold arraysEqualLoose, arraysEqual. rewrite length_map.
  destruct (negb (List.length a =? List.length b)); [reflexivity|].
  rewrite sortJson_strings. cbn [andThen].
  now rewrite everyStrictlyEqual_strings.
Qed.

(** The JSON value of a configuration, as [meta.json] holds it. *)
Definition jsonOfConfig (c : MetaConfig) : JsonValue :=
  JObject
    [ ("include_globs", JArray (map JString (include_globs c)));
      ("exclude_globs", JArray (map JString (exclude_globs c)));
      ("max_file_kb", JNumber (JsInt (max_file_kb c)));
      ("respect_gitignore", JBool (respect_gitignore c));
      ("adapters_used", JArray (map JString (adapters_used c))) ].

(** Conversions to a string, and the default order of [sort], which
    compares the strings: [10] comes before [9]. *)
Example jsonToString_examples :
  jsonToString
    (JArray [JNumber (JsInt 1); JNull; JArray [JString "a"; JBool true];
             JObject [("a", JNull)]])
  = Returned "1,,a,true,[object Object]"
  /\ jsonToString (JArray [JObject [("toString", JString "x")]]) = Throws
  /\ jsonToString (JArray []) = Returned ""
  /\ sortJson [JNumber (JsInt 9); JString "a"; JNumber (JsInt 10)]
     = Returned [JNumber (JsInt 10); JNumber (JsInt 9); JString "a"]
  /\ sortJson [JObject [("toString", JNull)]]
     = Returned [JObject [("toString", JNull)]]
  /\ sortJson [JString "a"; JObject [("toString", JNull)]] = Throws.
Proof. repeat split; vm_compute; reflexivity. Qed.

(** On an object whose [config] is the JSON value of the configuration of
    [pm], [hasConfigChanged] answers as on [pm]. *)
Lemma hasConfigChangedLoose_json (currentConfig : CurrentConfig)
  (pm : IndexMeta) (o : list (string * JsonValue)) :
  obj_own o "config" = Some (jsonOfConfig (config pm)) ->
  hasConfigChangedLoose currentConfig (Some (Untyped (JObject o)))
  = hasConfigChangedLoose currentConfig (Some (Typed pm)).
Proof.
  intros Ho. unfold hasConfigChangedLoose, hasConfigChanged.
  cbn [jsonTruthy negb]. cbv zeta. cbn [jsonProperty].
  rewrite Ho.
  unfold jsonOfConfig.
  cbn [propertyOf jsonProperty obj_own String.eqb Ascii.eqb Bool.eqb andThen].
  rewrite !arraysEqualLoose_strings. cbn [andThen isInteger].
  destruct (arraysEqual (includeGlobs currentConfig) _); [|reflexivity].
  cbn [negb andThen].
  destruct (arraysEqual (excludeGlobs currentConfig) _); [|reflexivity].
  cbn [negb].
  replace (max_file_kb (config pm) =? maxFileKb currentConfig)%Z
    with (maxFileKb currentConfig =? max_file_kb (config pm))%Z
    by apply Z.eqb_sym.
  destruct (maxFileKb currentConfig =? _)%Z; [|reflexivity].
  cbn [negb].
  destruct (Bool.eqb (respectGitignore currentConfig) _); [|reflexivity].
  cbn [negb andThen].
  now destruct (arraysEqual (adapters currentConfig) _).
Qed.

(** What [hasConfigChanged] does on values of other shapes. *)
Example hasConfigChangedLoose_examples :
  let current := mkCurrentConfig ["b"; "a"] [] 256 true [] in
  let on v := hasConfigChangedLoose current (Some (Untyped v)) in
  on JNull = Returned false
  /\ on (JNumber (JsInt 0)) = Returned false
  /\ on (JString "x") = Throws
  /\ on (JObject []) = Throws
  /\ on (JObject [("config", JObject [])]) = Throws
  /\ on (JObject [("config", JObject [("include_globs", JNumber (JsInt 2))])])
     = Returned true
  /\ on (JObject [("config",
                   JObject [("include_globs",
                             JObject [("length", JNumber (JsInt 2))])])])
     = Throws
  /\ on (JObject [("config", JObject [("include_globs", JString "ab")])])
     = Throws
  /\ on (JObject [("config",
                   JObject [("include_globs", JString "ab");
                            ("exclude_globs", JArray [JNull])])])
     = Returned true
  /\ on (JObject [("config",
                   JObject [("include_globs",
                             JArray [JString "a"; JString "b"]);
                            ("exclude_globs", JString "");
                            ("max_file_kb", JNumber (JsInt 256));
                            ("respect_gitignore", JBool true);
                            ("adapters_used", JArray [])])])
     = Returned false.
Proof. cbv zeta. repeat split; vm_compute; reflexivity. Qed.

(* ------------------------------------------------------------------ *)
(** ** What the verifier accepts *)

Lemma invalidLineErrors_nil (ls : list JsonLine) :
  forall i, invalidLineErrors ls i = [] ->
            Forall (fun l => l <> InvalidLine) ls.
Proof.
  induction ls as [|l ls IH]; intros i H; [constructor|].
  destruct l; simpl in H; try discriminate;
    (constructor; [discriminate | exact (IH _ H)]).
Qed.

(** The non-blank lines of [symbols.jsonl], counted. *)
Definition symbolCountOf (ls : list JsonLine) : Z :=
  Z.of_nat (List.length (filter (fun l => negb (isBlank l)) ls)).

(** X2: the verifier returns [valid = true] exactly for an artifact
    directory in which all five files are present and parse, no line of
    [symbols.jsonl] is invalid JSON, [meta.schema_version] is a string,
    [meta.stats] and [file_hashes.files] are neither [null] nor
    [undefined], and a count of [meta.stats] that differs can be converted
    to a string for its warning; neither the status recorded in
    [meta.json] nor the value of any count is looked at. It throws a
    [TypeError] exactly when no file is missing, [meta.json] parses and
    either [meta.schema_version] is no string or [file_hashes.json] parses
    and [file_hashes.files] or [meta.stats] is [null] or [undefined] or
    the warning of the file count cannot be printed. *)
Theorem verifyIndex_valid_exactly (d : StoredIndex) :
  ((exists r, verifyIndex d = Returned r /\ valid r = true)
   <-> exists meta fileHashes ls version n st,
         s_meta d = Parsed meta
         /\ s_repo_map d = Parsed tt
         /\ s_symbols d = Parsed ls
         /\ s_test_map d = Parsed tt
         /\ s_file_hashes d = Parsed fileHashes
         /\ schemaVersionOf meta = Returned version
         /\ hashFileCountOf fileHashes = Returned n
         /\ statsOf meta = Returned st
         /\ fileCountWarning st n <> Throws
         /\ symbolCountWarning st (symbolCountOf ls) <> Throws
         /\ Forall (fun l => l <> InvalidLine) ls)
  /\ (verifyIndex d = Throws
      <-> missingErrors d = []
          /\ exists meta,
               s_meta d = Parsed meta
               /\ (schemaVersionOf meta = Throws
                   \/ exists fileHashes,
                        s_file_hashes d = Parsed fileHashes
                        /\ (hashFileCountOf fileHashes = Throws
                            \/ statsOf meta = Throws
                            \/ exists n st,
                                 hashFileCountOf fileHashes = Returned n
                                 /\ statsOf meta = Returned st
                                 /\ fileCountWarning st n = Throws))).
Proof.
  split.
  - split.
    + intros (r & Hr & Hvalid). unfold verifyIndex in Hr.
      destruct (missingErrors d) as [|e es];
        cbn [List.length Nat.ltb Nat.leb] in Hr;
        [|injection Hr as <-; discriminate].
      destruct (s_meta d) as [|m1|meta]; cbn [readStored] in Hr;
        try (injection Hr as <-; discriminate).
      destruct (schemaVersionOf meta) as [|version] eqn:Hv; [discriminate|].
      destruct (s_file_hashes d) as [|m5|fileHashes]; cbn [readStored] in Hr;
        try (injection Hr as <-; discriminate).
      destruct (hashFileCountOf fileHashes) as [|n] eqn:Hn; [discriminate|].
      destruct (statsOf meta) as [|metaStats] eqn:Hst; [discriminate|].
      destruct (fileCountWarning metaStats n) as [|fileWarning] eqn:Hfile;
        [discriminate|].
      destruct (s_symbols d) as [|m3|ls]; cbn [readStored] in Hr.
      1, 2: injection Hr as <-; cbn [valid] in Hvalid;
        apply length_zero_nil in Hvalid;
        destruct (readStored (s_repo_map d));
        destruct (readStored (s_test_map d)); discriminate.
      fold (symbolCountOf ls) in Hr.
      destruct (symbolCountWarning metaStats (symbolCountOf ls))
        as [|symbolWarning] eqn:Hsymbols.
      { injection Hr as <-. cbn [valid] in Hvalid.
        apply length_zero_nil in Hvalid.
        destruct (readStored (s_repo_map d));
          destruct (readStored (s_test_map d));
          repeat (apply app_eq_nil in Hvalid as [Hvalid ?]);
          discriminate. }
      destruct (s_repo_map d) as [|m2|[]]; destruct (s_test_map d) as [|m4|[]];
        cbn [readStored] in Hr; injection Hr as <-;
        cbn [valid] in Hvalid; apply length_zero_nil in Hvalid;
        try (repeat (apply app_eq_nil in Hvalid as [Hvalid ?]);
             discriminate).
      exists meta, fileHashes, ls, version, n, metaStats.
      repeat (split; [first [reflexivity | assumption]|]).
      rewrite Hfile, Hsymbols. repeat (split; [discriminate|]).
      apply nonblank_valid. exact (invalidLineErrors_nil _ _ Hvalid).
    + intros (meta & fileHashes & ls & version & n & st & Hm & Hr & Hs & Ht
              & Hh & Hv & Hn & Hst & Hfile & Hsymbols & Hls).
      destruct (verifyIndex_parsed d meta fileHashes ls version n st Hm Hr Hs
                  Ht Hh Hv Hn Hst Hfile Hsymbols) as (r & Hret & Herr).
      exists r. split; [exact Hret|].
      apply (verifyIndex_valid_iff d r Hret). rewrite Herr.
      apply invalidLineErrors_none, nonblank_valid, Hls.
  - unfold verifyIndex.
    destruct (missingErrors d) as [|e es];
      cbn [List.length Nat.ltb Nat.leb];
      [|split; [discriminate | intros [H _]; discriminate]].
    destruct (s_meta d) as [|m1|meta]; cbn [readStored];
      try (split; [discriminate | intros (_ & meta & H & _); discriminate]).
    destruct (schemaVersionOf meta) as [|version] eqn:Hv.
    { split; [|reflexivity]. intros _. split; [reflexivity|].
      exists meta. split; [reflexivity | now left]. }
    destruct (s_file_hashes d) as [|m5|fileHashes]; cbn [readStored];
      try (split; [discriminate|];
           intros (_ & meta' & [= <-] & [H|(fh & H & _)]);
           [congruence | discriminate]).
    destruct (hashFileCountOf fileHashes) as [|n] eqn:Hn.
    { split; [|reflexivity]. intros _. split; [reflexivity|].
      exists meta. split; [reflexivity|]. right.
      exists fileHashes. split; [reflexivity | now left]. }
    destruct (statsOf meta) as [|metaStats] eqn:Hst.
    { split; [|reflexivity]. intros _. split; [reflexivity|].
      exists meta. split; [reflexivity|]. right.
      exists fileHashes. split; [reflexivity | right; now left]. }
    destruct (fileCountWarning metaStats n) as [|fileWarning] eqn:Hfile.
    { split; [|reflexivity]. intros _. split; [reflexivity|].
      exists meta. split; [reflexivity|]. right.
      exists fileHashes. split; [reflexivity|]. right; right.
      now exists n, metaStats. }
    split.
    + destruct (readStored (s_symbols d));
        [|destruct (symbolCountWarning metaStats _)]; discriminate.
    + intros (_ & meta' & [= <-] & [H|(fh & [= <-] & [H|[H|H]])]);
        try congruence.
      destruct H as (n' & st' & Hn' & Hst' & Hfile'). congruence.
Qed.

(** On objects that hold the fields which the verifier reads, with the
    values of [meta] and as many files as [fileHashes] has, the verifier
    answers as on [meta] and [fileHashes]. *)
Lemma verifyIndex_json (d : StoredIndex) (meta : IndexMeta)
  (fileHashes : FileHashes)
  (metaObject statsObject hashesObject filesObject
     : list (string * JsonValue)) :
  s_meta d = Parsed (Untyped (JObject metaObject)) ->
  s_file_hashes d = Parsed (Untyped (JObject hashesObject)) ->
  obj_own metaObject "schema_version"
  = Some (JString (schema_version meta)) ->
  obj_own metaObject "stats" = Some (JObject statsObject) ->
  obj_own statsObject "total_files"
  = Some (JNumber (JsInt (total_files (stats meta)))) ->
  obj_own statsObject "total_symbols"
  = Some (JNumber (JsInt (total_symbols (stats meta)))) ->
  obj_own hashesObject "files" = Some (JObject filesObject) ->
  List.length filesObject = List.length (obj_keys (h_files fileHashes)) ->
  verifyIndex d
  = verifyIndex
      (mkStored (Parsed (Typed meta)) (s_repo_map d) (s_symbols d)
         (s_test_map d) (Parsed (Typed fileHashes))).
Proof.
  intros Hm Hh Hversion Hstats Hfiles Hsymbols Hledger Hlen.
  unfold verifyIndex, missingErrors.
  cbn [s_meta s_repo_map s_symbols s_test_map s_file_hashes].
  rewrite Hm, Hh. cbn [isMissing readStored].
  destruct (0 <? _); [reflexivity|].
  unfold schemaVersionOf, hashFileCountOf, statsOf, fileCountWarning,
    symbolCountWarning, propertyOf.
  cbn [jsonProperty]. rewrite Hversion, Hledger, Hstats.
  cbn [ownKeyCount totalFilesOf totalSymbolsOf jsonProperty].
  rewrite Hfiles, Hsymbols, Hlen. reflexivity.
Qed.

(* ------------------------------------------------------------------ *)
(** ** Objects used as records: assignment and lookup *)

Lemma obj_own_app {A : Type} (o1 o2 : Obj A) (k : string) :
  obj_own (o1 ++ o2)%list k
  = match obj_own o1 k with Some v => Some v | None => obj_own o2 k end.
Proof.
  induction o1 as [|[k' v'] o1 IH]; simpl; [reflexivity|].
  destruct (String.eqb k k'); [reflexivity | exact IH].
Qed.

Lemma obj_own_replace {A : Type} (o : Obj A) (k k' : string) (v : A) :
  obj_own (obj_replace o k v) k'
  = if String.eqb k' k
    then match obj_own o k with Some _ => Some v | None => None end
    else obj_own o k'.
Proof.
  induction o as [|[k0 v0] o IH]; simpl.
  - now destruct (String.eqb k' k).
  - destruct (String.eqb_spec k k0) as [->|Hk]; simpl.
    + destruct (String.eqb_spec k' k0); reflexivity.
    + rewrite IH. destruct (String.eqb_spec k' k0) as [->|Hk'].
      * destruct (String.eqb_spec k0 k); [congruence | reflexivity].
      * reflexivity.
Qed.

Lemma obj_own_insertIndex {A : Type} (o : Obj A) (n : N) (k k' : string)
  (v : A) :
  obj_own o k = None ->
  obj_own (obj_insertIndex o n k v) k'
  = if String.eqb k' k then Some v else obj_own o k'.
Proof.
  induction o as [|[k0 v0] o IH]; simpl; intros Hk.
  - reflexivity.
  - destruct (String.eqb_spec k k0) as [->|Hne]; [discriminate|].
    assert (Hhere : obj_own ((k, v) :: (k0, v0) :: o) k'
                    = if String.eqb k' k then Some v
                      else if String.eqb k' k0 then Some v0 else obj_own o k')
      by reflexivity.
    destruct (arrayIndex k0) as [n'|]; [|exact Hhere].
    destruct (n' <? n)%N; [|exact Hhere].
    simpl. rewrite (IH Hk).
    destruct (String.eqb_spec k' k0) as [->|]; [|reflexivity].
    destruct (String.eqb_spec k0 k); [congruence | reflexivity].
Qed.

(** Reading back what [o[k] = v] wrote: the value is found under [k] unless
    [k] is [__proto__], and no other key is affected. *)
Lemma obj_own_set {A : Type} (o : Obj A) (k k' : string) (v : A) :
  obj_own (obj_set o k v) k'
  = if String.eqb k' k && negb (String.eqb k "__proto__") then Some v
    else obj_own o k'.
Proof.
  unfold obj_set. destruct (String.eqb k "__proto__"); simpl.
  - now rewrite andb_false_r.
  - rewrite andb_true_r. destruct (obj_own o k) as [v0|] eqn:Hk.
    + rewrite obj_own_replace, Hk. reflexivity.
    + destruct (arrayIndex k) as [n|].
      * apply obj_own_insertIndex, Hk.
      * rewrite obj_own_app. simpl.
        destruct (String.eqb_spec k' k) as [->|].
        -- now rewrite Hk.
        -- now destruct (obj_own o k').
Qed.

Lemma obj_keys_replace {A : Type} (o : Obj A) (k : string) (v : A) :
  obj_keys (obj_replace o k v) = obj_keys o.
Proof.
  unfold obj_keys. induction o as [|[k0 v0] o IH]; simpl; [reflexivity|].
  destruct (String.eqb k k0); simpl; [reflexivity | now rewrite IH].
Qed.

Lemma obj_keys_insertIndex {A : Type} (o : Obj A) (n : N) (k : string)
  (v : A) :
  Permutation (k :: obj_keys o) (obj_keys (obj_insertIndex o n k v)).
Proof.
  unfold obj_keys. induction o as [|[k0 v0] o IH]; simpl; [reflexivity|].
  destruct (arrayIndex k0) as [n'|]; [|reflexivity].
  destruct (n' <? n)%N; [|reflexivity].
  simpl. rewrite perm_swap. now constructor.
Qed.

(** A lookup finds a value exactly under the keys of the object. *)
Lemma obj_own_keys {A : Type} (o : Obj A) (k : string) :
  In k (obj_keys o) <-> obj_own o k <> None.
Proof.
  unfold obj_keys. induction o as [|[k0 v0] o IH]; simpl.
  - split; [intros [] | congruence].
  - destruct (String.eqb_spec k k0) as [->|Hne].
    + split; [discriminate | now left].
    + rewrite <- IH. split; [intros [H|H]; [congruence | exact H] | now right].
Qed.

(** The keys after an assignment: the key is new exactly when it was not
    there and is not [__proto__]. *)
Lemma obj_keys_set {A : Type} (o : Obj A) (k : string) (v : A) :
  Permutation
    (if negb (String.eqb k "__proto__")
        && match obj_own o k with Some _ => false | None => true end
     then k :: obj_keys o else obj_keys o)
    (obj_keys (obj_set o k v)).
Proof.
  unfold obj_set. destruct (String.eqb k "__proto__"); simpl; [reflexivity|].
  destruct (obj_own o k) as [v0|].
  - now rewrite obj_keys_replace.
  - destruct (arrayIndex k) as [n|].
    + apply obj_keys_insertIndex.
    + unfold obj_keys. rewrite map_app. simpl.
      apply Permutation_cons_append.
Qed.

(* ------------------------------------------------------------------ *)
(** ** The ledger: what [buildFileHashes] records and what the next
       analysis reads back *)

Lemma fileMap_get_path (fls : list DiscoveredFile) (p : string)
  (f : DiscoveredFile) :
  fileMap_get fls p = Some f -> In f fls /\ path f = p.
Proof.
  induction fls as [|g fls IH]; simpl; [discriminate|].
  destruct (fileMap_get fls p) as [h|].
  - intros [= ->]. destruct (IH eq_refl). split; [now right | assumption].
  - destruct (String.eqb_spec (path g) p); [|discriminate].
    intros [= ->]. split; [now left | assumption].
Qed.

Lemma fileMap_get_In (fls : list DiscoveredFile) (f : DiscoveredFile) :
  NoDup (map path fls) -> In f fls -> fileMap_get fls (path f) = Some f.
Proof.
  induction fls as [|g fls IH]; simpl; intros Hnd Hin; [contradiction|].
  inversion Hnd as [|? ? Hg Hnd']; subst.
  destruct Hin as [->|Hin].
  - destruct (fileMap_get fls (path f)) as [h|] eqn:Hh.
    + apply fileMap_get_path in Hh as [Hh1 Hh2].
      exfalso. apply Hg. rewrite <- Hh2. now apply in_map.
    + now rewrite String.eqb_refl.
  - now rewrite (IH Hnd' Hin).
Qed.

(** An entry of the ledger that belongs to a discovered file: it carries
    the mtime and size of the discovery and a hash that is not empty. *)
Definition recorded (fls : list DiscoveredFile) (k : string)
  (e : FileHashEntry) : Prop :=
  exists f, fileMap_get fls k = Some f
            /\ e_mtime e = mtime f /\ e_size e = size f
            /\ JS.truthy (hash e) = true.

Lemma chosen_hash_truthy (fs : FileSystem) (c : FileChange) (p hv : string) :
  (if JS.truthyOpt (c_hash c) then c_hash c else computeFileHash fs p)
  = Some hv ->
  JS.truthy hv = true.
Proof.
  destruct (JS.truthyOpt (c_hash c)) eqn:Ht.
  - intros H. rewrite H in Ht. exact Ht.
  - unfold computeFileHash. destruct (digestSync fs p); [|discriminate].
    now intros [= <-].
Qed.

Lemma buildHashesFiles_recorded (fs : FileSystem) (fls : list DiscoveredFile)
  (changes : list FileChange) :
  forall acc o,
    buildHashesFiles fs changes fls acc = Some o ->
    (forall k e, obj_own acc k = Some e -> recorded fls k e) ->
    forall k e, obj_own o k = Some e -> recorded fls k e.
Proof.
  induction changes as [|c changes IH]; simpl; intros acc o Hb Hacc.
  - injection Hb as <-. exact Hacc.
  - assert (Hskip : buildHashesFiles fs changes fls acc = Some o ->
                    forall k e, obj_own o k = Some e -> recorded fls k e)
      by (intros H; exact (IH acc o H Hacc)).
    destruct (status c); try (exact (Hskip Hb));
      (destruct (fileMap_get fls (c_path c)) as [f|] eqn:Hf;
       [|exact (Hskip Hb)];
       match type of Hb with
       | match ?h with _ => _ end = _ => destruct h as [hv|] eqn:Hh
       end; [|discriminate];
       apply (IH _ o Hb); intros k e; rewrite obj_own_set;
       destruct (String.eqb_spec k (c_path c)) as [->|];
       cbn [andb]; [|apply Hacc];
       destruct (negb (String.eqb (c_path c) "__proto__")); [|apply Hacc];
       intros [= <-]; exists f; cbn [e_mtime e_size hash];
       repeat split; try assumption;
       exact (chosen_hash_truthy _ _ _ _ Hh)).
Qed.

Lemma buildHashesFiles_present (fs : FileSystem) (fls : list DiscoveredFile)
  (changes : list FileChange) :
  forall acc o k,
    buildHashesFiles fs changes fls acc = Some o ->
    obj_own acc k <> None
    \/ (k <> "__proto__" /\ fileMap_get fls k <> None
        /\ exists c, In c changes /\ c_path c = k /\ status c <> Deleted) ->
    obj_own o k <> None.
Proof.
  induction changes as [|c changes IH]; simpl; intros acc o k Hb Hk.
  - injection Hb as <-. destruct Hk as [Hk|(_ & _ & c & [] & _)]. exact Hk.
  - assert (Hlater : forall acc',
              buildHashesFiles fs changes fls acc' = Some o ->
              (obj_own acc k <> None -> obj_own acc' k <> None) ->
              (c_path c = k -> status c <> Deleted -> k <> "__proto__" ->
               fileMap_get fls k <> None -> obj_own acc' k <> None) ->
              obj_own o k <> None).
    { intros acc' Hb' Hkeep Hnew. apply (IH acc' o k Hb').
      destruct Hk as [Hk|(Hp & Hf & c' & [<-|Hin] & Hc1 & Hc2)].
      - left. now apply Hkeep.
      - left. now apply Hnew.
      - right. repeat split; try assumption. now exists c'. }
    destruct (status c) eqn:Hs;
      try (apply (Hlater acc Hb); [tauto | congruence]);
      (destruct (fileMap_get fls (c_path c)) as [f|] eqn:Hf;
       [|apply (Hlater acc Hb); [tauto | intros <-; congruence]];
       match type of Hb with
       | match ?h with _ => _ end = _ => destruct h as [hv|] eqn:Hh
       end; [|discriminate];
       apply (Hlater _ Hb);
       [ intros H; rewrite obj_own_set;
         destruct (_ && _); [discriminate | exact H]
       | intros <- _ Hp _; rewrite obj_own_set, String.eqb_refl;
         destruct (String.eqb_spec (c_path c) "__proto__");
         [contradiction | discriminate] ]).
Qed.

Lemma buildHashesFiles_keys (fs : FileSystem) (fls : list DiscoveredFile)
  (changes : list FileChange) :
  forall acc o k,
    buildHashesFiles fs changes fls acc = Some o ->
    obj_own o k <> None ->
    obj_own acc k <> None \/ fileMap_get fls k <> None.
Proof.
  induction changes as [|c changes IH]; simpl; intros acc o k Hb Hk.
  - injection Hb as <-. now left.
  - destruct (status c);
      try (exact (IH acc o k Hb Hk));
      (destruct (fileMap_get fls (c_path c)) as [f|] eqn:Hf;
       [|exact (IH acc o k Hb Hk)];
       match type of Hb with
       | match ?h with _ => _ end = _ => destruct h as [hv|] eqn:Hh
       end; [|discriminate];
       destruct (IH _ o k Hb Hk) as [H|H]; [|now right];
       rewrite obj_own_set in H;
       destruct (String.eqb_spec k (c_path c)) as [->|];
       [right; congruence | left; exact H]).
Qed.

Lemma buildHashesFiles_returns (fs : FileSystem) (fls : list DiscoveredFile)
  (changes : list FileChange) :
  (forall c, In c changes -> status c <> Deleted ->
             JS.truthyOpt (c_hash c) = true) ->
  forall acc, buildHashesFiles fs changes fls acc <> None.
Proof.
  induction changes as [|c changes IH]; simpl; intros Hc acc; [discriminate|].
  assert (IH' := IH (fun c' H => Hc c' (or_intror H))).
  destruct (status c) eqn:Hs; try apply IH';
    (destruct (fileMap_get fls (c_path c)); [|apply IH'];
     rewrite (Hc c (or_introl eq_refl)) by congruence;
     destruct (c_hash c) eqn:Hh;
     [apply IH' | specialize (Hc c (or_introl eq_refl)); rewrite Hh in Hc;
                  discriminate Hc; congruence]).
Qed.

Lemma classify_path (fs : FileSystem) (prev : option FileHashes)
  (f : DiscoveredFile) (c : FileChange) :
  snd (classify fs prev f) = Some c ->
  c_path c = path f /\ status c <> Deleted.
Proof.
  unfold classify.
  assert (Hnew : snd ([HashCall (absolutePath f)],
                      match computeFileHash fs (absolutePath f) with
                      | Some h => Some (mkChange (path f) New (Some h))
                      | None => None
                      end) = Some c ->
                 c_path c = path f /\ status c <> Deleted).
  { cbn [snd]. destruct (computeFileHash fs (absolutePath f)); [|discriminate].
    intros [= <-]. split; [reflexivity | discriminate]. }
  destruct prev as [ph|]; [|exact Hnew].
  destruct (obj_get (h_files ph) (path f)) as [e| |]; [| |exact Hnew];
    match goal with
    | |- context [quickChangeCheck ?a ?b ?c ?d] =>
        destruct (quickChangeCheck a b c d)
    end; cbn [snd];
    try (intros [= <-]; split; [reflexivity | discriminate]);
    destruct (computeFileHash fs (absolutePath f)) as [h|]; try discriminate;
    try (intros [= <-]; split; [reflexivity | discriminate]).
  destruct (String.eqb h (hash e)); intros [= <-];
    (split; [reflexivity | discriminate]).
Qed.

Lemma analyzeFiles_map (fs : FileSystem) (prev : option FileHashes)
  (fls : list DiscoveredFile) (calls : DiscoveredFile -> list FsCall)
  (verdict : DiscoveredFile -> FileChange) :
  (forall f, In f fls -> classify fs prev f = (calls f, Some (verdict f))) ->
  analyzeFiles fs prev fls = (concat (map calls fls), Some (map verdict fls)).
Proof.
  induction fls as [|f fls IH]; intros H; simpl; [reflexivity|].
  rewrite (H f (or_introl eq_refl)), (IH (fun g Hg => H g (or_intror Hg))).
  reflexivity.
Qed.

Lemma getChangedCount_app (a b : list FileChange) :
  getChangedCount (a ++ b) = getChangedCount a + getChangedCount b.
Proof. unfold getChangedCount. now rewrite filter_app, length_app. Qed.

Lemma getFilesToIndex_count (changes : list FileChange) :
  List.length (getFilesToIndex changes) = getChangedCount changes.
Proof. unfold getFilesToIndex, getChangedCount. apply length_map. Qed.

Lemma deletedChanges_count (fls : list DiscoveredFile)
  (prev : option FileHashes) :
  getChangedCount (deletedChanges fls prev) = 0.
Proof.
  unfold getChangedCount, deletedChanges. destruct prev as [ph|]; [|reflexivity].
  induction (filter _ (obj_keys (h_files ph))) as [|k ks IH]; simpl;
    [reflexivity | exact IH].
Qed.

(** X3: the first analysis of a repository. Without a ledger every
    discovered file is hashed exactly once and reported [new] with its hash,
    in the order of discovery; every file is then to be indexed. *)
Theorem analyzeChanges_without_ledger (fs : FileSystem)
  (fls : list DiscoveredFile) (hex : DiscoveredFile -> string) :
  (forall f, In f fls -> digestSync fs (absolutePath f) = Some (hex f)) ->
  analyzeChanges fs fls None
  = (map (fun f => HashCall (absolutePath f)) fls,
     Some (map (fun f => mkChange (path f) New (Some ("sha256:" ++ hex f)))
             fls))
  /\ option_map getFilesToIndex (snd (analyzeChanges fs fls None))
     = Some (map path fls)
  /\ option_map getChangedCount (snd (analyzeChanges fs fls None))
     = Some (List.length fls).
Proof.
  intros Hd.
  assert (Heq : analyzeChanges fs fls None
                = (map (fun f => HashCall (absolutePath f)) fls,
                   Some (map (fun f => mkChange (path f) New
                                         (Some ("sha256:" ++ hex f))) fls))).
  { unfold analyzeChanges.
    rewrite (analyzeFiles_map fs None fls
               (fun f => [HashCall (absolutePath f)])
               (fun f => mkChange (path f) New (Some ("sha256:" ++ hex f)))).
    - cbn [option_map deletedChanges]. rewrite app_nil_r. f_equal.
      clear. induction fls as [|f fls IH]; simpl; [reflexivity | now f_equal].
    - intros f Hf. unfold classify, computeFileHash. now rewrite (Hd f Hf). }
  rewrite Heq. cbn [snd option_map]. repeat split.
  - f_equal. unfold getFilesToIndex. clear.
    induction fls as [|f fls IH]; simpl; [reflexivity | now f_equal].
  - f_equal. unfold getChangedCount. clear.
    induction fls as [|f fls IH]; simpl; [reflexivity | now f_equal].
Qed.

(** A repository of two files, both readable. *)
Definition twoFiles : list DiscoveredFile :=
  [ mkFile "src/a.ts" "/repo/src/a.ts" 23 "2024-01-01T00:00:00.000Z";
    mkFile "README.md" "/repo/README.md" 5 "2024-01-02T00:00:00.000Z" ].

Definition twoFilesSystem : FileSystem :=
  mkFs (fun p => if String.eqb p "/repo/src/a.ts"
                 then Some (mkFsStats "2024-01-01T00:00:00.000Z" 23)
                 else if String.eqb p "/repo/README.md"
                 then Some (mkFsStats "2024-01-02T00:00:00.000Z" 5)
                 else None)
       (fun p => if String.eqb p "/repo/src/a.ts"
                 then Some "export function f() {}"
                 else if String.eqb p "/repo/README.md" then Some "hello"
                 else None)
       (fun p => if String.eqb p "/repo/src/a.ts" then Some "aa"
                 else if String.eqb p "/repo/README.md" then Some "bb"
                 else None)
       (fun _ => "ENOENT").

Lemma analyzeChanges_without_ledger_witness :
  analyzeChanges twoFilesSystem twoFiles None
  = ([HashCall "/repo/src/a.ts"; HashCall "/repo/README.md"],
     Some [ mkChange "src/a.ts" New (Some "sha256:aa");
            mkChange "README.md" New (Some "sha256:bb") ])
  /\ option_map getFilesToIndex (snd (analyzeChanges twoFilesSystem twoFiles None))
     = Some ["src/a.ts"; "README.md"]
  /\ option_map getChangedCount (snd (analyzeChanges twoFilesSystem twoFiles None))
     = Some 2.
Proof.
  apply (analyzeChanges_without_ledger twoFilesSystem twoFiles
           (fun f => if String.eqb (path f) "src/a.ts" then "aa" else "bb")).
  intros f [<-|[<-|[]]]; reflexivity.
Defined.

(** What the ledger built for the discovered files holds: an entry for
    every file, which carries the mtime and size of the discovery, and no
    entry for anything else. *)
Lemma ledger_of_discovery (fs : FileSystem) (fls : list DiscoveredFile)
  (changes : list FileChange) (commit : option string) (ledger : FileHashes) :
  buildFileHashes fs changes fls commit = Some ledger ->
  NoDup (map path fls) ->
  (forall f, In f fls -> path f <> "__proto__") ->
  (forall f, In f fls ->
     exists c, In c changes /\ c_path c = path f /\ status c <> Deleted) ->
  h_schema_version ledger = FILE_HASHES_SCHEMA_VERSION
  /\ (forall f, In f fls ->
        exists e, obj_own (h_files ledger) (path f) = Some e
                  /\ e_mtime e = mtime f /\ e_size e = size f
                  /\ JS.truthy (hash e) = true)
  /\ (forall k, In k (obj_keys (h_files ledger)) -> In k (map path fls)).
Proof.
  unfold buildFileHashes. intros Hb Hnd Hproto Hch.
  destruct (buildHashesFiles fs changes fls []) as [o|] eqn:Ho; [|discriminate].
  injection Hb as <-. cbn [h_schema_version h_files].
  split; [reflexivity|]. split.
  - intros f Hf.
    destruct (obj_own o (path f)) as [e|] eqn:He.
    + exists e. split; [reflexivity|].
      assert (Hempty : forall k e', obj_own (@nil (string * FileHashEntry)) k
                                    = Some e' -> recorded fls k e')
        by discriminate.
      destruct (buildHashesFiles_recorded fs fls changes [] o Ho Hempty
                  (path f) e He) as (g & Hg & Hm & Hs & Ht).
      rewrite (fileMap_get_In fls f Hnd Hf) in Hg. injection Hg as <-.
      now repeat split.
    + exfalso.
      apply (buildHashesFiles_present fs fls changes [] o (path f) Ho);
        [|exact He].
      right. split; [now apply Hproto|]. split; [|now apply Hch].
      now rewrite (fileMap_get_In fls f Hnd Hf).
  - intros k Hk. apply obj_own_keys in Hk.
    destruct (buildHashesFiles_keys fs fls changes [] o k Ho Hk) as [H|H];
      [now destruct H|].
    destruct (fileMap_get fls k) as [f|] eqn:Hf; [|now destruct H].
    apply fileMap_get_path in Hf as [Hin <-]. now apply in_map.
Qed.

Lemma analyzed_files_have_changes (fs : FileSystem) (prev : option FileHashes)
  (fls : list DiscoveredFile) (changes : list FileChange) :
  snd (analyzeChanges fs fls prev) = Some changes ->
  forall f, In f fls ->
    exists c, In c changes /\ c_path c = path f /\ status c <> Deleted.
Proof.
  unfold analyzeChanges.
  destruct (analyzeFiles fs prev fls) as [calls [verdicts|]] eqn:Ha;
    [|discriminate].
  cbn [snd option_map]. intros [= <-] f Hf.
  destruct (analyzeFiles_verdicts fs prev fls verdicts) as [H2 _];
    [now rewrite Ha|].
  assert (Hv : exists c, In c verdicts /\ c_path c = path f
                         /\ status c <> Deleted).
  { clear Ha. induction H2 as [|g c fls verdicts Hc _ IH]; [contradiction|].
    destruct Hf as [->|Hf].
    - exists c. split; [now left | exact (classify_path _ _ _ _ Hc)].
    - destruct (IH Hf) as (c' & Hin & Hc'). exists c'.
      split; [now right | exact Hc']. }
  destruct Hv as (c & Hin & Hc). exists c.
  split; [apply in_or_app; now left | exact Hc].
Qed.

(** The analysis against a ledger that holds, for every discovered file, an
    entry with the mtime and size the file system reports. *)
Lemma analyzeChanges_settled (fs : FileSystem) (fls : list DiscoveredFile)
  (ledger : FileHashes) :
  (forall f, In f fls ->
     exists e, obj_own (h_files ledger) (path f) = Some e
               /\ e_mtime e = mtime f /\ e_size e = size f
               /\ JS.truthy (hash e) = true) ->
  (forall k, In k (obj_keys (h_files ledger)) -> In k (map path fls)) ->
  (forall f, In f fls ->
     statSync fs (absolutePath f) = Some (mkFsStats (mtime f) (size f))) ->
  exists verdicts,
    analyzeChanges fs fls (Some ledger)
    = (map (fun f => StatCall (absolutePath f)) fls, Some verdicts)
    /\ Forall2 (fun f c => c_path c = path f /\ status c = Unchanged
                           /\ JS.truthyOpt (c_hash c) = true) fls verdicts.
Proof.
  intros Hentry Hkeys Hstat.
  exists (map (fun f => mkChange (path f) Unchanged
                          (option_map hash (obj_own (h_files ledger) (path f))))
            fls).
  split.
  - unfold analyzeChanges.
    rewrite (analyzeFiles_map fs (Some ledger) fls
               (fun f => [StatCall (absolutePath f)])
               (fun f => mkChange (path f) Unchanged
                           (option_map hash
                              (obj_own (h_files ledger) (path f))))).
    + cbn [option_map]. f_equal.
      * clear. induction fls as [|f fls IH]; simpl; [reflexivity | now f_equal].
      * f_equal. unfold deletedChanges.
        assert (Hnone : filter (fun prevPath =>
                                  negb (set_has (map path fls) prevPath))
                          (obj_keys (h_files ledger)) = []).
        { induction (obj_keys (h_files ledger)) as [|k ks IH]; [reflexivity|].
          simpl.
          assert (Hk : set_has (map path fls) k = true)
            by (apply set_has_In, Hkeys; now left).
          rewrite Hk. simpl. apply IH. intros k' Hk'. apply Hkeys. now right. }
        rewrite Hnone. simpl. apply app_nil_r.
    + intros f Hf. destruct (Hentry f Hf) as (e & He & Hm & Hs & _).
      rewrite (classify_own_eq fs ledger f e He), (Hstat f Hf), He. simpl.
      rewrite Hm, Hs, String.eqb_refl, Z.eqb_refl. reflexivity.
  - clear Hkeys Hstat. induction fls as [|f fls IH]; simpl; constructor.
    + destruct (Hentry f (or_introl eq_refl)) as (e & He & _ & _ & Ht).
      rewrite He. now repeat split.
    + apply IH. intros g Hg. apply Hentry. now right.
Qed.

Lemma settled_count (fls : list DiscoveredFile) (verdicts : list FileChange) :
  Forall2 (fun f c => c_path c = path f /\ status c = Unchanged
                      /\ JS.truthyOpt (c_hash c) = true) fls verdicts ->
  getFilesToIndex verdicts = [] /\ getChangedCount verdicts = 0.
Proof.
  unfold getFilesToIndex, getChangedCount.
  induction 1 as [|f c fls verdicts (_ & Hs & _) _ [IH1 IH2]]; simpl;
    [now split|].
  assert (Hc : isNewOrChanged c = false)
    by (unfold isNewOrChanged; now rewrite Hs).
  rewrite Hc. now split.
Qed.

(** X4: the ledger round trip. When the verdicts of an analysis are
    recorded by [buildFileHashes] and the same files are analyzed again
    against that ledger, with the file system still reporting the mtime and
    size of the discovery, each file is examined by one [stat] and nothing
    else: no hash is computed, every file is reported [unchanged], none
    [deleted], and nothing is left to index. *)
Theorem analyzeChanges_after_buildFileHashes (fs : FileSystem)
  (fls : list DiscoveredFile) (prev : option FileHashes)
  (changes : list FileChange) (commit : option string) (ledger : FileHashes) :
  snd (analyzeChanges fs fls prev) = Some changes ->
  buildFileHashes fs changes fls commit = Some ledger ->
  NoDup (map path fls) ->
  (forall f, In f fls -> path f <> "__proto__") ->
  (forall f, In f fls ->
     statSync fs (absolutePath f) = Some (mkFsStats (mtime f) (size f))) ->
  exists verdicts,
    analyzeChanges fs fls (Some ledger)
    = (map (fun f => StatCall (absolutePath f)) fls, Some verdicts)
    /\ Forall2 (fun f c => c_path c = path f /\ status c = Unchanged
                           /\ JS.truthyOpt (c_hash c) = true) fls verdicts
    /\ getFilesToIndex verdicts = []
    /\ getChangedCount verdicts = 0.
Proof.
  intros Ha Hb Hnd Hproto Hstat.
  destruct (ledger_of_discovery fs fls changes commit ledger Hb Hnd Hproto
              (analyzed_files_have_changes fs prev fls changes Ha))
    as (_ & Hentry & Hkeys).
  destruct (analyzeChanges_settled fs fls ledger Hentry Hkeys Hstat)
    as (verdicts & Heq & H2).
  exists verdicts. split; [exact Heq|]. split; [exact H2|].
  exact (settled_count fls verdicts H2).
Qed.

Lemma analyzeChanges_after_buildFileHashes_witness :
  exists verdicts,
    analyzeChanges twoFilesSystem twoFiles
      (Some (mkHashes "1.0.0" (Some "c0ffee")
               [ ("src/a.ts",
                  mkEntry "sha256:aa" "2024-01-01T00:00:00.000Z" 23);
                 ("README.md",
                  mkEntry "sha256:bb" "2024-01-02T00:00:00.000Z" 5) ]))
    = ([StatCall "/repo/src/a.ts"; StatCall "/repo/README.md"], Some verdicts)
    /\ Forall2 (fun f c => c_path c = path f /\ status c = Unchanged
                           /\ JS.truthyOpt (c_hash c) = true)
         twoFiles verdicts
    /\ getFilesToIndex verdicts = []
    /\ getChangedCount verdicts = 0.
Proof.
  apply (analyzeChanges_after_buildFileHashes twoFilesSystem twoFiles None
           [ mkChange "src/a.ts" New (Some "sha256:aa");
             mkChange "README.md" New (Some "sha256:bb") ]
           (Some "c0ffee")).
  - reflexivity.
  - reflexivity.
  - repeat constructor; simpl; intuition discriminate.
  - intros f [<-|[<-|[]]]; discriminate.
  - intros f [<-|[<-|[]]]; reflexivity.
Defined.

(* ------------------------------------------------------------------ *)
(** ** The symbol cache *)

Lemma map_get_set {A : Type} (m : StrMap A) (k k' : string) (v : A) :
  map_get (map_set m k v) k' = if String.eqb k' k then Some v else map_get m k'.
Proof.
  unfold map_set, map_get. destruct (obj_own m k) as [v0|] eqn:Hk.
  - rewrite obj_own_replace, Hk. reflexivity.
  - rewrite obj_own_app. simpl.
    destruct (String.eqb_spec k' k) as [->|].
    + now rewrite Hk.
    + now destruct (obj_own m k').
Qed.

(** The symbols of [syms] that belong to the file [p], in their order. *)
Definition symbolsOfFile (p : string) (syms : list Symbol) : list Symbol :=
  filter (fun s => String.eqb (file s) p) syms.

Definition nonEmpty {A : Type} (l : list A) : option (list A) :=
  match l with [] => None | _ => Some l end.

Lemma cache_lookup (syms : list Symbol) (p : string) :
  map_get (loadCachedSymbols (Some syms)) p = nonEmpty (symbolsOfFile p syms).
Proof.
  unfold loadCachedSymbols.
  assert (Hgen : forall (todo done : list Symbol) (cache : StrMap (list Symbol)),
             (forall q, map_get cache q = nonEmpty (symbolsOfFile q done)) ->
             forall q,
               map_get
                 (fold_left
                    (fun cache symbol =>
                       let existing :=
                         match map_get cache (file symbol) with
                         | Some l => l
                         | None => []
                         end in
                       map_set cache (file symbol) (existing ++ [symbol])%list)
                    todo cache) q
               = nonEmpty (symbolsOfFile q (done ++ todo))).
  { induction todo as [|s todo IH]; intros done cache Hc q; simpl.
    - now rewrite app_nil_r.
    - replace (done ++ s :: todo)%list with ((done ++ [s]) ++ todo)%list
        by (now rewrite <- app_assoc).
      apply IH. intros q'. rewrite map_get_set.
      unfold symbolsOfFile. rewrite filter_app. simpl.
      rewrite (String.eqb_sym (file s) q').
      destruct (String.eqb_spec q' (file s)) as [->|].
      + rewrite Hc. unfold symbolsOfFile.
        destruct (filter _ done) as [|x l]; reflexivity.
      + rewrite app_nil_r. apply Hc. }
  exact (Hgen syms [] [] (fun q => eq_refl) p).
Qed.

(** X5: what the cache of a previous run returns. Under a path the cache
    holds exactly the stored symbols whose [file] is that path, in the order
    of [symbols.jsonl]; a path without stored symbols has no entry at all,
    and without a readable [symbols.jsonl] the cache is empty. *)
Theorem loadCachedSymbols_by_file (syms : list Symbol) (p : string) :
  loadCachedSymbols None = []
  /\ map_get (loadCachedSymbols (Some syms)) p
     = match filter (fun s => String.eqb (file s) p) syms with
       | [] => None
       | stored => Some stored
       end
  /\ (map_has (loadCachedSymbols (Some syms)) p = true
      <-> exists s, In s syms /\ file s = p).
Proof.
  split; [reflexivity|].
  pose proof (cache_lookup syms p) as H.
  unfold nonEmpty, symbolsOfFile in H.
  split; [rewrite H; now destruct (filter _ syms)|].
  unfold map_has. rewrite H.
  destruct (filter _ syms) as [|s l] eqn:Hf.
  - split; [discriminate|]. intros (s & Hs & Hp).
    assert (Hin : In s (filter (fun s => String.eqb (file s) p) syms))
      by (apply filter_In; split; [exact Hs | now apply String.eqb_eq]).
    rewrite Hf in Hin. destruct Hin.
  - split; [|reflexivity]. intros _. exists s.
    assert (Hin : In s (filter (fun s => String.eqb (file s) p) syms))
      by (rewrite Hf; now left).
    apply filter_In in Hin as [Hs Hp]. split; [exact Hs | now apply String.eqb_eq].
Qed.

(* ------------------------------------------------------------------ *)
(** ** The builder: what a run that wrote its artifacts did *)

Definition currentConfigOf (options : IndexBuildOptions) : CurrentConfig :=
  mkCurrentConfig (opt_includeGlobs options) (opt_excludeGlobs options)
    (opt_maxFileKb options) (opt_respectGitignore options)
    (map adapter_name (opt_adapters options)).

Definition previousHashesOf (options : IndexBuildOptions)
  (previous : PreviousIndex) : option FileHashes :=
  if force options then None else loadFileHashes (p_file_hashes previous).

(** [hasConfigChanged(currentConfig, previousMeta)] of a run. *)
Definition configChangedOf (options : IndexBuildOptions)
  (previous : PreviousIndex) : Outcome bool :=
  hasConfigChangedLoose (currentConfigOf options) (p_loaded_meta previous).

Definition forceFullIndexOf (options : IndexBuildOptions)
  (previous : PreviousIndex) : bool :=
  force options
  || match configChangedOf options previous with
     | Returned configChanged => configChanged
     | Throws => false
     end.

Lemma ensureIndexDir_path (w : World) (arkDirPath indexDir : string)
  (created : bool) :
  ensureIndexDir w arkDirPath = Returned (indexDir, created) ->
  indexDir = indexDirOf arkDirPath.
Proof.
  unfold ensureIndexDir, indexDirOf.
  destruct (negb _); [destruct (mkdirThrows w _)|]; congruence.
Qed.

(** A previous index whose metadata has the shape of [IndexMeta], as the
    builder writes it: [hasConfigChanged] does not throw on it. *)
Lemma configChangedOf_typed (options : IndexBuildOptions)
  (previous : PreviousIndex) :
  (forall v, p_loaded_meta previous <> Some (Untyped v)) ->
  configChangedOf options previous
  = Returned (hasConfigChanged (currentConfigOf options) (p_meta previous)).
Proof.
  unfold configChangedOf, hasConfigChangedLoose, p_meta. intros H.
  destruct (p_loaded_meta previous) as [[meta|v]|]; try reflexivity.
  now destruct (H v).
Qed.

Definition isIncrementalOf (options : IndexBuildOptions)
  (previous : PreviousIndex) : bool :=
  negb (forceFullIndexOf options previous)
  && match previousHashesOf options previous with
     | Some _ => true
     | None => false
     end.

(** The state of the extraction loop at its end. *)
Definition extractionOf (E : Externals) (options : IndexBuildOptions)
  (w : World) (previous : PreviousIndex) (changes : list FileChange)
  : LoopState :=
  fold_left
    (extractStep E (fsys w) (opt_adapters options)
       (if forceFullIndexOf options previous
        then map path (files (discovery w))
        else getFilesToIndex changes)
       (if isIncrementalOf options previous
        then loadCachedSymbols (p_symbols previous) else []))
    (files (discovery w))
    (mkLoop [] [] []
       (map (fun sk => mkWarning "ARK_INDEX_FILE_SKIPPED" (Some (fst sk))
                         (snd sk))
          (skipped (discovery w)))).

Lemma buildIndex_written (E : Externals) (options : IndexBuildOptions)
  (w : World) (previous : PreviousIndex) (r : IndexBuildResult)
  (a : Artifacts E) (ops : list FsOp) :
  buildIndex E options w previous = Resolved r (Some (a, ops)) ->
  exists changes,
    (if forceFullIndexOf options previous
     then changes = map (fun f => mkChange (path f) New None)
                      (files (discovery w))
     else snd (analyzeChanges (fsys w) (files (discovery w))
                 (previousHashesOf options previous)) = Some changes)
    /\ buildFileHashes (fsys w) changes (files (discovery w)) (gitCommit w)
       = Some (art_file_hashes a)
    /\ art_symbols a = allSymbols (extractionOf E options w previous changes)
    /\ config (art_meta a)
       = mkMetaConfig (opt_includeGlobs options) (opt_excludeGlobs options)
           (opt_maxFileKb options) (opt_respectGitignore options)
           (adaptersUsed (extractionOf E options w previous changes))
    /\ option_map files_changed (r_stats r)
       = Some (if forceFullIndexOf options previous
               then List.length (files (discovery w))
               else getChangedCount changes)
    /\ option_map incremental (r_stats r)
       = Some (isIncrementalOf options previous)
    /\ stats (art_meta a)
       = mkStats (Z.of_nat (List.length (files (discovery w))))
           (Z.of_nat (List.length (files (discovery w)))
            - Z.of_nat (List.length (skipped (discovery w))))%Z
           (Z.of_nat (List.length (skipped (discovery w))))
           (Z.of_nat (List.length (art_symbols a)))
           (Z.of_nat (List.length (tests (art_test_map a))))
           (endTime w - startTime w)%Z
    /\ ripgrepAvailable w = true
    /\ writeFailure w = None
    /\ find (fun err => JS.includes (snd err) "exceeding max_files")
         (errors (discovery w)) = None
    /\ option_map b_stats (r_stats r) = Some (stats (art_meta a)).
Proof.
  unfold buildIndex.
  destruct (ripgrepAvailable w); [|discriminate]. cbn [negb].
  destruct (ensureIndexDir w (arkDir options)) as [|[indexDir created]];
    [discriminate|].
  fold (currentConfigOf options). fold (configChangedOf options previous).
  assert (Hforce : forall configChanged,
            configChangedOf options previous = Returned configChanged ->
            force options || configChanged = forceFullIndexOf options previous)
    by (intros c Hc; unfold forceFullIndexOf; now rewrite Hc).
  destruct (configChangedOf options previous) as [|configChanged];
    [discriminate|].
  rewrite (Hforce configChanged eq_refl). clear Hforce.
  destruct (find _ (errors (discovery w))) eqn:Hfind; [discriminate|].
  fold (previousHashesOf options previous).
  fold (isIncrementalOf options previous).
  set (analysis := if forceFullIndexOf options previous then _ else _).
  destruct analysis as [changes|] eqn:Ha; [|discriminate].
  fold (extractionOf E options w previous changes).
  destruct (buildFileHashes _ changes _ _) as [fileHashes|] eqn:Hb;
    [|discriminate].
  destruct (writeFailure w); [discriminate|].
  intros [= <- <- <-]. exists changes. cbn.
  repeat split; try reflexivity; try assumption.
  subst analysis. destruct (forceFullIndexOf options previous);
    [now injection Ha | exact Ha].
Qed.

Lemma buildIndex_resolves (E : Externals) (options : IndexBuildOptions)
  (w : World) (previous : PreviousIndex) (changes : list FileChange) :
  ripgrepAvailable w = true ->
  find (fun err => JS.includes (snd err) "exceeding max_files")
    (errors (discovery w)) = None ->
  (if forceFullIndexOf options previous
   then Some (map (fun f => mkChange (path f) New None) (files (discovery w)))
   else snd (analyzeChanges (fsys w) (files (discovery w))
               (previousHashesOf options previous))) = Some changes ->
  buildFileHashes (fsys w) changes (files (discovery w)) (gitCommit w)
  <> None ->
  writeFailure w = None ->
  ensureIndexDir w (arkDir options) <> Throws ->
  configChangedOf options previous <> Throws ->
  filesChangedOf (buildIndex E options w previous)
  = Some (if forceFullIndexOf options previous
          then List.length (files (discovery w))
          else getChangedCount changes)
  /\ symbolsOf (buildIndex E options w previous)
     = Some (allSymbols (extractionOf E options w previous changes)).
Proof.
  intros Hrg Hfind Ha Hb Hw Hdir Hconfig. unfold buildIndex.
  rewrite Hrg. cbn [negb].
  destruct (ensureIndexDir w (arkDir options)) as [|[indexDir created]];
    [now destruct Hdir|].
  fold (currentConfigOf options). fold (configChangedOf options previous).
  assert (Hforce : forall configChanged,
            configChangedOf options previous = Returned configChanged ->
            force options || configChanged = forceFullIndexOf options previous)
    by (intros c Hc; unfold forceFullIndexOf; now rewrite Hc).
  destruct (configChangedOf options previous) as [|configChanged];
    [now destruct Hconfig|].
  rewrite (Hforce configChanged eq_refl). clear Hforce.
  rewrite Hfind.
  fold (previousHashesOf options previous).
  fold (isIncrementalOf options previous).
  rewrite Ha.
  fold (extractionOf E options w previous changes).
  destruct (buildFileHashes _ changes _ _) as [fileHashes|];
    [|now destruct Hb].
  rewrite Hw. split; reflexivity.
Qed.

(* ------------------------------------------------------------------ *)
(** ** Extraction without adapters *)

Lemma toSymbols_file (l : list AdapterSymbol) (filePath : string) :
  forall ids, Forall (fun s => file s = filePath)
                (fst (toSymbols l filePath ids)).
Proof.
  induction l as [|x l IH]; intros ids; simpl; [constructor|].
  unfold adapterSymbolToSymbol.
  destruct (generateSymbolId filePath (a_name x) _ ids None) as [sid ids1].
  specialize (IH ids1). destruct (toSymbols l filePath ids1) as [syms ids2].
  simpl in *. constructor; [reflexivity | exact IH].
Qed.

Lemma toSymbols_length (l : list AdapterSymbol) (filePath : string) :
  forall ids, List.length (fst (toSymbols l filePath ids)) = List.length l.
Proof.
  induction l as [|x l IH]; intros ids; simpl; [reflexivity|].
  unfold adapterSymbolToSymbol.
  destruct (generateSymbolId filePath (a_name x) _ ids None) as [sid ids1].
  specialize (IH ids1). destruct (toSymbols l filePath ids1) as [syms ids2].
  simpl in *. now rewrite IH.
Qed.

Lemma extract_plain (E : Externals) (fs : FileSystem) (p a : string)
  (ids : StringSet) :
  extractSymbolsFromFile E fs p a [] ids
  = match readFileSync fs a with
    | None =>
        (mkExtraction [] None
           (Some ("Failed to read file: " ++ errorMessage fs a)), ids)
    | Some content =>
        (mkExtraction
           (fst (toSymbols (extractSymbolsBaseline E content p) p ids))
           None None,
         snd (toSymbols (extractSymbolsBaseline E content p) p ids))
    end.
Proof.
  unfold extractSymbolsFromFile. destruct (readFileSync fs a); [|reflexivity].
  simpl. now destruct (toSymbols _ p ids).
Qed.

(** What one file adds to the symbols of a run without adapters: symbols
    of that file; and when it adds none, its extraction yields none,
    whatever identifiers are taken. *)
Definition contributes (E : Externals) (fs : FileSystem) (f : DiscoveredFile)
  (l : list Symbol) : Prop :=
  Forall (fun s => file s = path f) l
  /\ (l = [] ->
      forall ids,
        x_symbols (fst (extractSymbolsFromFile E fs (path f) (absolutePath f)
                          [] ids)) = []).

Definition cacheOK (cached : StrMap (list Symbol)) : Prop :=
  forall p l, map_get cached p = Some l ->
              l <> [] /\ Forall (fun s => file s = p) l.

Lemma cacheOK_load (stored : option (list Symbol)) :
  cacheOK (loadCachedSymbols stored).
Proof.
  destruct stored as [syms|]; intros p l; [|discriminate].
  rewrite cache_lookup. unfold nonEmpty, symbolsOfFile.
  destruct (filter _ syms) as [|s l'] eqn:Hf; [discriminate|].
  intros [= <-]. split; [discriminate|].
  rewrite <- Hf. apply Forall_forall. intros x Hx.
  apply filter_In in Hx as [_ Hx]. now apply String.eqb_eq.
Qed.

Lemma cacheOK_empty : cacheOK [].
Proof. intros p l. discriminate. Qed.

Lemma extractStep_contributes (E : Externals) (fs : FileSystem)
  (toIndex : list string) (cached : StrMap (list Symbol)) (st : LoopState)
  (f : DiscoveredFile) :
  cacheOK cached ->
  exists l,
    allSymbols (extractStep E fs [] toIndex cached st f)
    = (allSymbols st ++ l)%list
    /\ contributes E fs f l
    /\ adaptersUsed (extractStep E fs [] toIndex cached st f)
       = adaptersUsed st.
Proof.
  intros Hc. unfold extractStep.
  destruct (if negb (JS.arrayIncludes toIndex (path f))
            then map_get cached (path f) else None) as [l|] eqn:Hl.
  - exists l. cbn [allSymbols adaptersUsed]. split; [reflexivity|].
    split; [|reflexivity].
    destruct (negb (JS.arrayIncludes toIndex (path f))); [|discriminate].
    destruct (Hc _ _ Hl) as [Hne Hfile]. split; [exact Hfile | contradiction].
  - rewrite extract_plain.
    destruct (readFileSync fs (absolutePath f)) as [content|] eqn:Hr.
    + eexists. cbn [allSymbols adaptersUsed x_symbols adapterUsed].
      split; [reflexivity|]. split; [|reflexivity]. split.
      * apply toSymbols_file.
      * intros Hnil ids. rewrite extract_plain, Hr. cbn [fst x_symbols].
        apply length_zero_iff_nil. rewrite toSymbols_length.
        apply (f_equal (@List.length Symbol)) in Hnil.
        now rewrite toSymbols_length in Hnil.
    + exists []. cbn [allSymbols adaptersUsed x_symbols adapterUsed].
      split; [reflexivity|]. split; [|reflexivity]. split; [constructor|].
      intros _ ids. rewrite extract_plain, Hr. reflexivity.
Qed.

Lemma extraction_contributes (E : Externals) (fs : FileSystem)
  (toIndex : list string) (cached : StrMap (list Symbol))
  (fls : list DiscoveredFile) :
  cacheOK cached ->
  forall st,
  exists contribs,
    allSymbols (fold_left (extractStep E fs [] toIndex cached) fls st)
    = (allSymbols st ++ concat contribs)%list
    /\ Forall2 (contributes E fs) fls contribs
    /\ adaptersUsed (fold_left (extractStep E fs [] toIndex cached) fls st)
       = adaptersUsed st.
Proof.
  intros Hc. induction fls as [|f fls IH]; intros st; simpl.
  - exists []. simpl. rewrite app_nil_r. repeat split. constructor.
  - destruct (extractStep_contributes E fs toIndex cached st f Hc)
      as (l & Hl & Hcl & Hu).
    destruct (IH (extractStep E fs [] toIndex cached st f))
      as (contribs & Hall & H2 & Hused).
    exists (l :: contribs). simpl. rewrite Hall, Hl, Hused, Hu, app_assoc.
    repeat split. now constructor.
Qed.

Lemma symbolsOfFile_app (p : string) (a b : list Symbol) :
  symbolsOfFile p (a ++ b) = (symbolsOfFile p a ++ symbolsOfFile p b)%list.
Proof. apply filter_app. Qed.

Lemma symbolsOfFile_own (p : string) (l : list Symbol) :
  Forall (fun s => file s = p) l -> symbolsOfFile p l = l.
Proof.
  induction 1 as [|s l Hs _ IH]; simpl; [reflexivity|].
  rewrite Hs, String.eqb_refl. now f_equal.
Qed.

Lemma symbolsOfFile_other (p q : string) (l : list Symbol) :
  p <> q -> Forall (fun s => file s = q) l -> symbolsOfFile p l = [].
Proof.
  intros Hne. induction 1 as [|s l Hs _ IH]; simpl; [reflexivity|].
  rewrite Hs. destruct (String.eqb_spec q p); [congruence | exact IH].
Qed.

Lemma symbolsOfFile_others (E : Externals) (fs : FileSystem) (p : string)
  (fls : list DiscoveredFile) (contribs : list (list Symbol)) :
  Forall2 (contributes E fs) fls contribs ->
  ~ In p (map path fls) ->
  symbolsOfFile p (concat contribs) = [].
Proof.
  induction 1 as [|f l fls contribs [Hl _] _ IH]; simpl; intros Hp;
    [reflexivity|].
  rewrite symbolsOfFile_app, IH by tauto.
  rewrite (symbolsOfFile_other p (path f)); [reflexivity | | exact Hl].
  intros ->. apply Hp. now left.
Qed.

Lemma symbolsOfFile_each (E : Externals) (fs : FileSystem)
  (fls : list DiscoveredFile) (contribs : list (list Symbol)) :
  Forall2 (contributes E fs) fls contribs ->
  NoDup (map path fls) ->
  forall pre,
    (forall f, In f fls -> symbolsOfFile (path f) pre = []) ->
    Forall2 (fun f l => contributes E fs f l
                        /\ symbolsOfFile (path f) (pre ++ concat contribs) = l)
      fls contribs.
Proof.
  induction 1 as [|f l fls contribs Hfl H2 IH]; simpl; intros Hnd pre Hpre;
    constructor.
  - split; [exact Hfl|]. inversion Hnd as [|? ? Hf Hnd']; subst.
    rewrite !symbolsOfFile_app, (Hpre f (or_introl eq_refl)).
    rewrite (symbolsOfFile_own _ l (proj1 Hfl)).
    rewrite (symbolsOfFile_others E fs (path f) fls contribs H2 Hf).
    simpl. apply app_nil_r.
  - inversion Hnd as [|? ? Hf Hnd']; subst.
    specialize (IH Hnd' (pre ++ l)%list).
    rewrite <- app_assoc in IH. apply IH. intros g Hg.
    rewrite symbolsOfFile_app, (Hpre g (or_intror Hg)).
    rewrite (symbolsOfFile_other (path g) (path f)); [reflexivity | | exact (proj1 Hfl)].
    intros Heq. apply Hf. rewrite <- Heq. now apply in_map.
Qed.

(** Replaying a run from its own symbols: with nothing to index and the
    cache loaded from what the run wrote, the extraction loop yields the
    same symbols. *)
Lemma extraction_replay (E : Externals) (fs : FileSystem)
  (cached : StrMap (list Symbol)) (fls : list DiscoveredFile)
  (contribs : list (list Symbol)) :
  Forall2 (fun f l => contributes E fs f l
                      /\ map_get cached (path f) = nonEmpty l) fls contribs ->
  forall st,
    allSymbols (fold_left (extractStep E fs [] [] cached) fls st)
    = (allSymbols st ++ concat contribs)%list.
Proof.
  induction 1 as [|f l fls contribs [[Hfile Hnil] Hget] _ IH]; intros st; simpl.
  - now rewrite app_nil_r.
  - rewrite IH, app_assoc. f_equal.
    unfold extractStep. cbn [JS.arrayIncludes existsb negb]. rewrite Hget.
    destruct l as [|s l]; cbn [nonEmpty]; [|reflexivity].
    rewrite extract_plain.
    pose proof (Hnil eq_refl (existingIds st)) as Hx.
    rewrite extract_plain in Hx.
    destruct (readFileSync fs (absolutePath f)); cbn [fst x_symbols] in Hx |- *;
      cbn [allSymbols]; now rewrite ?Hx.
Qed.

(* ------------------------------------------------------------------ *)
(** ** Building twice *)

(** The options of a run without [--force]. *)
Definition unforced (options : IndexBuildOptions) : IndexBuildOptions :=
  mkOptions false (arkDir options) (repoRoot options)
    (opt_includeGlobs options) (opt_excludeGlobs options)
    (opt_maxFileKb options) (maxFiles options)
    (opt_respectGitignore options) (opt_adapters options).

Lemma arraysEqual_refl (l : list string) : arraysEqual l l = true.
Proof. apply arraysEqual_iff. reflexivity. Qed.

Lemma loadFileHashes_current (ledger : FileHashes) :
  h_schema_version ledger = FILE_HASHES_SCHEMA_VERSION ->
  loadFileHashes (Some ledger) = Some ledger.
Proof. unfold loadFileHashes. now intros ->. Qed.

(** X6: building twice. Take a run of the builder without adapters that
    wrote its artifacts, on a repository whose discovered paths are distinct
    and whose files still have the mtime and size of their discovery. A
    second run without [--force] that finds these artifacts (so that
    [ensureIndexDir] does not throw) and the same files reports
    [files_changed = 0] and writes the same symbols, whatever the first run
    started from and whether or not it was forced. *)
Theorem rebuild_changes_nothing (E : Externals) (options : IndexBuildOptions)
  (w w2 : World) (previous : PreviousIndex) (r : IndexBuildResult)
  (a : Artifacts E) (ops : list FsOp) :
  opt_adapters options = [] ->
  NoDup (map path (files (discovery w))) ->
  (forall f, In f (files (discovery w)) -> path f <> "__proto__") ->
  (forall f, In f (files (discovery w)) ->
     statSync (fsys w) (absolutePath f) = Some (mkFsStats (mtime f) (size f))) ->
  buildIndex E options w previous = Resolved r (Some (a, ops)) ->
  discovery w2 = discovery w ->
  fsys w2 = fsys w ->
  ripgrepAvailable w2 = true ->
  writeFailure w2 = None ->
  ensureIndexDir w2 (arkDir options) <> Throws ->
  filesChangedOf
    (buildIndex E (unforced options) w2
       (storedBy previous (buildIndex E options w previous))) = Some 0
  /\ symbolsOf
       (buildIndex E (unforced options) w2
          (storedBy previous (buildIndex E options w previous)))
     = Some (art_symbols a).
Proof.
  intros Hadapters Hnd Hproto Hstat Hrun Hdisc Hfs Hrg Hwrite Hdir.
  destruct (buildIndex_written E options w previous r a ops Hrun)
    as (changes & Hchanges & Hledger & Hsyms & Hconfig & _ & _ & _ & _ & _
        & Hfind).
  rewrite Hrun. cbn [storedBy].
  set (previous2 := mkPrevious (Some (Typed (art_meta a)))
                      (Some (art_file_hashes a)) (Some (art_symbols a))).
  (* the first run: its symbols, file by file *)
  destruct (extraction_contributes E (fsys w)
              (if forceFullIndexOf options previous
               then map path (files (discovery w))
               else getFilesToIndex changes)
              (if isIncrementalOf options previous
               then loadCachedSymbols (p_symbols previous) else [])
              (files (discovery w))
              (ltac:(destruct (isIncrementalOf options previous);
                     [apply cacheOK_load | apply cacheOK_empty]))
              (mkLoop [] [] []
                 (map (fun sk => mkWarning "ARK_INDEX_FILE_SKIPPED"
                                   (Some (fst sk)) (snd sk))
                    (skipped (discovery w)))))
    as (contribs & Hall & H2 & Hused).
  unfold extractionOf in Hsyms, Hconfig. rewrite Hadapters in Hsyms, Hconfig.
  rewrite Hall in Hsyms. rewrite Hused in Hconfig. cbn in Hsyms, Hconfig.
  (* the ledger it wrote *)
  assert (Hhave : forall f, In f (files (discovery w)) ->
            exists c, In c changes /\ c_path c = path f /\ status c <> Deleted).
  { destruct (forceFullIndexOf options previous).
    - subst changes. intros f Hf. exists (mkChange (path f) New None).
      split; [|split; [reflexivity | discriminate]].
      apply (in_map (fun f => mkChange (path f) New None)), Hf.
    - exact (analyzed_files_have_changes _ _ _ _ Hchanges). }
  destruct (ledger_of_discovery _ _ _ _ _ Hledger Hnd Hproto Hhave)
    as (Hversion & Hentry & Hkeys).
  destruct (analyzeChanges_settled (fsys w) (files (discovery w))
              (art_file_hashes a) Hentry Hkeys Hstat)
    as (verdicts & Hanalysis & Hsettled).
  destruct (settled_count _ _ Hsettled) as [Hnone Hzero].
  (* the second run *)
  assert (Hprev2 : previousHashesOf (unforced options) previous2
                   = Some (art_file_hashes a))
    by (apply loadFileHashes_current, Hversion).
  assert (Htyped2 : configChangedOf (unforced options) previous2
                    = Returned
                        (hasConfigChanged (currentConfigOf (unforced options))
                           (Some (art_meta a)))) by reflexivity.
  assert (Hforce2 : forceFullIndexOf (unforced options) previous2 = false).
  { unfold forceFullIndexOf. rewrite Htyped2.
    unfold hasConfigChanged, currentConfigOf.
    cbn [force unforced orb p_meta previous2 includeGlobs excludeGlobs
         maxFileKb respectGitignore adapters opt_includeGlobs
         opt_excludeGlobs opt_maxFileKb opt_respectGitignore opt_adapters].
    rewrite Hconfig, Hadapters.
    cbn [include_globs exclude_globs max_file_kb respect_gitignore
         adapters_used map].
    now rewrite !arraysEqual_refl, Z.eqb_refl, Bool.eqb_reflx. }
  assert (Hincr2 : isIncrementalOf (unforced options) previous2 = true)
    by (unfold isIncrementalOf; now rewrite Hforce2, Hprev2).
  destruct (buildIndex_resolves E (unforced options) w2 previous2 verdicts)
    as [Hcount Hsymbols]; try assumption; try (rewrite Htyped2; discriminate).
  - now rewrite Hdisc.
  - now rewrite Hforce2, Hprev2, Hdisc, Hfs, Hanalysis.
  - rewrite Hdisc, Hfs. unfold buildFileHashes.
    destruct (buildHashesFiles (fsys w) verdicts (files (discovery w)) [])
      eqn:Hb; [discriminate|].
    exfalso. revert Hb. apply buildHashesFiles_returns.
    intros c Hc _. clear -Hsettled Hc.
    induction Hsettled as [|f c' fls vs (_ & _ & Ht) _ IH]; [contradiction|].
    destruct Hc as [<-|Hc]; [exact Ht | exact (IH Hc)].
  - rewrite Hcount, Hsymbols, Hforce2, Hzero. split; [reflexivity|].
    f_equal. unfold extractionOf.
    rewrite Hforce2, Hincr2, Hnone, Hdisc, Hfs. cbn [unforced opt_adapters].
    rewrite Hadapters. cbn [p_symbols previous2].
    rewrite (extraction_replay E (fsys w) _ (files (discovery w)) contribs).
    + now rewrite Hsyms.
    + pose proof (symbolsOfFile_each E (fsys w) _ _ H2 Hnd []
                    (fun f _ => eq_refl)) as Heach.
      cbn [app] in Heach. clear -Heach Hsyms.
      induction Heach as [|f l fls cs [Hc Hl] _ IH]; constructor; [|exact IH].
      split; [exact Hc|]. now rewrite cache_lookup, Hsyms, Hl.
Qed.

(** A host for the examples: the extractors of the other languages find
    nothing, the repo map is not looked at, and a symbol is written as its
    identifier. *)
Definition plainHost : Externals :=
  mkExternals (fun _ _ => []) (fun _ _ => []) (fun _ _ => []) unit
    (fun _ _ _ => tt) (fun _ => "{}") (fun _ => "{}") (fun _ => "{}")
    (fun _ => "{}") (fun s => symbol_id s).

Definition twoFilesWorld (clock : Z) : World :=
  mkWorld true (Some "c0ffee") (mkDiscovery twoFiles [] []) twoFilesSystem
    clock (clock + 5)%Z "2024-01-03T00:00:00.000Z" None
    (fun _ => false) (fun _ => false).

Definition plainOptions (forced : bool) : IndexBuildOptions :=
  mkOptions forced "/repo/.ark" "/repo" ["**/*"] [] 256 100000 true [].

Lemma rebuild_changes_nothing_witness :
  exists r a ops,
    buildIndex plainHost (plainOptions true) (twoFilesWorld 0) noIndex
    = Resolved r (Some (a, ops))
    /\ filesChangedOf
         (buildIndex plainHost (unforced (plainOptions true))
            (twoFilesWorld 100)
            (storedBy noIndex
               (buildIndex plainHost (plainOptions true) (twoFilesWorld 0)
                  noIndex))) = Some 0
    /\ symbolsOf
         (buildIndex plainHost (unforced (plainOptions true))
            (twoFilesWorld 100)
            (storedBy noIndex
               (buildIndex plainHost (plainOptions true) (twoFilesWorld 0)
                  noIndex)))
       = Some (art_symbols a).
Proof.
  do 3 eexists. split; [vm_compute; reflexivity|].
  eapply (rebuild_changes_nothing plainHost (plainOptions true)
            (twoFilesWorld 0) (twoFilesWorld 100) noIndex).
  - reflexivity.
  - repeat constructor; simpl; intuition discriminate.
  - intros f [<-|[<-|[]]]; discriminate.
  - intros f [<-|[<-|[]]]; reflexivity.
  - vm_compute; reflexivity.
  - reflexivity.
  - reflexivity.
  - reflexivity.
  - reflexivity.
  - vm_compute; discriminate.
Defined.

(* ------------------------------------------------------------------ *)
(** ** Forced runs and the statistics of a run *)

(** X7: a forced run starts from scratch: what it returns and writes
    does not depend on the artifacts of any earlier run. Two previous
    indexes give the same outcome as soon as [hasConfigChanged], which a
    forced run still calls, throws on both or on neither of them; it throws
    on no [meta.json] of the shape the builder writes. *)
Theorem forced_build_ignores_previous (E : Externals)
  (options : IndexBuildOptions) (w : World) (p1 p2 : PreviousIndex) :
  force options = true ->
  (configChangedOf options p1 = Throws
   <-> configChangedOf options p2 = Throws) ->
  buildIndex E options w p1 = buildIndex E options w p2.
Proof.
  intros H Hthrows. unfold buildIndex. rewrite H.
  destruct (negb (ripgrepAvailable w)); [reflexivity|].
  destruct (ensureIndexDir w (arkDir options)) as [|[indexDir created]];
    [reflexivity|].
  fold (currentConfigOf options).
  fold (configChangedOf options p1). fold (configChangedOf options p2).
  destruct (configChangedOf options p1) as [|c1],
    (configChangedOf options p2) as [|c2]; try reflexivity.
  - discriminate (proj1 Hthrows eq_refl).
  - discriminate (proj2 Hthrows eq_refl).
Qed.

(** The artifacts of some earlier run on another repository. *)
Definition staleIndex : PreviousIndex :=
  mkPrevious
    (Some (Typed
             (mkMeta "1.0.0" "0.1.0" "2023-01-01T00:00:00.000Z" "/repo" None
                Success (mkStats 1 1 0 1 0 5)
                (mkMetaConfig ["src/**"] [] 64 false []) [])))
    (Some (mkHashes "1.0.0" None
             [ ("src/a.ts",
                mkEntry "sha256:aa" "2024-01-01T00:00:00.000Z" 23) ]))
    (Some [ mkSymbol "src/a.ts::old" "old" KFunction "src/a.ts" None None None
              VExport [] [] [] ]).

Lemma forced_build_ignores_previous_witness :
  buildIndex plainHost (plainOptions true) (twoFilesWorld 0) noIndex
  = buildIndex plainHost (plainOptions true) (twoFilesWorld 0) staleIndex.
Proof.
  apply (forced_build_ignores_previous plainHost (plainOptions true)
           (twoFilesWorld 0) noIndex staleIndex).
  - reflexivity.
  - split; intros H; vm_compute in H; discriminate.
Defined.

Lemma classify_without_ledger (fs : FileSystem) (f : DiscoveredFile)
  (c : FileChange) :
  snd (classify fs None f) = Some c -> isNewOrChanged c = true.
Proof.
  unfold classify. cbn [snd].
  destruct (computeFileHash fs (absolutePath f)); [|discriminate].
  now intros [= <-].
Qed.

Lemma getChangedCount_le (changes : list FileChange) :
  getChangedCount changes <= List.length changes.
Proof. apply filter_length_le. Qed.

Lemma analyzed_count (fs : FileSystem) (prev : option FileHashes)
  (fls : list DiscoveredFile) (changes : list FileChange) :
  snd (analyzeChanges fs fls prev) = Some changes ->
  getChangedCount changes <= List.length fls
  /\ (prev = None -> getChangedCount changes = List.length fls).
Proof.
  unfold analyzeChanges.
  destruct (analyzeFiles fs prev fls) as [calls [verdicts|]] eqn:Ha;
    [|discriminate].
  cbn [snd option_map]. intros [= <-].
  destruct (analyzeFiles_verdicts fs prev fls verdicts) as [H2 _];
    [now rewrite Ha|].
  rewrite getChangedCount_app, deletedChanges_count, Nat.add_0_r.
  rewrite (Forall2_length H2). split; [apply getChangedCount_le|].
  intros ->. clear Ha. unfold getChangedCount.
  induction H2 as [|f c fls verdicts Hc _ IH]; simpl; [reflexivity|].
  rewrite (classify_without_ledger fs f c Hc). simpl. now f_equal.
Qed.

(** X8: the statistics of a run that wrote its artifacts. The run
    reports the statistics it wrote to [meta.json]; [total_files] is the
    number of discovered files, [indexed_files] and [skipped_files] add up
    to it, [total_symbols] counts the symbols written; [files_changed] never
    exceeds the number of discovered files, and a run that is not
    incremental reports every discovered file as changed. *)
Theorem build_statistics (E : Externals) (options : IndexBuildOptions)
  (w : World) (previous : PreviousIndex) (r : IndexBuildResult)
  (a : Artifacts E) (ops : list FsOp) :
  buildIndex E options w previous = Resolved r (Some (a, ops)) ->
  exists s,
    r_stats r = Some s
    /\ b_stats s = stats (art_meta a)
    /\ total_files (b_stats s)
       = Z.of_nat (List.length (files (discovery w)))
    /\ (indexed_files (b_stats s) + skipped_files (b_stats s))%Z
       = total_files (b_stats s)
    /\ total_symbols (b_stats s) = Z.of_nat (List.length (art_symbols a))
    /\ files_changed s <= List.length (files (discovery w))
    /\ (incremental s = false ->
        files_changed s = List.length (files (discovery w))).
Proof.
  intros Hrun.
  destruct (buildIndex_written E options w previous r a ops Hrun)
    as (changes & Hchanges & _ & _ & _ & Hfc & Hinc & Hstats & _ & _ & _
        & Hb).
  destruct (r_stats r) as [s|]; [|discriminate]. exists s.
  cbn [option_map] in Hfc, Hinc, Hb.
  injection Hfc as Hfc. injection Hinc as Hinc. injection Hb as Hb.
  rewrite Hb, Hstats, Hfc, Hinc. cbn [total_files indexed_files skipped_files
                                      total_symbols].
  split; [reflexivity|]. split; [reflexivity|]. split; [reflexivity|].
  split; [lia|]. split; [reflexivity|].
  unfold isIncrementalOf.
  destruct (forceFullIndexOf options previous); [split; [lia | reflexivity]|].
  destruct (analyzed_count _ _ _ _ Hchanges) as [Hle Hall].
  split; [exact Hle|]. cbn [negb andb].
  destruct (previousHashesOf options previous); [discriminate|].
  intros _. now apply Hall.
Qed.

Lemma build_statistics_witness :
  exists r a ops,
    buildIndex plainHost (plainOptions false) (twoFilesWorld 0) staleIndex
    = Resolved r (Some (a, ops))
    /\ exists s,
         r_stats r = Some s
         /\ b_stats s = stats (art_meta a)
         /\ total_files (b_stats s) = Z.of_nat (List.length twoFiles)
         /\ (indexed_files (b_stats s) + skipped_files (b_stats s))%Z
            = total_files (b_stats s)
         /\ total_symbols (b_stats s) = Z.of_nat (List.length (art_symbols a))
         /\ files_changed s <= List.length twoFiles
         /\ (incremental s = false -> files_changed s = List.length twoFiles).
Proof.
  do 3 eexists. split; [vm_compute; reflexivity|].
  eapply (build_statistics plainHost (plainOptions false) (twoFilesWorld 0)
            staleIndex).
  vm_compute; reflexivity.
Defined.

(* ------------------------------------------------------------------ *)
(** ** A build passes verification *)

Lemma eqb_app_head (p a b : string) :
  String.eqb (p ++ a) (p ++ b) = String.eqb a b.
Proof.
  induction p as [|c p IH]; simpl; [reflexivity|].
  now rewrite Ascii.eqb_refl.
Qed.

(** [path.join(dir, name)] puts the name after a prefix that depends on
    the directory alone. *)
Lemma join_prefix (dir : string) :
  exists pre, forall n, isFileName n = true -> Path.join dir n = pre ++ n.
Proof.
  destruct (List.rev (stackOf dir)) as [|h t] eqn:Hs.
  - exists (if isAbs dir then "/" else ""). intros n Hn.
    rewrite (join_file dir n Hn). unfold render. now rewrite Hs.
  - exists ((if isAbs dir then "/" else "") ++ JS.join "/" (h :: t)
            ++ String Path.slash ""). intros n Hn.
    rewrite (join_file dir n Hn). unfold render. rewrite Hs.
    rewrite join_snoc by discriminate.
    rewrite !append_assoc. reflexivity.
Qed.

Lemma join_eqb (dir a b : string) :
  isFileName a = true -> isFileName b = true ->
  String.eqb (Path.join dir a) (Path.join dir b) = String.eqb a b.
Proof.
  intros Ha Hb. destruct (join_prefix dir) as [pre Hpre].
  rewrite (Hpre a Ha), (Hpre b Hb). apply eqb_app_head.
Qed.

Lemma runOps_app (d : Disk) (a b : list FsOp) :
  runOps d (a ++ b) = runOps (runOps d a) b.
Proof. apply fold_left_app. Qed.

(** The disk after one atomic write. *)
Lemma after_atomicWrite (d : Disk) (dir name text p : string) :
  runOps d (atomicWrite dir name text) p
  = if String.eqb p (Path.join dir name) then Some text
    else if String.eqb p (Path.join dir ("." ++ name ++ ".tmp")) then None
    else d p.
Proof.
  unfold atomicWrite. cbn [runOps fold_left applyOp].
  rewrite String.eqb_refl.
  destruct (String.eqb p (Path.join dir name)); [reflexivity|].
  now destruct (String.eqb p (Path.join dir ("." ++ name ++ ".tmp"))).
Qed.

Lemma writeIndexFiles_atomic (RepoMapT TestMapT : Type)
  (prettyMeta0 : IndexMeta -> string) (prettyRepoMap0 : RepoMapT -> string)
  (prettyTestMap0 : TestMapT -> string)
  (prettyFileHashes0 : FileHashes -> string)
  (stringifySymbol0 : Symbol -> string)
  (indexDir : string) (meta : IndexMeta) (repoMap : RepoMapT)
  (testMap : TestMapT) (fileHashes : FileHashes) (symbols : list Symbol) :
  writeIndexFiles RepoMapT TestMapT prettyMeta0 prettyRepoMap0 prettyTestMap0
    prettyFileHashes0 stringifySymbol0 indexDir meta repoMap testMap
    fileHashes symbols
  = (atomicWrite indexDir "file_hashes.json" (prettyFileHashes0 fileHashes)
     ++ atomicWrite indexDir "symbols.jsonl"
          (linesText (map stringifySymbol0 symbols))
     ++ atomicWrite indexDir "repo_map.json" (prettyRepoMap0 repoMap)
     ++ atomicWrite indexDir "test_map.json" (prettyTestMap0 testMap)
     ++ atomicWrite indexDir "meta.json" (prettyMeta0 meta))%list.
Proof.
  unfold writeIndexFiles, writeJsonAtomic, writeSymbolsAtomic, atomicWrite,
    symbolsText.
  rewrite join_lines. rewrite !tempPathOf_join by reflexivity. reflexivity.
Qed.

Ltac decide_names :=
  repeat match goal with
         | |- context [String.eqb (Path.join ?d ?a) (Path.join ?d ?b)] =>
             rewrite (join_eqb d a b eq_refl eq_refl);
             let v := eval vm_compute in (String.eqb a b) in
             change (String.eqb a b) with v; cbv beta iota
         end.

(** The five artifacts on disk after the writer has run, whatever was
    there before. *)
Lemma disk_after_writeIndexFiles (RepoMapT TestMapT : Type)
  (prettyMeta0 : IndexMeta -> string) (prettyRepoMap0 : RepoMapT -> string)
  (prettyTestMap0 : TestMapT -> string)
  (prettyFileHashes0 : FileHashes -> string)
  (stringifySymbol0 : Symbol -> string)
  (d : Disk) (indexDir : string) (meta : IndexMeta) (repoMap : RepoMapT)
  (testMap : TestMapT) (fileHashes : FileHashes) (symbols : list Symbol) :
  let d' :=
    runOps d
      (writeIndexFiles RepoMapT TestMapT prettyMeta0 prettyRepoMap0
         prettyTestMap0 prettyFileHashes0 stringifySymbol0 indexDir meta
         repoMap testMap fileHashes symbols) in
  d' (Path.join indexDir "meta.json") = Some (prettyMeta0 meta)
  /\ d' (Path.join indexDir "repo_map.json") = Some (prettyRepoMap0 repoMap)
  /\ d' (Path.join indexDir "symbols.jsonl")
     = Some (linesText (map stringifySymbol0 symbols))
  /\ d' (Path.join indexDir "test_map.json") = Some (prettyTestMap0 testMap)
  /\ d' (Path.join indexDir "file_hashes.json")
     = Some (prettyFileHashes0 fileHashes).
Proof.
  rewrite writeIndexFiles_atomic. cbv zeta. rewrite !runOps_app.
  repeat split; repeat (rewrite after_atomicWrite; decide_names);
    reflexivity.
Qed.

Definition noLF (l : string) : bool := negb (JS.includes l LF).

Lemma noLF_cons (c : ascii) (l : string) :
  noLF (String c l) = negb (Ascii.eqb c "010"%char) && noLF l.
Proof.
  unfold noLF. cbn [JS.includes JS.startsWith LF].
  rewrite andb_true_r, negb_orb, (Ascii.eqb_sym "010"%char c). reflexivity.
Qed.

Lemma split_line (l rest : string) :
  noLF l = true ->
  JS.split "010"%char (l ++ LF ++ rest) = l :: JS.split "010"%char rest.
Proof.
  induction l as [|c l IH]; intros Hl.
  - cbn [append LF JS.split]. now rewrite Ascii.eqb_refl.
  - rewrite noLF_cons in Hl. apply andb_true_iff in Hl as [Hc Hl].
    apply negb_true_iff in Hc. cbn [append JS.split]. rewrite Hc.
    cbn [append] in IH. now rewrite (IH Hl).
Qed.

Lemma split_linesText (ls : list string) :
  Forall (fun l => noLF l = true) ls ->
  JS.split "010"%char (linesText ls) = (ls ++ [""])%list.
Proof.
  induction 1 as [|l ls Hl _ IH]; [reflexivity|].
  cbn [linesText]. rewrite (split_line l _ Hl), IH. reflexivity.
Qed.

Lemma buildHashesFiles_NoDup (fs : FileSystem) (fls : list DiscoveredFile)
  (changes : list FileChange) :
  forall acc o,
    buildHashesFiles fs changes fls acc = Some o ->
    NoDup (obj_keys acc) -> NoDup (obj_keys o).
Proof.
  assert (Hset : forall (acc : Obj FileHashEntry) k v,
             NoDup (obj_keys acc) -> NoDup (obj_keys (obj_set acc k v))).
  { intros acc k v Hnd.
    apply (Permutation_NoDup (obj_keys_set acc k v)).
    destruct (negb (String.eqb k "__proto__")); [|exact Hnd].
    destruct (obj_own acc k) eqn:Hk; [exact Hnd|]. cbn [andb].
    constructor; [|exact Hnd]. rewrite obj_own_keys, Hk. tauto. }
  induction changes as [|c changes IH]; simpl; intros acc o Hb Hnd.
  - now injection Hb as <-.
  - destruct (status c); try (exact (IH acc o Hb Hnd));
      (destruct (fileMap_get fls (c_path c)); [|exact (IH acc o Hb Hnd)];
       match type of Hb with
       | match ?h with _ => _ end = _ => destruct h as [hv|]
       end; [|discriminate];
       apply (IH _ o Hb), Hset, Hnd).
Qed.

Lemma ledger_size (fs : FileSystem) (fls : list DiscoveredFile)
  (changes : list FileChange) (commit : option string) (ledger : FileHashes) :
  buildFileHashes fs changes fls commit = Some ledger ->
  NoDup (map path fls) ->
  (forall f, In f fls -> path f <> "__proto__") ->
  (forall f, In f fls ->
     exists c, In c changes /\ c_path c = path f /\ status c <> Deleted) ->
  List.length (obj_keys (h_files ledger)) = List.length fls.
Proof.
  intros Hb Hnd Hproto Hch.
  destruct (ledger_of_discovery fs fls changes commit ledger Hb Hnd Hproto Hch)
    as (_ & Hentry & Hkeys).
  rewrite <- (length_map path fls). apply Permutation_length.
  apply NoDup_Permutation; [|exact Hnd|].
  - unfold buildFileHashes in Hb.
    destruct (buildHashesFiles fs changes fls []) as [o|] eqn:Ho;
      [|discriminate].
    injection Hb as <-. cbn [h_files].
    apply (buildHashesFiles_NoDup fs fls changes [] o Ho). constructor.
  - intros k. split; [apply Hkeys|]. intros Hk.
    apply in_map_iff in Hk as (f & <- & Hf).
    destruct (Hentry f Hf) as (e & He & _). apply obj_own_keys. congruence.
Qed.

Lemma buildIndex_ops (E : Externals) (options : IndexBuildOptions)
  (w : World) (previous : PreviousIndex) (r : IndexBuildResult)
  (a : Artifacts E) (ops : list FsOp) :
  buildIndex E options w previous = Resolved r (Some (a, ops)) ->
  ops = writeIndexFiles (RepoMap E) TestMap (prettyMeta E) (prettyRepoMap E)
          (prettyTestMap E) (prettyFileHashes E) (stringifySymbol E)
          (indexDirOf (arkDir options)) (art_meta a) (art_repo_map a)
          (art_test_map a) (art_file_hashes a) (art_symbols a)
  /\ schema_version (art_meta a) = META_SCHEMA_VERSION.
Proof.
  unfold buildIndex.
  destruct (ripgrepAvailable w); [|discriminate]. cbn [negb].
  destruct (ensureIndexDir w (arkDir options)) as [|[indexDir created]] eqn:Hd;
    [discriminate|].
  apply ensureIndexDir_path in Hd. subst indexDir.
  destruct (hasConfigChangedLoose _ _) as [|configChanged]; [discriminate|].
  destruct (find _ (errors (discovery w))); [discriminate|].
  match goal with
  | |- match ?x with _ => _ end = _ -> _ => destruct x; [|discriminate]
  end.
  match goal with
  | |- match ?x with _ => _ end = _ -> _ => destruct x; [|discriminate]
  end.
  destruct (writeFailure w); [discriminate|].
  intros [= <- <- <-]. split; reflexivity.
Qed.

Lemma lines_read_back (P : Parsers) (lines : list string) :
  Forall (fun t => noLF t = true /\ JS.truthy (JS.trim t) = true
                   /\ parsesLine P t = true) lines ->
  filter (fun l => negb (isBlank l))
    (map (lineOf P) (JS.split "010"%char (linesText lines)))
  = map (fun _ => ValidLine) lines.
Proof.
  intros H. rewrite split_linesText
    by (apply (Forall_impl _ (fun t Ht => proj1 Ht) H)).
  rewrite map_app, filter_app. cbn [map filter].
  assert (Hblank : lineOf P "" = BlankLine) by reflexivity.
  rewrite Hblank. cbn [isBlank negb]. rewrite app_nil_r.
  induction H as [|t lines (_ & Ht & Hp) _ IH]; [reflexivity|].
  assert (Hline : lineOf P t = ValidLine)
    by (unfold lineOf; now rewrite Ht, Hp).
  cbn [map filter]. rewrite Hline. cbn [negb isBlank]. now f_equal.
Qed.

Lemma invalidLineErrors_valid (n : nat) :
  forall i, invalidLineErrors (repeat ValidLine n) i = [].
Proof. induction n as [|n IH]; intros i; simpl; [reflexivity | apply IH]. Qed.

Lemma map_const_repeat {A B : Type} (b : B) (l : list A) :
  map (fun _ => b) l = repeat b (List.length l).
Proof. induction l; simpl; [reflexivity | now f_equal]. Qed.

(** X9: a build passes verification. After a run of the builder that
    wrote its artifacts, on a repository whose discovered paths are
    distinct, [verifyIndex] on the artifact directory answers valid, with no
    error and no warning, whatever the directory held before; provided that
    [JSON.parse] gives back the metadata and the ledger that were written,
    accepts the two maps, and that a written symbol is one non-blank line
    that parses. *)
Theorem built_index_verifies (E : Externals) (P : Parsers)
  (options : IndexBuildOptions) (w : World) (previous : PreviousIndex)
  (r : IndexBuildResult) (a : Artifacts E) (ops : list FsOp) (disk : Disk) :
  buildIndex E options w previous = Resolved r (Some (a, ops)) ->
  NoDup (map path (files (discovery w))) ->
  (forall f, In f (files (discovery w)) -> path f <> "__proto__") ->
  parseMeta P (prettyMeta E (art_meta a)) = inr (Typed (art_meta a)) ->
  parseFileHashes P (prettyFileHashes E (art_file_hashes a))
  = inr (Typed (art_file_hashes a)) ->
  parseJson P (prettyRepoMap E (art_repo_map a)) = inr tt ->
  parseJson P (prettyTestMap E (art_test_map a)) = inr tt ->
  (forall s, In s (art_symbols a) ->
     JS.includes (stringifySymbol E s) LF = false
     /\ JS.truthy (JS.trim (stringifySymbol E s)) = true
     /\ parsesLine P (stringifySymbol E s) = true) ->
  verifyIndex (readIndex P (runOps disk ops) (indexDirOf (arkDir options)))
  = Returned (mkVerify true [] []).
Proof.
  intros Hrun Hnd Hproto Hmeta Hhashes Hrepo Htest Hsyms.
  destruct (buildIndex_written E options w previous r a ops Hrun)
    as (changes & Hchanges & Hledger & _ & _ & _ & _ & Hstats & _).
  destruct (buildIndex_ops E options w previous r a ops Hrun) as [-> Hver].
  assert (Hhave : forall f, In f (files (discovery w)) ->
            exists c, In c changes /\ c_path c = path f /\ status c <> Deleted).
  { destruct (forceFullIndexOf options previous).
    - subst changes. intros f Hf. exists (mkChange (path f) New None).
      split; [|split; [reflexivity | discriminate]].
      apply (in_map (fun f => mkChange (path f) New None)), Hf.
    - exact (analyzed_files_have_changes _ _ _ _ Hchanges). }
  pose proof (ledger_size _ _ _ _ _ Hledger Hnd Hproto Hhave) as Hsize.
  destruct (disk_after_writeIndexFiles (RepoMap E) TestMap (prettyMeta E)
              (prettyRepoMap E) (prettyTestMap E) (prettyFileHashes E)
              (stringifySymbol E) disk (indexDirOf (arkDir options))
              (art_meta a) (art_repo_map a) (art_test_map a)
              (art_file_hashes a) (art_symbols a))
    as (Dm & Dr & Ds & Dt & Dh).
  unfold readIndex, readArtifact.
  rewrite Dm, Dr, Ds, Dt, Dh, Hmeta, Hhashes, Hrepo, Htest.
  unfold verifyIndex, missingErrors, fileCountWarning, symbolCountWarning.
  cbn [s_meta s_repo_map s_symbols s_test_map s_file_hashes isMissing filter
       map fst snd List.length Nat.ltb Nat.leb readStored schemaVersionOf
       hashFileCountOf statsOf totalFilesOf totalSymbolsOf isInteger].
  rewrite Hver. change (majorOf META_SCHEMA_VERSION) with "1".
  cbn [String.eqb Ascii.eqb Bool.eqb negb].
  rewrite lines_read_back.
  - rewrite map_const_repeat, invalidLineErrors_valid, repeat_length,
            length_map, Hsize, Hstats.
    cbn [total_files total_symbols]. rewrite !Z.eqb_refl. reflexivity.
  - apply Forall_forall. intros t Ht.
    apply in_map_iff in Ht as (s & <- & Hs).
    destruct (Hsyms s Hs) as (H1 & H2 & H3).
    unfold noLF. now rewrite H1.
Qed.

(** Parsers that give back what the first build of the two-file
    repository wrote. *)
Definition twoFilesParsers : Parsers :=
  match buildIndex plainHost (plainOptions false) (twoFilesWorld 0) noIndex with
  | Resolved _ (Some (a, _)) =>
      mkParsers (fun _ => inr (Typed (art_meta a)))
        (fun _ => inr (Typed (art_file_hashes a)))
        (fun _ => inr tt) (fun _ => true)
  | _ =>
      mkParsers (fun _ => inl "SyntaxError") (fun _ => inl "SyntaxError")
        (fun _ => inl "SyntaxError") (fun _ => false)
  end.

Lemma built_index_verifies_witness :
  exists r a ops,
    buildIndex plainHost (plainOptions false) (twoFilesWorld 0) noIndex
    = Resolved r (Some (a, ops))
    /\ verifyIndex
         (readIndex twoFilesParsers (runOps (fun _ => None) ops)
            (indexDirOf (arkDir (plainOptions false))))
       = Returned (mkVerify true [] []).
Proof.
  do 3 eexists. split; [vm_compute; reflexivity|].
  eapply (built_index_verifies plainHost twoFilesParsers (plainOptions false)
            (twoFilesWorld 0) noIndex).
  - vm_compute; reflexivity.
  - repeat constructor; simpl; intuition discriminate.
  - intros f [<-|[<-|[]]]; discriminate.
  - reflexivity.
  - reflexivity.
  - reflexivity.
  - reflexivity.
  - intros s [<-|[]]. repeat split; reflexivity.
Defined.

(** A previous [meta.json] of another shape, and an index directory that
    cannot be created: the build rejects. *)
Example buildIndex_rejects :
  buildIndex plainHost (plainOptions false) (twoFilesWorld 0)
    (mkPrevious (Some (Untyped (JObject []))) None None)
  = Rejected
  /\ buildIndex plainHost (plainOptions true) (twoFilesWorld 0)
       (mkPrevious (Some (Untyped (JObject []))) None None)
     = Rejected
  /\ buildIndex plainHost (plainOptions false)
       (mkWorld true (Some "c0ffee") (mkDiscovery twoFiles [] [])
          twoFilesSystem 0 5 "2024-01-03T00:00:00.000Z" None
          (fun _ => false) (fun _ => true))
       noIndex
     = Rejected
  /\ (exists r w,
        buildIndex plainHost (plainOptions false) (twoFilesWorld 0)
          (mkPrevious (Some (Untyped JNull)) None None)
        = Resolved r (Some w)).
Proof.
  repeat split; try (vm_compute; reflexivity).
  do 2 eexists. vm_compute. reflexivity.
Qed.

(* ------------------------------------------------------------------ *)
(** ** [meta.json] is written last *)

(** An operation leaves the file at [p] alone. *)
Definition leaves (p : string) (op : FsOp) : bool :=
  match op with
  | WriteFile target _ => negb (String.eqb p target)
  | Rename source target =>
      negb (String.eqb p target) && negb (String.eqb p source)
  end.

Lemma runOps_leaves (p : string) (ops : list FsOp) :
  forallb (leaves p) ops = true -> forall d, runOps d ops p = d p.
Proof.
  unfold runOps. induction ops as [|op ops IH]; simpl; intros H d;
    [reflexivity|].
  apply andb_true_iff in H as [Hop H]. rewrite (IH H).
  destruct op as [t c|s t]; simpl in *.
  - apply negb_true_iff in Hop. now rewrite Hop.
  - apply andb_true_iff in Hop as [H1 H2].
    apply negb_true_iff in H1, H2. now rewrite H1, H2.
Qed.

Lemma forallb_firstn {A : Type} (f : A -> bool) (n : nat) (l : list A) :
  forallb f l = true -> forallb f (firstn n l) = true.
Proof.
  revert n; induction l as [|x l IH]; intros [|n]; simpl; try reflexivity.
  intros H. apply andb_true_iff in H as [Hx H]. now rewrite Hx, IH.
Qed.

(** X10: [meta.json] signals completion. Let the writer stop after any
    number of its operations. If [meta.json] then holds the new metadata,
    and did not hold it before, the other four artifacts hold their new
    texts as well: a reader that finds the new [meta.json] finds a complete
    index. *)
Theorem meta_json_written_last (RepoMapT TestMapT : Type)
  (prettyMeta0 : IndexMeta -> string) (prettyRepoMap0 : RepoMapT -> string)
  (prettyTestMap0 : TestMapT -> string)
  (prettyFileHashes0 : FileHashes -> string)
  (stringifySymbol0 : Symbol -> string)
  (d : Disk) (indexDir : string) (meta : IndexMeta) (repoMap : RepoMapT)
  (testMap : TestMapT) (fileHashes : FileHashes) (symbols : list Symbol)
  (n : nat) :
  let d' :=
    runOps d
      (firstn n
         (writeIndexFiles RepoMapT TestMapT prettyMeta0 prettyRepoMap0
            prettyTestMap0 prettyFileHashes0 stringifySymbol0 indexDir meta
            repoMap testMap fileHashes symbols)) in
  d (Path.join indexDir "meta.json") <> Some (prettyMeta0 meta) ->
  d' (Path.join indexDir "meta.json") = Some (prettyMeta0 meta) ->
  d' (Path.join indexDir "file_hashes.json")
  = Some (prettyFileHashes0 fileHashes)
  /\ d' (Path.join indexDir "symbols.jsonl")
     = Some (symbolsText stringifySymbol0 symbols)
  /\ d' (Path.join indexDir "repo_map.json") = Some (prettyRepoMap0 repoMap)
  /\ d' (Path.join indexDir "test_map.json") = Some (prettyTestMap0 testMap).
Proof.
  cbv zeta. intros Hold Hnew.
  destruct (le_lt_dec 10 n) as [Hall|Hpart].
  - rewrite firstn_all2 in *
      by (rewrite writeIndexFiles_atomic; simpl; exact Hall).
    destruct (disk_after_writeIndexFiles RepoMapT TestMapT prettyMeta0
                prettyRepoMap0 prettyTestMap0 prettyFileHashes0
                stringifySymbol0 d indexDir meta repoMap testMap fileHashes
                symbols) as (_ & Dr & Ds & Dt & Dh).
    unfold symbolsText. rewrite join_lines. now repeat split.
  - exfalso. apply Hold. rewrite <- Hnew. symmetry.
    rewrite writeIndexFiles_atomic.
    set (last := Rename (Path.join indexDir ".meta.json.tmp")
                   (Path.join indexDir "meta.json")).
    set (before :=
           (atomicWrite indexDir "file_hashes.json"
              (prettyFileHashes0 fileHashes)
            ++ atomicWrite indexDir "symbols.jsonl"
                 (linesText (map stringifySymbol0 symbols))
            ++ atomicWrite indexDir "repo_map.json" (prettyRepoMap0 repoMap)
            ++ atomicWrite indexDir "test_map.json" (prettyTestMap0 testMap)
            ++ [WriteFile (Path.join indexDir ".meta.json.tmp")
                  (prettyMeta0 meta)])%list).
    change (runOps d (firstn n (before ++ [last])) (Path.join indexDir "meta.json")
            = d (Path.join indexDir "meta.json")).
    rewrite firstn_app.
    replace (n - List.length before) with 0 by (simpl; lia).
    cbn [firstn]. rewrite app_nil_r.
    apply runOps_leaves, forallb_firstn.
    unfold before, atomicWrite. cbn [forallb app leaves].
    rewrite !join_eqb by reflexivity. reflexivity.
Qed.

Definition someMeta : IndexMeta :=
  mkMeta "1.0.0" "0.1.0" "2024-01-03T00:00:00.000Z" "/repo" None Success
    (mkStats 0 0 0 0 0 5) (mkMetaConfig ["**/*"] [] 256 true []) [].

Lemma meta_json_written_last_witness :
  let d' :=
    runOps (fun _ => None)
      (firstn 10
         (writeIndexFiles unit unit (fun m => generated_at m) (fun _ => "{}")
            (fun _ => "{}") (fun _ => "{}") symbol_id "/repo/.ark/index"
            someMeta tt tt (mkHashes "1.0.0" None []) [])) in
  d' "/repo/.ark/index/file_hashes.json" = Some "{}"
  /\ d' "/repo/.ark/index/symbols.jsonl" = Some ""
  /\ d' "/repo/.ark/index/repo_map.json" = Some "{}"
  /\ d' "/repo/.ark/index/test_map.json" = Some "{}".
Proof.
  apply (meta_json_written_last unit unit (fun m => generated_at m)
           (fun _ => "{}") (fun _ => "{}") (fun _ => "{}") symbol_id
           (fun _ => None) "/repo/.ark/index" someMeta tt tt
           (mkHashes "1.0.0" None []) [] 10).
  - discriminate.
  - vm_compute; reflexivity.
Defined.

(* ------------------------------------------------------------------ *)
(** ** What a regular expression matches

    A declarative reading of the matcher: [matches ml r p c p' c'] says
    that [r] can match from position [p] with captures [c] and end at [p']
    with captures [c']. The matcher finds a match exactly when there is one
    that its continuation accepts. *)

Module RegexFacts.
Import Regex.

Section Matches.
Variable ml : bool.

(** Repetition: each round consumes something. *)
Inductive iter (step : pos -> caps -> pos -> caps -> Prop)
  : pos -> caps -> pos -> caps -> Prop :=
| iter_stop (p : pos) (c : caps) : iter step p c p c
| iter_more (p p1 p2 : pos) (c c1 c2 : caps) :
    step p c p1 c1 ->
    String.length (rest p1) < String.length (rest p) ->
    iter step p1 c1 p2 c2 ->
    iter step p c p2 c2.

Fixpoint matches (r : re) (p : pos) (c : caps) (p' : pos) (c' : caps)
  {struct r} : Prop :=
  match r with
  | Eps => p' = p /\ c' = c
  | Chr f =>
      exists a s', rest p = String a s' /\ f a = true
                   /\ p' = mkPos (Some a) s' (S (idx p)) /\ c' = c
  | Bol => atBol ml p = true /\ p' = p /\ c' = c
  | Eol => atEol ml p = true /\ p' = p /\ c' = c
  | Seq a b => exists p1 c1, matches a p c p1 c1 /\ matches b p1 c1 p' c'
  | Alt a b => matches a p c p' c' \/ matches b p c p' c'
  | Star _ a => iter (matches a) p c p' c'
  | Grp n a =>
      exists c1, matches a p c p' c1
                 /\ c' = (n, JS.take (idx p' - idx p) (rest p)) :: c1
  | Ref n =>
      match capture n c with
      | None => p' = p /\ c' = c
      | Some s => advance p s = Some p' /\ c' = c
      end
  end.

(** The loop of a repetition, on its own. *)
Definition starLoop (R : Type) (g : bool) (a : re)
  (k : pos -> caps -> option R) : nat -> pos -> caps -> option R :=
  fix loop (fuel : nat) (p : pos) (c : caps) {struct fuel} : option R :=
    match fuel with
    | O => k p c
    | S fuel' =>
        let more (_ : unit) :=
          m ml R a (fun p' c' =>
                      if String.length (rest p') <? String.length (rest p)
                      then loop fuel' p' c' else None) p c in
        if g
        then match more tt with Some x => Some x | None => k p c end
        else match k p c with Some x => Some x | None => more tt end
    end.

Lemma m_star (R : Type) (g : bool) (a : re) (k : pos -> caps -> option R)
  (p : pos) (c : caps) :
  m ml R (Star g a) k p c = starLoop R g a k (S (String.length (rest p))) p c.
Proof. reflexivity. Qed.

Lemma starLoop_S (R : Type) (g : bool) (a : re)
  (k : pos -> caps -> option R) (fuel : nat) (p : pos) (c : caps) :
  starLoop R g a k (S fuel) p c
  = let more :=
      m ml R a (fun p' c' =>
                  if String.length (rest p') <? String.length (rest p)
                  then starLoop R g a k fuel p' c' else None) p c in
    if g
    then match more with Some x => Some x | None => k p c end
    else match k p c with Some x => Some x | None => more end.
Proof. reflexivity. Qed.

Lemma m_sound (R : Type) (r : re) :
  forall (k : pos -> caps -> option R) p c x,
    m ml R r k p c = Some x ->
    exists p' c', matches r p c p' c' /\ k p' c' = Some x.
Proof.
  induction r as [|f| | |a IHa b IHb|a IHa b IHb|g a IHa|n a IHa|n];
    intros k p c x H; try rewrite m_star in H; cbn [m] in H.
  - exists p, c. now split.
  - destruct (rest p) as [|ch s'] eqn:Hr; [discriminate|].
    destruct (f ch) eqn:Hf; [|discriminate].
    eexists _, _. split; [|exact H]. exists ch, s'. now repeat split.
  - destruct (atBol ml p) eqn:Hb; [|discriminate].
    exists p, c. now repeat split.
  - destruct (atEol ml p) eqn:Hb; [|discriminate].
    exists p, c. now repeat split.
  - apply IHa in H as (p1 & c1 & Ha & H).
    apply IHb in H as (p2 & c2 & Hb & H).
    exists p2, c2. split; [|exact H]. now exists p1, c1.
  - destruct (m ml R a k p c) as [y|] eqn:Hy.
    + injection H as <-. apply IHa in Hy as (p' & c' & Ha & Hk).
      exists p', c'. split; [now left | exact Hk].
    + apply IHb in H as (p' & c' & Hb & Hk).
      exists p', c'. split; [now right | exact Hk].
  - revert H. generalize (S (String.length (rest p))) as fuel.
    intros fuel. revert p c x.
    induction fuel as [|fuel IH]; intros p c x H.
    + exists p, c. split; [apply iter_stop | exact H].
    + rewrite starLoop_S in H. cbv zeta in H.
      assert (Hmore : forall y,
                m ml R a
                  (fun p' c' =>
                     if String.length (rest p') <? String.length (rest p)
                     then starLoop R g a k fuel p' c' else None) p c = Some y ->
                exists p' c', iter (matches a) p c p' c' /\ k p' c' = Some y).
      { intros y Hy. apply IHa in Hy as (p1 & c1 & Ha & Hy).
        destruct (String.length (rest p1) <? String.length (rest p)) eqn:Hlt;
          [|discriminate].
        apply Nat.ltb_lt in Hlt.
        apply IH in Hy as (p2 & c2 & Hit & Hk).
        exists p2, c2. split; [|exact Hk].
        now apply (iter_more _ p p1 p2 c c1 c2). }
      destruct g.
      * match type of H with
        | match ?e with _ => _ end = _ => destruct e as [y|] eqn:Hy
        end.
        -- injection H as <-. now apply Hmore.
        -- exists p, c. split; [apply iter_stop | exact H].
      * destruct (k p c) as [y|] eqn:Hy.
        -- injection H as <-. exists p, c. split; [apply iter_stop | exact Hy].
        -- now apply Hmore.
  - apply IHa in H as (p' & c' & Ha & H).
    eexists p', _. split; [|exact H]. now exists c'.
  - destruct (capture n c) as [s|] eqn:Hc.
    + destruct (advance p s) as [p'|] eqn:Ha; [|discriminate].
      exists p', c. cbn [matches]. rewrite Hc. now repeat split.
    + exists p, c. cbn [matches]. rewrite Hc. now repeat split.
Qed.

(** When some match satisfies the continuation, the matcher finds one. *)
Lemma m_complete (R : Type) (r : re) :
  forall (k : pos -> caps -> option R) p c p' c',
    matches r p c p' c' -> k p' c' <> None -> m ml R r k p c <> None.
Proof.
  induction r as [|f| | |a IHa b IHb|a IHa b IHb|g a IHa|n a IHa|n];
    intros k p c p' c' H Hk; try rewrite m_star; cbn [m matches] in *.
  - destruct H as [-> ->]. exact Hk.
  - destruct H as (ch & s' & -> & -> & -> & ->). exact Hk.
  - destruct H as (-> & -> & ->). exact Hk.
  - destruct H as (-> & -> & ->). exact Hk.
  - destruct H as (p1 & c1 & Ha & Hb).
    apply (IHa _ p c p1 c1 Ha). now apply (IHb k p1 c1 p' c').
  - destruct H as [Ha|Hb].
    + pose proof (IHa k p c p' c' Ha Hk) as Hm.
      destruct (m ml R a k p c); [discriminate | contradiction].
    + destruct (m ml R a k p c); [discriminate|].
      now apply (IHb k p c p' c').
  - assert (Hgen : forall fuel p c,
              iter (matches a) p c p' c' ->
              String.length (rest p) < fuel ->
              starLoop R g a k fuel p c <> None).
    { induction fuel as [|fuel IH]; intros q d Hit Hlen; [lia|].
      rewrite starLoop_S. cbv zeta.
      inversion Hit as [|? p1 ? ? c1 ? Hstep Hlt Hrest]; subst.
      - destruct g.
        + destruct (m ml R a _ p' c'); [discriminate | exact Hk].
        + destruct (k p' c'); [discriminate | contradiction].
      - assert (Hmore :
                  m ml R a
                    (fun p'0 c'0 =>
                       if String.length (rest p'0) <? String.length (rest q)
                       then starLoop R g a k fuel p'0 c'0 else None) q d
                  <> None).
        { apply (IHa _ q d p1 c1 Hstep).
          apply Nat.ltb_lt in Hlt as Hlt'. rewrite Hlt'.
          apply IH; [exact Hrest | lia]. }
        destruct g.
        + destruct (m ml R a _ q d); [discriminate | contradiction].
        + destruct (k q d); [discriminate | exact Hmore]. }
    apply Hgen; [exact H | lia].
  - destruct H as (c1 & Ha & ->). now apply (IHa _ p c p' c1 Ha).
  - destruct (capture n c) as [s|].
    + destruct H as [-> ->]. exact Hk.
    + destruct H as [-> ->]. exact Hk.
Qed.

(** Positions of a subject: [posOf u v] is the position between [u] and
    [v] in the subject [u ++ v]. *)
Definition posOf (u v : string) : pos :=
  mkPos (lastChar None u) v (String.length u).

Lemma lastChar_app (d : option ascii) (u w : string) :
  lastChar d (u ++ w) = lastChar (lastChar d u) w.
Proof. revert d; induction u as [|a u IH]; intros d; simpl; auto. Qed.

Lemma posOf_step (u : string) (a : ascii) (v : string) :
  mkPos (Some a) v (S (String.length u)) = posOf (u ++ String a "") v.
Proof.
  unfold posOf. rewrite lastChar_app, length_append. simpl.
  f_equal. lia.
Qed.

Lemma startsWith_app (s w : string) :
  JS.startsWith s w = true -> s = w ++ JS.drop (String.length w) s.
Proof.
  revert s; induction w as [|a w IH]; intros s H; simpl in *.
  - now destruct s.
  - destruct s as [|b s]; [discriminate|].
    apply andb_true_iff in H as [Hab H]. apply Ascii.eqb_eq in Hab. subst.
    simpl. f_equal. now apply IH.
Qed.

Lemma startsWith_prefix (w t : string) : JS.startsWith (w ++ t) w = true.
Proof.
  induction w as [|a w IH]; simpl; [reflexivity|].
  now rewrite Ascii.eqb_refl.
Qed.

Lemma drop_app_length (w t : string) : JS.drop (String.length w) (w ++ t) = t.
Proof. induction w as [|a w IH]; simpl; [now destruct t | exact IH]. Qed.

(** A match from a position of the subject ends at a later position of the
    same subject. *)
Lemma matches_posOf (r : re) :
  forall u v c p' c',
    matches r (posOf u v) c p' c' ->
    exists w v', v = w ++ v' /\ p' = posOf (u ++ w) v'.
Proof.
  induction r as [|f| | |a IHa b IHb|a IHa b IHb|g a IHa|n a IHa|n];
    intros u v c p' c' H; cbn [matches] in H.
  - destruct H as [-> _]. exists "", v. now rewrite append_nil_r.
  - destruct H as (ch & s' & Hr & _ & -> & _). cbn [rest posOf] in Hr. subst v.
    exists (String ch ""), s'. split; [reflexivity|].
    cbn [idx posOf]. apply posOf_step.
  - destruct H as (_ & -> & _). exists "", v. now rewrite append_nil_r.
  - destruct H as (_ & -> & _). exists "", v. now rewrite append_nil_r.
  - destruct H as (p1 & c1 & Ha & Hb).
    apply IHa in Ha as (w1 & v1 & -> & ->).
    apply IHb in Hb as (w2 & v2 & -> & ->).
    exists (w1 ++ w2), v2. now rewrite !append_assoc.
  - destruct H as [H|H]; [now apply IHa in H | now apply IHb in H].
  - remember (posOf u v) as p eqn:Hp. revert u v Hp.
    induction H as [p c|p p1 p2 c c1 c2 Hstep _ _ IH]; intros u v ->.
    + exists "", v. now rewrite append_nil_r.
    + apply IHa in Hstep as (w1 & v1 & -> & ->).
      destruct (IH _ _ eq_refl) as (w2 & v2 & -> & ->).
      exists (w1 ++ w2), v2. now rewrite !append_assoc.
  - destruct H as (c1 & Ha & _). now apply IHa in Ha.
  - destruct (capture n c) as [s|].
    + destruct H as [Hadv _]. unfold advance in Hadv.
      cbn [rest prev idx posOf] in Hadv.
      destruct (JS.startsWith v s) eqn:Hs; [|discriminate].
      injection Hadv as <-. exists s, (JS.drop (String.length s) v).
      split; [now apply startsWith_app|].
      unfold posOf. now rewrite lastChar_app, length_append.
    + destruct H as [-> _]. exists "", v. now rewrite append_nil_r.
Qed.

Lemma posOf_inj (u v u' v' : string) :
  posOf u v = posOf u' v' -> v = v' /\ String.length u = String.length u'.
Proof. unfold posOf. now intros [= _ -> ->]. Qed.

(** *** The anchors outside the [m] mode *)

Lemma lastChar_none (u : string) : lastChar None u = None -> u = "".
Proof.
  destruct u as [|a u]; [reflexivity|]. simpl.
  assert (H : forall d w, lastChar (Some d) w <> None).
  { intros d w; revert d; induction w as [|b w IH]; intros d; simpl;
      [discriminate | apply IH]. }
  intros Hn. now apply H in Hn.
Qed.

End Matches.

Lemma atBol_posOf (u v : string) : atBol false (posOf u v) = true <-> u = "".
Proof.
  unfold atBol, posOf. cbn [prev]. split.
  - destruct (lastChar None u) eqn:Hl; [discriminate|].
    intros _. now apply lastChar_none.
  - now intros ->.
Qed.

Lemma atEol_posOf (u v : string) : atEol false (posOf u v) = true <-> v = "".
Proof.
  unfold atEol, posOf. cbn [rest]. destruct v; simpl; split; congruence.
Qed.

(** *** Literals, classes and runs of a class *)

Fixpoint allChars (f : ascii -> bool) (w : string) : bool :=
  match w with
  | EmptyString => true
  | String a w' => f a && allChars f w'
  end.

Lemma allChars_app (f : ascii -> bool) (a b : string) :
  allChars f (a ++ b) = allChars f a && allChars f b.
Proof.
  induction a as [|x a IH]; simpl; [reflexivity|].
  now rewrite IH, andb_assoc.
Qed.

Section Shapes.
Variable ml : bool.

Lemma matches_Chr (f : ascii -> bool) (u v : string) (c : caps) (p' : pos)
  (c' : caps) :
  matches ml (Chr f) (posOf u v) c p' c'
  <-> exists a v', v = String a v' /\ f a = true
                   /\ p' = posOf (u ++ String a "") v' /\ c' = c.
Proof.
  cbn [matches rest idx posOf]. split.
  - intros (a & s' & -> & Hf & -> & ->). exists a, s'.
    repeat split; try assumption. apply posOf_step.
  - intros (a & v' & -> & Hf & -> & ->). exists a, v'.
    repeat split; try assumption. symmetry. apply posOf_step.
Qed.

Lemma matches_lit (s : string) :
  forall u v c p' c',
    matches ml (lit s) (posOf u v) c p' c'
    <-> exists v', v = s ++ v' /\ p' = posOf (u ++ s) v' /\ c' = c.
Proof.
  induction s as [|a s IH]; intros u v c p' c'.
  - cbn [lit matches]. split.
    + intros [-> ->]. exists v. now rewrite append_nil_r.
    + intros (v' & -> & -> & ->). now rewrite append_nil_r.
  - assert (Hone : forall p' c',
              matches ml (chr a) (posOf u v) c p' c'
              <-> exists v', v = String a v'
                             /\ p' = posOf (u ++ String a "") v'
                             /\ c' = c).
    { clear p' c'. intros p' c'. unfold chr. rewrite matches_Chr. split.
      - intros (b & v' & -> & Hb & -> & ->). apply Ascii.eqb_eq in Hb.
        subst. now exists v'.
      - intros (v' & -> & -> & ->). exists a, v'.
        repeat split. apply Ascii.eqb_refl. }
    destruct s as [|b s].
    + apply Hone.
    + change (lit (String a (String b s)))
        with (Seq (chr a) (lit (String b s))).
      cbn [matches]. split.
      * intros (p1 & c1 & H1 & H2). apply Hone in H1 as (v1 & -> & -> & ->).
        apply IH in H2 as (v2 & -> & -> & ->). exists v2.
        now rewrite append_assoc.
      * intros (v' & -> & -> & ->).
        exists (posOf (u ++ String a "") (String b s ++ v')), c.
        split; [apply Hone; now eexists|].
        apply IH. exists v'. now rewrite append_assoc.
Qed.

Lemma matches_run (g : bool) (f : ascii -> bool) :
  forall u v c p' c',
    matches ml (Star g (Chr f)) (posOf u v) c p' c'
    <-> exists w v', v = w ++ v' /\ allChars f w = true
                     /\ p' = posOf (u ++ w) v' /\ c' = c.
Proof.
  intros u v c p' c'.
  change (matches ml (Star g (Chr f)) (posOf u v) c p' c')
    with (iter (matches ml (Chr f)) (posOf u v) c p' c').
  split.
  - intros H. remember (posOf u v) as p eqn:Hp. revert u v Hp.
    induction H as [p c|p p1 p2 c c1 c2 Hstep _ _ IH]; intros u v ->.
    + exists "", v. now rewrite append_nil_r.
    + apply matches_Chr in Hstep as (a & v1 & -> & Ha & -> & ->).
      destruct (IH _ _ eq_refl) as (w & v2 & -> & Hw & -> & ->).
      exists (String a w), v2. cbn [allChars append]. rewrite Ha, Hw.
      now rewrite append_assoc.
  - intros (w & v' & -> & Hw & -> & ->). revert u Hw.
    induction w as [|a w IH]; intros u Hw.
    + rewrite append_nil_r. apply iter_stop.
    + cbn [allChars] in Hw. apply andb_true_iff in Hw as [Ha Hw].
      apply iter_more with (p1 := posOf (u ++ String a "") (w ++ v'))
                           (c1 := c).
      * apply matches_Chr. exists a, (w ++ v'). now repeat split.
      * cbn [rest posOf append String.length]. lia.
      * specialize (IH (u ++ String a "") Hw).
        now rewrite append_assoc in IH.
Qed.

End Shapes.
(** *** Searching for a match *)

Lemma take_app_exact (w t : string) : JS.take (String.length w) (w ++ t) = w.
Proof. induction w as [|a w IH]; simpl; [now destruct t | now f_equal]. Qed.

Lemma execFrom_sound (ml : bool) (r : re) :
  forall s pv i res,
    execFrom ml r pv i s = Some res ->
    exists u v p' c',
      s = u ++ v
      /\ matches ml r (mkPos (lastChar pv u) v (i + String.length u)) [] p' c'
      /\ index res = i + String.length u
      /\ groups res = c'
      /\ matched res = JS.take (idx p' - (i + String.length u)) v.
Proof.
  induction s as [|a s IH]; intros pv i res H; cbn [execFrom] in H.
  - destruct (m ml _ r _ (mkPos pv "" i) []) as [[p' c']|] eqn:Hm;
      [|discriminate].
    injection H as <-. apply m_sound in Hm as (q & d & Hq & [= <- <-]).
    exists "", "", q, d. cbn [String.length lastChar append index groups matched].
    rewrite Nat.add_0_r. now repeat split.
  - destruct (m ml _ r _ (mkPos pv (String a s) i) []) as [[p' c']|] eqn:Hm.
    + injection H as <-. apply m_sound in Hm as (q & d & Hq & [= <- <-]).
      exists "", (String a s), q, d.
      cbn [String.length lastChar append index groups matched].
      rewrite Nat.add_0_r. now repeat split.
    + apply IH in H as (u & v & p' & c' & -> & Hmt & Hi & Hg & Hmd).
      exists (String a u), v, p', c'.
      cbn [String.length lastChar append].
      replace (i + S (String.length u)) with (S i + String.length u) by lia.
      now repeat split.
Qed.

Lemma exec_sound (ml : bool) (r : re) (s : string) (res : result) :
  exec ml r s = Some res ->
  exists u w v',
    s = u ++ w ++ v'
    /\ matches ml r (posOf u (w ++ v')) [] (posOf (u ++ w) v') (groups res)
    /\ index res = String.length u
    /\ matched res = w.
Proof.
  intros H. apply execFrom_sound in H as (u & v & p' & c' & -> & Hm & Hi & Hg & Hmd).
  change (mkPos (lastChar None u) v (0 + String.length u)) with (posOf u v)
    in Hm.
  destruct (matches_posOf ml r u v [] p' c' Hm) as (w & v' & -> & ->).
  exists u, w, v'. rewrite Hg. repeat split; try assumption.
  rewrite Hmd. cbn [idx posOf]. rewrite length_append.
  replace (String.length u + String.length w - (0 + String.length u))
    with (String.length w) by lia.
  apply take_app_exact.
Qed.

Lemma execFrom_complete (ml : bool) (r : re) (v : string) (p' : pos)
  (c' : caps) :
  forall u pv i,
    matches ml r (mkPos (lastChar pv u) v (i + String.length u)) [] p' c' ->
    execFrom ml r pv i (u ++ v) <> None.
Proof.
  induction u as [|a u IH]; intros pv i H.
  - cbn [append String.length lastChar] in *. rewrite Nat.add_0_r in H.
    pose proof (m_complete ml _ r (fun p c => Some (p, c)) _ _ _ _ H) as Hm.
    destruct v as [|b v]; cbn [execFrom];
      (destruct (m ml _ r _ _ []) as [[q d]|];
       [discriminate | exfalso; now apply Hm]).
  - cbn [append execFrom].
    destruct (m ml _ r _ _ []) as [[q d]|]; [discriminate|].
    apply IH. cbn [lastChar String.length] in H.
    now replace (S i + String.length u) with (i + S (String.length u)) by lia.
Qed.

Lemma exec_complete (ml : bool) (r : re) (u v : string) (p' : pos)
  (c' : caps) :
  matches ml r (posOf u v) [] p' c' -> exec ml r (u ++ v) <> None.
Proof. intros H. now apply (execFrom_complete ml r v p' c' u None 0). Qed.

End RegexFacts.

(* ------------------------------------------------------------------ *)
(** ** Identifiers of the baseline TypeScript symbols *)

From Stdlib Require Import DecimalZ.

Section TypescriptIds.
Import Regex RegexFacts.

(** A non-empty run of word characters. *)
Definition isWord (s : string) : Prop :=
  allChars JS.isWordChar s = true /\ s <> "".

Lemma seq_last (ml : bool) (last : re) (rs : list re) :
  forall u v c p' c',
    matches ml (seq (rs ++ [last])) (posOf u v) c p' c' ->
    exists u1 v1 c1, matches ml last (posOf u1 v1) c1 p' c'.
Proof.
  induction rs as [|r rs IH]; intros u v c p' c' H.
  - now exists u, v, c.
  - assert (E : seq ((r :: rs) ++ [last]) = Seq r (seq (rs ++ [last]))).
    { simpl. now destruct rs. }
    rewrite E in H. cbn [matches] in H. destruct H as (p1 & c1 & Hr & Hrest).
    apply matches_posOf in Hr as (w & v1 & -> & ->).
    now apply IH in Hrest.
Qed.

Lemma matches_name (ml : bool) (g : nat) (u v : string) (c : caps) (p' : pos)
  (c' : caps) :
  matches ml (Grp g (plus word)) (posOf u v) c p' c' ->
  exists nm, capture g c' = Some nm /\ isWord nm.
Proof.
  unfold plus, word. cbn [matches].
  intros (c1 & (p1 & c2 & Hone & Hrun) & ->).
  change (exists a s', rest (posOf u v) = String a s' /\ JS.isWordChar a = true
                       /\ p1 = mkPos (Some a) s' (S (idx (posOf u v)))
                       /\ c2 = c)
    with (matches ml (Chr JS.isWordChar) (posOf u v) c p1 c2) in Hone.
  apply (matches_Chr ml) in Hone as (a & v1 & -> & Ha & -> & ->).
  change (iter (matches ml (Chr JS.isWordChar)) (posOf (u ++ String a "") v1)
            c p' c1)
    with (matches ml (Star true (Chr JS.isWordChar))
            (posOf (u ++ String a "") v1) c p' c1) in Hrun.
  apply (matches_run ml true) in Hrun as (w & v' & -> & Hw & -> & ->).
  exists (String a w). cbn [capture]. rewrite Nat.eqb_refl. split.
  - f_equal. cbn [idx rest posOf]. rewrite !length_append.
    cbn [String.length].
    replace (String.length u + 1 + String.length w - String.length u)
      with (String.length (String a w)) by (cbn [String.length]; lia).
    apply (take_app_exact (String a w) v').
  - split; [|discriminate]. cbn [allChars]. now rewrite Ha, Hw.
Qed.

Lemma patterns_end_in_name :
  Forall (fun p : re * SymbolKind * nat =>
            exists rs, fst (fst p) = seq (rs ++ [Grp (snd p) (plus word)]))
         Typescript.patterns.
Proof.
  unfold Typescript.patterns.
  repeat (apply Forall_cons;
          [match goal with
           | |- exists rs, fst (fst (seq ?l, _, _)) = _ =>
               exists (removelast l); reflexivity
           end|]).
  constructor.
Qed.

Lemma nameBy_word (p : re * SymbolKind * nat) (l nm : string) :
  In p Typescript.patterns -> nameBy p l = Some nm -> isWord nm.
Proof.
  intros Hin H.
  pose proof patterns_end_in_name as Hall. rewrite Forall_forall in Hall.
  destruct (Hall p Hin) as [rs Hrs]. destruct p as [[regex k] g].
  cbn [fst snd] in Hrs. subst regex. unfold nameBy in H.
  destruct (exec true _ l) as [mt|] eqn:He; [|discriminate].
  destruct (group g mt) as [x|] eqn:Hg; [|discriminate].
  destruct (JS.truthy x); [|discriminate]. injection H as ->.
  apply exec_sound in He as (u & w & v' & _ & Hm & _).
  apply seq_last in Hm as (u1 & v1 & c1 & Hm).
  apply matches_name in Hm as (nm' & Hc & Hw).
  unfold group in Hg. congruence.
Qed.

Lemma wins_word (l nm : string) (k : SymbolKind) :
  wins Typescript.patterns l nm k -> isWord nm.
Proof.
  intros (before & p & after & E & _ & Hp & _).
  apply (nameBy_word p l); [|exact Hp]. rewrite E. apply in_elt.
Qed.

(** *** Strings that begin with a word *)

Lemma app_inv_head (a x y : string) : a ++ x = a ++ y -> x = y.
Proof. induction a as [|c a IH]; simpl; [easy | intros [= H]; auto]. Qed.

Lemma word_then (f : ascii -> bool) (c : ascii) :
  f c = false ->
  forall n1 n2 t1 t2,
    allChars f n1 = true -> allChars f n2 = true ->
    n1 ++ String c t1 = n2 ++ String c t2 -> n1 = n2 /\ t1 = t2.
Proof.
  intros Hc. induction n1 as [|a n1 IH]; intros [|b n2] t1 t2 H1 H2 E;
    cbn [append allChars] in *.
  - now injection E.
  - injection E as <- _. apply andb_true_iff in H2 as [H2 _]. congruence.
  - injection E as -> _. apply andb_true_iff in H1 as [H1 _]. congruence.
  - injection E as -> E. apply andb_true_iff in H1 as [_ H1].
    apply andb_true_iff in H2 as [_ H2].
    destruct (IH _ _ _ H1 H2 E) as [-> ->]. now split.
Qed.

Lemma word_not_then (f : ascii -> bool) (c : ascii) (n1 n2 t : string) :
  f c = false -> allChars f n1 = true -> n1 <> n2 ++ String c t.
Proof.
  intros Hc H1 ->. rewrite allChars_app in H1. cbn [allChars] in H1.
  rewrite Hc in H1. now rewrite andb_comm in H1.
Qed.

Lemma ofZ_inj (a b : Z) : JS.ofZ a = JS.ofZ b -> a = b.
Proof.
  unfold JS.ofZ. intros H. apply DecimalZ.to_int_inj.
  apply (f_equal NilEmpty.int_of_string) in H.
  rewrite !NilEmpty.isi in H. now injection H.
Qed.

(** *** The identifiers of a list of adapter symbols *)

Definition baseIdOf (filePath name : string) : string :=
  filePath ++ "::" ++ name.

Lemma set_add_keeps (ids : StringSet) (x y : string) :
  In y ids -> In y (set_add ids x).
Proof. intros H. apply set_add_In. now left. Qed.

Lemma generateSymbolId_cases (filePath name : string) (l : Z)
  (ids : StringSet) :
  let r := generateSymbolId filePath name l ids None in
  ((fst r = baseIdOf filePath name /\ ~ In (fst r) ids)
   \/ fst r = fallbackIdOf filePath name l)
  /\ In (fst r) (snd r)
  /\ (forall y, In y ids -> In y (snd r)).
Proof.
  cbv zeta. rewrite generateSymbolId_base.
  destruct (set_has ids (filePath ++ "::" ++ name)) eqn:Hhas;
    cbn [negb fst snd].
  - split; [now right|]. split; [apply set_add_In; now right|].
    intros y. apply set_add_keeps.
  - split.
    + left. split; [reflexivity|]. intros Hin.
      apply set_has_In in Hin. unfold baseIdOf in *. congruence.
    + split; [apply set_add_In; now right|]. intros y. apply set_add_keeps.
Qed.

Lemma toSymbols_ids (filePath : string) (l : list AdapterSymbol) :
  forall ids s,
    In s (fst (toSymbols l filePath ids)) ->
    exists a, In a l
      /\ ((symbol_id s = baseIdOf filePath (a_name a)
           /\ ~ In (symbol_id s) ids)
          \/ symbol_id s = fallbackIdOf filePath (a_name a) (startLine a)).
Proof.
  induction l as [|a l IH]; intros ids s Hin; cbn [toSymbols] in Hin.
  - destruct Hin.
  - unfold adapterSymbolToSymbol in Hin.
    pose proof (generateSymbolId_cases filePath (a_name a)
                  (line (start (a_span a))) ids) as Hg.
    destruct (generateSymbolId filePath (a_name a) _ ids None) as [i ids1].
    cbn [fst snd] in Hg. destruct Hg as (Hcase & _ & Hgrow).
    destruct (toSymbols l filePath ids1) as [syms ids2] eqn:Hrest.
    cbn [fst] in Hin. destruct Hin as [<-|Hin].
    + exists a. split; [now left|]. exact Hcase.
    + specialize (IH ids1 s). rewrite Hrest in IH.
      destruct (IH Hin) as (b & Hb & Hc). exists b. split; [now right|].
      destruct Hc as [[Hbase Hnot]|Hfall]; [left | now right].
      split; [exact Hbase|]. intros Hold. apply Hnot. now apply Hgrow.
Qed.

Lemma fallback_not_base (filePath n1 n2 : string) (l : Z) :
  isWord n1 -> baseIdOf filePath n1 <> fallbackIdOf filePath n2 l.
Proof.
  unfold baseIdOf, fallbackIdOf. intros [Hw _] E.
  apply app_inv_head in E. apply app_inv_head in E.
  now apply (word_not_then JS.isWordChar ":"%char n1 n2 ("L" ++ JS.ofZ l)).
Qed.

Lemma fallback_inj (filePath n1 n2 : string) (l1 l2 : Z) :
  isWord n1 -> isWord n2 ->
  fallbackIdOf filePath n1 l1 = fallbackIdOf filePath n2 l2 -> l1 = l2.
Proof.
  unfold fallbackIdOf. intros [H1 _] [H2 _] E.
  apply app_inv_head in E. apply app_inv_head in E.
  apply (word_then JS.isWordChar ":"%char eq_refl _ _ _ _ H1 H2) in E
    as [_ E].
  injection E as E. now apply ofZ_inj.
Qed.

Lemma toSymbols_distinct (filePath : string) (l : list AdapterSymbol) :
  Forall (fun a => isWord (a_name a)) l ->
  StronglySorted Z.lt (map startLine l) ->
  forall ids, NoDup (map symbol_id (fst (toSymbols l filePath ids))).
Proof.
  induction l as [|a l IH]; intros Hw Hs ids; cbn [toSymbols].
  - constructor.
  - inversion Hw as [|? ? Ha Hw']; subst. cbn [map] in Hs.
    inversion Hs as [|? ? Hs' Hlt]; subst.
    unfold adapterSymbolToSymbol.
    pose proof (generateSymbolId_cases filePath (a_name a)
                  (line (start (a_span a))) ids) as Hg.
    destruct (generateSymbolId filePath (a_name a) _ ids None) as [i ids1].
    cbn [fst snd] in Hg. destruct Hg as (Hcase & Hmem & _).
    pose proof (toSymbols_ids filePath l ids1) as Hids.
    specialize (IH Hw' Hs' ids1).
    destruct (toSymbols l filePath ids1) as [syms ids2].
    cbn [fst map symbol_id] in *. constructor; [|exact IH].
    intros Hin. apply in_map_iff in Hin as (s & Hs1 & Hs2).
    destruct (Hids s Hs2) as (b & Hb & Hc).
    assert (Hbw : isWord (a_name b)).
    { rewrite Forall_forall in Hw'. now apply Hw'. }
    assert (Hbl : (startLine a < startLine b)%Z).
    { rewrite Forall_forall in Hlt. apply Hlt. now apply in_map. }
    destruct Hc as [[_ Hnot]|Hfall].
    + apply Hnot. now rewrite Hs1.
    + rewrite Hs1 in Hfall. destruct Hcase as [[Hbase _]|Hfa].
      * rewrite Hbase in Hfall. now apply fallback_not_base in Hfall.
      * rewrite Hfa in Hfall. apply fallback_inj in Hfall; try assumption.
        unfold startLine in *. lia.
Qed.

End TypescriptIds.

(** X11: The identifiers that [adapterSymbolToSymbol] gives to the symbols
    of the baseline TypeScript and JavaScript extractor are pairwise
    distinct within a file, whatever the content of the file, its path and
    the identifiers already taken: every name is a run of word characters
    and no two symbols start on the same line, so that a second symbol of
    the same name gets its own [:L<line>] suffix. *)
Theorem typescript_ids_distinct (content filePath : string) (ids : StringSet) :
  NoDup (map symbol_id
           (fst (toSymbols
                   (Typescript.extractTypescriptSymbols content filePath)
                   filePath ids))).
Proof.
  unfold Typescript.extractTypescriptSymbols.
  destruct (scanLines_spec (JS.split "010"%char content)
              (JS.split "010"%char content) 0) as (_ & Hs & _ & Hf).
  apply toSymbols_distinct; [|exact Hs].
  revert Hf. apply Forall_impl. intros a (j & l & _ & _ & Hw).
  now apply wins_word in Hw.
Qed.

(* ------------------------------------------------------------------ *)
(** ** Identifiers across files *)

Section IdsAcrossFiles.
Import RegexFacts.

Definition isColon (c : ascii) : bool := Ascii.eqb c ":"%char.

(** No two colons in a row. *)
Fixpoint noColonPair (s : string) : bool :=
  match s with
  | EmptyString => true
  | String a s' =>
      negb (isColon a && JS.startsWith s' ":") && noColonPair s'
  end.

(** What follows [<path>::] in an identifier of a baseline TypeScript
    symbol. *)
Definition plainTail (t : string) : Prop :=
  JS.startsWith t ":" = false /\ noColonPair t = true.

Lemma noColonPair_pair (a b : string) : noColonPair (a ++ "::" ++ b) = false.
Proof.
  induction a as [|c a IH]; [reflexivity|].
  change (noColonPair (String c a ++ "::" ++ b))
    with (negb (isColon c && JS.startsWith (a ++ "::" ++ b) ":")
          && noColonPair (a ++ "::" ++ b)).
  rewrite IH. apply andb_false_r.
Qed.

Lemma noColon_noColonPair (s : string) :
  allChars (fun c => negb (isColon c)) s = true -> noColonPair s = true.
Proof.
  induction s as [|a s IH]; [reflexivity|]. cbn [allChars noColonPair].
  intros H. apply andb_true_iff in H as [Ha Hs]. rewrite (IH Hs).
  destruct (isColon a); [discriminate | reflexivity].
Qed.

Lemma noColonPair_app (n t : string) :
  allChars (fun c => negb (isColon c)) n = true ->
  noColonPair t = true -> noColonPair (n ++ t) = true.
Proof.
  intros Hn Ht. induction n as [|a n IH]; [exact Ht|].
  cbn [allChars] in Hn. apply andb_true_iff in Hn as [Ha Hn].
  cbn [append noColonPair]. rewrite (IH Hn).
  destruct (isColon a); [discriminate | reflexivity].
Qed.

Lemma word_noColon (n : string) :
  allChars JS.isWordChar n = true ->
  allChars (fun c => negb (isColon c)) n = true.
Proof.
  induction n as [|a n IH]; [reflexivity|]. cbn [allChars]. intros H.
  apply andb_true_iff in H as [Ha Hn]. rewrite (IH Hn), andb_true_r.
  unfold isColon. destruct (Ascii.eqb_spec a ":"%char) as [->|]; [|reflexivity].
  discriminate.
Qed.

Lemma uint_noColon (d : Decimal.uint) :
  allChars (fun c => negb (isColon c)) (NilEmpty.string_of_uint d) = true.
Proof. induction d; cbn [NilEmpty.string_of_uint allChars]; auto. Qed.

Lemma ofZ_noColon (z : Z) :
  allChars (fun c => negb (isColon c)) (JS.ofZ z) = true.
Proof.
  unfold JS.ofZ. destruct (Z.to_int z) as [d|d];
    cbn [NilEmpty.string_of_int allChars]; apply uint_noColon.
Qed.




(** The path of an identifier is determined by the identifier. *)
Lemma path_of_id (p1 : string) :
  forall p2 t1 t2,
    plainTail t1 -> plainTail t2 ->
    p1 ++ "::" ++ t1 = p2 ++ "::" ++ t2 -> p1 = p2.
Proof.
  assert (Hshort : forall p t1 t2,
             plainTail t1 -> "::" ++ t1 = p ++ "::" ++ t2 -> p = "").
  { intros [|c [|c' p]] t1 t2 [Hs Hp] E; [reflexivity| |].
    - injection E as <- E. subst t1. discriminate.
    - injection E as <- <- E. subst t1.
      pose proof (noColonPair_pair p t2) as Hpair. simpl in Hpair, Hp.
      congruence. }
  induction p1 as [|a p1 IH]; intros [|b p2] t1 t2 H1 H2 E.
  - reflexivity.
  - now apply Hshort in E.
  - symmetry in E. now apply Hshort in E.
  - injection E as -> E. f_equal. now apply (IH p2 t1 t2).
Qed.

(** *** The extraction loop of a build that reuses nothing *)

Lemma toSymbols_grows (filePath : string) (l : list AdapterSymbol) :
  forall ids,
    (forall y, In y ids -> In y (snd (toSymbols l filePath ids)))
    /\ (forall s, In s (fst (toSymbols l filePath ids)) ->
                  In (symbol_id s) (snd (toSymbols l filePath ids))).
Proof.
  induction l as [|a l IH]; intros ids; cbn [toSymbols].
  - split; [auto | intros s []].
  - unfold adapterSymbolToSymbol.
    pose proof (generateSymbolId_cases filePath (a_name a)
                  (line (start (a_span a))) ids) as Hg.
    destruct (generateSymbolId filePath (a_name a) _ ids None) as [i ids1].
    cbn [fst snd] in Hg. destruct Hg as (_ & Hmem & Hgrow).
    destruct (IH ids1) as [Hold Hnew].
    destruct (toSymbols l filePath ids1) as [syms ids2].
    cbn [fst snd] in *. split; [auto|].
    intros s [<-|Hs]; [now apply Hold | now apply Hnew].
Qed.

(** What holds of the loop state after the files [done]. *)
Definition distinctSoFar (done : list DiscoveredFile) (st : LoopState)
  : Prop :=
  NoDup (map symbol_id (allSymbols st))
  /\ (forall s, In s (allSymbols st) -> In (symbol_id s) (existingIds st))
  /\ (forall s, In s (allSymbols st) ->
        exists g t, In g done /\ plainTail t
                    /\ symbol_id s = path g ++ "::" ++ t).

End IdsAcrossFiles.

(* ------------------------------------------------------------------ *)
(** ** More on what regular expressions match *)

Module RegexShapes.
Import Regex RegexFacts.

Section Shapes.
Variable ml : bool.

Lemma matches_plus (f : ascii -> bool) (u v : string) (c : caps) (p' : pos)
  (c' : caps) :
  matches ml (plus (Chr f)) (posOf u v) c p' c'
  <-> exists w v', v = w ++ v' /\ allChars f w = true /\ w <> ""
                   /\ p' = posOf (u ++ w) v' /\ c' = c.
Proof.
  unfold plus.
  change (matches ml (Seq (Chr f) (Star true (Chr f))) (posOf u v) c p' c')
    with (exists p1 c1, matches ml (Chr f) (posOf u v) c p1 c1
                        /\ matches ml (Star true (Chr f)) p1 c1 p' c').
  split.
  - intros (p1 & c1 & H1 & H2).
    apply (matches_Chr ml) in H1 as (a & v1 & -> & Ha & -> & ->).
    apply (matches_run ml true) in H2 as (w & v' & -> & Hw & -> & ->).
    exists (String a w), v'. cbn [allChars append]. rewrite Ha, Hw.
    repeat split; [discriminate | now rewrite append_assoc].
  - intros (w & v' & -> & Hw & Hne & -> & ->).
    destruct w as [|a w]; [now destruct Hne|].
    cbn [allChars] in Hw. apply andb_true_iff in Hw as [Ha Hw].
    exists (posOf (u ++ String a "") (w ++ v')), c. split.
    + apply matches_Chr. exists a, (w ++ v'). now repeat split.
    + apply matches_run. exists w, v'. rewrite append_assoc.
      now repeat split.
Qed.

Lemma matches_chr (a : ascii) (u v : string) (c : caps) (p' : pos)
  (c' : caps) :
  matches ml (chr a) (posOf u v) c p' c'
  <-> exists v', v = String a v' /\ p' = posOf (u ++ String a "") v'
                 /\ c' = c.
Proof. apply (matches_lit ml (String a "")). Qed.

Lemma matches_Grp (n : nat) (a : re) (u v : string) (c : caps) (p' : pos)
  (c' : caps) :
  matches ml (Grp n a) (posOf u v) c p' c'
  <-> exists w v' c1,
        v = w ++ v' /\ p' = posOf (u ++ w) v'
        /\ matches ml a (posOf u v) c (posOf (u ++ w) v') c1
        /\ c' = (n, w) :: c1.
Proof.
  cbn [matches]. split.
  - intros (c1 & Ha & ->).
    destruct (matches_posOf ml a u v c p' c1 Ha) as (w & v' & -> & ->).
    exists w, v', c1. repeat split; [exact Ha|].
    cbn [idx rest posOf]. rewrite length_append.
    replace (String.length u + String.length w - String.length u)
      with (String.length w) by lia.
    now rewrite take_app_exact.
  - intros (w & v' & c1 & -> & -> & Ha & ->). exists c1.
    split; [exact Ha|]. cbn [idx rest posOf]. rewrite length_append.
    replace (String.length u + String.length w - String.length u)
      with (String.length w) by lia.
    now rewrite take_app_exact.
Qed.

Lemma matches_Seq (a b : re) (u v : string) (c : caps) (p' : pos)
  (c' : caps) :
  matches ml (Seq a b) (posOf u v) c p' c'
  <-> exists w v1 c1,
        v = w ++ v1
        /\ matches ml a (posOf u v) c (posOf (u ++ w) v1) c1
        /\ matches ml b (posOf (u ++ w) v1) c1 p' c'.
Proof.
  cbn [matches]. split.
  - intros (p1 & c1 & Ha & Hb).
    destruct (matches_posOf ml a u v c p1 c1 Ha) as (w & v1 & -> & ->).
    now exists w, v1, c1.
  - intros (w & v1 & c1 & -> & Ha & Hb). now exists (posOf (u ++ w) v1), c1.
Qed.

Lemma matches_opt (a : re) (p : pos) (c : caps) (p' : pos) (c' : caps) :
  matches ml (opt a) p c p' c'
  <-> matches ml a p c p' c' \/ (p' = p /\ c' = c).
Proof. reflexivity. Qed.

End Shapes.

Lemma matches_Bol (u v : string) (c : caps) (p' : pos) (c' : caps) :
  matches false Bol (posOf u v) c p' c'
  <-> u = "" /\ p' = posOf u v /\ c' = c.
Proof. cbn [matches]. now rewrite atBol_posOf. Qed.

Lemma matches_Eol (u v : string) (c : caps) (p' : pos) (c' : caps) :
  matches false Eol (posOf u v) c p' c'
  <-> v = "" /\ p' = posOf u v /\ c' = c.
Proof. cbn [matches]. now rewrite atEol_posOf. Qed.

(** *** Runs of characters *)

(** The string is empty or starts outside the class. *)
Definition stops (f : ascii -> bool) (x : string) : Prop :=
  match x with
  | EmptyString => True
  | String c _ => f c = false
  end.

(** A run of characters of a class, up to the end or to a character outside
    the class, is determined by the string. *)
Lemma run_unique (f : ascii -> bool) :
  forall a b x y,
    allChars f a = true -> allChars f b = true ->
    stops f x -> stops f y ->
    a ++ x = b ++ y -> a = b /\ x = y.
Proof.
  induction a as [|c a IH]; intros [|d b] x y Ha Hb Hx Hy E;
    cbn [append allChars] in *.
  - now split.
  - subst x. apply andb_true_iff in Hb as [Hd _]. cbn [stops] in Hx.
    congruence.
  - subst y. apply andb_true_iff in Ha as [Hc _]. cbn [stops] in Hy.
    congruence.
  - injection E as -> E. apply andb_true_iff in Ha as [_ Ha].
    apply andb_true_iff in Hb as [_ Hb].
    destruct (IH b x y Ha Hb Hx Hy E) as [-> ->]. now split.
Qed.

End RegexShapes.

(* ------------------------------------------------------------------ *)
(** ** The TypeScript extractor: export-marked lines only *)

Section ExportMarked.
Import Regex RegexFacts RegexShapes.

(** A line is export-marked: [export] and white space stand at its start
    or, since the patterns carry the [m] flag, right after a line
    terminator inside it (a carriage return; the lines hold no line
    feed). *)
Definition exportMarked (l : string) : Prop :=
  exists u sp v,
    l = u ++ "export" ++ sp ++ v
    /\ (u = "" \/ exists u' c, u = u' ++ String c ""
                              /\ JS.isLineTerminator c = true)
    /\ allChars JS.isWhiteSpace sp = true /\ sp <> "".

Lemma lastChar_some (u : string) :
  forall d c, lastChar d u = Some c ->
              (u = "" /\ d = Some c) \/ exists u', u = u' ++ String c "".
Proof.
  induction u as [|a u IH]; intros d c H; cbn [lastChar] in H.
  - now left.
  - right. destruct (IH _ _ H) as [[-> E]|[u' ->]].
    + injection E as ->. now exists "".
    + now exists (String a u').
Qed.

Lemma atBol_multiline (u v : string) :
  atBol true (posOf u v) = true ->
  u = "" \/ exists u' c, u = u' ++ String c ""
                         /\ JS.isLineTerminator c = true.
Proof.
  unfold atBol, posOf. cbn [prev].
  destruct (lastChar None u) as [c|] eqn:Hl.
  - cbn [andb]. intros Hc. right.
    destruct (lastChar_some u None c Hl) as [[_ E]|[u' ->]]; [discriminate|].
    now exists u', c.
  - intros _. left. now apply lastChar_none.
Qed.

Lemma exportHead_sound (tail : re) (l : string) (mt : result) :
  exec true (Seq Bol (Seq (lit "export") (Seq (plus space) tail))) l
  = Some mt ->
  exportMarked l.
Proof.
  intros He. apply exec_sound in He as (u & w & v' & -> & Hm & _).
  apply (matches_Seq true) in Hm as (w0 & v1 & c1 & E0 & Hbol & Hm).
  cbn [matches] in Hbol. destruct Hbol as (Hbol & Hp & ->).
  apply posOf_inj in Hp as [Hv Hlen].
  rewrite length_append in Hlen.
  assert (w0 = "") as -> by (destruct w0; [reflexivity | cbn in Hlen; lia]).
  cbn [append] in E0. subst v1. rewrite append_nil_r in Hm.
  apply atBol_multiline in Hbol.
  apply (matches_Seq true) in Hm as (w1 & v2 & c2 & E1 & Hlit & Hm).
  apply (matches_lit true) in Hlit as (v2' & E1' & Hp1 & ->).
  apply posOf_inj in Hp1 as [-> _].
  apply (matches_Seq true) in Hm as (w2 & v3 & c3 & E2 & Hsp & _).
  unfold space in Hsp.
  apply (matches_plus true) in Hsp as (sp & v3' & E2' & Hws & Hne & _ & _).
  exists u, sp, v3'. rewrite E1', E2'. repeat split; assumption.
Qed.

Lemma patterns_start_with_export :
  Forall (fun p : re * SymbolKind * nat =>
            exists tail,
              fst (fst p)
              = Seq Bol (Seq (lit "export") (Seq (plus space) tail)))
         Typescript.patterns.
Proof.
  unfold Typescript.patterns, Typescript.exportHead.
  repeat (apply Forall_cons; [eexists; reflexivity|]).
  constructor.
Qed.

Lemma nameBy_exportMarked (p : re * SymbolKind * nat) (l nm : string) :
  In p Typescript.patterns -> nameBy p l = Some nm -> exportMarked l.
Proof.
  intros Hin H.
  pose proof patterns_start_with_export as Hall.
  rewrite Forall_forall in Hall.
  destruct (Hall p Hin) as [tail Ht]. destruct p as [[regex k] g].
  cbn [fst snd] in Ht. subst regex. unfold nameBy in H.
  destruct (exec true _ l) as [mt|] eqn:He; [|discriminate].
  now apply exportHead_sound in He.
Qed.

Lemma wins_exportMarked (l nm : string) (k : SymbolKind) :
  wins Typescript.patterns l nm k -> exportMarked l.
Proof.
  intros (before & p & after & E & _ & Hp & _).
  apply (nameBy_exportMarked p l nm); [|exact Hp]. rewrite E. apply in_elt.
Qed.

End ExportMarked.

Lemma toSymbols_spans (l : list AdapterSymbol) (filePath : string)
  (ids : StringSet) :
  map span (fst (toSymbols l filePath ids))
  = map (fun a => Some (a_span a)) l.
Proof.
  revert ids; induction l as [|a l IH]; intros ids; simpl; [reflexivity|].
  unfold adapterSymbolToSymbol.
  destruct (generateSymbolId filePath (a_name a) _ ids None) as [sid ids1].
  specialize (IH ids1). destruct (toSymbols l filePath ids1) as [syms ids2].
  simpl in *. now rewrite IH.
Qed.

(** The symbol starts on a line of the content that is export-marked. *)
Definition onExportLine (content : string) (s : Symbol) : Prop :=
  exists sp j l,
    span s = Some sp
    /\ nth_error (JS.split "010"%char content) j = Some l
    /\ line (start sp) = (Z.of_nat j + 1)%Z
    /\ exportMarked l.

(** C6, as the code has it. On the file of the scenario, extraction
    followed by identifier generation yields exactly two symbols:
    [src/a.ts::f], a function on line 1, and [src/a.ts::C], a class on
    line 3. The method on line 5 is not extracted: on any content, the
    baseline TypeScript extractor yields no symbol of kind [method], and
    every symbol it yields starts on an export-marked line. *)
Theorem scenario_a_ts_symbols :
  map summary (indexedSymbols scenario_a_ts "src/a.ts")
  = [ ("src/a.ts::f", KFunction, Some 1%Z); ("src/a.ts::C", KClass, Some 3%Z) ]
  /\ (forall content filePath : string,
        Forall (fun s => kind s <> KMethod) (indexedSymbols content filePath))
  /\ (forall content filePath : string,
        Forall (onExportLine content) (indexedSymbols content filePath)).
Proof.
  split; [vm_compute; reflexivity|]. split.
  - intros content filePath. unfold indexedSymbols.
    apply Forall_map with (f := kind) (P := fun k => k <> KMethod).
    rewrite toSymbols_kinds. apply Forall_map.
    unfold Typescript.extractTypescriptSymbols.
    destruct (scanLines_spec (JS.split "010"%char content)
                (JS.split "010"%char content) 0) as [_ [_ [_ Hfrom]]].
    revert Hfrom. apply Forall_impl.
    intros s [j [l [_ [_ [before [p [after [Hps [Hk _]]]]]]]]].
    pose proof patterns_no_method as HP. rewrite Hps in HP.
    apply Forall_app in HP. destruct HP as [_ HP]. inversion HP; subst.
    congruence.
  - intros content filePath. unfold indexedSymbols.
    apply Forall_map with (f := span)
      (P := fun o => exists sp j l,
                o = Some sp
                /\ nth_error (JS.split "010"%char content) j = Some l
                /\ line (start sp) = (Z.of_nat j + 1)%Z
                /\ exportMarked l).
    rewrite toSymbols_spans. apply Forall_map.
    unfold Typescript.extractTypescriptSymbols.
    destruct (scanLines_spec (JS.split "010"%char content)
                (JS.split "010"%char content) 0) as [_ [_ [_ Hfrom]]].
    revert Hfrom. apply Forall_impl.
    intros s (j & l & Hnth & Hline & Hw).
    exists (a_span s), j, l. split; [reflexivity|]. split; [exact Hnth|].
    split; [exact Hline|]. now apply wins_exportMarked in Hw.
Qed.


(* ------------------------------------------------------------------ *)
(** ** The test parsers ([tests/parsing.ts]) *)

Section TestParsers.
Import Regex RegexFacts RegexShapes.

Lemma take_span (u w v : string) :
  JS.take (idx (posOf (u ++ w) v) - idx (posOf u (w ++ v)))
    (rest (posOf u (w ++ v))) = w.
Proof.
  cbn [idx rest posOf]. rewrite length_append.
  replace (String.length u + String.length w - String.length u)
    with (String.length w) by lia.
  apply take_app_exact.
Qed.

(** [/^<kw>\s+(<pre>\w+)\s*\(/]: the shape of the pytest and Go
    patterns. *)
Definition headerPattern (kw pre : string) : re :=
  seq [ Bol; lit kw; plus space; Grp 1 (seq [lit pre; plus word]);
        star space; chr "("%char ].

(** The line is [<kw>], white space, the name [nm] (which is [<pre>] and
    then word characters), optional white space and an opening
    parenthesis. *)
Definition headerLine (kw pre l nm : string) : Prop :=
  exists sp wd sp' tail,
    l = kw ++ sp ++ nm ++ sp' ++ "(" ++ tail
    /\ allChars JS.isWhiteSpace sp = true /\ sp <> ""
    /\ nm = pre ++ wd /\ isWord wd
    /\ allChars JS.isWhiteSpace sp' = true.

Lemma header_sound (kw pre u v : string) (p' : pos) (c' : caps) :
  matches false (headerPattern kw pre) (posOf u v) [] p' c' ->
  u = "" /\ exists nm, capture 1 c' = Some nm /\ headerLine kw pre v nm.
Proof.
  unfold headerPattern. cbn [seq]. cbn [matches].
  intros (p0 & c0 & (Hbol & -> & ->) & p1 & c1 & Hkw & p2 & c2 & Hsp
          & p3 & c3 & (c4 & (p5 & c5 & Hpre & Hwd) & ->) & p6 & c6 & Hsp'
          & Hparen).
  apply atBol_posOf in Hbol. split; [exact Hbol|].
  apply (matches_lit false) in Hkw as (v1 & -> & -> & ->).
  apply (matches_plus false) in Hsp as (sp & v2 & -> & Hsp1 & Hsp2 & -> & ->).
  apply (matches_lit false) in Hpre as (v3 & -> & -> & ->).
  apply (matches_plus false) in Hwd as (wd & v4 & -> & Hwd1 & Hwd2 & -> & ->).
  apply (matches_run false true) in Hsp'
    as (sp' & v5 & -> & Hsp' & -> & ->).
  apply (matches_chr false) in Hparen as (tail & -> & -> & ->).
  exists (pre ++ wd). split.
  - cbn [capture Nat.eqb]. f_equal.
    rewrite <- (append_assoc pre wd), (append_assoc _ pre wd).
    apply take_span.
  - exists sp, wd, sp', tail. rewrite !append_assoc. now repeat split.
Qed.

Lemma header_complete (kw pre l nm : string) :
  headerLine kw pre l nm ->
  exists p' c', matches false (headerPattern kw pre) (posOf "" l) [] p' c'.
Proof.
  intros (sp & wd & sp' & tail & -> & Hsp1 & Hsp2 & -> & [Hwd1 Hwd2] & Hsp').
  unfold headerPattern. cbn [seq]. cbn [matches]. do 2 eexists.
  exists (posOf "" (kw ++ sp ++ (pre ++ wd) ++ sp' ++ "(" ++ tail)), [].
  split; [repeat split; now apply atBol_posOf|].
  do 2 eexists. split.
  { apply (matches_lit false). eexists. repeat split. }
  do 2 eexists. split.
  { apply (matches_plus false). exists sp. eexists. now repeat split. }
  do 2 eexists. split.
  { eexists. split; [|reflexivity]. do 2 eexists. split.
    - apply (matches_lit false). eexists. rewrite append_assoc.
      repeat split.
    - apply (matches_plus false). exists wd. eexists. now repeat split. }
  do 2 eexists. split.
  { apply (matches_run false true). exists sp'. eexists. now repeat split. }
  apply (matches_chr false). exists tail. repeat split.
Qed.

Lemma headerLine_unique (kw pre l nm nm' : string) :
  stops JS.isWhiteSpace pre -> pre <> "" ->
  headerLine kw pre l nm -> headerLine kw pre l nm' -> nm = nm'.
Proof.
  intros Hpre Hne
    (sp & wd & sp' & tail & -> & Hsp1 & _ & -> & [Hwd _] & Hsp')
    (sp2 & wd2 & sp2' & tail2 & E & Hsp2 & _ & -> & [Hwd2 _] & Hsp2').
  apply app_inv_head in E. rewrite !append_assoc in E.
  assert (Hstop : forall x, stops JS.isWhiteSpace (pre ++ x)).
  { intros x. destruct pre as [|a pre]; [now destruct Hne | exact Hpre]. }
  apply run_unique with (f := JS.isWhiteSpace) in E as [_ E];
    try assumption; try apply Hstop.
  apply app_inv_head in E.
  assert (Hstop' : forall s t, allChars JS.isWhiteSpace s = true ->
                               stops JS.isWordChar (s ++ "(" ++ t)).
  { intros [|a s] t Hs; [reflexivity|]. cbn [allChars] in Hs.
    apply andb_true_iff in Hs as [Ha _]. cbn [append stops].
    revert Ha. unfold JS.isWhiteSpace, JS.isWordChar.
    destruct a as [[] [] [] [] [] [] [] []]; vm_compute; congruence. }
  apply run_unique with (f := JS.isWordChar) in E as [<- _];
    try assumption; try now apply Hstop'.
  reflexivity.
Qed.

(** What [captured] returns on a line, for a pattern of this shape. *)
Lemma captured_header (kw pre l nm : string) :
  stops JS.isWhiteSpace pre -> pre <> "" ->
  Parsing.captured (headerPattern kw pre) 1 l = Some nm
  <-> headerLine kw pre l nm.
Proof.
  intros Hpre Hne.
  assert (Hsound : forall nm0,
            Parsing.captured (headerPattern kw pre) 1 l = Some nm0 ->
            headerLine kw pre l nm0).
  { intros nm0 H. unfold Parsing.captured in H.
    destruct (exec false _ l) as [mt|] eqn:He; [|discriminate].
    destruct (group 1 mt) as [x|] eqn:Hg; [|discriminate].
    destruct (JS.truthy x); [|discriminate]. injection H as ->.
    apply exec_sound in He as (u & w & v' & -> & Hm & _).
    apply header_sound in Hm as (-> & nm1 & Hc & Hl).
    unfold group in Hg. rewrite Hc in Hg. now injection Hg as <-. }
  split; [apply Hsound|]. intros H.
  destruct (header_complete kw pre l nm H) as (p' & c' & Hm).
  apply (exec_complete false _ "" l) in Hm. cbn [append] in Hm.
  destruct (Parsing.captured (headerPattern kw pre) 1 l) as [nm0|] eqn:Hc.
  - f_equal. apply (headerLine_unique kw pre l); auto.
  - exfalso. unfold Parsing.captured in Hc.
    destruct (exec false _ l) as [mt|] eqn:He; [|now apply Hm].
    apply exec_sound in He as (u & w & v' & -> & Hm' & _).
    apply header_sound in Hm' as (-> & nm1 & Hc1 & Hl).
    unfold group in Hc. rewrite Hc1 in Hc.
    destruct Hl as (sp & wd & _ & _ & _ & _ & _ & -> & _).
    destruct pre; [now destruct Hne | discriminate].
Qed.

(** The tests of [parseLines]: one for each line on which the pattern
    captures a name, with the number of that line. *)
Lemma parseLines_In (pattern : re) (k : nat) (prepare : string -> string)
  (ls : list string) :
  forall i t,
    In t (Parsing.parseLines pattern k prepare ls i)
    <-> exists j l nm,
          nth_error ls j = Some l
          /\ Parsing.captured pattern k (prepare l) = Some nm
          /\ t = mkParsed (Some nm) (i + j + 1).
Proof.
  induction ls as [|l ls IH]; intros i t; cbn [Parsing.parseLines].
  - split; [intros [] | intros (j & l & nm & H & _)]. now destruct j.
  - assert (Hrest : In t (Parsing.parseLines pattern k prepare ls (S i))
                    <-> exists j l' nm,
                          nth_error (l :: ls) (S j) = Some l'
                          /\ Parsing.captured pattern k (prepare l') = Some nm
                          /\ t = mkParsed (Some nm) (i + S j + 1)).
    { rewrite IH. split; intros (j & l' & nm & H1 & H2 & ->);
        exists j, l', nm; repeat split; try assumption; f_equal; lia. }
    destruct (Parsing.captured pattern k (prepare l)) as [nm|] eqn:Hc.
    + cbn [In]. rewrite Hrest. split.
      * intros [<-|(j & l' & nm' & H)].
        -- exists 0, l, nm. repeat split; [exact Hc | f_equal; lia].
        -- now exists (S j), l', nm'.
      * intros ([|j] & l' & nm' & H1 & H2 & ->).
        -- left. injection H1 as <-. rewrite Hc in H2. injection H2 as <-.
           f_equal. lia.
        -- right. now exists j, l', nm'.
    + rewrite Hrest. split.
      * intros (j & l' & nm' & H). now exists (S j), l', nm'.
      * intros ([|j] & l' & nm' & H1 & H2 & ->).
        -- injection H1 as <-. congruence.
        -- now exists j, l', nm'.
Qed.

End TestParsers.

(** X12: [parsePytestTests] reports a test named [nm] at line [n] exactly
    when line [n] of the content, trimmed, reads [def], white space, [nm],
    optional white space and an opening parenthesis, where [nm] is [test_]
    followed by at least one word character; [parseGoTests] does the same
    for [func] and names that are [Test] followed by at least one word
    character. *)
Theorem pytest_and_go_tests (content nm : string) (n : nat) :
  (In (mkParsed (Some nm) n) (Parsing.parsePytestTests content)
   <-> exists j l, n = j + 1
                   /\ nth_error (JS.split "010"%char content) j = Some l
                   /\ headerLine "def" "test_" (JS.trim l) nm)
  /\ (In (mkParsed (Some nm) n) (Parsing.parseGoTests content)
      <-> exists j l, n = j + 1
                      /\ nth_error (JS.split "010"%char content) j = Some l
                      /\ headerLine "func" "Test" (JS.trim l) nm).
Proof.
  unfold Parsing.parsePytestTests, Parsing.parseGoTests.
  change Parsing.pytestPattern with (headerPattern "def" "test_").
  change Parsing.goPattern with (headerPattern "func" "Test").
  split; rewrite parseLines_In; split.
  - intros (j & l & nm' & H1 & H2 & [= -> ->]). exists j, l.
    repeat split; [exact H1|]. now apply captured_header in H2.
  - intros (j & l & -> & H1 & H2). exists j, l, nm.
    repeat split; [exact H1|]. now apply captured_header.
  - intros (j & l & nm' & H1 & H2 & [= -> ->]). exists j, l.
    repeat split; [exact H1|]. now apply captured_header in H2.
  - intros (j & l & -> & H1 & H2). exists j, l, nm.
    repeat split; [exact H1|]. now apply captured_header.
Qed.

Section RustTests.
Import Regex RegexFacts RegexShapes.

(** The line is [fn], optionally after [async] and white space, then white
    space, the name, optional white space and an opening parenthesis. *)
Definition fnLine (l nm : string) : Prop :=
  exists pre sp sp' tail,
    l = pre ++ "fn" ++ sp ++ nm ++ sp' ++ "(" ++ tail
    /\ (pre = ""
        \/ exists sp0, pre = "async" ++ sp0
                       /\ allChars JS.isWhiteSpace sp0 = true /\ sp0 <> "")
    /\ allChars JS.isWhiteSpace sp = true /\ sp <> ""
    /\ isWord nm
    /\ allChars JS.isWhiteSpace sp' = true.

Lemma fn_sound (u v : string) (p' : pos) (c' : caps) :
  matches false Parsing.rustFnPattern (posOf u v) [] p' c' ->
  u = "" /\ exists nm, capture 1 c' = Some nm /\ fnLine v nm.
Proof.
  unfold Parsing.rustFnPattern. cbn [seq]. cbn [matches].
  intros (p0 & c0 & (Hbol & -> & ->) & p1 & c1 & Hopt & p2 & c2 & Hfn
          & p3 & c3 & Hsp & p4 & c4 & (c5 & Hwd & ->) & p6 & c6 & Hsp'
          & Hparen).
  apply atBol_posOf in Hbol. split; [exact Hbol|].
  assert (Hpre : exists pre v0,
             v = pre ++ v0 /\ p1 = posOf (u ++ pre) v0 /\ c1 = []
             /\ (pre = ""
                 \/ exists sp0, pre = "async" ++ sp0
                      /\ allChars JS.isWhiteSpace sp0 = true /\ sp0 <> "")).
  { destruct Hopt as [(q & d & Ha & Hs)|[-> ->]].
    - apply (matches_lit false) in Ha as (v1 & -> & -> & ->).
      apply (matches_plus false) in Hs as (sp0 & v2 & -> & H1 & H2 & -> & ->).
      exists ("async" ++ sp0), v2. rewrite !append_assoc.
      repeat split. right. now exists sp0.
    - exists "", v. rewrite append_nil_r. repeat split. now left. }
  destruct Hpre as (pre & v0 & -> & -> & -> & Hpre).
  apply (matches_lit false) in Hfn as (v1 & -> & -> & ->).
  apply (matches_plus false) in Hsp as (sp & v2 & -> & Hsp1 & Hsp2 & -> & ->).
  apply (matches_plus false) in Hwd as (wd & v4 & -> & Hwd1 & Hwd2 & -> & ->).
  apply (matches_run false true) in Hsp'
    as (sp' & v5 & -> & Hsp' & -> & ->).
  apply (matches_chr false) in Hparen as (tail & -> & -> & ->).
  exists wd. split.
  - cbn [capture Nat.eqb]. f_equal. apply take_span.
  - exists pre, sp, sp', tail. repeat split; assumption.
Qed.

Lemma fn_complete (l nm : string) :
  fnLine l nm ->
  exists p' c', matches false Parsing.rustFnPattern (posOf "" l) [] p' c'.
Proof.
  intros (pre & sp & sp' & tail & -> & Hpre & Hsp1 & Hsp2 & [Hwd1 Hwd2]
          & Hsp').
  unfold Parsing.rustFnPattern. cbn [seq]. cbn [matches]. do 2 eexists.
  exists (posOf "" (pre ++ "fn" ++ sp ++ nm ++ sp' ++ "(" ++ tail)), [].
  split; [repeat split; now apply atBol_posOf|].
  exists (posOf ("" ++ pre) ("fn" ++ sp ++ nm ++ sp' ++ "(" ++ tail)), [].
  split.
  { destruct Hpre as [->|(sp0 & -> & H1 & H2)]; [now right | left].
    do 2 eexists. split.
    - apply (matches_lit false). eexists. rewrite append_assoc.
      repeat split.
    - apply (matches_plus false). exists sp0. eexists.
      rewrite !append_assoc. now repeat split. }
  do 2 eexists. split.
  { apply (matches_lit false). eexists. repeat split. }
  do 2 eexists. split.
  { apply (matches_plus false). exists sp. eexists. now repeat split. }
  do 2 eexists. split.
  { eexists. split; [|reflexivity].
    apply (matches_plus false). exists nm. eexists. now repeat split. }
  do 2 eexists. split.
  { apply (matches_run false true). exists sp'. eexists. now repeat split. }
  apply (matches_chr false). exists tail. repeat split.
Qed.

Lemma word_not_space (a : ascii) :
  JS.isWordChar a = true -> JS.isWhiteSpace a = false.
Proof.
  unfold JS.isWhiteSpace, JS.isWordChar.
  destruct a as [[] [] [] [] [] [] [] []]; vm_compute; congruence.
Qed.

Lemma space_not_word (a : ascii) :
  JS.isWhiteSpace a = true -> JS.isWordChar a = false.
Proof.
  intros H. destruct (JS.isWordChar a) eqn:Hw; [|reflexivity].
  apply word_not_space in Hw. congruence.
Qed.

Lemma name_then_paren (nm sp' tail nm2 sp2' tail2 : string) :
  isWord nm -> isWord nm2 ->
  allChars JS.isWhiteSpace sp' = true ->
  allChars JS.isWhiteSpace sp2' = true ->
  nm ++ sp' ++ "(" ++ tail = nm2 ++ sp2' ++ "(" ++ tail2 -> nm = nm2.
Proof.
  intros [H1 _] [H2 _] Hs Hs2 E.
  assert (Hstop : forall s t, allChars JS.isWhiteSpace s = true ->
                              stops JS.isWordChar (s ++ "(" ++ t)).
  { intros [|a s] t Ha; [reflexivity|]. cbn [allChars] in Ha.
    apply andb_true_iff in Ha as [Ha _]. now apply space_not_word. }
  apply run_unique with (f := JS.isWordChar) in E as [E _];
    try assumption; now apply Hstop.
Qed.

Lemma spaces_then_name (sp nm x sp2 nm2 y : string) :
  isWord nm -> isWord nm2 ->
  allChars JS.isWhiteSpace sp = true ->
  allChars JS.isWhiteSpace sp2 = true ->
  sp ++ nm ++ x = sp2 ++ nm2 ++ y -> nm ++ x = nm2 ++ y.
Proof.
  intros [H1 N1] [H2 N2] Hs Hs2 E.
  assert (Hstop : forall n t, allChars JS.isWordChar n = true -> n <> "" ->
                              stops JS.isWhiteSpace (n ++ t)).
  { intros [|a n] t Ha Hn; [now destruct Hn|]. cbn [allChars] in Ha.
    apply andb_true_iff in Ha as [Ha _]. now apply word_not_space. }
  apply run_unique with (f := JS.isWhiteSpace) in E as [_ E];
    try assumption; now apply Hstop.
Qed.

Lemma fnLine_unique (l nm nm' : string) :
  fnLine l nm -> fnLine l nm' -> nm = nm'.
Proof.
  intros (pre & sp & sp' & tail & -> & Hpre & Hsp & _ & Hnm & Hsp')
         (pre2 & sp2 & sp2' & tail2 & E & Hpre2 & Hsp2 & _ & Hnm2 & Hsp2').
  assert (Hfn : "fn" ++ sp ++ nm ++ sp' ++ "(" ++ tail
                = "fn" ++ sp2 ++ nm' ++ sp2' ++ "(" ++ tail2).
  { destruct Hpre as [->|(sp0 & -> & H0 & _)];
      destruct Hpre2 as [->|(sp02 & -> & H02 & _)].
    - exact E.
    - discriminate.
    - discriminate.
    - rewrite !append_assoc in E. apply (app_inv_head "async") in E.
      apply run_unique with (f := JS.isWhiteSpace) in E as [_ E];
        try assumption; reflexivity. }
  apply (app_inv_head "fn") in Hfn.
  apply spaces_then_name in Hfn; try assumption.
  now apply name_then_paren in Hfn.
Qed.

Lemma captured_fn (l nm : string) :
  Parsing.captured Parsing.rustFnPattern 1 l = Some nm <-> fnLine l nm.
Proof.
  assert (Hsound : forall nm0,
            Parsing.captured Parsing.rustFnPattern 1 l = Some nm0 ->
            fnLine l nm0).
  { intros nm0 H. unfold Parsing.captured in H.
    destruct (exec false _ l) as [mt|] eqn:He; [|discriminate].
    destruct (group 1 mt) as [x|] eqn:Hg; [|discriminate].
    destruct (JS.truthy x); [|discriminate]. injection H as ->.
    apply exec_sound in He as (u & w & v' & -> & Hm & _).
    apply fn_sound in Hm as (-> & nm1 & Hc & Hl).
    unfold group in Hg. rewrite Hc in Hg. now injection Hg as <-. }
  split; [apply Hsound|]. intros H.
  destruct (fn_complete l nm H) as (p' & c' & Hm).
  apply (exec_complete false _ "" l) in Hm. cbn [append] in Hm.
  destruct (Parsing.captured Parsing.rustFnPattern 1 l) as [nm0|] eqn:Hc.
  - f_equal. apply (fnLine_unique l); auto.
  - exfalso. unfold Parsing.captured in Hc.
    destruct (exec false _ l) as [mt|] eqn:He; [|now apply Hm].
    apply exec_sound in He as (u & w & v' & -> & Hm' & _).
    apply fn_sound in Hm' as (-> & nm1 & Hc1 & Hl).
    unfold group in Hc. rewrite Hc1 in Hc.
    destruct Hl as (_ & _ & _ & _ & _ & _ & _ & _ & [_ Hne] & _).
    destruct nm1; [now destruct Hne | discriminate].
Qed.

(** The line starts with the attribute. *)
Definition isTestAttr (raw : string) : bool :=
  JS.startsWith (JS.trim raw) "#[test]".

Lemma attr_test (l : string) :
  String.eqb l "#[test]" || JS.startsWith l "#[test]"
  = JS.startsWith l "#[test]".
Proof.
  destruct (String.eqb_spec l "#[test]") as [->|]; reflexivity.
Qed.

Lemma rustLines_In (t : ParsedTest) (ls : list string) :
  forall i e a,
    In t (Parsing.rustLines ls i e a)
    <-> (e = true
         /\ exists l nm, nth_error ls 0 = Some l /\ isTestAttr l = false
                         /\ fnLine (JS.trim l) nm
                         /\ t = mkParsed (Some nm) a)
        \/ (exists j x l nm,
              nth_error ls j = Some x /\ isTestAttr x = true
              /\ nth_error ls (S j) = Some l /\ isTestAttr l = false
              /\ fnLine (JS.trim l) nm
              /\ t = mkParsed (Some nm) (i + j + 1)).
Proof.
  induction ls as [|raw ls IH]; intros i e a; cbn [Parsing.rustLines].
  - split; [intros [] |].
    intros [(_ & l & nm & H & _)|(j & x & l & nm & H & _)];
      [discriminate | now destruct j].
  - rewrite attr_test. fold (isTestAttr raw).
    assert (Hlater :
              (exists j x l nm,
                 nth_error (raw :: ls) j = Some x /\ isTestAttr x = true
                 /\ nth_error (raw :: ls) (S j) = Some l
                 /\ isTestAttr l = false /\ fnLine (JS.trim l) nm
                 /\ t = mkParsed (Some nm) (i + j + 1))
              <-> (isTestAttr raw = true
                   /\ exists l nm, nth_error ls 0 = Some l
                        /\ isTestAttr l = false /\ fnLine (JS.trim l) nm
                        /\ t = mkParsed (Some nm) (i + 1))
                  \/ (exists j x l nm,
                        nth_error ls j = Some x /\ isTestAttr x = true
                        /\ nth_error ls (S j) = Some l
                        /\ isTestAttr l = false /\ fnLine (JS.trim l) nm
                        /\ t = mkParsed (Some nm) (S i + j + 1))).
    { split.
      - intros ([|j] & x & l & nm & H1 & H2 & H3 & H4 & H5 & ->).
        + left. injection H1 as <-. split; [exact H2|].
          exists l, nm. repeat split; try assumption. f_equal. lia.
        + right. exists j, x, l, nm. repeat split; try assumption.
          f_equal. lia.
      - intros [(H2 & l & nm & H3 & H4 & H5 & ->)
               |(j & x & l & nm & H1 & H2 & H3 & H4 & H5 & ->)].
        + exists 0, raw, l, nm. repeat split; try assumption. f_equal. lia.
        + exists (S j), x, l, nm. repeat split; try assumption.
          f_equal. lia. }
    rewrite Hlater.
    destruct (isTestAttr raw) eqn:Hattr.
    + rewrite IH. split.
      * intros [(_ & H)|H]; right; [left | right]; auto.
      * intros [(_ & l & nm & [= <-] & H & _)|[(_ & H)|H]];
          [congruence | left | right]; auto.
    + destruct e.
      * destruct (Parsing.captured Parsing.rustFnPattern 1 (JS.trim raw))
          as [nm|] eqn:Hc.
        -- cbn [In]. rewrite IH. split.
           ++ intros [<-|[(He & _)|H]]; [left | discriminate | right; now right].
              split; [reflexivity|]. exists raw, nm.
              repeat split; [exact Hattr | now apply captured_fn].
           ++ intros [(_ & l & nm' & [= <-] & _ & Hf & ->)
                     |[(He & _)|H]]; [left | discriminate | right; now right].
              apply captured_fn in Hf. congruence.
        -- rewrite IH. split.
           ++ intros [(He & _)|H]; [discriminate | right; now right].
           ++ intros [(_ & l & nm' & [= <-] & _ & Hf & ->)
                     |[(He & _)|H]]; [| discriminate | now right].
              apply captured_fn in Hf. congruence.
      * rewrite IH. split.
        -- intros [(He & _)|H]; [discriminate | right; now right].
        -- intros [(He & _)|[(He & _)|H]]; try discriminate. now right.
Qed.

End RustTests.

(** X13: [parseRustTests] reports a test named [nm] at line [n] exactly when
    line [n], trimmed, starts with [#[test]] and the next line, trimmed,
    does not and reads [fn] (optionally after [async] and white space),
    white space, the name [nm] (word characters), optional white space and
    an opening parenthesis. The line reported is the line of the attribute;
    a function separated from its [#[test]] by any other line, another
    attribute say, is not reported. *)
Theorem rust_tests (content nm : string) (n : nat) :
  In (mkParsed (Some nm) n) (Parsing.parseRustTests content)
  <-> exists j x l,
        n = j + 1
        /\ nth_error (JS.split "010"%char content) j = Some x
        /\ isTestAttr x = true
        /\ nth_error (JS.split "010"%char content) (S j) = Some l
        /\ isTestAttr l = false
        /\ fnLine (JS.trim l) nm.
Proof.
  unfold Parsing.parseRustTests. rewrite rustLines_In. split.
  - intros [(He & _)|(j & x & l & nm' & H1 & H2 & H3 & H4 & H5 & [= -> ->])];
      [discriminate|].
    now exists j, x, l.
  - intros (j & x & l & -> & H1 & H2 & H3 & H4 & H5). right.
    now exists j, x, l, nm.
Qed.

Lemma parseLines_lines (pattern : Regex.re) (k : nat)
  (prepare : string -> string) (ls : list string) :
  forall i,
    StronglySorted lt (map pt_line (Parsing.parseLines pattern k prepare ls i))
    /\ Forall (fun t => i < pt_line t <= i + List.length ls)
         (Parsing.parseLines pattern k prepare ls i).
Proof.
  induction ls as [|l ls IH]; intros i; cbn [Parsing.parseLines].
  - split; constructor.
  - destruct (IH (S i)) as [Hs Hb].
    assert (Hb' : Forall (fun t => i < pt_line t <= i + List.length (l :: ls))
                    (Parsing.parseLines pattern k prepare ls (S i))).
    { revert Hb. apply Forall_impl. intros t. cbn [List.length]. lia. }
    destruct (Parsing.captured pattern k (prepare l)) as [nm|].
    + split.
      * cbn [map pt_line]. constructor; [exact Hs|]. rewrite Forall_map.
        revert Hb. apply Forall_impl. intros t. lia.
      * constructor; [cbn [pt_line List.length]; lia | exact Hb'].
    + now split.
Qed.

Lemma rustLines_lines (ls : list string) :
  forall i e a,
    a <= i ->
    StronglySorted lt (map pt_line (Parsing.rustLines ls i e a))
    /\ Forall (fun t => (if e then a else S i) <= pt_line t
                        /\ pt_line t <= i + List.length ls)
         (Parsing.rustLines ls i e a).
Proof.
  induction ls as [|raw ls IH]; intros i e a Ha; cbn [Parsing.rustLines].
  - split; constructor.
  - destruct (_ || _).
    + destruct (IH (S i) true (i + 1)) as [Hs Hb]; [lia|].
      split; [exact Hs|]. revert Hb. apply Forall_impl. intros t.
      cbn [List.length]. destruct e; lia.
    + destruct e.
      * destruct (IH (S i) false a) as [Hs Hb]; [lia|].
        assert (Hb' : Forall (fun t => a <= pt_line t
                                 /\ pt_line t <= i + List.length (raw :: ls))
                        (Parsing.rustLines ls (S i) false a)).
        { revert Hb. apply Forall_impl. intros t. cbn [List.length]. lia. }
        destruct (Parsing.captured _ 1 _) as [nm|]; [|now split].
        split.
        -- cbn [map pt_line]. constructor; [exact Hs|]. rewrite Forall_map.
           revert Hb. apply Forall_impl. intros t. lia.
        -- constructor; [cbn [pt_line List.length]; lia | exact Hb'].
      * destruct (IH (S i) false a) as [Hs Hb]; [lia|].
        split; [exact Hs|]. revert Hb. apply Forall_impl. intros t.
        cbn [List.length]. lia.
Qed.

(** X14: For every framework and content, the tests that [parseTestNames]
    reports have strictly increasing line numbers, each between 1 and the
    number of lines of the content: the tests come in file order and no
    line yields more than one test (of two [it(...)] calls on one line the
    parser reports one). *)
Theorem parseTestNames_lines (content : string) (framework : Framework) :
  StronglySorted lt (map pt_line (parseTestNames content framework))
  /\ Forall (fun t => 1 <= pt_line t
                      <= List.length (JS.split "010"%char content))
       (parseTestNames content framework).
Proof.
  assert (Hlines : forall pattern k prepare,
            StronglySorted lt
              (map pt_line
                 (Parsing.parseLines pattern k prepare
                    (JS.split "010"%char content) 0))
            /\ Forall (fun t => 1 <= pt_line t
                                <= List.length (JS.split "010"%char content))
                 (Parsing.parseLines pattern k prepare
                    (JS.split "010"%char content) 0)).
  { intros pattern k prepare.
    destruct (parseLines_lines pattern k prepare
                (JS.split "010"%char content) 0) as [Hs Hb].
    split; [exact Hs|]. revert Hb. apply Forall_impl. intros t. lia. }
  destruct framework; cbn [parseTestNames]; try apply Hlines.
  - unfold Parsing.parseRustTests.
    destruct (rustLines_lines (JS.split "010"%char content) 0 false 0)
      as [Hs Hb]; [lia|].
    split; [exact Hs|]. revert Hb. apply Forall_impl. intros t. lia.
  - split; constructor.
Qed.

(* ------------------------------------------------------------------ *)
(** ** Tiers, tags and packages of tests ([tests/ids.ts]) *)

(** X15: A test is put in the integration tier exactly when
    [extractTestTags] gives it the tag [integration] or the tag [e2e]: the
    two functions look for the same two words in the same lower-cased path
    and name. *)
Theorem integration_tier_iff_tagged (filePath : string)
  (testName : option string) :
  determineTestTier filePath testName = Integration
  <-> In "integration" (extractTestTags filePath testName)
      \/ In "e2e" (extractTestTags filePath testName).
Proof.
  unfold determineTestTier, extractTestTags. cbv zeta.
  set (lp := JS.toLowerCase filePath). set (ln := lowerNameOf testName).
  rewrite !filter_In.
  destruct (JS.includes lp "integration") eqn:H1;
    destruct (JS.includes lp "e2e") eqn:H2;
    destruct (JS.includes ln "integration") eqn:H3;
    destruct (JS.includes ln "e2e") eqn:H4; cbn [orb];
    try (split; [intros _ | reflexivity];
         first [ left; split; [cbn; tauto | reflexivity]
               | right; split; [cbn; tauto | reflexivity] ]).
  split.
  - destruct (_ || _); discriminate.
  - intros [[_ H]|[_ H]]; discriminate.
Qed.

(** The first loop of [extractTestPackage] returns only behind a
    [node_modules] segment. *)
Lemma packageScan_none (todo : list string) :
  forall before,
    before <> Some "node_modules" ->
    ~ In "node_modules" (removelast todo) ->
    packageScan before todo = None.
Proof.
  induction todo as [|part todo IH]; intros before Hb Hn; [reflexivity|].
  destruct todo as [|next todo']; [reflexivity|].
  assert (Hpart : part <> "node_modules").
  { intros ->. apply Hn. now left. }
  assert (Hrest : packageScan (Some part) (next :: todo') = None).
  { apply IH; [congruence|]. intros Hin. apply Hn. now right. }
  change (packageScan before (part :: next :: todo'))
    with (if JS.arrayIncludes ["__tests__"; "tests"; "test"; "spec"; "specs"]
               part
          then packageScan (Some part) (next :: todo')
          else if JS.arrayIncludes ["src"; "lib"; "pkg"; "internal"; "cmd"]
                    part
          then packageScan (Some part) (next :: todo')
          else match before with
               | Some b =>
                   if String.eqb b "node_modules"
                   then if JS.startsWith part "@"
                        then Some (part ++ "/" ++ next) else Some part
                   else packageScan (Some part) (next :: todo')
               | None => packageScan (Some part) (next :: todo')
               end).
  rewrite Hrest. destruct (JS.arrayIncludes _ part); [reflexivity|].
  destruct (JS.arrayIncludes _ part); [reflexivity|].
  destruct before as [b|]; [|reflexivity].
  destruct (String.eqb_spec b "node_modules"); [congruence | reflexivity].
Qed.

(** X16: For a path none of whose directories is [node_modules], the package
    of a test file is the first segment of the path that is not [src],
    [__tests__], [tests] or [test] and contains no dot, and there is no
    package when every segment is one of these or contains a dot. The
    segments [lib], [pkg], [internal], [cmd], [spec] and [specs], which the
    first loop skips, do count here, and so does the empty segment before
    the leading slash of an absolute path. *)
Theorem extractTestPackage_without_node_modules (filePath : string) :
  ~ In "node_modules" (removelast (JS.split "/"%char filePath)) ->
  extractTestPackage filePath
  = find (fun part =>
            negb (JS.arrayIncludes ["src"; "__tests__"; "tests"; "test"] part)
            && negb (JS.includes part "."))
      (JS.split "/"%char filePath).
Proof.
  intros H. unfold extractTestPackage. cbv zeta.
  now rewrite packageScan_none.
Qed.

Lemma extractTestPackage_without_node_modules_witness :
  extractTestPackage "lib/parser/parser.test.ts" = Some "lib"
  /\ extractTestPackage "/repo/src/a_test.go" = Some ""
  /\ extractTestPackage "src/tests/a.test.ts" = None.
Proof.
  split; [|split].
  - rewrite (extractTestPackage_without_node_modules
               "lib/parser/parser.test.ts"); [reflexivity|].
    vm_compute. intuition discriminate.
  - rewrite (extractTestPackage_without_node_modules "/repo/src/a_test.go");
      [reflexivity|].
    vm_compute. intuition discriminate.
  - rewrite (extractTestPackage_without_node_modules "src/tests/a.test.ts");
      [reflexivity|].
    vm_compute. intuition discriminate.
Defined.

(* ------------------------------------------------------------------ *)
(** ** The entries of the test map ([test-map.ts]) *)

(** An entry as [buildTestEntries] makes it for a test file: tags, tier and
    package come from the path of the file and the name of the entry; the
    identifier is [<file>::<name>], or [<file>::unnamed_test:1] for the
    single entry of a file in which no test was parsed. *)
Definition entryOfFile (f : DiscoveredFile) (e : TestEntry) : Prop :=
  t_file e = path f
  /\ t_tags e = extractTestTags (path f) (t_name e)
  /\ tier e = determineTestTier (path f) (t_name e)
  /\ files_touched e = []
  /\ packages e = match extractTestPackage (path f) with
                  | Some p => if JS.truthy p then [p] else []
                  | None => []
                  end
  /\ test_id e = match t_name e with
                 | Some nm => path f ++ "::" ++ nm
                 | None => path f ++ "::unnamed_test:1"
                 end.

Lemma packages_of (pkg : option string) :
  (if JS.truthyOpt pkg then match pkg with Some p => [p] | None => [] end
   else [])
  = match pkg with
    | Some p => if JS.truthy p then [p] else []
    | None => []
    end.
Proof. now destruct pkg. Qed.

Lemma entriesOf_spec (f : DiscoveredFile) (parsed : list ParsedTest) :
  Forall named parsed ->
  forall counter,
    map t_name (entriesOf (path f) (extractTestPackage (path f)) parsed
                  counter)
    = map pt_name parsed
    /\ Forall (entryOfFile f)
         (entriesOf (path f) (extractTestPackage (path f)) parsed counter).
Proof.
  induction 1 as [|t parsed Ht _ IH]; intros counter; cbn [entriesOf map].
  - split; constructor.
  - destruct (IH (if negb (JS.truthyOpt (pt_name t)) then S counter
                  else counter)) as [Hn Hf].
    split; [cbn [t_name]; now f_equal|]. constructor; [|exact Hf].
    unfold entryOfFile. cbn [t_file t_tags tier files_touched packages
                               test_id t_name].
    rewrite packages_of. repeat split. unfold generateTestId.
    destruct Ht as (nm & Hnm & Htr). rewrite Hnm. cbn [JS.truthyOpt].
    now rewrite Htr.
Qed.

(** X17: The test map has, for each discovered test file in discovery order,
    one entry per test that the parser of its framework reports, with the
    names in the order of the parser, or a single entry without name when
    the parser reports none (an unreadable file, an unknown framework, no
    match). Every entry belongs to a discovered file that [isTestFile]
    accepts, and its tags, tier, package and identifier are those of its own
    file and name ([entryOfFile]); [files_touched] and [coverage_edges] are
    empty. *)
Theorem buildTestMap_entries (fs : FileSystem) (fls : list DiscoveredFile) :
  let parsedOf (f : DiscoveredFile) :=
    parseTestsFromFile fs (path f) (absolutePath f)
      (detectTestFramework (path f)) in
  map (fun e => (t_file e, t_name e)) (tests (buildTestMap fs fls))
  = flat_map (fun f => match parsedOf f with
                       | [] => [(path f, None)]
                       | parsed => map (fun t => (path f, pt_name t)) parsed
                       end)
      (filter (fun f => Detection.isTestFile (path f)) fls)
  /\ Forall (fun e => exists f, In f fls
                                /\ Detection.isTestFile (path f) = true
                                /\ entryOfFile f e)
       (tests (buildTestMap fs fls))
  /\ coverage_edges (buildTestMap fs fls) = [].
Proof.
  cbv zeta. unfold buildTestMap, Detection.findTestFiles.
  cbn [tests coverage_edges].
  assert (Hfile : forall f,
            map (fun e => (t_file e, t_name e)) (entriesOfFile fs f)
            = match parseTestsFromFile fs (path f) (absolutePath f)
                      (detectTestFramework (path f)) with
              | [] => [(path f, None)]
              | parsed => map (fun t => (path f, pt_name t)) parsed
              end
            /\ Forall (entryOfFile f) (entriesOfFile fs f)).
  { intros f. unfold entriesOfFile. cbv zeta.
    pose proof (parseTestsFromFile_named fs (path f) (absolutePath f)
                  (detectTestFramework (path f))) as Hnamed.
    destruct (parseTestsFromFile fs (path f) (absolutePath f) _)
      as [|t parsed] eqn:Hp.
    - cbn [List.length Nat.eqb map t_file t_name]. split; [reflexivity|].
      constructor; [|constructor]. unfold entryOfFile.
      cbn [t_file t_tags tier files_touched packages test_id t_name].
      rewrite packages_of. repeat split.
    - cbn [List.length Nat.eqb].
      destruct (entriesOf_spec f (t :: parsed) Hnamed 0) as [Hn Hf].
      split; [|exact Hf]. rewrite Forall_forall in Hf.
      set (es := entriesOf _ _ _ 0) in *. clearbody es. clear Hp.
      revert Hn Hf. generalize (t :: parsed). clear.
      intros l; revert l.
      induction es as [|e es IH]; intros [|t l] Hn Hf; try discriminate;
        [reflexivity|].
      cbn [map] in *. injection Hn as Hn1 Hn2. f_equal.
      + destruct (Hf e (or_introl eq_refl)) as [-> _]. now rewrite Hn1.
      + apply IH; [exact Hn2 | intros x Hx; apply Hf; now right]. }
  split; [|split; [|reflexivity]].
  - unfold buildTestEntries.
    induction (filter _ fls) as [|f l IH]; [reflexivity|].
    cbn [flat_map]. rewrite map_app, IH. f_equal. apply Hfile.
  - unfold buildTestEntries. apply Forall_forall. intros e He.
    apply in_flat_map in He as (f & Hf & He).
    apply filter_In in Hf as [Hin Htest]. exists f.
    split; [exact Hin|]. split; [exact Htest|].
    destruct (Hfile f) as [_ Hall]. rewrite Forall_forall in Hall.
    now apply Hall.
Qed.

(* ------------------------------------------------------------------ *)
(** ** Building a match *)

Module RegexSpans.
Import Regex RegexFacts RegexShapes.

Section Spans.
Variable ml : bool.

(** After [u], the expression can match [w], with [v] left. *)
Definition spans (r : re) (u w v : string) (c c' : caps) : Prop :=
  matches ml r (posOf u (w ++ v)) c (posOf (u ++ w) v) c'.

Lemma spans_Eps (u v : string) (c : caps) : spans Eps u "" v c c.
Proof. unfold spans. cbn [matches append]. now rewrite append_nil_r. Qed.

Lemma spans_lit (s u v : string) (c : caps) : spans (lit s) u s v c c.
Proof. apply matches_lit. now exists v. Qed.

Lemma spans_chr (a : ascii) (u v : string) (c : caps) :
  spans (chr a) u (String a "") v c c.
Proof. apply (spans_lit (String a "")). Qed.

Lemma spans_Chr (f : ascii -> bool) (a : ascii) (u v : string) (c : caps) :
  f a = true -> spans (Chr f) u (String a "") v c c.
Proof. intros H. apply matches_Chr. now exists a, v. Qed.

Lemma spans_run (g : bool) (f : ascii -> bool) (w u v : string) (c : caps) :
  allChars f w = true -> spans (Star g (Chr f)) u w v c c.
Proof. intros H. apply matches_run. now exists w, v. Qed.

Lemma spans_plus (f : ascii -> bool) (w u v : string) (c : caps) :
  allChars f w = true -> w <> "" -> spans (plus (Chr f)) u w v c c.
Proof. intros H Hne. apply matches_plus. now exists w, v. Qed.

Lemma spans_Seq (a b : re) (u w1 w2 v : string) (c c1 c2 : caps) :
  spans a u w1 (w2 ++ v) c c1 ->
  spans b (u ++ w1) w2 v c1 c2 ->
  spans (Seq a b) u (w1 ++ w2) v c c2.
Proof.
  unfold spans. intros Ha Hb. cbn [matches].
  exists (posOf (u ++ w1) (w2 ++ v)), c1.
  rewrite !append_assoc. split; [exact Ha|].
  now rewrite <- (append_assoc u w1 w2).
Qed.

Lemma spans_Alt_l (a b : re) (u w v : string) (c c' : caps) :
  spans a u w v c c' -> spans (Alt a b) u w v c c'.
Proof. intros H. now left. Qed.

Lemma spans_Alt_r (a b : re) (u w v : string) (c c' : caps) :
  spans b u w v c c' -> spans (Alt a b) u w v c c'.
Proof. intros H. now right. Qed.

Lemma spans_opt_none (a : re) (u v : string) (c : caps) :
  spans (opt a) u "" v c c.
Proof. right. apply spans_Eps. Qed.

Lemma spans_Grp (n : nat) (a : re) (u w v : string) (c c' : caps) :
  spans a u w v c c' -> spans (Grp n a) u w v c ((n, w) :: c').
Proof.
  intros H. apply matches_Grp. exists w, v, c'. now repeat split.
Qed.

End Spans.

Lemma spans_Bol (v : string) (c : caps) : spans false Bol "" "" v c c.
Proof.
  unfold spans. cbn [matches append].
  split; [now apply atBol_posOf | now split].
Qed.

Lemma spans_Eol (u : string) (c : caps) : spans false Eol u "" "" c c.
Proof.
  unfold spans. cbn [matches append]. rewrite append_nil_r.
  split; [now apply atEol_posOf | now split].
Qed.

(** A match that [exec] cannot miss. *)
Lemma spans_exec (ml : bool) (r : re) (u w v : string) (c' : caps) :
  spans ml r u w v [] c' -> exec ml r (u ++ w ++ v) <> None.
Proof. apply exec_complete. Qed.

End RegexSpans.

(* ------------------------------------------------------------------ *)
(** ** Which files are test files ([tests/detection.ts]) *)

Section TestFiles.
Import Regex RegexFacts RegexShapes RegexSpans.

(** [pattern.test(s)] holds when the pattern matches somewhere in [s]. *)
Lemma test_iff (pattern : re) (s : string) :
  Detection.test pattern s = true
  <-> exists u v p' c',
        s = u ++ v /\ matches false pattern (posOf u v) [] p' c'.
Proof.
  unfold Detection.test. split.
  - destruct (exec false pattern s) as [mt|] eqn:He; [|discriminate].
    intros _. apply exec_sound in He as (u & w & v' & -> & Hm & _).
    now exists u, (w ++ v'), (posOf (u ++ w) v'), (groups mt).
  - intros (u & v & p' & c' & -> & Hm).
    apply exec_complete in Hm.
    now destruct (exec false pattern (u ++ v)).
Qed.

Lemma test_spans (pattern : re) (u w v : string) (c' : caps) :
  spans false pattern u w v [] c' ->
  Detection.test pattern (u ++ w ++ v) = true.
Proof.
  intros H. apply test_iff.
  now exists u, (w ++ v), (posOf (u ++ w) v), c'.
Qed.

Definition endsIn (s suffix : string) : Prop := exists a, s = a ++ suffix.

(** [/<suffix>$/] *)
Lemma test_suffix (suffix s : string) :
  Detection.test (seq [lit suffix; Eol]) s = true <-> endsIn s suffix.
Proof.
  split.
  - rewrite test_iff. cbn [seq matches].
    intros (u & v & p' & c' & -> & p1 & c1 & Hl & He & _).
    apply (matches_lit false) in Hl as (v' & -> & -> & ->).
    apply atEol_posOf in He as ->. exists u. now rewrite append_nil_r.
  - intros (a & ->).
    replace (a ++ suffix) with (a ++ (suffix ++ "") ++ "")
      by now rewrite !append_nil_r.
    apply (test_spans _ a (suffix ++ "") "" []).
    eapply spans_Seq; [apply spans_lit | apply spans_Eol].
Qed.

(** [/<stem>\.[jt]sx?$/] *)
Lemma test_jsExt (stem s : string) :
  Detection.test (seq (lit stem :: Detection.jsExt)) s = true
  <-> endsIn s (stem ++ ".js") \/ endsIn s (stem ++ ".jsx")
      \/ endsIn s (stem ++ ".ts") \/ endsIn s (stem ++ ".tsx").
Proof.
  unfold Detection.jsExt. cbn [seq]. split.
  - rewrite test_iff. cbn [matches].
    intros (u & v & p' & c' & -> & p1 & c1 & Hstem & p2 & c2 & Hdot
            & p3 & c3 & Hjt & p4 & c4 & Hs & p5 & c5 & Hx & He & _).
    apply (matches_lit false) in Hstem as (v1 & -> & -> & ->).
    apply (matches_chr false) in Hdot as (v2 & -> & -> & ->).
    change (exists a s', rest (posOf ((u ++ stem) ++ ".") v2) = String a s'
              /\ (Ascii.eqb a "j" || Ascii.eqb a "t")%char = true
              /\ p3 = mkPos (Some a) s'
                        (S (idx (posOf ((u ++ stem) ++ ".") v2)))
              /\ c3 = [])
      with (matches false
              (Chr (fun c => Ascii.eqb c "j"%char || Ascii.eqb c "t"%char))
              (posOf ((u ++ stem) ++ ".") v2) [] p3 c3) in Hjt.
    apply (matches_Chr false) in Hjt as (a & v3 & -> & Ha & -> & ->).
    apply (matches_chr false) in Hs as (v4 & -> & -> & ->).
    assert (Hend : v4 = "" \/ v4 = "x").
    { destruct Hx as [Hx|[-> ->]].
      - apply (matches_chr false) in Hx as (v5 & -> & -> & ->).
        apply atEol_posOf in He as ->. now right.
      - apply atEol_posOf in He as ->. now left. }
    apply orb_true_iff in Ha as [Ha|Ha]; apply Ascii.eqb_eq in Ha; subst a;
      destruct Hend as [->| ->];
      [left | right; left | right; right; left | right; right; right];
      exists u; reflexivity.
  - assert (Hgo : forall (a : ascii) (x : string),
              (Ascii.eqb a "j" || Ascii.eqb a "t")%char = true ->
              x = "" \/ x = "x" ->
              forall u,
                Detection.test
                  (Seq (lit stem)
                     (Seq (chr ".")
                        (Seq (Chr (fun c => Ascii.eqb c "j"%char
                                            || Ascii.eqb c "t"%char))
                           (Seq (chr "s") (Seq (opt (chr "x")) Eol)))))
                  (u ++ (stem ++ "." ++ String a "" ++ "s" ++ x ++ "") ++ "")
                = true).
    { intros a x Ha Hx u. eapply test_spans.
      eapply spans_Seq; [apply spans_lit|].
      eapply spans_Seq; [apply spans_chr|].
      eapply spans_Seq; [now apply spans_Chr|].
      eapply spans_Seq; [apply spans_chr|].
      eapply spans_Seq; [|apply spans_Eol].
      destruct Hx as [->| ->]; [apply spans_opt_none|].
      apply spans_Alt_l, spans_chr. }
    intros [(u & ->)|[(u & ->)|[(u & ->)|(u & ->)]]].
    + specialize (Hgo "j"%char "" eq_refl (or_introl eq_refl) u).
      cbn [append] in Hgo. now rewrite append_nil_r in Hgo.
    + specialize (Hgo "j"%char "x" eq_refl (or_intror eq_refl) u).
      cbn [append] in Hgo. now rewrite append_nil_r in Hgo.
    + specialize (Hgo "t"%char "" eq_refl (or_introl eq_refl) u).
      cbn [append] in Hgo. now rewrite append_nil_r in Hgo.
    + specialize (Hgo "t"%char "x" eq_refl (or_intror eq_refl) u).
      cbn [append] in Hgo. now rewrite append_nil_r in Hgo.
Qed.

Definition noLineTerminator (s : string) : Prop :=
  allChars (fun c => negb (JS.isLineTerminator c)) s = true.

(** [/test_.*\.py$/] *)
Lemma test_pyPrefix (s : string) :
  Detection.test (seq [lit "test_"; star dot; lit ".py"; Eol]) s = true
  <-> exists a mid, s = a ++ "test_" ++ mid ++ ".py" /\ noLineTerminator mid.
Proof.
  unfold star, dot. cbn [seq]. split.
  - rewrite test_iff.
    change (matches false (Seq (lit "test_") (Seq ?r (Seq (lit ".py") Eol))))
      with (fun p c p' c' =>
              exists p1 c1, matches false (lit "test_") p c p1 c1
              /\ exists p2 c2, matches false r p1 c1 p2 c2
              /\ exists p3 c3, matches false (lit ".py") p2 c2 p3 c3
              /\ atEol false p3 = true /\ p' = p3 /\ c' = c3).
    intros (u & v & p' & c' & -> & p1 & c1 & H1 & p2 & c2 & H2 & p3 & c3
            & H3 & He & _).
    apply (matches_lit false) in H1 as (v1 & -> & -> & ->).
    apply (matches_run false true) in H2 as (mid & v2 & -> & Hmid & -> & ->).
    apply (matches_lit false) in H3 as (v3 & -> & -> & ->).
    apply atEol_posOf in He as ->. exists u, mid. now split.
  - intros (a & mid & -> & Hmid).
    replace (a ++ "test_" ++ mid ++ ".py")
      with (a ++ ("test_" ++ mid ++ ".py" ++ "") ++ "")
      by now rewrite !append_nil_r.
    apply (test_spans _ a ("test_" ++ mid ++ ".py" ++ "") "" []).
    eapply spans_Seq; [apply spans_lit|].
    eapply spans_Seq; [now apply spans_run|].
    eapply spans_Seq; [apply spans_lit | apply spans_Eol].
Qed.

End TestFiles.

(** The endings of the name of a test file. *)
Definition TEST_FILE_SUFFIXES : list string :=
  [ ".test.js"; ".test.jsx"; ".test.ts"; ".test.tsx";
    ".spec.js"; ".spec.jsx"; ".spec.ts"; ".spec.tsx";
    "_test.js"; "_test.jsx"; "_test.ts"; "_test.tsx";
    "_spec.js"; "_spec.jsx"; "_spec.ts"; "_spec.tsx";
    "_test.py"; "_test.go"; "_test.rs"; "tests.rs" ].

(** X18: [isTestFile] accepts a path exactly when it is a code file
    ([isCodeFile]) and either its base name ends in one of the twenty
    endings [TEST_FILE_SUFFIXES], or its base name contains [test_] and
    later ends in [.py] with no line break in between, or one of the
    segments of its directory name is one of the eight names of
    [TEST_DIR_PATTERNS]. The ending [tests.rs] has no separator before it,
    and [test_] need not start the name. *)
Theorem isTestFile_iff (filePath : string) :
  Detection.isTestFile filePath = true
  <-> isCodeFile filePath = true
      /\ ((exists suffix, In suffix TEST_FILE_SUFFIXES
                          /\ endsIn (Path.basename filePath) suffix)
          \/ (exists a mid,
                Path.basename filePath = a ++ "test_" ++ mid ++ ".py"
                /\ noLineTerminator mid)
          \/ (exists segment,
                In segment (JS.split "/"%char (Path.dirname filePath))
                /\ In segment Detection.TEST_DIR_PATTERNS)).
Proof.
  unfold Detection.isTestFile. cbv zeta.
  destruct (isCodeFile filePath); cbn [negb];
    [|split; [discriminate | intros [H _]; discriminate]].
  set (b := Path.basename filePath).
  rewrite orb_true_iff.
  assert (Hfiles :
            existsb (fun pattern => Detection.test pattern b)
              Detection.TEST_FILE_PATTERNS = true
            <-> (exists suffix, In suffix TEST_FILE_SUFFIXES
                                /\ endsIn b suffix)
                \/ (exists a mid, b = a ++ "test_" ++ mid ++ ".py"
                                  /\ noLineTerminator mid)).
  { unfold Detection.TEST_FILE_PATTERNS. cbn [existsb].
    rewrite !orb_true_iff, !test_jsExt, test_pyPrefix.
    rewrite !(test_suffix _ b).
    unfold TEST_FILE_SUFFIXES. cbn [append]. split.
    - intros H.
      repeat match type of H with
             | _ \/ _ => destruct H as [H|H]
             end;
        try discriminate;
        try (right; exact H);
        left; eexists; (split; [|exact H]); cbn [In]; tauto.
    - intros [(suffix & Hin & Hend)|H].
      + cbn [In] in Hin.
        repeat match type of Hin with
               | _ \/ _ => destruct Hin as [<-|Hin]
               end; [tauto ..| destruct Hin].
      + tauto. }
  assert (Hdirs :
            existsb (JS.arrayIncludes Detection.TEST_DIR_PATTERNS)
              (JS.split "/"%char (Path.dirname filePath)) = true
            <-> exists segment,
                  In segment (JS.split "/"%char (Path.dirname filePath))
                  /\ In segment Detection.TEST_DIR_PATTERNS).
  { rewrite existsb_exists. split; intros (seg & Hs & Hin); exists seg;
      (split; [exact Hs|]).
    - unfold JS.arrayIncludes in Hin. apply existsb_exists in Hin
        as (y & Hy & Heq). apply String.eqb_eq in Heq. now subst.
    - unfold JS.arrayIncludes. apply existsb_exists. exists seg.
      split; [exact Hin | apply String.eqb_refl]. }
  rewrite Hfiles, Hdirs. tauto.
Qed.

(* ------------------------------------------------------------------ *)
(** ** Spans, signatures and docstrings of the baseline TypeScript
       symbols *)

Lemma take_length_le (n : nat) (s : string) : String.length (JS.take n s) <= n.
Proof.
  revert s; induction n as [|n IH]; intros [|c s]; simpl; try lia.
  specialize (IH s). lia.
Qed.

Lemma truncate200_length (s : string) :
  String.length (Typescript.truncate200 s) <= 200.
Proof.
  unfold Typescript.truncate200.
  destruct (200 <? String.length s) eqn:H.
  - rewrite length_append. unfold JS.substring.
    pose proof (take_length_le (Nat.max 0 197 - Nat.min 0 197)
                  (JS.drop (Nat.min 0 197) s)) as Hl.
    cbn [Nat.max Nat.min Nat.sub String.length] in *. lia.
  - apply Nat.ltb_ge in H. exact H.
Qed.

Lemma endOfStatement_bounds (ls : list string) :
  forall i bc e,
    e <= i ->
    e <= Typescript.endOfStatement ls i bc e
    /\ Typescript.endOfStatement ls i bc e
       <= Nat.max e (i + List.length ls - 1).
Proof.
  induction ls as [|l ls IH]; intros i bc e He; cbn [Typescript.endOfStatement].
  - lia.
  - cbv zeta. destruct (_ && _).
    + cbn [List.length]. lia.
    + destruct (IH (S i) (bc + Typescript.braceDelta l)%Z i) as [H1 H2];
        [lia|].
      cbn [List.length]. lia.
Qed.

Lemma endOfBlock_bounds (ls : list string) :
  forall i bc fo r,
    Typescript.endOfBlock ls i bc fo = Some r ->
    i <= r < i + List.length ls.
Proof.
  induction ls as [|l ls IH]; intros i bc fo r; cbn [Typescript.endOfBlock];
    [discriminate|].
  cbv zeta. destruct (_ && _).
  - intros [= <-]. cbn [List.length]. lia.
  - intros H. apply IH in H. cbn [List.length]. lia.
Qed.

Lemma findSymbolEnd_bounds (lines : list string) (startLine : nat)
  (kind : SymbolKind) :
  startLine < List.length lines ->
  startLine <= Typescript.findSymbolEnd lines startLine kind
  /\ Typescript.findSymbolEnd lines startLine kind < List.length lines
  /\ Typescript.findSymbolEnd lines startLine kind
     < startLine + (if Typescript.isStatementKind kind then 50 else 500).
Proof.
  intros Hlt. unfold Typescript.findSymbolEnd.
  destruct (Typescript.isStatementKind kind).
  - pose proof (endOfStatement_bounds
                  (firstn 50 (skipn startLine lines)) startLine 0%Z startLine
                  (le_n _)) as [H1 H2].
    rewrite length_firstn, length_skipn in H2. lia.
  - destruct (Typescript.endOfBlock _ startLine 0%Z false) as [r|] eqn:Hr.
    + apply endOfBlock_bounds in Hr.
      rewrite length_firstn, length_skipn in Hr. lia.
    + lia.
Qed.

Lemma firstMeaningful_length (docLines : list string) (d : string) :
  Typescript.firstMeaningful docLines = Some d -> String.length d <= 200.
Proof.
  induction docLines as [|x more IH]; cbn [Typescript.firstMeaningful];
    [discriminate|].
  cbv zeta. destruct (_ && _); [|exact IH].
  intros [= <-]. apply truncate200_length.
Qed.

Lemma docstringScan_length (above : list string) :
  forall inBlock docLines d,
    Typescript.docstringScan above inBlock docLines = Some d ->
    String.length d <= 200.
Proof.
  induction above as [|raw more IH]; intros inBlock docLines d;
    cbn [Typescript.docstringScan]; [discriminate|].
  cbv zeta. destruct (JS.endsWith _ "*/").
  - destruct (_ && _); [|apply IH]. intros [= <-]. apply truncate200_length.
  - destruct (JS.startsWith _ "/**").
    + destruct inBlock; [apply firstMeaningful_length | discriminate].
    + destruct (JS.startsWith _ "//").
      * destruct (_ && _); [|discriminate].
        intros [= <-]. apply truncate200_length.
      * destruct (_ && _); [discriminate | apply IH].
Qed.

(** A span, a signature and a docstring within their bounds. *)
Definition wellFormedIn (lines : list string) (s : AdapterSymbol) : Prop :=
  let first := line (start (a_span s)) in
  let last := line (end_ (a_span s)) in
  (1 <= first)%Z /\ (first <= last)%Z
  /\ (last <= Z.of_nat (List.length lines))%Z
  /\ (last - first < (if Typescript.isStatementKind (a_kind s)
                      then 50 else 500))%Z
  /\ col (end_ (a_span s)) = 0%Z
  /\ (exists sig, a_signature s = Some sig /\ String.length sig <= 200)
  /\ (forall d, a_docstring s = Some d -> String.length d <= 200).

Lemma symbolAt_wellFormed (lines : list string) (i : nat) (l : string)
  (s : AdapterSymbol) :
  i < List.length lines ->
  Typescript.symbolAt lines i l = Some s -> wellFormedIn lines s.
Proof.
  intros Hi. unfold Typescript.symbolAt.
  destruct (Typescript.firstMatch Typescript.patterns l) as [[nm k]|];
    [|discriminate].
  intros [= <-]. unfold wellFormedIn.
  cbn [a_span a_kind a_signature a_docstring start end_ line col].
  destruct (findSymbolEnd_bounds lines i k Hi) as (H1 & H2 & H3).
  repeat split; try lia.
  - destruct (Typescript.isStatementKind k); lia.
  - eexists. split; [reflexivity|]. unfold Typescript.extractSignature.
    apply truncate200_length.
  - intros d Hd. unfold Typescript.extractDocstring in Hd.
    now apply docstringScan_length in Hd.
Qed.

Lemma scanLines_wellFormed (lines : list string) (todo : list string) :
  forall i,
    i + List.length todo <= List.length lines ->
    Forall (wellFormedIn lines) (Typescript.scanLines lines todo i).
Proof.
  induction todo as [|l todo IH]; intros i Hi; cbn [Typescript.scanLines].
  - constructor.
  - cbn [List.length] in Hi.
    destruct (Typescript.symbolAt lines i l) as [s|] eqn:Hs.
    + constructor; [|apply IH; lia].
      apply (symbolAt_wellFormed lines i l); [lia | exact Hs].
    + apply IH. lia.
Qed.

(** X19: Every symbol of the baseline TypeScript and JavaScript extractor has
    a span that starts on a line of the content (numbered from 1) and ends
    on the same or a later line of the content, fewer than 50 lines further
    for a variable or a type and fewer than 500 for the other kinds, with
    end column 0; its signature has at most 200 characters, and so has its
    docstring when there is one. *)
Theorem typescript_symbols_wellFormed (content filePath : string) :
  Forall (wellFormedIn (JS.split "010"%char content))
    (Typescript.extractTypescriptSymbols content filePath).
Proof.
  unfold Typescript.extractTypescriptSymbols. cbv zeta.
  apply scanLines_wellFormed. lia.
Qed.

(* ------------------------------------------------------------------ *)
(** ** Entrypoints *)

Section EntrypointNames.
Import Regex RegexFacts RegexShapes RegexSpans.

Lemma spans_Seq_first (ml : bool) (a b : re) (u w v : string)
  (c c1 c2 : caps) :
  spans ml a u "" (w ++ v) c c1 ->
  spans ml b u w v c1 c2 ->
  spans ml (Seq a b) u w v c c2.
Proof.
  intros Ha Hb. apply (spans_Seq ml a b u "" w v c c1 c2 Ha).
  now rewrite append_nil_r.
Qed.

Lemma spans_Seq_last (ml : bool) (a b : re) (u w v : string)
  (c c1 c2 : caps) :
  spans ml a u w v c c1 ->
  spans ml b (u ++ w) "" v c1 c2 ->
  spans ml (Seq a b) u w v c c2.
Proof.
  intros Ha Hb. rewrite <- (append_nil_r w).
  apply (spans_Seq ml a b u w "" v c c1 c2); [exact Ha | exact Hb].
Qed.

Lemma test_whole (pattern : re) (w : string) (c' : caps) :
  spans false pattern "" w "" [] c' -> Detection.test pattern w = true.
Proof.
  intros H. apply (test_spans pattern "" w "" c') in H.
  cbn [append] in H. now rewrite append_nil_r in H.
Qed.

(** A choice of literals matches one of them. *)
Lemma matches_alt_lits (ml : bool) (names : list string) :
  forall u v c p' c',
    matches ml (alt (map lit names)) (posOf u v) c p' c'
    <-> exists e v', In e names /\ v = e ++ v' /\ p' = posOf (u ++ e) v'
                     /\ c' = c.
Proof.
  induction names as [|e names IH]; intros u v c p' c'.
  - cbn [map alt matches]. split.
    + intros (a & s' & _ & Hf & _). discriminate.
    + intros (e & v' & [] & _).
  - assert (Hone : matches ml (lit e) (posOf u v) c p' c'
                   <-> exists v', v = e ++ v' /\ p' = posOf (u ++ e) v'
                                  /\ c' = c)
      by apply matches_lit.
    destruct names as [|e2 names].
    + cbn [map alt]. rewrite Hone. split.
      * intros (v' & H). exists e, v'. split; [now left | exact H].
      * intros (e' & v' & [<-|[]] & H). now exists v'.
    + change (alt (map lit (e :: e2 :: names)))
        with (Alt (lit e) (alt (map lit (e2 :: names)))).
      cbn [matches]. rewrite Hone, IH. split.
      * intros [(v' & H)|(e' & v' & Hin & H)].
        -- exists e, v'. split; [now left | exact H].
        -- exists e', v'. split; [now right | exact H].
      * intros (e' & v' & [<-|Hin] & H).
        -- left. now exists v'.
        -- right. now exists e', v'.
Qed.

(** [/^<stem>(<e1>|...|<en>)$/] accepts the names [<stem><ei>]. *)
Lemma test_stem_alt (stem : string) (exts : list string) (s : string) :
  Detection.test (seq [Bol; lit stem; Grp 1 (alt (map lit exts)); Eol]) s
  = JS.arrayIncludes (map (append stem) exts) s.
Proof.
  apply Bool.eq_iff_eq_true. unfold JS.arrayIncludes.
  rewrite existsb_exists. cbn [seq]. split.
  - rewrite test_iff. cbn [matches].
    intros (u & v & p' & c' & -> & p0 & c0 & (Hbol & -> & ->) & p1 & c1
            & Hstem & p2 & c2 & (c3 & Halt & ->) & He & _).
    apply atBol_posOf in Hbol as ->.
    apply (matches_lit false) in Hstem as (v1 & -> & -> & ->).
    apply (matches_alt_lits false) in Halt as (e & v2 & Hin & -> & -> & ->).
    apply atEol_posOf in He as ->.
    exists (stem ++ e). split; [now apply in_map|].
    cbn [append]. rewrite append_nil_r. apply String.eqb_refl.
  - intros (x & Hin & Heq). apply String.eqb_eq in Heq. subst x.
    apply in_map_iff in Hin as (e & <- & Hin).
    eapply test_whole.
    eapply spans_Seq_first; [apply spans_Bol|].
    eapply spans_Seq; [apply spans_lit|].
    eapply spans_Seq_last; [|apply spans_Eol].
    apply spans_Grp. apply matches_alt_lits. exists e, "".
    now repeat split.
Qed.

(** [/^<name>$/] accepts [<name>]. *)
Lemma test_exact (name s : string) :
  Detection.test (seq [Bol; lit name; Eol]) s = JS.arrayIncludes [name] s.
Proof.
  apply Bool.eq_iff_eq_true. unfold JS.arrayIncludes. cbn [existsb].
  rewrite orb_false_r, String.eqb_eq. cbn [seq]. split.
  - rewrite test_iff. cbn [matches].
    intros (u & v & p' & c' & -> & p0 & c0 & (Hbol & -> & ->) & p1 & c1
            & Hname & He & _).
    apply atBol_posOf in Hbol as ->.
    apply (matches_lit false) in Hname as (v1 & -> & -> & ->).
    apply atEol_posOf in He as ->. cbn [append]. apply append_nil_r.
  - intros ->.
    eapply test_whole.
    eapply spans_Seq_first; [apply spans_Bol|].
    eapply spans_Seq_last; [apply spans_lit | apply spans_Eol].
Qed.

End EntrypointNames.

(** The names of entrypoints, with their types and descriptions. *)
Definition ENTRYPOINT_NAMES : list (list string * EntrypointType * string) :=
  [ (["main.ts"; "main.js"; "main.mjs"; "main.go"; "main.rs"; "main.py"],
     Executable, "Main application entrypoint");
    (["index.ts"; "index.js"; "index.mjs"; "index.py"],
     ModuleEntry, "Module entrypoint");
    (["mod.rs"], ModuleEntry, "Rust module entrypoint");
    (["__init__.py"], ModuleEntry, "Python package entrypoint");
    (["lib.ts"; "lib.js"; "lib.rs"], Library, "Library entrypoint") ].

Lemma entrypoint_rows (s : string) :
  map (fun row => Detection.test (fst (fst row)) s)
    Entrypoints.ENTRYPOINT_PATTERNS
  = map (fun row => JS.arrayIncludes (fst (fst row)) s) ENTRYPOINT_NAMES.
Proof.
  unfold Entrypoints.ENTRYPOINT_PATTERNS, ENTRYPOINT_NAMES.
  cbn [map fst].
  f_equal;
    [exact (test_stem_alt "main." ["ts"; "js"; "mjs"; "go"; "rs"; "py"] s)|].
  f_equal; [exact (test_stem_alt "index." ["ts"; "js"; "mjs"; "py"] s)|].
  f_equal; [exact (test_exact "mod.rs" s)|].
  f_equal; [exact (test_exact "__init__.py" s)|].
  f_equal. exact (test_stem_alt "lib." ["ts"; "js"; "rs"] s).
Qed.

Lemma existsb_rows {A B : Type} (f : A -> bool) (g : B -> bool) :
  forall (l : list A) (l' : list B),
    map f l = map g l' -> existsb f l = existsb g l'.
Proof.
  induction l as [|x l IH]; intros [|y l'] H; try discriminate;
    [reflexivity|].
  cbn [map] in H. injection H as Hx Hl. cbn [existsb].
  now rewrite Hx, (IH l' Hl).
Qed.

Lemma find_rows {A B C : Type} (f : A -> bool) (g : B -> bool)
  (pa : A -> C) (pb : B -> C) :
  forall (l : list A) (l' : list B),
    map f l = map g l' -> map pa l = map pb l' ->
    option_map pa (find f l) = option_map pb (find g l').
Proof.
  induction l as [|x l IH]; intros [|y l'] H H'; try discriminate;
    [reflexivity|].
  cbn [map] in H, H'. injection H as Hx Hl. injection H' as Hx' Hl'.
  cbn [find]. rewrite <- Hx. destruct (f x); [cbn; now f_equal|].
  now apply IH.
Qed.

Lemma isEntrypoint_names (filePath : string) :
  Entrypoints.isEntrypoint filePath
  = existsb (fun row => JS.arrayIncludes (fst (fst row))
                          (Path.basename filePath))
      ENTRYPOINT_NAMES.
Proof. apply existsb_rows, entrypoint_rows. Qed.

(** X20: The patterns of [ENTRYPOINT_PATTERNS] accept exactly fifteen base
    names. [getEntrypointInfo] gives a path the type and description of the
    row of [ENTRYPOINT_NAMES] that lists its base name ([main.*]
    executable, [index.*], [mod.rs] and [__init__.py] module, [lib.*]
    library) and nothing for any other base name; [isEntrypoint] holds
    exactly for the paths with one of these base names; and
    [findModuleEntrypoints] returns, in the order of discovery, the paths
    of the files that lie directly in the module directory (for the module
    [.], the paths without a slash) and have one of these base names. *)
Theorem entrypoints_by_name (fls : list DiscoveredFile)
  (modulePath filePath : string) :
  Entrypoints.getEntrypointInfo filePath
  = match find (fun row => JS.arrayIncludes (fst (fst row))
                             (Path.basename filePath))
            ENTRYPOINT_NAMES with
    | Some (_, type, description) => Some (type, description)
    | None => None
    end
  /\ Entrypoints.isEntrypoint filePath
     = existsb (fun row => JS.arrayIncludes (fst (fst row))
                             (Path.basename filePath))
         ENTRYPOINT_NAMES
  /\ Entrypoints.findModuleEntrypoints fls modulePath
     = filter
         (fun p =>
            (if String.eqb modulePath "."
             then negb (JS.includes p "/")
             else JS.startsWith p (modulePath ++ "/")
                  && negb (JS.includes
                             (JS.drop (String.length modulePath + 1) p) "/"))
            && existsb (fun row => JS.arrayIncludes (fst (fst row))
                                     (Path.basename p))
                 ENTRYPOINT_NAMES)
         (map path fls).
Proof.
  split; [|split].
  - unfold Entrypoints.getEntrypointInfo. cbv zeta.
    pose proof (find_rows _ _ (fun row => (snd (fst row), snd row))
                  (fun row => (snd (fst row), snd row)) _ _
                  (entrypoint_rows (Path.basename filePath)) eq_refl) as H.
    destruct (find _ Entrypoints.ENTRYPOINT_PATTERNS) as [[[? ?] ?]|];
      destruct (find _ ENTRYPOINT_NAMES) as [[[? ?] ?]|];
      cbn [option_map fst snd] in H; congruence.
  - apply isEntrypoint_names.
  - unfold Entrypoints.findModuleEntrypoints. cbv zeta.
    induction fls as [|f fls IH]; [reflexivity|].
    cbn [filter map]. rewrite <- IH, isEntrypoint_names.
    assert (Hsame :
              (if String.eqb (if String.eqb modulePath "." then ""
                              else modulePath ++ "/") ""
               then negb (JS.includes (path f) "/")
               else JS.startsWith (path f)
                      (if String.eqb modulePath "." then ""
                       else modulePath ++ "/")
                    && negb (JS.includes
                               (JS.drop
                                  (String.length
                                     (if String.eqb modulePath "." then ""
                                      else modulePath ++ "/"))
                                  (path f)) "/"))
              = (if String.eqb modulePath "."
                 then negb (JS.includes (path f) "/")
                 else JS.startsWith (path f) (modulePath ++ "/")
                      && negb (JS.includes
                                 (JS.drop (String.length modulePath + 1)
                                    (path f)) "/"))).
    { destruct (String.eqb modulePath "."); [reflexivity|].
      rewrite length_append. cbn [String.length].
      destruct (String.eqb_spec (modulePath ++ "/") ""); [|reflexivity].
      destruct modulePath; discriminate. }
    rewrite Hsame.
    match goal with
    | |- map path (if ?c then _ else _) = _ => destruct c
    end; reflexivity.
Qed.

(** *** Entrypoints at the root and in [bin/] *)

Lemma includes_slash (p : string) : JS.includes p "/" = negb (noSlash p).
Proof.
  induction p as [|c p IH]; [reflexivity|].
  cbn [JS.includes JS.startsWith noSlash]. rewrite IH.
  unfold Path.isSlash, Path.slash. rewrite andb_true_r, (Ascii.eqb_sym "/" c).
  now destruct (Ascii.eqb c "/"), (noSlash p).
Qed.

Lemma split_length_one (p : string) :
  (List.length (JS.split "/"%char p) =? 1) = noSlash p.
Proof.
  induction p as [|c p IH]; [reflexivity|].
  cbn [JS.split noSlash]. unfold Path.isSlash, Path.slash.
  pose proof (split_nonempty p) as Hne. unfold Path.slash in Hne.
  destruct (Ascii.eqb c "/").
  - cbn [List.length negb andb].
    destruct (JS.split "/"%char p); [contradiction | reflexivity].
  - cbn [negb andb]. rewrite <- IH.
    destruct (JS.split "/"%char p); [contradiction | reflexivity].
Qed.

Lemma split_head (s : string) :
  JS.split "/"%char s
  = (Path.takeSegment s
     :: match Path.dropSegment s with
        | String _ r => JS.split "/"%char r
        | EmptyString => []
        end)%list.
Proof.
  induction s as [|c s IH]; [reflexivity|].
  cbn [JS.split Path.takeSegment Path.dropSegment].
  unfold Path.isSlash, Path.slash.
  destruct (Ascii.eqb c "/"); [reflexivity|]. now rewrite IH.
Qed.

Lemma segment_rest (s : string) :
  s = Path.takeSegment s ++ Path.dropSegment s
  /\ (Path.dropSegment s = ""
      \/ exists r, Path.dropSegment s = String "/" r).
Proof.
  induction s as [|c s [IH1 IH2]]; [split; [reflexivity | now left]|].
  cbn [Path.takeSegment Path.dropSegment]. unfold Path.isSlash, Path.slash.
  destruct (Ascii.eqb_spec c "/") as [->|].
  - split; [reflexivity | right; now exists s].
  - split; [cbn [append]; now f_equal | exact IH2].
Qed.

Lemma under_bin (p : string) :
  match JS.split "/"%char p with
  | first :: _ =>
      (2 <=? List.length (JS.split "/"%char p))
      && JS.arrayIncludes ["bin"; "scripts"; "cmd"] first
      && String.eqb first "bin"
  | [] => false
  end = JS.startsWith p "bin/".
Proof.
  rewrite split_head. destruct (segment_rest p) as [Hp Hrest].
  cbn [List.length]. apply Bool.eq_iff_eq_true.
  rewrite !andb_true_iff, String.eqb_eq, Nat.leb_le, startsWith_spec. split.
  - intros [[Hlen _] Hfirst]. rewrite Hfirst in Hp.
    destruct Hrest as [Hr|[r Hr]]; rewrite Hr in *.
    + cbn [List.length] in Hlen. lia.
    + exists r. exact Hp.
  - intros [b ->]. cbn. pose proof (split_nonempty b) as Hne.
    unfold Path.slash in Hne.
    rewrite (split_head b) in *.
    repeat split. cbn [List.length]. lia.
Qed.

(** What [findRootEntrypoints] has for a file. *)
Definition rootEntrypointOf (f : DiscoveredFile) (e : Entrypoint) : Prop :=
  ep_path e = path f
  /\ ((JS.includes (path f) "/" = false
       /\ Entrypoints.getEntrypointInfo (path f)
          = Some (ep_type e, ep_description e))
      \/ (JS.startsWith (path f) "bin/" = true
          /\ ep_type e = Executable
          /\ ep_description e
             = "CLI entrypoint: " ++ Path.basename (path f))).

Lemma rootEntrypointsOf_spec (f : DiscoveredFile) :
  Entrypoints.rootEntrypointsOf f
  = ((if negb (JS.includes (path f) "/")
      then match Entrypoints.getEntrypointInfo (path f) with
           | Some (type, description) =>
               [mkEntrypoint (path f) type description]
           | None => []
           end
      else [])
     ++ (if JS.startsWith (path f) "bin/"
         then [mkEntrypoint (path f) Executable
                 ("CLI entrypoint: " ++ Path.basename (path f))]
         else []))%list.
Proof.
  unfold Entrypoints.rootEntrypointsOf. cbv zeta.
  rewrite split_length_one, includes_slash, negb_involutive.
  f_equal. rewrite <- under_bin.
  destruct (JS.split "/"%char (path f)) as [|first rest]; [reflexivity|].
  destruct (2 <=? _); [|reflexivity].
  destruct (JS.arrayIncludes _ first) eqn:Hinc; cbn [andb].
  - reflexivity.
  - destruct (String.eqb_spec first "bin") as [->|]; [discriminate|].
    reflexivity.
Qed.

Lemma rootEntrypointsOf_In (f : DiscoveredFile) (e : Entrypoint) :
  In e (Entrypoints.rootEntrypointsOf f) <-> rootEntrypointOf f e.
Proof.
  rewrite rootEntrypointsOf_spec, in_app_iff. unfold rootEntrypointOf.
  assert (Hexcl : JS.startsWith (path f) "bin/" = true ->
                  JS.includes (path f) "/" = true).
  { intros H. apply startsWith_spec in H as [b Hb]. apply includes_spec.
    exists "bin", b. exact Hb. }
  destruct (JS.includes (path f) "/") eqn:Hinc; cbn [negb].
  - destruct (JS.startsWith (path f) "bin/"); cbn [In].
    + split.
      * intros [[]|[<-|[]]]. split; [reflexivity|]. right. now repeat split.
      * intros [Hp [[Hf _]|[_ [Ht Hd]]]]; [discriminate|]. right. left.
        destruct e as [p t d]. cbn in *. now subst.
    + split; [intros [[]|[]]|].
      intros [_ [[Hf _]|[Hf _]]]; discriminate.
  - destruct (JS.startsWith (path f) "bin/") eqn:Hbin;
      [specialize (Hexcl eq_refl); discriminate|].
    destruct (Entrypoints.getEntrypointInfo (path f)) as [[t d]|]; cbn [In].
    + split.
      * intros [[<-|[]]|[]]. split; [reflexivity|]. left. now split.
      * intros [Hp [[_ Hi]|[Hf _]]]; [|discriminate]. left. left.
        destruct e as [p t' d']. cbn in *. injection Hi as -> ->. now subst.
    + split; [intros [[]|[]]|]. intros [_ [[_ Hi]|[Hf _]]]; discriminate.
Qed.

Lemma rootEntrypointsOf_length (f : DiscoveredFile) :
  List.length (Entrypoints.rootEntrypointsOf f) <= 1.
Proof.
  rewrite rootEntrypointsOf_spec.
  assert (Hexcl : JS.startsWith (path f) "bin/" = true ->
                  JS.includes (path f) "/" = true).
  { intros H. apply startsWith_spec in H as [b Hb]. apply includes_spec.
    exists "bin", b. exact Hb. }
  destruct (JS.includes (path f) "/"); cbn [negb app].
  - destruct (JS.startsWith _ _); cbn; lia.
  - destruct (JS.startsWith _ _); [specialize (Hexcl eq_refl); discriminate|].
    rewrite app_nil_r.
    destruct (Entrypoints.getEntrypointInfo _) as [[t d]|]; cbn; lia.
Qed.

(** X21: Whatever the collation of the host, the root entrypoints of the
    repo map are, up to their order, one entry for each discovered file
    without a slash in its path whose base name [getEntrypointInfo] knows,
    with the type and description it gives, and one entry of type
    executable, described as [CLI entrypoint: <base name>], for each
    discovered file whose path starts with [bin/]. There are no more
    entries than discovered files; files under [scripts/] and [cmd/], and
    entrypoint names in any other directory, give none. [findEntrypoints] has one entry for each
    file whose base name [getEntrypointInfo] knows. *)
Theorem root_entrypoints (localeCompare : string -> string -> Z)
  (fls : list DiscoveredFile) (repoRoot : string) (e : Entrypoint) :
  (In e (Entrypoints.findRootEntrypoints localeCompare fls repoRoot)
   <-> exists f, In f fls /\ rootEntrypointOf f e)
  /\ List.length (Entrypoints.findRootEntrypoints localeCompare fls repoRoot)
     <= List.length fls
  /\ (In e (Entrypoints.findEntrypoints localeCompare fls)
      <-> exists f, In f fls /\ ep_path e = path f
                    /\ Entrypoints.getEntrypointInfo (path f)
                       = Some (ep_type e, ep_description e)).
Proof.
  unfold Entrypoints.findRootEntrypoints, Entrypoints.findEntrypoints.
  split; [|split].
  - split.
    + intros H. apply (Permutation_in _ (stableSort_perm _ _)) in H.
      apply in_flat_map in H as (f & Hf & He). exists f.
      split; [exact Hf | now apply rootEntrypointsOf_In].
    + intros (f & Hf & He).
      apply (Permutation_in _ (Permutation_sym (stableSort_perm _ _))).
      apply in_flat_map. exists f.
      split; [exact Hf | now apply rootEntrypointsOf_In].
  - rewrite (Permutation_length (stableSort_perm _ _)).
    induction fls as [|f fls IH]; [cbn; lia|].
    cbn [flat_map List.length]. rewrite length_app.
    pose proof (rootEntrypointsOf_length f). lia.
  - split.
    + intros H. apply (Permutation_in _ (stableSort_perm _ _)) in H.
      apply in_flat_map in H as (f & Hf & He). exists f.
      split; [exact Hf|].
      destruct (Entrypoints.getEntrypointInfo (path f)) as [[t d]|];
        [|destruct He].
      destruct He as [<-|[]]. now split.
    + intros (f & Hf & Hp & Hi).
      apply (Permutation_in _ (Permutation_sym (stableSort_perm _ _))).
      apply in_flat_map. exists f. split; [exact Hf|]. rewrite Hi. left.
      destruct e as [p t d]. cbn in *. now subst.
Qed.

(* ------------------------------------------------------------------ *)
(** ** File discovery *)

Lemma join_split (s : string) : JS.join "/" (JS.split "/"%char s) = s.
Proof.
  induction s as [|c s IH]; [reflexivity|].
  cbn [JS.split]. pose proof (split_nonempty s) as Hne.
  unfold Path.slash in Hne.
  destruct (Ascii.eqb_spec c "/") as [->|Hc].
  - destruct (JS.split "/"%char s) as [|h t]; [contradiction|].
    change (JS.join "/" ("" :: h :: t)) with ("" ++ "/" ++ JS.join "/" (h :: t)).
    now rewrite IH.
  - destruct (JS.split "/"%char s) as [|h t]; [contradiction|].
    destruct t as [|h' t'].
    + cbn [JS.join] in *. now rewrite IH.
    + change (JS.join "/" (String c h :: h' :: t'))
        with (String c (h ++ "/" ++ JS.join "/" (h' :: t'))).
      change (JS.join "/" (h :: h' :: t'))
        with (h ++ "/" ++ JS.join "/" (h' :: t')) in IH.
      now rewrite IH.
Qed.

Lemma sizeKbOf_bound (size k : Z) :
  (sizeKbOf size <= k)%Z -> (size <= 1024 * k)%Z.
Proof.
  unfold sizeKbOf. intros H.
  pose proof (Z.div_mod (- size) 1024 ltac:(lia)) as Hd.
  pose proof (Z.mod_pos_bound (- size) 1024 ltac:(lia)) as Hm.
  lia.
Qed.

(** A file that [discoverOne] keeps. *)
Definition keptBy (H : DiscoveryHost) (options : DiscoveryOptions)
  (listed : list string) (f : DiscoveredFile) : Prop :=
  exists relativePath,
    In relativePath listed
    /\ path f = relativePath
    /\ absolutePath f = resolvePath H (d_repoRoot options) relativePath
    /\ isWithinRoot H relativePath (d_repoRoot options) = true
    /\ (d_followSymlinks options = false ->
        isSymlink H (absolutePath f) = false
        /\ isReadable H (absolutePath f) = true
        /\ getFileStats H (absolutePath f) = Some (size f, mtime f))
    /\ (size f <= 1024 * d_maxFileKb options)%Z.

Lemma discoverOne_kept (H : DiscoveryHost) (options : DiscoveryOptions)
  (relativePath : string) (f : DiscoveredFile) :
  discoverOne H options relativePath = inr f ->
  keptBy H options [relativePath] f.
Proof.
  unfold discoverOne. cbv zeta.
  unfold normalizeToForwardSlashes. rewrite join_split.
  destruct (isWithinRoot H relativePath (d_repoRoot options)) eqn:Hroot;
    cbn [negb]; [|discriminate].
  destruct (d_followSymlinks options) eqn:Hfollow; cbn [negb andb].
  - destruct (isSymlink H _) eqn:Hlink.
    + destruct (realpathSync H _) as [thrown|resolvedPath]; [discriminate|].
      destruct (existsSync H resolvedPath); cbn [negb]; [|discriminate].
      destruct (isReadable H resolvedPath); cbn [negb]; [|discriminate].
      destruct (getFileStats H resolvedPath) as [[sz mt]|]; [|discriminate].
      destruct (Z.ltb_spec (d_maxFileKb options) (sizeKbOf sz));
        [discriminate|].
      intros [= <-]. exists relativePath. cbn [path absolutePath size mtime].
      split; [now left|]. split; [reflexivity|]. split; [reflexivity|].
      split; [exact Hroot|]. split; [congruence|].
      now apply sizeKbOf_bound.
    + destruct (isReadable H _); cbn [negb]; [|discriminate].
      destruct (getFileStats H _) as [[sz mt]|]; [|discriminate].
      destruct (Z.ltb_spec (d_maxFileKb options) (sizeKbOf sz));
        [discriminate|].
      intros [= <-]. exists relativePath. cbn [path absolutePath size mtime].
      split; [now left|]. split; [reflexivity|]. split; [reflexivity|].
      split; [exact Hroot|]. split; [congruence|].
      now apply sizeKbOf_bound.
  - destruct (isSymlink H _) eqn:Hlink; [discriminate|].
    destruct (isReadable H _) eqn:Hread; cbn [negb]; [|discriminate].
    destruct (getFileStats H _) as [[sz mt]|] eqn:Hstat; [|discriminate].
    destruct (Z.ltb_spec (d_maxFileKb options) (sizeKbOf sz));
      [discriminate|].
    intros [= <-]. exists relativePath. cbn [path absolutePath size mtime].
    split; [now left|]. split; [reflexivity|]. split; [reflexivity|].
    split; [exact Hroot|]. split; [intros _; now repeat split|].
    now apply sizeKbOf_bound.
Qed.

Lemma discoverAll_accounts (H : DiscoveryHost) (options : DiscoveryOptions)
  (filePaths : list string) :
  forall result,
    let r := discoverAll H options filePaths result in
    errors r = errors result
    /\ List.length (files r) + List.length (skipped r)
       = List.length (files result) + List.length (skipped result)
         + List.length filePaths
    /\ exists new,
         files r = (files result ++ new)%list
         /\ Forall (keptBy H options filePaths) new.
Proof.
  induction filePaths as [|p rest IH]; intros result; cbn [discoverAll].
  - cbv zeta. split; [reflexivity|]. split; [cbn; lia|].
    exists []. split; [now rewrite app_nil_r | constructor].
  - cbv zeta.
    assert (Hweak : forall l, Forall (keptBy H options rest) l ->
                              Forall (keptBy H options (p :: rest)) l).
    { intros l. apply Forall_impl.
      intros f (rp & Hin & Hrest). exists rp. split; [now right | exact Hrest]. }
    destruct (discoverOne H options p) as [skip|file] eqn:Hone.
    + destruct (IH (mkDiscovery (files result) (skipped result ++ [skip])
                      (errors result))) as (He & Hl & new & Hf & Hnew).
      cbn [files skipped errors] in *. rewrite length_app in Hl.
      cbn [List.length] in *. split; [exact He|]. split; [lia|].
      exists new. split; [exact Hf | now apply Hweak].
    + destruct (IH (mkDiscovery (files result ++ [file]) (skipped result)
                      (errors result))) as (He & Hl & new & Hf & Hnew).
      cbn [files skipped errors] in *. rewrite length_app in Hl.
      cbn [List.length] in *. split; [exact He|]. split; [lia|].
      exists (file :: new). split; [now rewrite Hf, <- app_assoc|].
      constructor; [|now apply Hweak].
      apply discoverOne_kept in Hone as (rp & [<-|[]] & Hrest).
      exists p. split; [now left | exact Hrest].
Qed.

(** X22: [discoverFiles] either reports a single error and no file at all
    (ripgrep failed, or it listed more than [maxFiles] paths), or it
    reports no error and accounts for every path that ripgrep listed: the
    numbers of files and of skipped paths add up to the number of
    non-blank lines of the output. Every file it returns is one of the
    listed paths, lies within the root according to [isWithinRoot], and has
    at most [1024 * maxFileKb] bytes; when symlinks are not followed it is
    no symlink, is readable, and carries the size and time of its own
    stats. *)
Theorem discoverFiles_accounts (H : DiscoveryHost)
  (options : DiscoveryOptions) :
  let r := discoverFiles H options in
  let listed :=
    listedPaths
      (rg_stdout (spawnRipgrep H (buildRipgrepArgs options)
                    (d_repoRoot options))) in
  (exists message, errors r = [("", message)]
                   /\ files r = [] /\ skipped r = [])
  \/ (errors r = []
      /\ List.length (files r) + List.length (skipped r)
         = List.length listed
      /\ (Z.of_nat (List.length listed) <= d_maxFiles options)%Z
      /\ Forall (keptBy H options listed) (files r)).
Proof.
  cbv zeta. unfold discoverFiles. cbv zeta.
  destruct (rg_error _) as [message|]; [left; eexists; now repeat split|].
  destruct (match rg_status _ with Some 2%Z => true | _ => false end);
    [left; eexists; now repeat split|].
  destruct (Z.ltb_spec (d_maxFiles options)
              (Z.of_nat (List.length
                           (listedPaths
                              (rg_stdout
                                 (spawnRipgrep H (buildRipgrepArgs options)
                                    (d_repoRoot options)))))))
    as [Hmany|Hfew]; [left; eexists; now repeat split|].
  right.
  destruct (discoverAll_accounts H options
              (listedPaths
                 (rg_stdout (spawnRipgrep H (buildRipgrepArgs options)
                               (d_repoRoot options))))
              (mkDiscovery [] [] [])) as (He & Hl & new & Hf & Hnew).
  cbn [files skipped errors List.length app] in *.
  split; [exact He|]. split; [exact Hl|]. split; [exact Hfew|].
  now rewrite Hf.
Qed.

Lemma limit_message (n m : string) :
  JS.includes
    ("Repository has " ++ n ++ " files, exceeding max_files limit of " ++ m)
    "exceeding max_files" = true.
Proof.
  apply includes_spec.
  exists ("Repository has " ++ n ++ " files, "), (" limit of " ++ m).
  rewrite !append_assoc. reflexivity.
Qed.

(** X23: When ripgrep runs without error and lists more paths than
    [maxFiles], a build whose discovery is that of [discoverFiles] rejects
    when [ensureIndexDir] throws (the index directory does not exist and
    [mkdirSync] fails) or [hasConfigChanged] throws (on a previous
    [meta.json] that has not the shape of [IndexMeta]); in every other
    case it writes no index file and fails with
    [ARK_INDEX_TOO_MANY_FILES], and the message gives the number of paths
    and the limit (a limit above [-10^21], which prints with all its
    digits). *)
Theorem too_many_files_stops_build (E : Externals) (H : DiscoveryHost)
  (options : IndexBuildOptions) (w : World) (previous : PreviousIndex) :
  let rg := spawnRipgrep H (buildRipgrepArgs (discoveryOptionsOf options))
              (repoRoot options) in
  ripgrepAvailable w = true ->
  discovery w = discoverFiles H (discoveryOptionsOf options) ->
  rg_error rg = None ->
  rg_status rg <> Some 2%Z ->
  (- 10 ^ 21 < maxFiles options)%Z ->
  (maxFiles options < Z.of_nat (List.length (listedPaths (rg_stdout rg))))%Z ->
  buildIndex E options w previous
  = match ensureIndexDir w (arkDir options),
          configChangedOf options previous with
    | Returned _, Returned _ =>
        Resolved
          (failure ARK_INDEX_TOO_MANY_FILES
             ("Repository has "
              ++ JS.ofNat (List.length (listedPaths (rg_stdout rg)))
              ++ " files, exceeding max_files limit of "
              ++ JS.ofZ (maxFiles options)) [])
          None
    | _, _ => Rejected
    end.
Proof.
  cbv zeta. intros Hrg Hd Herr Hstatus _ Hmany.
  assert (Hst : match rg_status
                        (spawnRipgrep H
                           (buildRipgrepArgs (discoveryOptionsOf options))
                           (repoRoot options)) with
                | Some 2%Z => true
                | _ => false
                end = false).
  { destruct (rg_status _) as [[|[p|[p|p|]|]|]|]; try reflexivity.
    now destruct Hstatus. }
  apply Z.ltb_lt in Hmany.
  unfold buildIndex. rewrite Hrg, Hd. cbn [negb].
  destruct (ensureIndexDir w (arkDir options)) as [|[indexDir created]];
    [reflexivity|].
  fold (currentConfigOf options). fold (configChangedOf options previous).
  destruct (configChangedOf options previous) as [|configChanged];
    [reflexivity|].
  unfold discoverFiles. cbv zeta.
  change (d_repoRoot (discoveryOptionsOf options)) with (repoRoot options).
  change (d_maxFiles (discoveryOptionsOf options)) with (maxFiles options).
  rewrite Herr, Hst, Hmany.
  cbn [errors find snd]. now rewrite limit_message.
Qed.

(** A host in which ripgrep lists two files. *)
Definition twoListed : DiscoveryHost :=
  mkDiscoveryHost
    (fun _ _ => mkSpawn None (Some 0%Z) (Some (unlines ["a.ts"; "b.ts"; ""]))
                  "")
    (fun root p => root ++ "/" ++ p) (fun _ _ => true) (fun _ => false)
    (fun p => inr p) (fun _ => true) (fun _ => true)
    (fun _ => Some (10%Z, "2024-01-01T00:00:00.000Z")).

Definition limitOfOne : IndexBuildOptions :=
  mkOptions false "/repo/.ark" "/repo" ["**/*"] [] 256 1 true [].

Definition twoListedWorld : World :=
  mkWorld true None (discoverFiles twoListed (discoveryOptionsOf limitOfOne))
    twoFilesSystem 0 5 "2024-01-03T00:00:00.000Z" None
    (fun _ => false) (fun _ => false).

Lemma too_many_files_stops_build_witness :
  buildIndex plainHost limitOfOne twoListedWorld noIndex
  = Resolved
      (failure ARK_INDEX_TOO_MANY_FILES
         "Repository has 2 files, exceeding max_files limit of 1" [])
      None.
Proof.
  rewrite (too_many_files_stops_build plainHost twoListed limitOfOne
             twoListedWorld noIndex).
  - reflexivity.
  - reflexivity.
  - reflexivity.
  - reflexivity.
  - discriminate.
  - reflexivity.
  - vm_compute. reflexivity.
Defined.

(* ------------------------------------------------------------------ *)
(** ** Modules *)

(** The directory of a package manifest among the files, with the empty
    string for the root. *)
Definition manifestDirectory (fls : list DiscoveredFile) (d : string) : Prop :=
  exists f,
    In f fls
    /\ In (Path.basename (path f)) PACKAGE_MANIFESTS
    /\ d = (if String.eqb (Path.dirname (path f)) "." then ""
            else Path.dirname (path f)).

(** The first segment of the path of a code file that has more than one
    segment. *)
Definition codeDirectory (fls : list DiscoveredFile) (d : string) : Prop :=
  exists f rest,
    In f fls /\ isCodeFile (path f) = true
    /\ path f = d ++ "/" ++ rest /\ JS.includes d "/" = false.

Lemma arrayIncludes_In (xs : list string) (x : string) :
  JS.arrayIncludes xs x = true <-> In x xs.
Proof.
  unfold JS.arrayIncludes. rewrite existsb_exists. split.
  - intros (y & Hy & Heq). apply String.eqb_eq in Heq. now subst.
  - intros H. exists x. split; [exact H | apply String.eqb_refl].
Qed.

Lemma fold_set_add_In {A : Type} (pick : A -> option string) (l : list A) :
  forall (s : StringSet) (x : string),
    In x (fold_left (fun s a => match pick a with
                                | Some y => set_add s y
                                | None => s
                                end) l s)
    <-> In x s \/ exists a, In a l /\ pick a = Some x.
Proof.
  induction l as [|a l IH]; intros s x; cbn [fold_left].
  - split; [now left | intros [H|(a & [] & _)]; exact H].
  - rewrite IH. split.
    + intros [H|(b & Hb & Hp)].
      * destruct (pick a) as [y|] eqn:Hy; [|now left].
        apply set_add_In in H as [H| ->]; [now left|].
        right. exists a. split; [now left | exact Hy].
      * right. exists b. split; [now right | exact Hp].
    + intros [H|(b & [<-|Hb] & Hp)].
      * left. destruct (pick a); [apply set_add_In; now left | exact H].
      * left. rewrite Hp. apply set_add_In. now right.
      * right. now exists b.
Qed.

Lemma fold_left_same {A B : Type} (f g : A -> B -> A) (l : list B) :
  (forall s a, f s a = g s a) ->
  forall s, fold_left f l s = fold_left g l s.
Proof.
  intros H. induction l as [|a l IH]; intros s; cbn [fold_left];
    [reflexivity|].
  now rewrite H, IH.
Qed.

Lemma findManifestDirectories_In (fls : list DiscoveredFile) (d : string) :
  In d (findManifestDirectories fls) <-> manifestDirectory fls d.
Proof.
  unfold findManifestDirectories, manifestDirectory.
  pose proof (fold_set_add_In
                (fun f : DiscoveredFile =>
                   if JS.arrayIncludes PACKAGE_MANIFESTS
                        (Path.basename (path f))
                   then Some (if String.eqb (Path.dirname (path f)) "."
                              then ""
                              else normalizeToForwardSlashes
                                     (Path.dirname (path f)))
                   else None) fls [] d) as H.
  match type of H with
  | In d ?a <-> _ =>
      match goal with
      | |- In d ?b <-> _ => replace b with a
      end
  end.
  - rewrite H. split.
    + intros [[]|(f & Hf & Hp)]. exists f. split; [exact Hf|].
      destruct (JS.arrayIncludes _ _) eqn:Hinc; [|discriminate].
      apply arrayIncludes_In in Hinc. split; [exact Hinc|].
      injection Hp as <-. unfold normalizeToForwardSlashes.
      now rewrite join_split.
    + intros (f & Hf & Hb & ->). right. exists f. split; [exact Hf|].
      apply arrayIncludes_In in Hb. rewrite Hb.
      unfold normalizeToForwardSlashes. now rewrite join_split.
  - apply fold_left_same. intros s f. now destruct (JS.arrayIncludes _ _).
Qed.

Lemma takeSegment_noSlash (s : string) : noSlash (Path.takeSegment s) = true.
Proof.
  induction s as [|c s IH]; [reflexivity|]. cbn [Path.takeSegment].
  destruct (Path.isSlash c) eqn:Hc; [reflexivity|].
  cbn [noSlash]. now rewrite Hc, IH.
Qed.

Lemma split_two (p first : string) :
  (exists second more, JS.split "/"%char p = first :: second :: more)
  <-> exists rest, p = first ++ "/" ++ rest /\ JS.includes first "/" = false.
Proof.
  rewrite split_head. destruct (segment_rest p) as [Hp Hrest]. split.
  - intros (second & more & [= <- Hmore]).
    destruct Hrest as [Hr|[r Hr]]; rewrite Hr in *; [discriminate|].
    exists r. split; [exact Hp|].
    now rewrite includes_slash, takeSegment_noSlash.
  - intros (rest & -> & Hfirst).
    rewrite includes_slash in Hfirst. apply negb_false_iff in Hfirst.
    change (first ++ "/" ++ rest) with (first ++ String Path.slash rest).
    rewrite takeSegment_app, dropSegment_app; try assumption;
      [|right; now exists rest].
    pose proof (split_nonempty rest) as Hne. unfold Path.slash in *.
    destruct (JS.split "/"%char rest) as [|second more]; [contradiction|].
    now exists second, more.
Qed.

Lemma findCodeDirectories_In (fls : list DiscoveredFile) (d : string) :
  In d (findCodeDirectories fls) <-> codeDirectory fls d.
Proof.
  unfold findCodeDirectories, codeDirectory.
  pose proof (fold_set_add_In
                (fun f : DiscoveredFile =>
                   if isCodeFile (path f)
                   then match JS.split "/"%char (path f) with
                        | first :: _ :: _ => Some first
                        | _ => None
                        end
                   else None) fls [] d) as H.
  match type of H with
  | In d ?a <-> _ =>
      match goal with
      | |- In d ?b <-> _ => replace b with a
      end
  end.
  - rewrite H. split.
    + intros [[]|(f & Hf & Hp)].
      destruct (isCodeFile (path f)) eqn:Hcode; [|discriminate].
      destruct (JS.split "/"%char (path f)) as [|first [|second more]] eqn:Hs;
        try discriminate.
      injection Hp as ->.
      destruct (proj1 (split_two (path f) d)) as (rest & Hrest & Hd);
        [now exists second, more|].
      now exists f, rest.
    + intros (f & rest & Hf & Hcode & Hp & Hd). right. exists f.
      split; [exact Hf|]. rewrite Hcode.
      destruct (proj2 (split_two (path f) d)) as (second & more & Hs);
        [now exists rest|].
      now rewrite Hs.
  - apply fold_left_same. intros s f. destruct (isCodeFile (path f));
      [|reflexivity].
    now destruct (JS.split "/"%char (path f)) as [|first [|second more]].
Qed.

Lemma moduleDirsOf_In (fls : list DiscoveredFile) (d : string) :
  In d (moduleDirsOf fls)
  <-> manifestDirectory fls d
      \/ (~ manifestDirectory fls "" /\ codeDirectory fls d).
Proof.
  unfold moduleDirsOf. cbv zeta.
  rewrite <- !findManifestDirectories_In, <- findCodeDirectories_In.
  set (manifestDirs := findManifestDirectories fls).
  assert (Hbase : forall x, In x (fold_left set_add manifestDirs [])
                            <-> In x manifestDirs).
  { intros x.
    pose proof (fold_set_add_In (fun y : string => Some y) manifestDirs [] x)
      as H.
    cbv beta iota in H. rewrite H. split.
    - intros [[]|(a & Ha & [= ->])]. exact Ha.
    - intros Hx. right. now exists x. }
  destruct (set_has manifestDirs "") eqn:Hroot; cbn [negb].
  - rewrite Hbase. apply set_has_In in Hroot. tauto.
  - assert (Hnot : ~ In "" manifestDirs).
    { intros Hin. apply set_has_In in Hin. congruence. }
    pose proof (fold_set_add_In
                  (fun dir : string =>
                     if negb (existsb
                                (fun manifestDir =>
                                   String.eqb dir manifestDir
                                   || JS.startsWith dir (manifestDir ++ "/"))
                                manifestDirs)
                     then Some dir else None)
                  (findCodeDirectories fls)
                  (fold_left set_add manifestDirs []) d) as H.
    match type of H with
    | In d ?a <-> _ =>
        match goal with
        | |- In d ?b <-> _ => replace b with a
        end
    end.
    + rewrite H, Hbase. split.
      * intros [Hm|(dir & Hdir & Hp)]; [now left|].
        destruct (negb _); [|discriminate]. injection Hp as ->.
        right. now split.
      * intros [Hm|[_ Hcode]]; [now left|].
        destruct (existsb
                    (fun manifestDir =>
                       String.eqb d manifestDir
                       || JS.startsWith d (manifestDir ++ "/"))
                    manifestDirs) eqn:Hcov.
        -- left. apply existsb_exists in Hcov as (md & Hmd & Hc).
           apply orb_true_iff in Hc as [Hc|Hc].
           ++ apply String.eqb_eq in Hc. now subst.
           ++ exfalso. apply findCodeDirectories_In in Hcode
                as (f & rest & _ & _ & _ & Hd).
              apply startsWith_spec in Hc as [b Hb].
              apply includes_false in Hd. apply Hd. exists md, b.
              now rewrite Hb, append_assoc.
        -- right. exists d. split; [exact Hcode|]. now rewrite Hcov.
    + apply fold_left_same. intros s dir. now destruct (negb _).
Qed.

Lemma join_space_length (l : list string) :
  l <> [] -> Forall (fun x => x <> "") l -> JS.join " " l <> "".
Proof.
  destruct l as [|x l]; [congruence|]. intros _ Hall.
  inversion Hall as [|? ? Hx _]; subst.
  destruct l; cbn [JS.join]; [exact Hx|].
  destruct x; [congruence | discriminate].
Qed.

Lemma readmeParagraph_nonempty (lines : list string) :
  forall inCodeBlock paragraphLines,
    Forall (fun x => x <> "") paragraphLines ->
    Forall (fun x => x <> "")
      (readmeParagraph lines inCodeBlock paragraphLines).
Proof.
  induction lines as [|l rest IH]; intros b acc Hacc;
    cbn [readmeParagraph]; [exact Hacc|].
  cbv zeta. destruct (JS.startsWith (JS.trim l) "```"); [now apply IH|].
  destruct b; [now apply IH|].
  destruct (JS.startsWith (JS.trim l) "#").
  { destruct (0 <? _); [exact Hacc | now apply IH]. }
  destruct (String.length (JS.trim l) =? 0) eqn:Hlen.
  { destruct (0 <? _); [exact Hacc | now apply IH]. }
  destruct (_ || _); [now apply IH|].
  apply IH. apply Forall_app. split; [exact Hacc|].
  constructor; [|constructor]. intros E. rewrite E in Hlen. discriminate.
Qed.

Lemma extractDescriptionFromReadme_length (fs : FileSystem)
  (repoRoot moduleDir d : string) :
  extractDescriptionFromReadme fs repoRoot moduleDir = Some d ->
  1 <= String.length d <= 200.
Proof.
  unfold extractDescriptionFromReadme. cbv zeta.
  destruct (readFileSync fs _) as [content|]; [|discriminate].
  pose proof (readmeParagraph_nonempty (JS.split "010"%char content) false []
                (Forall_nil _)) as Hall.
  destruct (readmeParagraph _ false []) as [|x l] eqn:Hp; [discriminate|].
  cbn [List.length Nat.eqb].
  pose proof (join_space_length (x :: l) ltac:(discriminate) Hall) as Hne.
  cbv zeta. generalize dependent (JS.join " " (x :: l)). intros desc Hne.
  destruct (200 <? String.length desc) eqn:Hlong; intros [= <-].
  - rewrite length_append. unfold JS.substring.
    pose proof (take_length_le (Nat.max 0 197 - Nat.min 0 197)
                  (JS.drop (Nat.min 0 197) desc)) as Hl.
    cbn [Nat.max Nat.min Nat.sub String.length] in *. lia.
  - apply Nat.ltb_ge in Hlong.
    destruct desc; [congruence|].
    cbn [String.length] in *. lia.
Qed.

(** X24: The modules of the repo map are the directories of the package
    manifests among the discovered files ([package.json], [Cargo.toml],
    [go.mod], [pyproject.toml], [setup.py]) and, when the root has no
    manifest, also every first path segment under which a code file lies;
    the root is written [.]. With a manifest at the root, directories
    without a manifest give no module. The test [isCovered] changes
    nothing: a first segment has no slash, so it is covered only when it is
    a manifest directory itself. Every module starts without entrypoints,
    key files, responsibilities and subdirectories, and its description,
    when the README gives one, has between 1 and 200 characters. *)
Theorem detectModules_paths (localeCompare : string -> string -> Z)
  (fs : FileSystem) (fls : list DiscoveredFile) (repoRoot p : string) :
  (In p (map m_path (detectModules localeCompare fs fls repoRoot))
   <-> exists d,
         p = (if JS.truthy d then d else ".")
         /\ (manifestDirectory fls d
             \/ (~ manifestDirectory fls "" /\ codeDirectory fls d)))
  /\ Forall (fun m => m_entrypoints m = [] /\ m_key_files m = []
                      /\ m_responsibilities m = []
                      /\ m_subdirectories m = None
                      /\ forall d, m_description m = Some d ->
                                   1 <= String.length d <= 200)
       (detectModules localeCompare fs fls repoRoot).
Proof.
  unfold detectModules. split.
  - rewrite in_map_iff. split.
    + intros (m & <- & Hm).
      apply (Permutation_in _ (stableSort_perm _ _)) in Hm.
      apply in_map_iff in Hm as (d & <- & Hd). exists d.
      split; [reflexivity | now apply moduleDirsOf_In].
    + intros (d & -> & Hd). apply moduleDirsOf_In in Hd.
      exists (mkModule (if JS.truthy d then d else ".")
                (extractDescriptionFromReadme fs repoRoot d) [] [] [] None).
      split; [reflexivity|].
      apply (Permutation_in _ (Permutation_sym (stableSort_perm _ _))).
      apply in_map_iff. now exists d.
  - apply Forall_forall. intros m Hm.
    apply (Permutation_in _ (stableSort_perm _ _)) in Hm.
    apply in_map_iff in Hm as (d & <- & Hd).
    cbn [m_entrypoints m_key_files m_responsibilities m_subdirectories
         m_description].
    do 4 (split; [reflexivity|]). intros descr Hdescr.
    now apply extractDescriptionFromReadme_length in Hdescr.
Qed.

(* ------------------------------------------------------------------ *)
(** ** When the identifiers of the symbols of an adapter are distinct *)

Section AdapterIds.
Import RegexFacts.

Definition noColon (s : string) : Prop :=
  allChars (fun c => negb (isColon c)) s = true.

Lemma toSymbols_distinct_pairs (filePath : string) (l : list AdapterSymbol) :
  Forall (fun a => noColon (a_name a)) l ->
  NoDup (map (fun a => (a_name a, startLine a)) l) ->
  forall ids, NoDup (map symbol_id (fst (toSymbols l filePath ids))).
Proof.
  induction l as [|a l IH]; intros Hw Hs ids; cbn [toSymbols].
  - constructor.
  - inversion Hw as [|? ? Ha Hw']; subst. cbn [map] in Hs.
    inversion Hs as [|? ? Hfresh Hs']; subst.
    unfold adapterSymbolToSymbol.
    pose proof (generateSymbolId_cases filePath (a_name a)
                  (line (start (a_span a))) ids) as Hg.
    destruct (generateSymbolId filePath (a_name a) _ ids None) as [i ids1].
    cbn [fst snd] in Hg. destruct Hg as (Hcase & Hmem & _).
    pose proof (toSymbols_ids filePath l ids1) as Hids.
    specialize (IH Hw' Hs' ids1).
    destruct (toSymbols l filePath ids1) as [syms ids2].
    cbn [fst map symbol_id] in *. constructor; [|exact IH].
    intros Hin. apply in_map_iff in Hin as (s & Hs1 & Hs2).
    destruct (Hids s Hs2) as (b & Hb & Hc).
    assert (Hbw : noColon (a_name b)).
    { rewrite Forall_forall in Hw'. now apply Hw'. }
    destruct Hc as [[_ Hnot]|Hfall].
    + apply Hnot. now rewrite Hs1.
    + rewrite Hs1 in Hfall. destruct Hcase as [[Hbase _]|Hfa].
      * rewrite Hbase in Hfall. unfold baseIdOf, fallbackIdOf in Hfall.
        apply app_inv_head in Hfall. apply app_inv_head in Hfall.
        now apply (word_not_then (fun c => negb (isColon c)) ":"%char
                     (a_name a) (a_name b)
                     ("L" ++ JS.ofZ (startLine b))).
      * rewrite Hfa in Hfall. unfold fallbackIdOf in Hfall.
        apply app_inv_head in Hfall. apply app_inv_head in Hfall.
        apply (word_then (fun c => negb (isColon c)) ":"%char eq_refl
                 _ _ _ _ Ha Hbw) in Hfall as [Hn Hl].
        injection Hl as Hl. apply ofZ_inj in Hl.
        apply Hfresh. apply in_map_iff. exists b.
        split; [|exact Hb]. unfold startLine in *. now rewrite Hn, Hl.
Qed.

End AdapterIds.

(** X25: The identifiers that [adapterSymbolToSymbol] gives to the symbols
    of one file are pairwise distinct, whatever identifiers were already
    taken, as soon as no name contains a colon and no two symbols have both
    the same name and the same start line. (Both conditions matter: two
    symbols with one name on one line can repeat the [:L<line>] fallback,
    and so can a symbol whose name ends like a fallback.) *)
Theorem adapter_ids_distinct (adapterSymbols : list AdapterSymbol)
  (filePath : string) (existingIds : StringSet) :
  Forall (fun a => noColon (a_name a)) adapterSymbols ->
  NoDup (map (fun a => (a_name a, startLine a)) adapterSymbols) ->
  NoDup (map symbol_id (fst (toSymbols adapterSymbols filePath existingIds))).
Proof. intros Hn Hp. now apply toSymbols_distinct_pairs. Qed.

(** Three overloads of [f], and a getter and a setter on one line. *)
Definition overloads : list AdapterSymbol :=
  let sym (name : string) (l : Z) :=
    mkAdapterSymbol name KMethod (mkSpan (mkPosition l 2) (mkPosition l 30))
      None None None in
  [ sym "f" 1%Z; sym "f" 5%Z; sym "f" 9%Z; sym "get" 12%Z; sym "set" 12%Z ].

Lemma adapter_ids_distinct_witness :
  map symbol_id (fst (toSymbols overloads "src/a.ts" ["src/a.ts::f:L5"]))
  = [ "src/a.ts::f"; "src/a.ts::f:L5"; "src/a.ts::f:L9"; "src/a.ts::get";
      "src/a.ts::set" ]
  /\ NoDup (map symbol_id
              (fst (toSymbols overloads "src/a.ts" ["src/a.ts::f:L5"]))).
Proof.
  split; [reflexivity|].
  apply (adapter_ids_distinct overloads "src/a.ts" ["src/a.ts::f:L5"]).
  - repeat constructor.
  - repeat constructor; cbn; intuition congruence.
Defined.

(* ------------------------------------------------------------------ *)
(** ** Reading the index *)

Lemma symbolLines_written (ls : list string) :
  Forall (fun t => noLF t = true /\ JS.truthy (JS.trim t) = true) ls ->
  IndexAPI.symbolLines (linesText ls) = ls.
Proof.
  intros H. unfold IndexAPI.symbolLines.
  rewrite split_linesText by (apply (Forall_impl _ (fun t Ht => proj1 Ht) H)).
  rewrite filter_app. cbn [filter].
  change (JS.truthy (JS.trim "")) with false. cbv iota. rewrite app_nil_r.
  induction H as [|t ls [_ Ht] _ IH]; [reflexivity|].
  cbn [filter]. rewrite Ht. now f_equal.
Qed.

(** X26: What the builder writes, the API reads. After a run of the builder
    that wrote its artifacts, if each serialized symbol is one non-blank
    line that [JSON.parse] turns back into the symbol, then
    [getAllSymbols] on the resulting disk returns exactly the symbols of
    the run, in their order, and [getSymbolsInFile] returns those of them
    whose file is the one asked for. *)
Theorem api_reads_built_symbols (E : Externals)
  (parseSymbol : string -> option Symbol) (options : IndexBuildOptions)
  (w : World) (previous : PreviousIndex) (r : IndexBuildResult)
  (a : Artifacts E) (ops : list FsOp) (disk : Disk) (filePath : string) :
  buildIndex E options w previous = Resolved r (Some (a, ops)) ->
  (forall s, In s (art_symbols a) ->
     JS.includes (stringifySymbol E s) LF = false
     /\ JS.truthy (JS.trim (stringifySymbol E s)) = true
     /\ parseSymbol (stringifySymbol E s) = Some s) ->
  IndexAPI.getAllSymbols parseSymbol (runOps disk ops) (arkDir options)
  = inr (art_symbols a)
  /\ IndexAPI.getSymbolsInFile parseSymbol (runOps disk ops) (arkDir options)
       filePath
     = inr (filter (fun s => String.eqb (file s) filePath) (art_symbols a)).
Proof.
  intros Hrun Hsyms.
  destruct (buildIndex_ops E options w previous r a ops Hrun) as [-> _].
  destruct (disk_after_writeIndexFiles (RepoMap E) TestMap (prettyMeta E)
              (prettyRepoMap E) (prettyTestMap E) (prettyFileHashes E)
              (stringifySymbol E) disk (indexDirOf (arkDir options))
              (art_meta a) (art_repo_map a) (art_test_map a)
              (art_file_hashes a) (art_symbols a))
    as (_ & _ & Hdisk & _).
  unfold IndexAPI.getAllSymbols, IndexAPI.getSymbolsInFile.
  fold (indexDirOf (arkDir options)). rewrite Hdisk.
  rewrite symbolLines_written.
  - assert (Hparse : forall s, In s (art_symbols a) ->
                       parseSymbol (stringifySymbol E s) = Some s)
      by (intros s Hs; now destruct (Hsyms s Hs) as (_ & _ & ?)).
    clear Hsyms Hdisk Hrun. revert Hparse.
    generalize (art_symbols a) as syms. intros syms Hparse.
    split; f_equal.
    + induction syms as [|s l IH]; [reflexivity|].
      cbn [map flat_map]. rewrite (Hparse s (or_introl eq_refl)).
      cbn [app]. f_equal. apply IH. intros x Hx. apply Hparse. now right.
    + induction syms as [|s l IH]; [reflexivity|].
      cbn [map flat_map filter]. rewrite (Hparse s (or_introl eq_refl)).
      rewrite IH by (intros x Hx; apply Hparse; now right).
      now destruct (String.eqb (file s) filePath).
  - apply Forall_forall. intros t Ht.
    apply in_map_iff in Ht as (s & <- & Hs).
    destruct (Hsyms s Hs) as (H1 & H2 & _). split; [|exact H2].
    unfold noLF. now rewrite H1.
Qed.

(** A parser that knows the symbols of the example build by their
    serialization. *)
Definition twoFilesSymbolParser (l : string) : option Symbol :=
  match buildIndex plainHost (plainOptions false) (twoFilesWorld 0) noIndex with
  | Resolved _ (Some (a, _)) =>
      find (fun s => String.eqb (stringifySymbol plainHost s) l)
        (art_symbols a)
  | _ => None
  end.

Lemma api_reads_built_symbols_witness :
  exists r a ops,
    buildIndex plainHost (plainOptions false) (twoFilesWorld 0) noIndex
    = Resolved r (Some (a, ops))
    /\ map name (art_symbols a) = ["f"]
    /\ IndexAPI.getAllSymbols twoFilesSymbolParser
         (runOps (fun _ => None) ops) "/repo/.ark"
       = inr (art_symbols a)
    /\ IndexAPI.getSymbolsInFile twoFilesSymbolParser
         (runOps (fun _ => None) ops) "/repo/.ark" "README.md"
       = inr (filter (fun s => String.eqb (file s) "README.md")
                (art_symbols a)).
Proof.
  do 3 eexists. split; [vm_compute; reflexivity|].
  split; [reflexivity|].
  eapply (api_reads_built_symbols plainHost twoFilesSymbolParser
            (plainOptions false) (twoFilesWorld 0) noIndex _ _ _
            (fun _ => None) "README.md").
  - vm_compute; reflexivity.
  - intros s [<-|[]]. vm_compute. now repeat split.
Defined.

(** *** Searching symbols *)

Lemma insertBy_sorted {A : Type} (cmp : A -> A -> Z) (le : A -> A -> Prop) :
  (forall a b, (cmp a b <? 0)%Z = true -> le a b) ->
  (forall a b, (cmp a b <? 0)%Z = false -> le b a) ->
  (forall a b c, le a b -> le b c -> le a c) ->
  forall x l, StronglySorted le l -> StronglySorted le (insertBy cmp x l).
Proof.
  intros Hlt Hge Htrans x l Hs.
  induction Hs as [|y l Hs IH Hy]; cbn [insertBy].
  - constructor; constructor.
  - destruct (cmp x y <? 0)%Z eqn:Hc.
    + constructor; [now constructor|]. constructor; [now apply Hlt|].
      revert Hy. apply Forall_impl. intros z Hz.
      apply (Htrans x y z); [now apply Hlt | exact Hz].
    + constructor; [exact IH|].
      apply (Permutation_Forall (Permutation_sym (insertBy_perm cmp x l))).
      constructor; [now apply Hge | exact Hy].
Qed.

Lemma stableSort_sorted {A : Type} (cmp : A -> A -> Z) (le : A -> A -> Prop) :
  (forall a b, (cmp a b <? 0)%Z = true -> le a b) ->
  (forall a b, (cmp a b <? 0)%Z = false -> le b a) ->
  (forall a b c, le a b -> le b c -> le a c) ->
  forall l, StronglySorted le (stableSort cmp l).
Proof.
  intros Hlt Hge Htrans l. unfold stableSort.
  assert (H : forall acc, StronglySorted le acc ->
                          StronglySorted le
                            (fold_left (fun s x => insertBy cmp x s) l acc)).
  { induction l as [|x l IH]; intros acc Hacc; cbn [fold_left];
      [exact Hacc|].
    apply IH. now apply insertBy_sorted. }
  apply H. constructor.
Qed.

(** [a] may stand before [b] in the answer to a query: an exact match
    never comes after another match, and of two matches of the same sort
    the one with the shorter name never comes later. *)
Definition mayPrecede (lowerQuery : string) (a b : Symbol) : Prop :=
  let aExact := String.eqb (JS.toLowerCase (name a)) lowerQuery in
  let bExact := String.eqb (JS.toLowerCase (name b)) lowerQuery in
  (aExact = true \/ bExact = false)
  /\ (aExact = bExact ->
      String.length (name a) <= String.length (name b)).

Lemma byRelevance_sorted (lowerQuery : string) (l : list Symbol) :
  StronglySorted (mayPrecede lowerQuery)
    (stableSort (IndexAPI.byRelevance lowerQuery) l).
Proof.
  apply stableSort_sorted; unfold IndexAPI.byRelevance, mayPrecede; cbv zeta.
  - intros a b.
    destruct (String.eqb (JS.toLowerCase (name a)) lowerQuery),
      (String.eqb (JS.toLowerCase (name b)) lowerQuery); cbn [andb negb];
      rewrite ?Z.ltb_lt; intros H; try (exfalso; lia);
      (split; [tauto|]); intros E; try discriminate; lia.
  - intros a b.
    destruct (String.eqb (JS.toLowerCase (name a)) lowerQuery),
      (String.eqb (JS.toLowerCase (name b)) lowerQuery); cbn [andb negb];
      rewrite ?Z.ltb_ge; intros H; try (exfalso; lia);
      (split; [tauto|]); intros E; try discriminate; lia.
  - intros a b c.
    destruct (String.eqb (JS.toLowerCase (name a)) lowerQuery),
      (String.eqb (JS.toLowerCase (name b)) lowerQuery),
      (String.eqb (JS.toLowerCase (name c)) lowerQuery);
      intros [H1 H2] [H3 H4]; (split; [tauto|]); intros E;
      try discriminate; try (destruct H1; discriminate);
      try (destruct H3; discriminate);
      specialize (H2 eq_refl); specialize (H4 eq_refl); lia.
Qed.

Lemma findLoop_firstn (parseSymbol : string -> option Symbol)
  (lowerQuery : string) (options : FindSymbolsOptions) (lines : list string) :
  forall results,
    IndexAPI.findLoop parseSymbol lowerQuery options lines results
    = (results
       ++ firstn (Z.to_nat (fo_limit options
                            - Z.of_nat (List.length results)))
            (filter (IndexAPI.isMatch lowerQuery options)
               (flat_map (fun l => match parseSymbol l with
                                   | Some symbol => [symbol]
                                   | None => []
                                   end) lines)))%list.
Proof.
  induction lines as [|l rest IH]; intros results;
    cbn [IndexAPI.findLoop flat_map].
  - cbn [filter]. now rewrite firstn_nil, app_nil_r.
  - destruct (Z.leb_spec (fo_limit options) (Z.of_nat (List.length results)))
      as [Hfull|Hroom].
    + replace (Z.to_nat _) with 0 by lia. now rewrite app_nil_r.
    + destruct (parseSymbol l) as [symbol|]; [|apply IH].
      cbn [app filter].
      destruct (IndexAPI.isMatch lowerQuery options symbol); [|apply IH].
      rewrite IH, length_app, <- app_assoc. cbn [List.length app].
      replace (Z.to_nat (fo_limit options
                         - Z.of_nat (List.length results)))
        with (S (Z.to_nat (fo_limit options
                           - Z.of_nat (List.length results + 1)))) by lia.
      reflexivity.
Qed.

(** X27: [findSymbols] applies its limit before it sorts. Its answer is a
    rearrangement of the first [limit] symbols of [symbols.jsonl], in file
    order, whose kind is the one asked for (if any) and whose lower-cased
    name starts with the lower-cased query (or equals it, with
    [exactMatch]); no answer at all for a limit of zero or less. Within
    the answer no match comes before an exact match, and of two matches of
    the same sort the shorter name is never later. So an exact match
    beyond the first [limit] matches of the file is not returned. When
    [symbols.jsonl] is missing the call fails as [getAllSymbols] does. *)
Theorem findSymbols_limit_then_sort (parseSymbol : string -> option Symbol)
  (d : Disk) (arkDirPath query : string) (options : FindSymbolsOptions) :
  match IndexAPI.getAllSymbols parseSymbol d arkDirPath with
  | inl e =>
      IndexAPI.findSymbols parseSymbol d arkDirPath query options = inl e
  | inr all =>
      exists results,
        IndexAPI.findSymbols parseSymbol d arkDirPath query options
        = inr results
        /\ Permutation results
             (firstn (Z.to_nat (fo_limit options))
                (filter (IndexAPI.isMatch (JS.toLowerCase query) options)
                   all))
        /\ StronglySorted (mayPrecede (JS.toLowerCase query)) results
  end.
Proof.
  unfold IndexAPI.getAllSymbols, IndexAPI.findSymbols.
  destruct (d _) as [content|]; [|reflexivity].
  cbv zeta. eexists. split; [reflexivity|]. split.
  - rewrite stableSort_perm, findLoop_firstn. cbn [app List.length].
    now rewrite Z.sub_0_r.
  - now apply byRelevance_sorted.
Qed.

(* ------------------------------------------------------------------ *)
(** ** The baseline Python extractor *)

Section PythonSymbols.
Import Regex RegexFacts RegexShapes.

(** An expression without groups leaves the captures as they are. *)
Fixpoint noGroups (r : re) : bool :=
  match r with
  | Grp _ _ => false
  | Seq a b | Alt a b => noGroups a && noGroups b
  | Star _ a => noGroups a
  | _ => true
  end.

Lemma matches_noGroups (ml : bool) (r : re) :
  noGroups r = true ->
  forall p c p' c', matches ml r p c p' c' -> c' = c.
Proof.
  induction r as [|f| | |a IHa b IHb|a IHa b IHb|g a IHa|n a IHa|n];
    cbn [noGroups]; intros Hr p c p' c' H; cbn [matches] in H.
  - now destruct H.
  - now destruct H as (? & ? & _ & _ & _ & ->).
  - now destruct H as (_ & _ & ->).
  - now destruct H as (_ & _ & ->).
  - apply andb_true_iff in Hr as [Ha Hb].
    destruct H as (p1 & c1 & H1 & H2).
    apply (IHa Ha) in H1. apply (IHb Hb) in H2. congruence.
  - apply andb_true_iff in Hr as [Ha Hb].
    destruct H as [H|H]; [now apply (IHa Ha) in H | now apply (IHb Hb) in H].
  - induction H as [p c|p p1 p2 c c1 c2 Hstep _ _ IH]; [reflexivity|].
    apply (IHa Hr) in Hstep. congruence.
  - discriminate.
  - destruct (capture n c); now destruct H.
Qed.

(** The name of a constant: an upper-case letter, then upper-case letters,
    digits and underscores. *)
Definition isConstantName (nm : string) : Prop :=
  exists a w, nm = String a w /\ PythonExtractor.isUpper a = true
              /\ allChars PythonExtractor.isUpperDigitUnderscore w = true.

Lemma class_sound (l : string) (mt : result) :
  exec false PythonExtractor.classPattern l = Some mt ->
  isWord (PythonExtractor.groupOf 1 mt).
Proof.
  intros He. apply exec_sound in He as (u & w & v' & -> & Hm & _).
  unfold PythonExtractor.classPattern in Hm. cbn [seq] in Hm.
  cbn [matches] in Hm.
  destruct Hm as (p0 & c0 & (Hbol & -> & ->) & p1 & c1 & Hkw & p2 & c2 & Hsp
                  & p3 & c3 & Hname & Htail).
  apply (matches_lit false) in Hkw as (v1 & Hv1 & -> & ->).
  rewrite Hv1 in *.
  apply (matches_plus false) in Hsp as (sp & v2 & -> & _ & _ & -> & ->).
  assert (Hgrp : matches false (Grp 1 (plus word))
                   (posOf ((u ++ "class") ++ sp) v2) [] p3 c3) by exact Hname.
  apply matches_name in Hgrp as (nm & Hc & Hw).
  apply (matches_noGroups false) in Htail; [|reflexivity].
  unfold PythonExtractor.groupOf, group. rewrite Htail, Hc. exact Hw.
Qed.

Lemma func_sound (l : string) (mt : result) :
  exec false PythonExtractor.funcPattern l = Some mt ->
  isWord (PythonExtractor.groupOf 2 mt)
  /\ (JS.startsWith l "async" = true \/ JS.startsWith l "def" = true).
Proof.
  intros He. apply exec_sound in He as (u & w & v' & -> & Hm & _).
  unfold PythonExtractor.funcPattern in Hm. cbn [seq] in Hm.
  cbn [matches] in Hm.
  destruct Hm as (p0 & c0 & (Hbol & -> & ->) & p1 & c1 & Hopt & p2 & c2 & Hkw
                  & p3 & c3 & Hsp & p4 & c4 & Hname & p5 & c5 & Hsp' & Hpar).
  apply atBol_posOf in Hbol. subst u. cbn [append].
  assert (Hpre : exists pre v0,
             w ++ v' = pre ++ v0 /\ p1 = posOf ("" ++ pre) v0
             /\ (pre = "" \/ JS.startsWith pre "async" = true)).
  { destruct Hopt as [(c6 & (q & d & Ha & Hs) & ->)|[-> ->]].
    - apply (matches_lit false) in Ha as (v1 & Hv1 & -> & ->).
      rewrite Hv1 in *.
      apply (matches_plus false) in Hs as (sp0 & v2 & -> & _ & _ & -> & _).
      exists ("async" ++ sp0), v2. rewrite !append_assoc.
      repeat split. right. apply startsWith_prefix.
    - exists "", (w ++ v'). repeat split. now left. }
  destruct Hpre as (pre & v0 & Hl & -> & Hpre). rewrite Hl.
  apply (matches_lit false) in Hkw as (v1 & -> & -> & ->).
  apply (matches_plus false) in Hsp as (sp & v2 & -> & _ & _ & -> & ->).
  assert (Hgrp : matches false (Grp 2 (plus word))
                   (posOf ((("" ++ pre) ++ "def") ++ sp) v2) c1 p4 c4)
    by exact Hname.
  apply matches_name in Hgrp as (nm & Hc & Hw).
  apply (matches_noGroups false) in Hsp'; [|reflexivity].
  apply (matches_noGroups false) in Hpar; [|reflexivity].
  split.
  - unfold PythonExtractor.groupOf, group. rewrite Hpar, Hsp', Hc. exact Hw.
  - destruct Hpre as [->|Hpre]; [right; reflexivity | left].
    apply startsWith_spec in Hpre as [b ->]. apply startsWith_spec.
    exists (b ++ "def" ++ sp ++ v2). now rewrite !append_assoc.
Qed.

Lemma var_sound (l : string) (mt : result) :
  exec false PythonExtractor.varPattern l = Some mt ->
  isConstantName (PythonExtractor.groupOf 1 mt)
  /\ exists a rest, l = String a rest /\ PythonExtractor.isUpper a = true.
Proof.
  intros He. apply exec_sound in He as (u & w & v' & -> & Hm & _).
  unfold PythonExtractor.varPattern in Hm. cbn [seq] in Hm.
  cbn [matches] in Hm.
  destruct Hm as (p0 & c0 & (Hbol & -> & ->) & p1 & c1
                  & (c2 & (p3 & c3 & Hup & Hrun) & ->) & Htail).
  apply atBol_posOf in Hbol. subst u. cbn [append].
  assert (Hup' : matches false (Chr PythonExtractor.isUpper)
                   (posOf "" (w ++ v')) [] p3 c3) by exact Hup.
  apply (matches_Chr false) in Hup' as (a & v1 & Hl & Ha & -> & ->).
  assert (Hrun' : matches false
                    (Star true (Chr PythonExtractor.isUpperDigitUnderscore))
                    (posOf ("" ++ String a "") v1) [] p1 c2) by exact Hrun.
  apply (matches_run false true) in Hrun' as (r & v2 & -> & Hr & -> & ->).
  assert (Hcaps : groups mt
                  = [(1, JS.take
                           (idx (posOf (("" ++ String a "") ++ r) v2)
                            - idx (posOf "" (w ++ v')))
                           (rest (posOf "" (w ++ v'))))]).
  { assert (Hn : noGroups
                   (Seq (star space)
                      (Seq (opt (seq [chr ":"%char; star space; plus word;
                                      star space]))
                         (chr "="%char))) = true) by reflexivity.
    exact (matches_noGroups false _ Hn _ _ _ _ Htail). }
  rewrite Hl in *. split.
  - unfold PythonExtractor.groupOf, group. rewrite Hcaps.
    cbn [capture Nat.eqb].
    change (String a (r ++ v2)) with ((String a r) ++ v2).
    change (("" ++ String a "") ++ r) with ("" ++ String a r).
    rewrite take_span. now exists a, r.
  - now exists a, (r ++ v2).
Qed.

Lemma func_excludes_var (l : string) (mt : result) :
  exec false PythonExtractor.funcPattern l = Some mt ->
  exec false PythonExtractor.varPattern l = None.
Proof.
  intros Hf. destruct (exec false PythonExtractor.varPattern l) as [mv|] eqn:Hv;
    [|reflexivity].
  apply func_sound in Hf as [_ Hstart].
  apply var_sound in Hv as [_ (a & rest & -> & Ha)].
  destruct Hstart as [H|H]; cbn [JS.startsWith] in H;
    apply andb_true_iff in H as [H _]; apply Ascii.eqb_eq in H; subst a;
    discriminate.
Qed.

End PythonSymbols.

Lemma blockEnd_bounds (ls : list string) (baseIndent : nat) :
  forall i e,
    e <= i ->
    e <= PythonExtractor.blockEnd ls i baseIndent e
    /\ PythonExtractor.blockEnd ls i baseIndent e
       <= Nat.max e (i + List.length ls - 1).
Proof.
  induction ls as [|l ls IH]; intros i e He; cbn [PythonExtractor.blockEnd].
  - lia.
  - cbv zeta. cbn [List.length]. destruct (_ || _).
    + destruct (IH (S i) e) as [H1 H2]; lia.
    + destruct (_ <=? baseIndent); [lia|].
      destruct (IH (S i) i) as [H1 H2]; lia.
Qed.

Lemma findPythonBlockEnd_bounds (lines : list string) (startLine indent : nat) :
  startLine < List.length lines ->
  startLine <= PythonExtractor.findPythonBlockEnd lines startLine indent
  /\ PythonExtractor.findPythonBlockEnd lines startLine indent
     < List.length lines.
Proof.
  intros Hlt. unfold PythonExtractor.findPythonBlockEnd.
  destruct (blockEnd_bounds (skipn (S startLine) lines) indent (S startLine)
              startLine) as [H1 H2]; [lia|].
  rewrite length_skipn in H2. lia.
Qed.

(** The shape of the name of a symbol of the Python extractor, by kind. *)
Definition pythonName (s : AdapterSymbol) : Prop :=
  match a_kind s with
  | KClass | KFunction => isWord (a_name s)
  | KMethod =>
      exists className method,
        a_name s = className ++ "." ++ method
        /\ isWord className /\ isWord method
  | KConstant => isConstantName (a_name s)
  | _ => False
  end.

(** A symbol of the line with index [i], well formed. *)
Definition pythonSymbolAt (lines : list string) (i : nat) (s : AdapterSymbol)
  : Prop :=
  startLine s = (Z.of_nat i + 1)%Z
  /\ (startLine s <= line (end_ (a_span s)))%Z
  /\ (line (end_ (a_span s)) <= Z.of_nat (List.length lines))%Z
  /\ pythonName s.

Definition classIsWord (ctx : PythonExtractor.Context) : Prop :=
  forall c, PythonExtractor.currentClass ctx = Some c -> isWord c.

Lemma lineStep_spec (lines : list string) (i : nat) (l : string)
  (ctx : PythonExtractor.Context) :
  i < List.length lines ->
  classIsWord ctx ->
  classIsWord (fst (PythonExtractor.lineStep lines i l ctx))
  /\ List.length (snd (PythonExtractor.lineStep lines i l ctx)) <= 1
  /\ Forall (pythonSymbolAt lines i)
       (snd (PythonExtractor.lineStep lines i l ctx)).
Proof.
  intros Hi Hctx. unfold PythonExtractor.lineStep. cbv zeta.
  set (trimmedLine := JS.trimStart l).
  set (indent := String.length l - String.length trimmedLine).
  set (ctx1 := match PythonExtractor.currentClass ctx with
               | Some _ => _
               | None => ctx
               end).
  assert (Hctx1 : classIsWord ctx1).
  { subst ctx1. destruct (PythonExtractor.currentClass ctx) eqn:Hc;
      [|exact Hctx].
    destruct (_ && _); [intros c; discriminate | exact Hctx]. }
  clearbody ctx1.
  pose proof (findPythonBlockEnd_bounds lines i indent Hi) as [Hb1 Hb2].
  destruct (Regex.exec false PythonExtractor.classPattern trimmedLine)
    as [mt|] eqn:Hclass.
  - destruct (indent =? 0) eqn:Hind.
    + apply class_sound in Hclass. cbn [fst snd List.length].
      split; [intros c [= <-]; exact Hclass|]. split; [lia|].
      constructor; [|constructor]. unfold pythonSymbolAt, pythonName, startLine.
      cbn [a_span a_kind a_name start end_ line]. repeat split; try lia.
      * apply Hclass.
      * apply Hclass.
    + cbn [fst snd]. split; [exact Hctx1|].
      destruct (Regex.exec false PythonExtractor.funcPattern trimmedLine)
        as [mf|] eqn:Hfunc.
      * rewrite (func_excludes_var _ _ Hfunc). rewrite app_nil_r.
        apply func_sound in Hfunc as [Hname _].
        destruct (_ || _); [|split; [cbn; lia | constructor]].
        split; [cbn; lia|]. constructor; [|constructor].
        unfold pythonSymbolAt, pythonName, startLine.
        cbn [a_span a_kind a_name start end_ line].
        split; [lia|]. split; [lia|]. split; [lia|].
        destruct (PythonExtractor.currentClass ctx1) as [c|] eqn:Hc;
          [|exact Hname].
        destruct (PythonExtractor.currentClassIndent ctx1 <? indent);
          [|exact Hname].
        pose proof (Hctx1 c Hc) as Hcw.
        assert (Ht : JS.truthy c = true).
        { destruct Hcw as [_ Hne]. destruct c; [now destruct Hne|reflexivity]. }
        rewrite Ht. cbn [andb]. now exists c, (PythonExtractor.groupOf 2 mf).
      * cbn [app]. destruct (Regex.exec false PythonExtractor.varPattern trimmedLine)
          as [mv|] eqn:Hvar; [|split; [cbn; lia | constructor]].
        split; [cbn; lia | constructor].
  - cbn [fst snd]. split; [exact Hctx1|].
    destruct (Regex.exec false PythonExtractor.funcPattern trimmedLine)
      as [mf|] eqn:Hfunc.
    + rewrite (func_excludes_var _ _ Hfunc). rewrite app_nil_r.
      apply func_sound in Hfunc as [Hname _].
      destruct (_ || _); [|split; [cbn; lia | constructor]].
      split; [cbn; lia|]. constructor; [|constructor].
      unfold pythonSymbolAt, pythonName, startLine.
      cbn [a_span a_kind a_name start end_ line].
      split; [lia|]. split; [lia|]. split; [lia|].
      destruct (PythonExtractor.currentClass ctx1) as [c|] eqn:Hc;
        [|exact Hname].
      destruct (PythonExtractor.currentClassIndent ctx1 <? indent);
        [|exact Hname].
      pose proof (Hctx1 c Hc) as Hcw.
      assert (Ht : JS.truthy c = true).
      { destruct Hcw as [_ Hne]. destruct c; [now destruct Hne|reflexivity]. }
      rewrite Ht. cbn [andb]. now exists c, (PythonExtractor.groupOf 2 mf).
    + cbn [app]. destruct (Regex.exec false PythonExtractor.varPattern trimmedLine)
        as [mv|] eqn:Hvar; [|split; [cbn; lia | constructor]].
      apply var_sound in Hvar as [Hname _].
      destruct (indent =? 0); [|split; [cbn; lia | constructor]].
      split; [cbn; lia|]. constructor; [|constructor].
      unfold pythonSymbolAt, pythonName, startLine.
      cbn [a_span a_kind a_name start end_ line].
      split; [lia|]. split; [lia|]. split; [lia | exact Hname].
Qed.

Lemma python_scanLines (lines : list string) (todo : list string) :
  forall i ctx,
    i + List.length todo <= List.length lines ->
    classIsWord ctx ->
    let syms := PythonExtractor.scanLines lines todo i ctx in
    StronglySorted Z.lt (map startLine syms)
    /\ Forall (fun s => (Z.of_nat i < startLine s)%Z) syms
    /\ Forall (fun s => exists j, pythonSymbolAt lines j s) syms.
Proof.
  induction todo as [|l todo IH]; intros i ctx Hi Hctx;
    cbn [PythonExtractor.scanLines].
  - cbv zeta. repeat split; constructor.
  - cbn [List.length] in Hi.
    destruct (lineStep_spec lines i l ctx ltac:(lia) Hctx)
      as (Hctx' & Hlen & Hat).
    destruct (PythonExtractor.lineStep lines i l ctx) as [ctx' pushed].
    cbn [fst snd] in *.
    destruct (IH (S i) ctx' ltac:(lia) Hctx') as (Hs & Hlt & Hall).
    cbv zeta in *.
    assert (Hlt' : Forall (fun s => (Z.of_nat i < startLine s)%Z)
                     (PythonExtractor.scanLines lines todo (S i) ctx')).
    { revert Hlt. apply Forall_impl. intros s. lia. }
    destruct pushed as [|s [|s' more]]; [now repeat split | |cbn in Hlen; lia].
    inversion Hat as [|? ? (Hline & Hrest) _]; subst.
    cbn [app map]. repeat split.
    + constructor; [exact Hs|]. rewrite Forall_map.
      revert Hlt. apply Forall_impl. intros x. lia.
    + constructor; [lia | exact Hlt'].
    + constructor; [now exists i | exact Hall].
Qed.

Lemma pythonName_noColon (s : AdapterSymbol) :
  pythonName s -> noColon (a_name s).
Proof.
  unfold pythonName, noColon.
  assert (Hconst : forall w,
            RegexFacts.allChars PythonExtractor.isUpperDigitUnderscore w = true ->
            RegexFacts.allChars (fun c => negb (isColon c)) w = true).
  { induction w as [|a w IHw]; [reflexivity|]. cbn [RegexFacts.allChars].
    intros H. apply andb_true_iff in H as [Ha Hw]. rewrite (IHw Hw).
    rewrite andb_true_r. unfold isColon.
    destruct (Ascii.eqb_spec a ":"%char) as [->|]; [discriminate|reflexivity]. }
  destruct (a_kind s); try contradiction.
  - intros [H _]. now apply word_noColon.
  - intros [H _]. now apply word_noColon.
  - intros (c & m & -> & [Hc _] & [Hm _]).
    rewrite !RegexFacts.allChars_app. cbn [RegexFacts.allChars].
    rewrite (word_noColon c Hc), (word_noColon m Hm). reflexivity.
  - intros (a & w & -> & Ha & Hw). cbn [RegexFacts.allChars].
    rewrite (Hconst w Hw), andb_true_r. unfold isColon.
    destruct (Ascii.eqb_spec a ":"%char) as [->|]; [discriminate|reflexivity].
Qed.

Lemma increasing_pairs (l : list AdapterSymbol) :
  StronglySorted Z.lt (map startLine l) ->
  NoDup (map (fun a => (a_name a, startLine a)) l).
Proof.
  induction l as [|a l IH]; cbn [map]; intros Hs; [constructor|].
  inversion Hs as [|? ? Hs' Hlt]; subst. constructor; [|now apply IH].
  intros Hin. apply in_map_iff in Hin as (b & [= _ Hb] & Hin).
  rewrite Forall_map in Hlt. rewrite Forall_forall in Hlt.
  specialize (Hlt b Hin). lia.
Qed.

(** X28: For every content, the symbols of the baseline Python extractor
    come in the order of their start lines, which increase strictly (no
    line gives two symbols: a line cannot be both a [def] and a constant).
    Each span starts on a line of the content and ends on the same or a
    later line of the content. The name of a class or a function is a run
    of word characters, the name of a method is such a class name, a dot
    and such a name, and the name of a constant is an upper-case letter
    followed by upper-case letters, digits and underscores; there are no
    other kinds. Hence the identifiers that [adapterSymbolToSymbol] gives
    to the symbols of a Python file are pairwise distinct, whatever
    identifiers are taken. *)
Theorem python_symbols (content filePath : string) (existingIds : StringSet) :
  let syms := PythonExtractor.extractPythonSymbols content filePath in
  StronglySorted Z.lt (map startLine syms)
  /\ Forall (fun s =>
               (1 <= startLine s)%Z
               /\ (startLine s <= line (end_ (a_span s)))%Z
               /\ (line (end_ (a_span s))
                   <= Z.of_nat (List.length (JS.split "010"%char content)))%Z
               /\ pythonName s) syms
  /\ NoDup (map symbol_id (fst (toSymbols syms filePath existingIds))).
Proof.
  cbv zeta. unfold PythonExtractor.extractPythonSymbols. cbv zeta.
  destruct (python_scanLines (JS.split "010"%char content)
              (JS.split "010"%char content) 0
              (PythonExtractor.mkContext None 0) ltac:(lia))
    as (Hs & _ & Hall); [intros c; discriminate|].
  cbv zeta in *. split; [exact Hs|]. split.
  - revert Hall. apply Forall_impl.
    intros s (j & Hline & Hle & Hend & Hname). repeat split; try assumption.
    lia.
  - apply toSymbols_distinct_pairs; [|now apply increasing_pairs].
    revert Hall. apply Forall_impl. intros s (j & _ & _ & _ & Hname).
    now apply pythonName_noColon.
Qed.

(** A check of the extractor on a small module: names, kinds, first and
    last lines, visibilities. *)
Example extractPythonSymbols_example :
  map (fun s => (a_name s, a_kind s, line (start (a_span s)),
                 line (end_ (a_span s)), a_visibility s))
    (PythonExtractor.extractPythonSymbols
       (unlines
          [ "import os";
            "MAX_SIZE: int = 10";
            "class Foo(Base):";
            "    '''Doc of Foo.'''";
            "    def bar(self):";
            "        return 1";
            "";
            "    async def _baz(self, x):";
            "        return 2";
            "def top(a,";
            "        b):";
            "    return a";
            "class _Hidden:";
            "    X = 1" ])
       "m.py")
  = [ ("MAX_SIZE", KConstant, 2, 2, Some VExport);
      ("Foo", KClass, 3, 9, Some VExport);
      ("Foo.bar", KMethod, 5, 6, Some VExport);
      ("Foo._baz", KMethod, 8, 9, Some VInternal);
      ("top", KFunction, 10, 12, Some VExport);
      ("_Hidden", KClass, 13, 14, Some VPrivate) ]%Z.
Proof. vm_compute. reflexivity. Qed.

(* ------------------------------------------------------------------ *)
(** ** The extraction loop of a build that reuses nothing *)

(** A name that keeps an identifier readable: not empty, no colon. *)
Definition plainName (n : string) : Prop := noColon n /\ n <> "".

Lemma word_plainName (n : string) : isWord n -> plainName n.
Proof. intros [Hw Hne]. split; [now apply word_noColon | exact Hne]. Qed.

Lemma pythonName_plainName (s : AdapterSymbol) :
  pythonName s -> plainName (a_name s).
Proof.
  intros H. split; [now apply pythonName_noColon|].
  unfold pythonName in H. destruct (a_kind s); try contradiction.
  - now destruct H.
  - now destruct H.
  - destruct H as (c & m & -> & [_ Hc] & _). now destruct c.
  - destruct H as (a & w & -> & _). discriminate.
Qed.

Lemma plainName_first (n t : string) :
  plainName n -> JS.startsWith (n ++ t) ":" = false.
Proof.
  intros [Hw Hne]. destruct n as [|a n]; [now destruct Hne|].
  unfold noColon in Hw. cbn [RegexFacts.allChars] in Hw.
  apply andb_true_iff in Hw as [Ha _].
  cbn [append JS.startsWith]. unfold isColon in Ha.
  destruct (Ascii.eqb_spec ":"%char a) as [<-|]; [discriminate|].
  reflexivity.
Qed.

Lemma plainName_base (n : string) : plainName n -> plainTail n.
Proof.
  intros H. split.
  - rewrite <- (append_nil_r n). now apply plainName_first.
  - apply noColon_noColonPair, H.
Qed.

Lemma plainName_fallback (n : string) (l : Z) :
  plainName n -> plainTail (n ++ ":L" ++ JS.ofZ l).
Proof.
  intros H. split; [now apply plainName_first|].
  apply noColonPair_app; [apply H|].
  cbn [append noColonPair isColon JS.startsWith].
  rewrite (noColon_noColonPair _ (ofZ_noColon l)). reflexivity.
Qed.

(** The symbols of a file keep its identifiers apart: plain names, and no
    two symbols with the same name on the same line. *)
Definition namesApart (l : list AdapterSymbol) : Prop :=
  Forall (fun a => plainName (a_name a)) l
  /\ NoDup (map (fun a => (a_name a, startLine a)) l).

(** The baseline extractors for TypeScript, JavaScript and Python, and the
    languages without extractor. *)
Lemma baseline_namesApart (E : Externals) (content filePath : string) :
  (forall c p, extractPythonSymbols E c p
               = PythonExtractor.extractPythonSymbols c p) ->
  detectLanguage filePath <> Rust -> detectLanguage filePath <> Go ->
  namesApart (extractSymbolsBaseline E content filePath).
Proof.
  intros Hpy Hrust Hgo. unfold extractSymbolsBaseline.
  assert (Hts : namesApart
                  (Typescript.extractTypescriptSymbols content filePath)).
  { unfold Typescript.extractTypescriptSymbols.
    destruct (scanLines_spec (JS.split "010"%char content)
                (JS.split "010"%char content) 0) as (_ & Hs & _ & Hf).
    split; [|now apply increasing_pairs]. revert Hf. apply Forall_impl.
    intros a (j & l & _ & _ & Hw). apply word_plainName.
    now apply wins_word in Hw. }
  assert (Hp : namesApart
                 (PythonExtractor.extractPythonSymbols content filePath)).
  { unfold PythonExtractor.extractPythonSymbols. cbv zeta.
    destruct (python_scanLines (JS.split "010"%char content)
                (JS.split "010"%char content) 0
                (PythonExtractor.mkContext None 0) ltac:(lia))
      as (Hs & _ & Hall); [intros c; discriminate|].
    cbv zeta in *. split; [|now apply increasing_pairs].
    revert Hall. apply Forall_impl. intros s (j & _ & _ & _ & Hname).
    now apply pythonName_plainName. }
  destruct (detectLanguage filePath); try exact Hts;
    try (now rewrite Hpy); try congruence; split; constructor.
Qed.

Lemma extractStep_distinct (E : Externals) (fs : FileSystem)
  (toIndex : list string) (done : list DiscoveredFile) (st : LoopState)
  (f : DiscoveredFile) :
  (forall content, namesApart (extractSymbolsBaseline E content (path f))) ->
  ~ In (path f) (map path done) ->
  distinctSoFar done st ->
  distinctSoFar (done ++ [f]) (extractStep E fs [] toIndex [] st f).
Proof.
  intros Hlang Hfresh (Hnd & Hmem & Hshape). unfold extractStep.
  replace (if negb (JS.arrayIncludes toIndex (path f))
           then map_get (@nil (string * list Symbol)) (path f) else None)
    with (@None (list Symbol)) by now destruct (negb _).
  rewrite extract_plain.
  destruct (readFileSync fs (absolutePath f)) as [content|].
  - unfold distinctSoFar. cbn [allSymbols existingIds x_symbols].
    destruct (Hlang content) as [Hw Hs].
    pose proof (toSymbols_distinct_pairs (path f) _
                  (Forall_impl _ (fun a H => proj1 H) Hw) Hs
                  (existingIds st)) as Hnew.
    pose proof (toSymbols_ids (path f)
                  (extractSymbolsBaseline E content (path f))
                  (existingIds st)) as Hids.
    destruct (toSymbols_grows (path f)
                (extractSymbolsBaseline E content (path f)) (existingIds st))
      as [Hold Hin].
    set (new := fst (toSymbols _ (path f) (existingIds st))) in *.
    assert (Htail : forall s, In s new ->
              exists t, plainTail t /\ symbol_id s = path f ++ "::" ++ t).
    { intros s Hs'. destruct (Hids s Hs') as (a & Ha & Hc).
      assert (Haw : plainName (a_name a))
        by (rewrite Forall_forall in Hw; now apply Hw).
      destruct Hc as [[Hbase _]|Hfall].
      - exists (a_name a). split; [now apply plainName_base | exact Hbase].
      - exists (a_name a ++ ":L" ++ JS.ofZ (startLine a)).
        split; [now apply plainName_fallback|].
        rewrite Hfall. reflexivity. }
    split; [|split].
    + rewrite map_app. apply NoDup_app; [exact Hnd | exact Hnew |].
      intros i Hi1 Hi2.
      apply in_map_iff in Hi1 as (s1 & <- & Hs1).
      apply in_map_iff in Hi2 as (s2 & E2 & Hs2).
      destruct (Hshape s1 Hs1) as (g & t1 & Hg & Ht1 & E1).
      destruct (Htail s2 Hs2) as (t2 & Ht2 & E3).
      apply Hfresh. apply in_map_iff. exists g. split; [|exact Hg].
      rewrite E2, E1 in E3. now apply path_of_id in E3.
    + intros s Hs'. apply in_app_iff in Hs' as [Hs'|Hs'];
        [apply Hold; now apply Hmem | now apply Hin].
    + intros s Hs'. apply in_app_iff in Hs' as [Hs'|Hs'].
      * destruct (Hshape s Hs') as (g & t & Hg & Ht & E1).
        exists g, t. split; [apply in_app_iff; now left|]. now split.
      * destruct (Htail s Hs') as (t & Ht & E1). exists f, t.
        split; [apply in_app_iff; right; now left|]. now split.
  - unfold distinctSoFar. cbn [allSymbols existingIds x_symbols].
    rewrite app_nil_r.
    split; [|split]; try assumption.
    intros s Hs'. destruct (Hshape s Hs') as (g & t & Hg & Ht & E1).
    exists g, t. split; [apply in_app_iff; now left|]. now split.
Qed.

Lemma extraction_distinct (E : Externals) (fs : FileSystem)
  (toIndex : list string) (fls : list DiscoveredFile) :
  forall done st,
    Forall (fun f => forall content,
              namesApart (extractSymbolsBaseline E content (path f))) fls ->
    NoDup (map path (done ++ fls)) ->
    distinctSoFar done st ->
    distinctSoFar (done ++ fls)
      (fold_left (extractStep E fs [] toIndex []) fls st).
Proof.
  induction fls as [|f fls IH]; intros done st Hl Hnd Hst; cbn [fold_left].
  - now rewrite app_nil_r.
  - inversion Hl as [|? ? Hf Hl']; subst.
    replace (done ++ f :: fls)%list with ((done ++ [f]) ++ fls)%list in *
      by now rewrite <- app_assoc.
    apply IH; [exact Hl' | exact Hnd |].
    apply extractStep_distinct; [exact Hf | | exact Hst].
    rewrite !map_app in Hnd. apply NoDup_app_remove_r in Hnd.
    cbn [map] in Hnd. apply NoDup_remove_2 in Hnd.
    now rewrite app_nil_r in Hnd.
Qed.

(** X29: A build without adapters that reuses nothing (no stored ledger, or
    [force], or a changed configuration) and whose discovered files have
    distinct paths, none of them a Rust or Go file, writes symbols with
    pairwise distinct identifiers, in [symbols.jsonl] as a whole, when its
    Python extractor is [extractPythonSymbols] of [python.ts]: the
    identifier of a baseline TypeScript, JavaScript or Python symbol
    determines its file, and within a file the identifiers differ. *)
Theorem full_build_ids_distinct (E : Externals) (options : IndexBuildOptions)
  (w : World) (previous : PreviousIndex) (r : IndexBuildResult)
  (a : Artifacts E) (ops : list FsOp) :
  opt_adapters options = [] ->
  isIncrementalOf options previous = false ->
  NoDup (map path (files (discovery w))) ->
  (forall content filePath,
     extractPythonSymbols E content filePath
     = PythonExtractor.extractPythonSymbols content filePath) ->
  (forall f, In f (files (discovery w)) ->
     detectLanguage (path f) <> Rust /\ detectLanguage (path f) <> Go) ->
  buildIndex E options w previous = Resolved r (Some (a, ops)) ->
  NoDup (map symbol_id (art_symbols a)).
Proof.
  intros Hadapters Hinc Hnd Hpy Hlang Hrun.
  apply buildIndex_written in Hrun as (changes & _ & _ & -> & _).
  unfold extractionOf. rewrite Hadapters, Hinc.
  apply (extraction_distinct E (fsys w) _ (files (discovery w)) []).
  - apply Forall_forall. intros f Hf content.
    destruct (Hlang f Hf). now apply baseline_namesApart.
  - exact Hnd.
  - split; [constructor | split; intros s []].
Qed.

(** A repository with a TypeScript and a Python file that define the same
    names. *)
Definition mixedFiles : list DiscoveredFile :=
  [ mkFile "src/a.ts" "/repo/src/a.ts" 48 "2024-01-01T00:00:00.000Z";
    mkFile "src/a.py" "/repo/src/a.py" 40 "2024-01-02T00:00:00.000Z" ].

Definition mixedSystem : FileSystem :=
  mkFs (fun _ => None)
       (fun p => if String.eqb p "/repo/src/a.ts"
                 then Some (unlines ["export function f() {}";
                                     "export function f(x) {}"])
                 else if String.eqb p "/repo/src/a.py"
                 then Some (unlines ["def f():"; "    pass";
                                     "def f(x):"; "    pass"])
                 else None)
       (fun p => if String.eqb p "/repo/src/a.ts" then Some "aa"
                 else if String.eqb p "/repo/src/a.py" then Some "bb"
                 else None)
       (fun _ => "ENOENT").

Definition pythonHost : Externals :=
  mkExternals PythonExtractor.extractPythonSymbols (fun _ _ => [])
    (fun _ _ => []) unit
    (fun _ _ _ => tt) (fun _ => "{}") (fun _ => "{}") (fun _ => "{}")
    (fun _ => "{}") (fun s => symbol_id s).

Definition mixedWorld : World :=
  mkWorld true (Some "c0ffee") (mkDiscovery mixedFiles [] []) mixedSystem
    0 5 "2024-01-03T00:00:00.000Z" None
    (fun _ => false) (fun _ => false).

Lemma full_build_ids_distinct_witness :
  exists r a ops,
    buildIndex pythonHost (plainOptions true) mixedWorld staleIndex
    = Resolved r (Some (a, ops))
    /\ map symbol_id (art_symbols a)
       = ["src/a.ts::f"; "src/a.ts::f:L2"; "src/a.py::f"; "src/a.py::f:L3"]
    /\ NoDup (map symbol_id (art_symbols a)).
Proof.
  do 3 eexists. split; [reflexivity|].
  split; [vm_compute; reflexivity|].
  eapply (full_build_ids_distinct pythonHost (plainOptions true)
            mixedWorld staleIndex).
  - reflexivity.
  - reflexivity.
  - repeat constructor; simpl; intuition discriminate.
  - intros c p. reflexivity.
  - intros f [<-|[<-|[]]]; split; intros H; vm_compute in H; discriminate.
  - reflexivity.
Defined.

(* ------------------------------------------------------------------ *)
(** ** Build commands *)

Section BuildCommandsFacts.
Import Regex RegexFacts RegexShapes RegexSpans.

(** The name of a target: a letter or an underscore, then letters, digits,
    underscores and hyphens. *)
Definition isTargetName (t : string) : Prop :=
  exists a r, t = String a r /\ BuildCmds.isTargetStart a = true
              /\ allChars BuildCmds.isTargetChar r = true.

(** A line of the content starts with the name [t], white space and a
    colon. *)
Definition definesTarget (content t : string) : Prop :=
  exists sp rest,
    In (t ++ sp ++ ":" ++ rest) (JS.split "010"%char content)
    /\ allChars JS.isWhiteSpace sp = true.

Lemma target_sound (l : string) (mt : result) :
  exec false BuildCmds.targetPattern l = Some mt ->
  exists a r sp rest,
    l = String a r ++ sp ++ ":" ++ rest
    /\ BuildCmds.isTargetStart a = true
    /\ allChars BuildCmds.isTargetChar r = true
    /\ allChars JS.isWhiteSpace sp = true
    /\ PythonExtractor.groupOf 1 mt = String a r.
Proof.
  intros He. apply exec_sound in He as (u & w & v' & -> & Hm & _).
  unfold BuildCmds.targetPattern in Hm. cbn [seq] in Hm.
  cbn [matches] in Hm.
  destruct Hm as (p0 & c0 & (Hbol & -> & ->) & p1 & c1
                  & (c2 & (p3 & c3 & Hup & Hrun) & ->) & Htail).
  apply atBol_posOf in Hbol. subst u. cbn [append].
  assert (Hup' : matches false (Chr BuildCmds.isTargetStart)
                   (posOf "" (w ++ v')) [] p3 c3) by exact Hup.
  apply (matches_Chr false) in Hup' as (a & v1 & Hl & Ha & -> & ->).
  assert (Hrun' : matches false (Star true (Chr BuildCmds.isTargetChar))
                    (posOf ("" ++ String a "") v1) [] p1 c2) by exact Hrun.
  apply (matches_run false true) in Hrun' as (r & v2 & -> & Hr & -> & ->).
  destruct Htail as (p4 & c4 & Hsp & Hcolon).
  assert (Hsp' : matches false (Star true (Chr JS.isWhiteSpace))
                   (posOf (("" ++ String a "") ++ r) v2) 
                   [(1, JS.take
                            (idx (posOf (("" ++ String a "") ++ r) v2)
                             - idx (posOf "" (w ++ v')))
                            (rest (posOf "" (w ++ v'))))] p4 c4) by exact Hsp.
  apply (matches_run false true) in Hsp' as (sp & v3 & -> & Hws & -> & ->).
  assert (Hcolon' : matches false (chr ":"%char)
                      (posOf ((("" ++ String a "") ++ r) ++ sp) v3)
                      [(1, JS.take
                            (idx (posOf (("" ++ String a "") ++ r) (sp ++ v3))
                             - idx (posOf "" (w ++ v')))
                            (rest (posOf "" (w ++ v'))))]
                      (posOf ("" ++ w) v') (groups mt)) by exact Hcolon.
  apply (matches_chr false) in Hcolon' as (v4 & -> & _ & Hcaps).
  rewrite Hl in *. exists a, r, sp, v4. repeat split; try assumption.
  unfold PythonExtractor.groupOf, group. rewrite Hcaps.
  cbn [capture Nat.eqb].
  change (String a (r ++ sp ++ String ":" v4))
    with ((String a r) ++ (sp ++ String ":" v4)).
  change (("" ++ String a "") ++ r) with ("" ++ String a r).
  now rewrite take_span.
Qed.

Lemma targetChar_not_space (c : ascii) :
  JS.isWhiteSpace c = true \/ c = ":"%char ->
  BuildCmds.isTargetChar c = false.
Proof.
  intros [H| ->]; [|reflexivity].
  destruct c as [[] [] [] [] [] [] [] []]; vm_compute in H |- *;
    congruence.
Qed.

Lemma targetStart_char (c : ascii) :
  BuildCmds.isTargetStart c = true -> BuildCmds.isTargetChar c = true.
Proof.
  destruct c as [[] [] [] [] [] [] [] []]; vm_compute; congruence.
Qed.

Lemma target_stops (sp rest : string) :
  allChars JS.isWhiteSpace sp = true ->
  stops BuildCmds.isTargetChar (sp ++ ":" ++ rest).
Proof.
  destruct sp as [|c sp]; cbn [append stops allChars].
  - reflexivity.
  - intros H. apply andb_true_iff in H as [H _].
    apply targetChar_not_space. now left.
Qed.

Lemma target_complete (t sp rest : string) :
  isTargetName t -> allChars JS.isWhiteSpace sp = true ->
  exists mt,
    exec false BuildCmds.targetPattern (t ++ sp ++ ":" ++ rest) = Some mt
    /\ PythonExtractor.groupOf 1 mt = t.
Proof.
  intros (a & r & -> & Ha & Hr) Hsp.
  destruct (exec false BuildCmds.targetPattern
              (String a r ++ sp ++ ":" ++ rest)) as [mt|] eqn:He.
  - exists mt. split; [reflexivity|].
    destruct (target_sound _ _ He)
      as (a' & r' & sp' & rest' & E & Ha' & Hr' & Hsp' & ->).
    symmetry.
    apply (run_unique BuildCmds.isTargetChar (String a r) (String a' r')
             (sp ++ ":" ++ rest) (sp' ++ ":" ++ rest')).
    + cbn [allChars]. now rewrite (targetStart_char a Ha).
    + cbn [allChars]. now rewrite (targetStart_char a' Ha').
    + now apply target_stops.
    + now apply target_stops.
    + exact E.
  - exfalso. revert He.
    replace (String a r ++ sp ++ ":" ++ rest)
      with ("" ++ (String a r ++ (sp ++ ":")) ++ rest)
      by (cbn [append]; now rewrite !append_assoc).
    apply (spans_exec false _ "" (String a r ++ (sp ++ ":")) rest
             [(1, String a r)]).
    unfold BuildCmds.targetPattern. cbn [seq].
    eapply spans_Seq_first; [apply spans_Bol|].
    eapply spans_Seq.
    + apply spans_Grp.
      eapply (spans_Seq false _ _ "" (String a "") r).
      * now apply spans_Chr.
      * now apply spans_run.
    + eapply spans_Seq; [now apply spans_run | apply spans_chr].
Qed.

(** The set that the loop of [makefileTargets] collects. *)
Lemma targets_In (t : string) :
  forall (ls : list string) (acc : StringSet),
    In t (fold_left
            (fun targets line =>
               match exec false BuildCmds.targetPattern line with
               | Some mt => set_add targets (PythonExtractor.groupOf 1 mt)
               | None => targets
               end) ls acc)
    <-> In t acc
        \/ exists l mt, In l ls
                        /\ exec false BuildCmds.targetPattern l = Some mt
                        /\ PythonExtractor.groupOf 1 mt = t.
Proof.
  induction ls as [|l ls IH]; intros acc; cbn [fold_left].
  - split; [now left | now intros [H|(l & mt & [] & _)]].
  - rewrite IH.
    destruct (exec false BuildCmds.targetPattern l) as [mt|] eqn:Hf.
    + rewrite set_add_In. split.
      * intros [[H| ->]|(l' & mt' & Hl' & Hf')].
        -- now left.
        -- right. exists l, mt. split; [now left | now split].
        -- right. exists l', mt'. split; [now right | exact Hf'].
      * intros [H|(l' & mt' & [<-|Hl'] & Hf' & <-)].
        -- now left; left.
        -- left; right. congruence.
        -- right. now exists l', mt'.
    + split.
      * intros [H|(l' & mt' & Hl' & Hf')]; [now left|].
        right. exists l', mt'. split; [now right | exact Hf'].
      * intros [H|(l' & mt' & [<-|Hl'] & Hf' & <-)];
          [now left | congruence |].
        right. now exists l', mt'.
Qed.

Lemma makefileTargets_has (content t : string) :
  isTargetName t ->
  set_has (BuildCmds.makefileTargets content) t = true
  <-> definesTarget content t.
Proof.
  intros Ht. rewrite set_has_In. unfold BuildCmds.makefileTargets.
  rewrite targets_In. unfold definesTarget. split.
  - intros [[]|(l & mt & Hl & He & <-)].
    destruct (target_sound l mt He)
      as (a & r & sp & rest & -> & _ & _ & Hsp & ->).
    now exists sp, rest.
  - intros (sp & rest & Hl & Hsp). right.
    destruct (target_complete t sp rest Ht Hsp) as (mt & He & Hg).
    now exists (t ++ sp ++ ":" ++ rest), mt.
Qed.

End BuildCommandsFacts.

Section OtherManifests.

Variable pathExists : string -> bool.
Variable number : Type.
Variable isZeroOrNaN : number -> bool.
Variable JSONparse : string -> option (Json number).
Variable fs : FileSystem.

(** What the extractors other than that of the Makefile may answer. *)
Definition notFromMake (c : BuildCommands) : Prop :=
  (bc_test_fast c <> None -> bc_test_full c <> None)
  /\ ~ In (bc_build c) [Some "make build"; Some "make all"]
  /\ bc_test_fast c <> Some "make test"
  /\ ~ In (bc_test_full c)
         [Some "make test-all"; Some "make test-full"; Some "make test"].

Lemma notFromMake_fixed (b tf tl : string) :
  JS.startsWith b "make" = false -> JS.startsWith tf "make" = false ->
  JS.startsWith tl "make" = false ->
  notFromMake (mkBuildCommands (Some b) (Some tf) (Some tl)).
Proof.
  intros Hb Htf Htl. unfold notFromMake. cbn [bc_build bc_test_fast
    bc_test_full In].
  split; [discriminate|]. split; [|split].
  - intros [H|[H|[]]]; injection H as <-; discriminate.
  - intros H; injection H as ->; discriminate.
  - intros [H|[H|[H|[]]]]; injection H as <-; discriminate.
Qed.

Lemma package_notFromMake (repoRoot : string) (c : BuildCommands) :
  BuildCmds.extractFromPackageJson pathExists number isZeroOrNaN JSONparse fs
    repoRoot = Some c ->
  notFromMake c.
Proof.
  unfold BuildCmds.extractFromPackageJson.
  destruct (pathExists _); cbn [negb]; [|discriminate].
  destruct (readFileSync fs _) as [content|]; [|discriminate].
  destruct (JSONparse content) as [pkg|]; [|discriminate].
  assert (H : forall scripts,
             BuildCmds.orNull
               (mkBuildCommands
                  (if BuildCmds.hasScript number isZeroOrNaN scripts "build"
                   then Some "npm run build" else None)
                  (if BuildCmds.hasScript number isZeroOrNaN scripts "test"
                   then Some "npm test" else None)
                  (if BuildCmds.hasScript number isZeroOrNaN scripts
                        "test:full"
                   then Some "npm run test:full"
                   else if BuildCmds.hasScript number isZeroOrNaN scripts
                             "test:all"
                   then Some "npm run test:all"
                   else if BuildCmds.hasScript number isZeroOrNaN scripts
                             "test:ci"
                   then Some "npm run test:ci"
                   else if BuildCmds.hasScript number isZeroOrNaN scripts
                             "test"
                   then Some "npm test" else None)) = Some c ->
             notFromMake c).
  { intros scripts.
    destruct (BuildCmds.hasScript number isZeroOrNaN scripts "build"),
      (BuildCmds.hasScript number isZeroOrNaN scripts "test"),
      (BuildCmds.hasScript number isZeroOrNaN scripts "test:full"),
      (BuildCmds.hasScript number isZeroOrNaN scripts "test:all"),
      (BuildCmds.hasScript number isZeroOrNaN scripts "test:ci");
      cbn [BuildCmds.orNull]; intros [= <-];
      unfold notFromMake; cbn [bc_build bc_test_fast bc_test_full In];
      (split; [first [discriminate | intros E; now elim E]|]);
      (split; [|split]); try discriminate;
      intros E; repeat destruct E as [E|E]; try contradiction;
      discriminate. }
  destruct pkg; try discriminate; apply H.
Qed.

Lemma others_notFromMake (repoRoot : string) :
  notFromMake
    (BuildCmds.firstCommands
       [ BuildCmds.extractFromPackageJson pathExists number isZeroOrNaN
           JSONparse fs;
         BuildCmds.extractFromCargoToml pathExists;
         BuildCmds.extractFromPyprojectToml pathExists;
         BuildCmds.extractFromSetupPy pathExists;
         BuildCmds.extractFromGoMod pathExists ] repoRoot).
Proof.
  cbn [BuildCmds.firstCommands].
  destruct (BuildCmds.extractFromPackageJson _ _ _ _ _ _) as [c|] eqn:Hp.
  { exact (package_notFromMake repoRoot c Hp). }
  unfold BuildCmds.extractFromCargoToml, BuildCmds.extractFromPyprojectToml,
    BuildCmds.extractFromSetupPy, BuildCmds.extractFromGoMod.
  repeat match goal with
         | |- context [negb (pathExists ?p)] =>
             destruct (pathExists p); cbn [negb]
         end;
    try (apply notFromMake_fixed; reflexivity).
  unfold notFromMake; cbn [bc_build bc_test_fast bc_test_full In].
  split; [intros E; now elim E|]. split; [|split]; try discriminate;
    intros E; repeat destruct E as [E|E]; try contradiction; discriminate.
Qed.

End OtherManifests.

Lemma knownTargets :
  isTargetName "build" /\ isTargetName "all" /\ isTargetName "test"
  /\ isTargetName "test-all" /\ isTargetName "test-full".
Proof.
  repeat split;
    match goal with
    | |- isTargetName (String ?a ?r) => exists a, r; now repeat split
    end.
Qed.

(** X30: The build commands of a repository. A result that has a fast test
    command has a full test command. When the Makefile of the repository
    can be read, the result names [make build], [make all], [make test],
    [make test-all] or [make test-full] exactly when a line of the Makefile
    starts with that target, white space and a colon, where [build] goes
    before [all], and [test-all] before [test-full] before [test], whatever
    [package.json] and the other manifests hold. *)
Theorem build_commands (pathExists : string -> bool) (number : Type)
  (isZeroOrNaN : number -> bool) (JSONparse : string -> option (Json number))
  (fs : FileSystem) (repoRoot : string) :
  let r := BuildCmds.extractBuildCommands pathExists number isZeroOrNaN
             JSONparse fs repoRoot in
  (bc_test_fast r <> None -> bc_test_full r <> None)
  /\ forall content : string,
       pathExists (Path.join repoRoot "Makefile") = true ->
       readFileSync fs (Path.join repoRoot "Makefile") = Some content ->
       let has := definesTarget content in
       (bc_build r = Some "make build" <-> has "build")
       /\ (bc_build r = Some "make all" <-> ~ has "build" /\ has "all")
       /\ (bc_test_fast r = Some "make test" <-> has "test")
       /\ (bc_test_full r = Some "make test-all" <-> has "test-all")
       /\ (bc_test_full r = Some "make test-full"
           <-> ~ has "test-all" /\ has "test-full")
       /\ (bc_test_full r = Some "make test"
           <-> ~ has "test-all" /\ ~ has "test-full" /\ has "test").
Proof.
  intros r.
  pose proof (others_notFromMake pathExists number isZeroOrNaN JSONparse fs
                repoRoot) as Hrest.
  subst r. unfold BuildCmds.extractBuildCommands.
  cbn [BuildCmds.firstCommands].
  set (r' := BuildCmds.firstCommands _ repoRoot) in *.
  unfold BuildCmds.extractFromMakefile.
  destruct Hrest as (Hinv & Hnb & Hnf & Hnl). cbn [In] in Hnb, Hnl.
  assert (Hb1 : bc_build r' <> Some "make build") by intuition congruence.
  assert (Hb2 : bc_build r' <> Some "make all") by intuition congruence.
  assert (Hl1 : bc_test_full r' <> Some "make test-all")
    by intuition congruence.
  assert (Hl2 : bc_test_full r' <> Some "make test-full")
    by intuition congruence.
  assert (Hl3 : bc_test_full r' <> Some "make test") by intuition congruence.
  clear Hnb Hnl.
  split.
  - destruct (pathExists _); cbn [negb]; [|exact Hinv].
    destruct (readFileSync fs _) as [content|]; [|exact Hinv].
    destruct (set_has (BuildCmds.makefileTargets content) "build"),
      (set_has (BuildCmds.makefileTargets content) "all"),
      (set_has (BuildCmds.makefileTargets content) "test"),
      (set_has (BuildCmds.makefileTargets content) "test-all"),
      (set_has (BuildCmds.makefileTargets content) "test-full");
      cbn [BuildCmds.orNull bc_test_fast bc_test_full];
      first [exact Hinv | discriminate | intros E; now elim E].
  - intros content Hex Hread. rewrite Hex, Hread. cbn [negb].
    destruct knownTargets as (Kb & Ka & Kt & Kta & Ktf).
    rewrite <- (makefileTargets_has content "build" Kb),
      <- (makefileTargets_has content "all" Ka),
      <- (makefileTargets_has content "test" Kt),
      <- (makefileTargets_has content "test-all" Kta),
      <- (makefileTargets_has content "test-full" Ktf).
    destruct (set_has (BuildCmds.makefileTargets content) "build"),
      (set_has (BuildCmds.makefileTargets content) "all"),
      (set_has (BuildCmds.makefileTargets content) "test"),
      (set_has (BuildCmds.makefileTargets content) "test-all"),
      (set_has (BuildCmds.makefileTargets content) "test-full");
      cbn [BuildCmds.orNull bc_build bc_test_fast bc_test_full];
      intuition (discriminate || congruence).
Qed.

(** A repository with a Makefile and a [package.json]. *)
Definition makeContent : string :=
  unlines [ "CC = cc"; "all: build"; "build :"; "	$(CC) main.c";
            "test:"; "	./run-tests"; "# test-full:" ].

Definition makeExists (p : string) : bool :=
  JS.arrayIncludes ["/repo/Makefile"; "/repo/package.json"] p.

Definition makeFiles : FileSystem :=
  mkFs (fun _ => None)
    (fun p => if String.eqb p "/repo/Makefile" then Some makeContent
              else if String.eqb p "/repo/package.json" then Some "{}"
              else None)
    (fun _ => None) (fun _ => "ENOENT").

Definition makeParse (content : string) : option (Json Z) :=
  Some (JObject [("scripts", JObject [("build", JString "tsc");
                                      ("test:ci", JString "jest --ci")])]).

Lemma build_commands_witness :
  let r := BuildCmds.extractBuildCommands makeExists Z (Z.eqb 0) makeParse
             makeFiles "/repo" in
  bc_test_full r <> None
  /\ definesTarget makeContent "build"
  /\ (~ definesTarget makeContent "test-all"
      /\ ~ definesTarget makeContent "test-full"
      /\ definesTarget makeContent "test").
Proof.
  intros r.
  destruct (build_commands makeExists Z (Z.eqb 0) makeParse makeFiles
              "/repo") as [Hinv Hmake].
  destruct (Hmake makeContent eq_refl eq_refl)
    as (Hb & _ & _ & _ & _ & Ht).
  split; [|split].
  - apply Hinv. vm_compute. discriminate.
  - apply Hb. reflexivity.
  - apply Ht. reflexivity.
Defined.

Example extractBuildCommands_example :
  BuildCmds.extractBuildCommands makeExists Z (Z.eqb 0) makeParse makeFiles
    "/repo"
  = mkBuildCommands (Some "make build") (Some "make test") (Some "make test")
  /\ BuildCmds.extractBuildCommands
       (fun p => String.eqb p "/repo/package.json") Z (Z.eqb 0) makeParse
       makeFiles "/repo"
     = mkBuildCommands (Some "npm run build") None (Some "npm run test:ci").
Proof. split; vm_compute; reflexivity. Qed.
